(** * midivisuals: effect-instance pools, per-frame integration and the
      solar feature extractor

    A shallow embedding of the six visualizer layers
    ([src/visualizers/*.ts]) and of the helpers they use.

    Modelling conventions.
    - A JavaScript [number] is a real number ([R]): no rounding, no NaN,
      no infinities.  [Math.sin], [Math.cos], [Math.exp], [Math.sqrt]
      are the functions of the Standard Library's reals; [Math.floor] is
      [Zfloor]; [Math.min] and [Math.max] are [Rmin] and [Rmax].
    - [Math.random()] and [performance.now()] read the host: a [Host]
      carries one stream for each together with a cursor, and every call
      advances the cursor.  All layer functions run in the monad [M],
      which threads the host and can fail: [None] stands for the
      [TypeError] JavaScript throws on a property access on [undefined]
      (an array read out of range).
    - A literal such as [3.0] is written [3]: the same number.
    - Objects mutated in place ([THREE.Vector4], pool slots) become
      functional updates of the array that holds them ([<[i:=x]> l]).
    - Only the fields the pools and the feature extractor use are kept:
      meshes, materials, shaders and the resolution uniform are left out. *)

From Stdlib Require Import Reals Lra Lia ZArith.
From stdpp Require Import base option list sorting gmap.

Local Open Scope R_scope.

(** ** Numbers and comparisons *)

#[global] Instance Rlt_decision (a b : R) : Decision (a < b) := Rlt_dec a b.
#[global] Instance Rle_decision (a b : R) : Decision (a <= b) := Rle_dec a b.
#[global] Instance Rgt_decision (a b : R) : Decision (a > b) := Rgt_dec a b.
#[global] Instance Rge_decision (a b : R) : Decision (a >= b) := Rge_dec a b.
#[global] Instance Req_decision : EqDecision R := Req_dec_T.

(** [utils/helpers.ts] *)
Definition clamp (v a b : R) : R := Rmax a (Rmin b v).

(** [n % 12] on an integral note number: JavaScript's remainder truncates
    towards zero, as [Z.rem] does. *)
Definition noteToHue (n : Z) : R := IZR (Z.rem n 12) * 30.

Definition noteToX (n : R) (range : R) : R := n / range.

(** three.js [MathUtils]: [clamp(value, min, max)] and [lerp(x, y, t)]. *)
Module MathUtils.
Definition clamp (value min max : R) : R := Rmax min (Rmin max value).
Definition lerp (x y t : R) : R := (1 - t) * x + t * y.
End MathUtils.

(** ** The host: random numbers and the clock *)

Record Host : Type := mkHost {
  random_src : nat -> R;   (* successive results of Math.random() *)
  random_pos : nat;
  now_src : nat -> R;      (* successive results of performance.now() *)
  now_pos : nat
}.

Definition M (A : Type) : Type := Host -> option (A * Host).

#[global] Instance M_ret : MRet M := fun A a h => Some (a, h).
#[global] Instance M_bind : MBind M := fun A B f m h =>
  match m h with
  | Some (a, h') => f a h'
  | None => None
  end.

Definition throw {A : Type} : M A := fun _ => None.

Definition Math_random : M R := fun h =>
  Some (random_src h (random_pos h),
        mkHost (random_src h) (S (random_pos h)) (now_src h) (now_pos h)).

Definition performance_now : M R := fun h =>
  Some (now_src h (now_pos h),
        mkHost (random_src h) (random_pos h) (now_src h) (S (now_pos h))).

(** [arr[i]] followed by a property access: a [TypeError] out of range. *)
Definition index {A : Type} (arr : list A) (i : nat) : M A :=
  match arr !! i with
  | Some a => mret a
  | None => throw
  end.

(** [for (let i = i0; i < i0 + n; i++) body(i)] *)
Fixpoint for_loop {St : Type} (body : nat -> St -> M St) (i n : nat) (s : St) : M St :=
  match n with
  | O => mret s
  | S n' => s' ← body i s; for_loop body (S i) n' s'
  end.

Definition for_range {St : Type} (n : nat) (body : nat -> St -> M St) (s : St) : M St :=
  for_loop body 0 n s.

(** [arr.find(p)] returns a reference to the first element satisfying [p];
    the model returns its position, through which the caller mutates it. *)
Definition find_index {A : Type} (p : A -> bool) (arr : list A) : option nat :=
  fst <$> list_find (fun a => p a = true) arr.

(** ** THREE.Vector4 *)

Module Vector4.
Record t : Type := mk { x : R; y : R; z : R; w : R }.

(** [new THREE.Vector4()]: the constructor's defaults are (0, 0, 0, 1). *)
Definition new : t := mk 0 0 0 1.

Definition set (_ : t) (x' y' z' w' : R) : t := mk x' y' z' w'.
Definition copy (_ : t) (v : t) : t := mk (x v) (y v) (z v) (w v).
Definition multiplyScalar (v : t) (s : R) : t :=
  mk (x v * s) (y v * s) (z v * s) (w v * s).

Definition set_x (v : t) (a : R) : t := mk a (y v) (z v) (w v).
Definition set_y (v : t) (a : R) : t := mk (x v) a (z v) (w v).
Definition set_z (v : t) (a : R) : t := mk (x v) (y v) a (w v).
Definition set_w (v : t) (a : R) : t := mk (x v) (y v) (z v) a.
End Vector4.

(** ** Bubbles ([visualizers/bubbles.ts]) *)

Module Bubbles.
Definition MAX_BUBBLES : nat := 100.

Record BubbleData : Type := mkBubble {
  data : Vector4.t;       (* x, y, radius, hue *)
  velocity : Vector4.t;   (* vx, vy, initialRadius, life *)
  age : R;
  active : bool
}.

Record BubbleLayer : Type := mkLayer {
  u_time : R;
  u_bubbles : list Vector4.t;
  bubbles : list BubbleData
}.

Definition createBubblesLayer : BubbleLayer :=
  {| u_time := 0;
     u_bubbles := replicate MAX_BUBBLES (Vector4.mk 0 0 0 0);
     bubbles := replicate MAX_BUBBLES
                  (mkBubble Vector4.new Vector4.new 0 false) |}.

Definition onBubbleNoteOn (layer : BubbleLayer) (vel hue : R) : M BubbleLayer :=
  (* let bubble = layer.bubbles.find(b => !b.active);
     if (!bubble) bubble = layer.bubbles[0]; *)
  let slot := match find_index (fun b => negb (active b)) (bubbles layer) with
              | Some i => i
              | None => 0%nat
              end in
  r_life ← Math_random;
  let life := 3 + r_life * 3 in
  let initialRadius := 0.03 + (vel / 127) * 0.12 in
  bubble ← index (bubbles layer) slot;
  r_x ← Math_random;
  let data' := Vector4.set (data bubble) r_x (-0.1) 0 (hue / 360) in
  r_vx ← Math_random;
  r_vy ← Math_random;
  let velocity' := Vector4.set (velocity bubble)
                     ((r_vx - 0.5) * 0.05) (0.1 + r_vy * 0.08) initialRadius life in
  mret (mkLayer (u_time layer) (u_bubbles layer)
          (<[slot := mkBubble data' velocity' 0 true]> (bubbles layer))).

Definition onBubbleNoteOff (layer : BubbleLayer) (vel hue : R) : M BubbleLayer :=
  mret layer.

(** One iteration of the loop of [updateBubbles].  Every branch writes
    [u_bubbles[i]]; the model reads it once, before branching.  The
    quotient [bubble.age / bubble.velocity.w] is the real quotient, which
    stands for the quotient of the code when the lifespan
    [velocity.w] is not 0: a slot starts with [velocity.w = 1] and
    [onBubbleNoteOn] writes a lifespan of 3 or more, so no layer reached
    from [createBubblesLayer] divides by 0. *)
Definition updateBubbles_body (now deltaSeconds : R) (i : nat)
    (layer : BubbleLayer) : M BubbleLayer :=
  bubble ← index (bubbles layer) i;
  u ← index (u_bubbles layer) i;
  if negb (active bubble) then
    mret (mkLayer (u_time layer)
            (<[i := Vector4.set u 0 0 0 0]> (u_bubbles layer))
            (bubbles layer))
  else
    let d := data bubble in
    let v := velocity bubble in
    let x1 := Vector4.x d + Vector4.x v * deltaSeconds in
    let y1 := Vector4.y d + Vector4.y v * deltaSeconds in
    let x2 := x1 + sin (now * 1.5 + y1 * 15) * 0.0003 in
    let age1 := age bubble + deltaSeconds in
    let ageRatio := age1 / Vector4.w v in
    if decide (ageRatio > 1 \/ y1 > 1.1) then
      mret (mkLayer (u_time layer)
              (<[i := Vector4.set u 0 0 0 0]> (u_bubbles layer))
              (<[i := mkBubble (Vector4.mk x2 y1 (Vector4.z d) (Vector4.w d))
                               v age1 false]> (bubbles layer)))
    else
      let popInDuration := 0.1 in
      let scale :=
        if decide (ageRatio < popInDuration)
        then Vector4.z v * (ageRatio / popInDuration)
        else Vector4.z v * (1 - (ageRatio - popInDuration) / (1 - popInDuration)) in
      let z1 := Rmax 0 scale in
      mret (mkLayer (u_time layer)
              (<[i := Vector4.set u x2 y1 z1 (Vector4.w d)]> (u_bubbles layer))
              (<[i := mkBubble (Vector4.mk x2 y1 z1 (Vector4.w d))
                               v age1 true]> (bubbles layer))).

Definition updateBubbles (layer : BubbleLayer) (dt : R) : M BubbleLayer :=
  let now := u_time layer in
  let deltaSeconds := Rmin (dt / 1000) 0.05 in
  for_range MAX_BUBBLES (updateBubbles_body now deltaSeconds) layer.

(** The frame clock writes [u_time] before it calls [updateBubbles]. *)
Definition set_time (layer : BubbleLayer) (t : R) : BubbleLayer :=
  mkLayer t (u_bubbles layer) (bubbles layer).

Inductive Call : Type :=
| NoteOn (vel hue : R)
| NoteOff (vel hue : R)
| Update (dt : R)
| SetTime (t : R).

Definition call (layer : BubbleLayer) (c : Call) : M BubbleLayer :=
  match c with
  | NoteOn vel hue => onBubbleNoteOn layer vel hue
  | NoteOff vel hue => onBubbleNoteOff layer vel hue
  | Update dt => updateBubbles layer dt
  | SetTime t => mret (set_time layer t)
  end.

Definition wf (layer : BubbleLayer) : Prop :=
  length (bubbles layer) = MAX_BUBBLES /\ length (u_bubbles layer) = MAX_BUBBLES.
End Bubbles.

(** ** Plasma ([visualizers/plasma.ts]) *)

Module Plasma.
Definition MAX_PARTICLES : nat := 100.

Record PlasmaParticleData : Type := mkParticle {
  data : Vector4.t;       (* x, y, size, ageRatio *)
  velocity : Vector4.t;
  active : bool
}.

Record PlasmaLayer : Type := mkLayer {
  u_time : R;
  u_particles : list Vector4.t;
  particles : list PlasmaParticleData
}.

Definition createPlasmaLayer : PlasmaLayer :=
  {| u_time := 0;
     u_particles := replicate MAX_PARTICLES Vector4.new;
     particles := replicate MAX_PARTICLES (mkParticle Vector4.new Vector4.new false) |}.

Definition set_particles (layer : PlasmaLayer) (ps : list PlasmaParticleData) : PlasmaLayer :=
  mkLayer (u_time layer) (u_particles layer) ps.

(** [velocity.set(vx, vy, life, 1 / life)]: the third argument is the
    [z] component and the fourth is [w]. *)
Definition addHotspot (layer : PlasmaLayer) (xNorm vel : R) : M PlasmaLayer :=
  match find_index (fun p => negb (active p)) (particles layer) with
  | None => mret layer
  | Some i =>
      p ← index (particles layer) i;
      r_life ← Math_random;
      let life := 2.5 + r_life * 3 in
      let size := 0.1 + (vel / 127) * 0.1 in
      let data' := Vector4.set (data p) xNorm 0.1 size 0 in
      r_vx ← Math_random;
      r_vy ← Math_random;
      let velocity' := Vector4.set (velocity p)
                         ((r_vx - 0.5) * 0.05) (0.1 + r_vy * 0.1) life (1 / life) in
      mret (set_particles layer
              (<[i := mkParticle data' velocity' true]> (particles layer)))
  end.

Definition addSpark (layer : PlasmaLayer) (xNorm vel : R) : M PlasmaLayer :=
  match find_index (fun p => negb (active p)) (particles layer) with
  | None => mret layer
  | Some i =>
      p ← index (particles layer) i;
      r_life ← Math_random;
      let life := 0.6 + r_life * 0.8 in
      let size := 0.05 + (vel / 127) * 0.08 in
      r_speed ← Math_random;
      let speed := 0.2 + (vel / 127) * 0.3 + r_speed * 0.1 in
      r_angle ← Math_random;
      let angle := r_angle * PI * 2 in
      let data' := Vector4.set (data p) xNorm 0.5 size 0 in
      let velocity' := Vector4.set (velocity p)
                         (cos angle * speed) (sin angle * speed) life (1 / life) in
      mret (set_particles layer
              (<[i := mkParticle data' velocity' true]> (particles layer)))
  end.

(** [1 + Math.floor((vel / 127) * 2)], with the floor of the exact
    quotient.  The code floors the rounded quotient, which falls on the
    other side of an integer only when the exact quotient is within
    rounding distance of it; the count is then one of the two
    neighbours.  The same holds of [noteOff_count] below. *)
Definition noteOn_count (vel : R) : Z := (1 + Zfloor ((vel / 127) * 2))%Z.

Definition onPlasmaNoteOn (layer : PlasmaLayer) (xNorm vel : R) : M PlasmaLayer :=
  let count := noteOn_count vel in
  for_range (Z.to_nat count) (fun _ l => addHotspot l xNorm vel) layer.

Definition flareVel (vel heldMs : R) : R := Rmin 127 (vel + heldMs / 25).

Definition noteOff_count (vel heldMs : R) : Z :=
  (3 + Zfloor ((flareVel vel heldMs / 127) * 10))%Z.

Definition onPlasmaNoteOff (layer : PlasmaLayer) (xNorm vel heldMs : R) : M PlasmaLayer :=
  let flareVel := flareVel vel heldMs in
  let count := noteOff_count vel heldMs in
  for_range (Z.to_nat count) (fun _ l => addSpark l xNorm flareVel) layer.

(** One iteration of the loop of [updatePlasma].  Both branches write
    [u_particles[i]]; the model reads it once, before branching. *)
Definition updatePlasma_body (deltaSeconds : R) (i : nat)
    (layer : PlasmaLayer) : M PlasmaLayer :=
  p ← index (particles layer) i;
  u ← index (u_particles layer) i;
  if negb (active p) then
    mret (mkLayer (u_time layer)
            (<[i := Vector4.set_z u 0]> (u_particles layer))
            (particles layer))
  else
    let v1 := Vector4.set_y (velocity p) (Vector4.y (velocity p) - 0.25 * deltaSeconds) in
    r ← Math_random;
    let v2 := Vector4.set_x v1 (Vector4.x v1 + (r - 0.5) * 0.2 * deltaSeconds) in
    let v3 := Vector4.multiplyScalar v2 0.98 in
    let d1 := Vector4.set_x (data p) (Vector4.x (data p) + Vector4.x v3 * deltaSeconds) in
    let d2 := Vector4.set_y d1 (Vector4.y d1 + Vector4.y v3 * deltaSeconds) in
    let ageRatio := Vector4.w d2 + deltaSeconds * Vector4.z v3 in
    let d3 := Vector4.set_w d2 ageRatio in
    let p' := if decide (ageRatio > 1)
              then mkParticle (Vector4.set_z d3 0) v3 false
              else mkParticle d3 v3 true in
    mret (mkLayer (u_time layer)
            (<[i := Vector4.copy u (data p')]> (u_particles layer))
            (<[i := p']> (particles layer))).

Definition updatePlasma (layer : PlasmaLayer) (dt : R) : M PlasmaLayer :=
  t ← performance_now;
  let now := t / 1000 in
  let layer := mkLayer now (u_particles layer) (particles layer) in
  let deltaSeconds := Rmin (dt / 1000) 0.05 in
  for_range MAX_PARTICLES (updatePlasma_body deltaSeconds) layer.

Inductive Call : Type :=
| NoteOn (xNorm vel : R)
| NoteOff (xNorm vel heldMs : R)
| Update (dt : R).

Definition call (layer : PlasmaLayer) (c : Call) : M PlasmaLayer :=
  match c with
  | NoteOn xNorm vel => onPlasmaNoteOn layer xNorm vel
  | NoteOff xNorm vel heldMs => onPlasmaNoteOff layer xNorm vel heldMs
  | Update dt => updatePlasma layer dt
  end.

Definition wf (layer : PlasmaLayer) : Prop :=
  length (particles layer) = MAX_PARTICLES /\ length (u_particles layer) = MAX_PARTICLES.
End Plasma.

(** ** THREE.Color (only its three channels) *)

Module Color.
Record t : Type := mk { r : R; g : R; b : R }.
End Color.

(** ** Trees ([visualizers/trees.ts]) *)

Module Trees.
Definition MAX_SEEDS : nat := 20.

Record TreeSeed : Type := mkSeed {
  data : Vector4.t;        (* x, y, birthTime, velocity *)
  colorData : Vector4.t;   (* r, g, b, flashIntensity *)
  active : bool
}.

Record TreeLayer : Type := mkLayer {
  u_time : R;
  u_seeds : list Vector4.t;
  u_seed_colors : list Vector4.t;
  seeds : list TreeSeed
}.

Definition createTreesLayer : TreeLayer :=
  {| u_time := 0;
     u_seeds := replicate MAX_SEEDS Vector4.new;
     u_seed_colors := replicate MAX_SEEDS Vector4.new;
     seeds := replicate MAX_SEEDS (mkSeed Vector4.new Vector4.new false) |}.

Definition onTreeNoteOn (layer : TreeLayer) (note : Z) (vel : R) (color : Color.t)
    : M TreeLayer :=
  let slot := match find_index (fun s => negb (active s)) (seeds layer) with
              | Some i => i
              | None => 0%nat
              end in
  seed ← index (seeds layer) slot;
  r_y ← Math_random;
  let data' := Vector4.set (data seed)
                 (noteToX (IZR note) 127) r_y (u_time layer) (0.1 + (vel / 127) * 0.3) in
  let colorData' := Vector4.set (colorData seed)
                      (Color.r color) (Color.g color) (Color.b color) 1 in
  mret (mkLayer (u_time layer) (u_seeds layer) (u_seed_colors layer)
          (<[slot := mkSeed data' colorData' true]> (seeds layer))).

Definition onTreeNoteOff (layer : TreeLayer) (note : Z) (vel heldMs : R) : M TreeLayer :=
  mret layer.

(** One iteration of the loop of [updateTrees].  Both branches write
    [u_seeds[i]] and [u_seed_colors[i]]; the model reads them first. *)
Definition updateTrees_body (now deltaSeconds : R) (i : nat)
    (layer : TreeLayer) : M TreeLayer :=
  seed ← index (seeds layer) i;
  u ← index (u_seeds layer) i;
  uc ← index (u_seed_colors layer) i;
  if active seed then
    let c1 := Vector4.set_w (colorData seed)
                (Rmax 0 (Vector4.w (colorData seed) - deltaSeconds * 2)) in
    let seed' := if decide (now - Vector4.z (data seed) > 20)
                 then mkSeed (Vector4.set (data seed) 0 0 0 0) (Vector4.set c1 0 0 0 0) false
                 else mkSeed (data seed) c1 true in
    mret (mkLayer (u_time layer)
            (<[i := Vector4.copy u (data seed')]> (u_seeds layer))
            (<[i := Vector4.copy uc (colorData seed')]> (u_seed_colors layer))
            (<[i := seed']> (seeds layer)))
  else
    mret (mkLayer (u_time layer)
            (<[i := Vector4.set u 0 0 0 0]> (u_seeds layer))
            (<[i := Vector4.set uc 0 0 0 0]> (u_seed_colors layer))
            (seeds layer)).

Definition updateTrees (layer : TreeLayer) (dt : R) : M TreeLayer :=
  t ← performance_now;
  let now := t / 1000 in
  let layer := mkLayer now (u_seeds layer) (u_seed_colors layer) (seeds layer) in
  let deltaSeconds := Rmin (dt / 1000) 0.05 in
  for_range MAX_SEEDS (updateTrees_body now deltaSeconds) layer.

Inductive Call : Type :=
| NoteOn (note : Z) (vel : R) (color : Color.t)
| NoteOff (note : Z) (vel heldMs : R)
| Update (dt : R).

Definition call (layer : TreeLayer) (c : Call) : M TreeLayer :=
  match c with
  | NoteOn note vel color => onTreeNoteOn layer note vel color
  | NoteOff note vel heldMs => onTreeNoteOff layer note vel heldMs
  | Update dt => updateTrees layer dt
  end.

Definition wf (layer : TreeLayer) : Prop :=
  length (seeds layer) = MAX_SEEDS /\ length (u_seeds layer) = MAX_SEEDS
  /\ length (u_seed_colors layer) = MAX_SEEDS.
End Trees.

(** ** Ripple layers: the types shared by [waves.ts] and [water.ts] *)

Module Ripples.
Record Ripple : Type := mkRipple {
  x : R;
  y : R;
  strength : R;
  birth : R;
  hue : R
}.

Record WaveLayer : Type := mkLayer {
  u_time : R;
  u_ripples : list Vector4.t;
  u_ripple_count : nat;
  ripples : list Ripple
}.

Definition set_ripples (layer : WaveLayer) (rs : list Ripple) : WaveLayer :=
  mkLayer (u_time layer) (u_ripples layer) (u_ripple_count layer) rs.

(** The copy loop at the end of [updateWaves] and [updateWater]:
    [rippleUniforms[i].set(...)] for [i < numRipples]. *)
Definition marshal_body (record : Ripple -> Vector4.t -> Vector4.t) (i : nat)
    (layer : WaveLayer) : M WaveLayer :=
  r ← index (ripples layer) i;
  u ← index (u_ripples layer) i;
  mret (mkLayer (u_time layer) (<[i := record r u]> (u_ripples layer))
          (u_ripple_count layer) (ripples layer)).

Definition wf (layer : WaveLayer) : Prop :=
  (length (ripples layer) <= 30)%nat /\ length (u_ripples layer) = 32%nat.
End Ripples.

(** ** Waves ([visualizers/waves.ts]) *)

Module Waves.
Import Ripples.

Definition createWavesLayer : WaveLayer :=
  {| u_time := 0; u_ripples := replicate 32 Vector4.new;
     u_ripple_count := 0; ripples := [] |}.

Definition addWaveRipple (layer : WaveLayer) (xNorm vel : R) : M WaveLayer :=
  (* if (layer.ripples.length >= 30) layer.ripples.shift(); *)
  let rs := if decide (30 <= length (ripples layer))%nat
            then drop 1 (ripples layer) else ripples layer in
  r_y ← Math_random;
  t ← performance_now;
  mret (set_ripples layer
          (rs ++ [mkRipple xNorm (0.5 + (r_y - 0.5) * 0.5) ((vel / 127) * 0.15)
                           (t / 1000) 0])).

Definition onWaveNoteOn (layer : WaveLayer) (xNorm vel : R) : M WaveLayer :=
  addWaveRipple layer xNorm vel.

Definition noteOff_strength (vel heldMs : R) : R :=
  Rmin 127 (vel + Rmin 100 (heldMs / 15)).

Definition onWaveNoteOff (layer : WaveLayer) (xNorm vel heldMs : R) : M WaveLayer :=
  let strength := noteOff_strength vel heldMs in
  addWaveRipple layer xNorm (strength * 1.5).

Definition updateWaves (layer : WaveLayer) (dt : R) : M WaveLayer :=
  t ← performance_now;
  let now := t / 1000 in
  let rs := filter (fun r => now - birth r < 8) (ripples layer) in
  let numRipples := Nat.min (length rs) 32 in
  for_range numRipples
    (marshal_body (fun r u => Vector4.set u (x r) (y r) (strength r) (birth r)))
    (mkLayer now (u_ripples layer) numRipples rs).

Inductive Call : Type :=
| NoteOn (xNorm vel : R)
| NoteOff (xNorm vel heldMs : R)
| Update (dt : R).

Definition call (layer : WaveLayer) (c : Call) : M WaveLayer :=
  match c with
  | NoteOn xNorm vel => onWaveNoteOn layer xNorm vel
  | NoteOff xNorm vel heldMs => onWaveNoteOff layer xNorm vel heldMs
  | Update dt => updateWaves layer dt
  end.
End Waves.

(** ** Water ([visualizers/water.ts]) *)

Module Water.
Import Ripples.

Definition createWaterLayer : WaveLayer :=
  {| u_time := 0; u_ripples := replicate 32 Vector4.new;
     u_ripple_count := 0; ripples := [] |}.

(** The search loop of [addWaterRipple]: [oldest_ripple_index] is the
    loop state. *)
Definition oldest_body (rs : list Ripple) (i : nat) (oldest_ripple_index : nat) : M nat :=
  ri ← index rs i;
  ro ← index rs oldest_ripple_index;
  mret (if decide (birth ri < birth ro) then i else oldest_ripple_index).

Definition addWaterRipple (layer : WaveLayer) (xNorm vel hue : R) : M WaveLayer :=
  rs ← (if decide (30 <= length (ripples layer))%nat
        then
          oldest_ripple_index ← for_loop (oldest_body (ripples layer))
                                  1 (length (ripples layer) - 1) 0%nat;
          (* layer.ripples.splice(oldest_ripple_index, 1) *)
          mret (delete oldest_ripple_index (ripples layer))
        else mret (ripples layer));
  t ← performance_now;
  mret (set_ripples layer
          (rs ++ [mkRipple xNorm 0.5 ((vel / 127) * 0.5 + 0.1) (t / 1000) hue])).

Definition onWaterNoteOn (layer : WaveLayer) (xNorm vel hue : R) : M WaveLayer :=
  addWaterRipple layer xNorm vel hue.

Definition noteOff_strength (vel heldMs : R) : R :=
  Rmin 127 (vel + Rmin 80 (heldMs / 20)).

Definition onWaterNoteOff (layer : WaveLayer) (xNorm vel heldMs : R) : M WaveLayer :=
  let strength := noteOff_strength vel heldMs in
  r_hue ← Math_random;
  let hue := (r_hue * 360) / 360 in
  addWaterRipple layer xNorm (strength * 1.2) hue.

Definition updateWater (layer : WaveLayer) (dt : R) : M WaveLayer :=
  t ← performance_now;
  let now := t / 1000 in
  let rs := filter (fun r => now - birth r < 7) (ripples layer) in
  let numRipples := Nat.min (length rs) 32 in
  for_range numRipples
    (marshal_body (fun r u => Vector4.set u (x r) (hue r) (strength r) (birth r)))
    (mkLayer now (u_ripples layer) numRipples rs).

Inductive Call : Type :=
| NoteOn (xNorm vel hue : R)
| NoteOff (xNorm vel heldMs : R)
| Update (dt : R).

Definition call (layer : WaveLayer) (c : Call) : M WaveLayer :=
  match c with
  | NoteOn xNorm vel hue => onWaterNoteOn layer xNorm vel hue
  | NoteOff xNorm vel heldMs => onWaterNoteOff layer xNorm vel heldMs
  | Update dt => updateWater layer dt
  end.
End Water.

(** ** THREE.Vector2 *)

Module Vector2.
Record t : Type := mk { x : R; y : R }.

Definition length (v : t) : R := sqrt (x v * x v + y v * y v).
Definition multiplyScalar (v : t) (s : R) : t := mk (x v * s) (y v * s).
Definition divideScalar (v : t) (s : R) : t := multiplyScalar v (1 / s).
(** [this.divideScalar(this.length() || 1)] *)
Definition normalize (v : t) : t :=
  divideScalar v (if decide (length v = 0) then 1 else length v).
Definition setLength (v : t) (l : R) : t := multiplyScalar (normalize v) l.
Definition set (_ : t) (x' y' : R) : t := mk x' y'.
End Vector2.

(** [Math.pow(x, y)] for [x >= 0] and [y > 0]. *)
Definition Math_pow (x y : R) : R :=
  if decide (x = 0) then 0 else Rpower x y.

(** A JavaScript [Map<number, V>] with integral keys: the entries in
    insertion order. *)
Module JsMap.
Abbreviation t V := (list (Z * V)) (only parsing).

Fixpoint get {V : Type} (k : Z) (m : t V) : option V :=
  match m with
  | [] => None
  | (k', v) :: m' => if decide (k = k') then Some v else get k m'
  end.

(** [set] keeps the position of a key that is already present. *)
Fixpoint set {V : Type} (k : Z) (v : V) (m : t V) : t V :=
  match m with
  | [] => [(k, v)]
  | (k', v') :: m' =>
      if decide (k = k') then (k, v) :: m' else (k', v') :: set k v m'
  end.

Definition delete {V : Type} (k : Z) (m : t V) : t V :=
  filter (fun kv => kv.1 <> k) m.
End JsMap.

(** ** Solar ([visualizers/SolarLayer_WavesAutoNotes.ts]) *)

Module Solar.
Record SolarParticleData : Type := mkFlare {
  data : Vector4.t;       (* x, y, size, ageRatio *)
  velocity : Vector4.t;   (* vx, vy, life, invLife *)
  active : bool
}.

Module Wave.
Record t : Type := mk {
  data : Vector4.t;      (* x, y, radius, strength *)
  color : Vector4.t;     (* r, g, b, width *)
  speed : R;
  decay : R;
  active : bool
}.
End Wave.

Record HoldState : Type := mkHold {
  startMs : R;
  lastSpawnMs : R;
  origin : Vector2.t;
  color : Color.t
}.

Record State : Type := mkState {
  rotSpeed : R;
  emaEnergy : R;
  emaPitch : R;
  emaPitchVar : R;
  activeNotes : gset Z;
  holds : JsMap.t HoldState;
  lastNoteTs : R
}.

Record SolarLayer : Type := mkLayer {
  u_time : R;
  u_params : Vector4.t;      (* x=brightness, y=noiseScale, z=turbulence, w=corona *)
  u_rotation : R;
  u_flareBoost : R;
  u_flares : list Vector4.t;
  u_waves : list Vector4.t;      (* x, y, radius, strength *)
  u_waveColor : list Vector4.t;  (* r, g, b, width *)
  u_color : Vector2.t;
  flares : list SolarParticleData;
  waves : list Wave.t;
  state : State
}.

Definition MAX_FLARES : nat := 48.
Definition MAX_WAVES : nat := 96.

Definition set_flares (l : SolarLayer) (fs : list SolarParticleData) : SolarLayer :=
  mkLayer (u_time l) (u_params l) (u_rotation l) (u_flareBoost l) (u_flares l)
    (u_waves l) (u_waveColor l) (u_color l) fs (waves l) (state l).

Definition set_waves (l : SolarLayer) (ws : list Wave.t) : SolarLayer :=
  mkLayer (u_time l) (u_params l) (u_rotation l) (u_flareBoost l) (u_flares l)
    (u_waves l) (u_waveColor l) (u_color l) (flares l) ws (state l).

Definition set_state (l : SolarLayer) (s : State) : SolarLayer :=
  mkLayer (u_time l) (u_params l) (u_rotation l) (u_flareBoost l) (u_flares l)
    (u_waves l) (u_waveColor l) (u_color l) (flares l) (waves l) s.

Definition set_u_flareBoost (l : SolarLayer) (b : R) : SolarLayer :=
  mkLayer (u_time l) (u_params l) (u_rotation l) b (u_flares l)
    (u_waves l) (u_waveColor l) (u_color l) (flares l) (waves l) (state l).

Definition set_u_flares (l : SolarLayer) (us : list Vector4.t) : SolarLayer :=
  mkLayer (u_time l) (u_params l) (u_rotation l) (u_flareBoost l) us
    (u_waves l) (u_waveColor l) (u_color l) (flares l) (waves l) (state l).

Definition set_u_waves (l : SolarLayer) (us : list Vector4.t) : SolarLayer :=
  mkLayer (u_time l) (u_params l) (u_rotation l) (u_flareBoost l) (u_flares l)
    us (u_waveColor l) (u_color l) (flares l) (waves l) (state l).

Definition set_u_waveColor (l : SolarLayer) (us : list Vector4.t) : SolarLayer :=
  mkLayer (u_time l) (u_params l) (u_rotation l) (u_flareBoost l) (u_flares l)
    (u_waves l) us (u_color l) (flares l) (waves l) (state l).

Definition set_holds (s : State) (hs : JsMap.t HoldState) : State :=
  mkState (rotSpeed s) (emaEnergy s) (emaPitch s) (emaPitchVar s)
    (activeNotes s) hs (lastNoteTs s).

Definition set_activeNotes (s : State) (ns : gset Z) : State :=
  mkState (rotSpeed s) (emaEnergy s) (emaPitch s) (emaPitchVar s)
    ns (holds s) (lastNoteTs s).

(** The layer [createSolarLayer] returns when [performance.now()] reads [t]. *)
Definition initial (t : R) : SolarLayer :=
  {| u_time := 0;
     u_params := Vector4.mk 0.22 0.35 0.35 0.30;
     u_rotation := 0;
     u_flareBoost := 0;
     u_flares := replicate MAX_FLARES Vector4.new;
     u_waves := replicate MAX_WAVES Vector4.new;
     u_waveColor := replicate MAX_WAVES Vector4.new;
     u_color := Vector2.mk 0.8 0;
     flares := replicate MAX_FLARES (mkFlare Vector4.new Vector4.new false);
     waves := replicate MAX_WAVES (Wave.mk Vector4.new Vector4.new 0 0 false);
     state := {| rotSpeed := 0.04; emaEnergy := 0; emaPitch := 60;
                 emaPitchVar := 0; activeNotes := ∅; holds := [];
                 lastNoteTs := t |} |}.

Definition createSolarLayer : M SolarLayer :=
  t ← performance_now;
  mret (initial t).

(** *** Helpers *)

Definition noteToDiskXY (note : Z) : R * R :=
  let pc := IZR (Z.rem note 12) in
  let oct := IZR (Zfloor (IZR note / 12)) in
  let angle := (pc / 12) * PI * 2 in
  let lat := MathUtils.lerp (-0.7) 0.7 (MathUtils.clamp ((oct - 2) / 6) 0 1) in
  let r := cos lat in
  (cos angle * r, sin angle * r).

Definition spawnFlare (layer : SolarLayer) (x y size life : R) : M SolarLayer :=
  match find_index (fun f => negb (active f)) (flares layer) with
  | None => mret layer
  | Some i =>
      p ← index (flares layer) i;
      let v := Vector2.mk x y in
      let v := if decide (Vector2.length v > 0.98) then Vector2.setLength v 0.98 else v in
      let data' := Vector4.set (data p) (Vector2.x v) (Vector2.y v) size 0 in
      r_vx ← Math_random;
      r_vy ← Math_random;
      let velocity' := Vector4.set (velocity p)
                         ((r_vx - 0.5) * 0.08) ((r_vy - 0.5) * 0.08) life (1 / life) in
      mret (set_flares layer (<[i := mkFlare data' velocity' true]> (flares layer)))
  end.

Definition spawnWave (layer : SolarLayer) (origin : Vector2.t) (color : Color.t)
    (strength speed width decay : R) : M SolarLayer :=
  match find_index (fun wv => negb (Wave.active wv)) (waves layer) with
  | None => mret layer
  | Some i =>
      w ← index (waves layer) i;
      let data' := Vector4.set (Wave.data w) (Vector2.x origin) (Vector2.y origin) 0.02 strength in
      let color' := Vector4.set (Wave.color w)
                      (Color.r color) (Color.g color) (Color.b color) width in
      mret (set_waves layer (<[i := Wave.mk data' color' speed decay true]> (waves layer)))
  end.

(** *** Note events *)

Section WithColor.
(** [THREE.Color.setHSL], library code the pools do not depend on. *)
Variable setHSL : R -> R -> R -> Color.t.

Definition hsvToRgb (h s v : R) : Color.t := setHSL h s v.

Definition noteToColor (note : Z) : Color.t :=
  let n := MathUtils.clamp ((IZR note - 36) / (96 - 36)) 0 1 in
  let hue := MathUtils.lerp 0.05 0.62 (Math_pow n 1.2) in
  let sat := MathUtils.lerp 0.9 1 n in
  let val := 1 in
  hsvToRgb hue sat val.

Definition onSolarNoteOn (layer : SolarLayer) (midiNote : Z) (velocity0to127 : R)
    : M SolarLayer :=
  let vel := MathUtils.clamp velocity0to127 0 127 / 127 in
  let '(x, y) := noteToDiskXY midiNote in
  let origin := Vector2.mk x y in
  let tint := noteToColor midiNote in
  layer ← spawnFlare layer x y (0.08 + 0.22 * vel) (1.2 + 1.4 * vel);
  layer ← spawnWave layer origin tint (0.45 + 0.45 * vel) (0.45 + 0.35 * vel)
             (0.02 + 0.05 * vel) (0.55 + 0.35 * vel);
  t_start ← performance_now;
  t_last ← performance_now;
  let st := state layer in
  let st := set_activeNotes st ({[ midiNote ]} ∪ activeNotes st) in
  let st := set_holds st (JsMap.set midiNote (mkHold t_start t_last origin tint) (holds st)) in
  now ← performance_now;
  let dt := Rmax 1 (now - lastNoteTs st) in
  let rateBoost := MathUtils.clamp (300 / dt) 0 2 in
  let instantEnergy := vel * (1 + rateBoost) in
  let emaEnergy' := MathUtils.lerp (emaEnergy st) instantEnergy 0.35 in
  let α := 0.25 in
  let prevMean := emaPitch st in
  let newMean := prevMean + α * (IZR midiNote - prevMean) in
  let newVar := (1 - α) * (emaPitchVar st
                           + α * (IZR midiNote - prevMean) * (IZR midiNote - newMean)) in
  let st := mkState (rotSpeed st) emaEnergy' newMean newVar
              (activeNotes st) (holds st) now in
  mret (set_u_flareBoost (set_state layer st)
          (Rmin 1 (u_flareBoost layer + vel * 0.7))).
End WithColor.

Definition onSolarNoteOff (layer : SolarLayer) (midiNote : Z) : M SolarLayer :=
  layer ← match JsMap.get midiNote (holds (state layer)) with
          | Some hold =>
              t ← performance_now;
              let held := (t - startMs hold) / 1000 in
              let boost := MathUtils.clamp (held / 2.5) 0 1 in
              layer ← spawnWave layer (origin hold) (color hold)
                         (0.5 + 0.8 * boost) (0.55 + 0.5 * boost)
                         (0.03 + 0.06 * boost) (0.6 + 0.4 * boost);
              mret (set_state layer
                      (set_holds (state layer) (JsMap.delete midiNote (holds (state layer)))))
          | None => mret layer
          end;
  mret (set_state layer
          (set_activeNotes (state layer) (activeNotes (state layer) ∖ {[ midiNote ]}))).

(** *** Update *)

(** The callback of [layer.state.holds.forEach], on the [i]-th entry of
    the map (the callback adds and removes no key). *)
Definition hold_body (repeatMs : R) (i : nat) (layer : SolarLayer) : M SolarLayer :=
  entry ← index (holds (state layer)) i;
  let note := entry.1 in
  let h := entry.2 in
  t_elapsed ← performance_now;
  let elapsed := t_elapsed - lastSpawnMs h in
  t_held ← performance_now;
  let held := (t_held - startMs h) / 1000 in
  let factor := MathUtils.clamp (held / 3) 0 1 in
  if decide (elapsed >= repeatMs * (1 - 0.6 * factor)) then
    t_spawn ← performance_now;
    let h' := mkHold (startMs h) t_spawn (origin h) (color h) in
    let layer := set_state layer
                   (set_holds (state layer) (<[i := (note, h')]> (holds (state layer)))) in
    let strength := 0.35 + 0.5 * factor in
    let speed := 0.45 + 0.5 * factor in
    let width := 0.025 + 0.06 * factor in
    let decay := 0.55 + 0.4 * factor in
    spawnWave layer (origin h) (color h) strength speed width decay
  else mret layer.

(** One iteration of the flare loop. *)
Definition flare_body (dt : R) (i : nat) (layer : SolarLayer) : M SolarLayer :=
  f ← index (flares layer) i;
  if negb (active f) then
    u ← index (u_flares layer) i;
    mret (set_u_flares layer (<[i := Vector4.set_z u 0]> (u_flares layer)))
  else
    let v1 := Vector4.set_x (velocity f) (Vector4.x (velocity f) * 0.985) in
    let v2 := Vector4.set_y v1 (Vector4.y v1 * 0.985) in
    let d1 := Vector4.set_x (data f) (Vector4.x (data f) + Vector4.x v2 * dt) in
    let d2 := Vector4.set_y d1 (Vector4.y d1 + Vector4.y v2 * dt) in
    let age := Vector4.w d2 + Vector4.w v2 * dt in
    let d3 := Vector4.set_w d2 age in
    let f' := if decide (age >= 1)
              then mkFlare (Vector4.set_z d3 0) v2 false
              else mkFlare d3 v2 true in
    u ← index (u_flares layer) i;
    mret (set_u_flares (set_flares layer (<[i := f']> (flares layer)))
            (<[i := Vector4.copy u (data f')]> (u_flares layer))).

(** One iteration of the wave loop. *)
Definition wave_body (dt : R) (i : nat) (layer : SolarLayer) : M SolarLayer :=
  w ← index (waves layer) i;
  if negb (Wave.active w) then
    u ← index (u_waves layer) i;
    mret (set_u_waves layer (<[i := Vector4.set_w u 0]> (u_waves layer)))
  else
    let d1 := Vector4.set_z (Wave.data w) (Vector4.z (Wave.data w) + Wave.speed w * dt) in
    let c1 := Vector4.set_w (Wave.color w) (Rmin 0.12 (Vector4.w (Wave.color w) + 0.02 * dt)) in
    let d2 := Vector4.set_w d1 (Vector4.w d1 * exp (- Wave.decay w * dt)) in
    let w' := if decide (Vector4.w d2 < 0.02 \/ Vector4.z d2 > 2)
              then Wave.mk (Vector4.set_w d2 0) c1 (Wave.speed w) (Wave.decay w) false
              else Wave.mk d2 c1 (Wave.speed w) (Wave.decay w) true in
    u ← index (u_waves layer) i;
    uc ← index (u_waveColor layer) i;
    mret (set_u_waveColor
            (set_u_waves (set_waves layer (<[i := w']> (waves layer)))
               (<[i := Vector4.copy u (Wave.data w')]> (u_waves layer)))
            (<[i := Vector4.copy uc (Wave.color w')]> (u_waveColor layer))).

(** The music-to-visual mapping in the middle of [updateSolar]: the
    uniforms and the rotation speed derived from the statistics. *)
Definition derive (layer : SolarLayer) (dt : R) : SolarLayer :=
  let st := state layer in
  let energy := emaEnergy st in
  let highness := MathUtils.clamp ((emaPitch st - 48) / (84 - 48)) 0 1 in
  let spreadN := MathUtils.clamp (sqrt (Rmax 0 (emaPitchVar st)) / 8) 0 1 in
  let poly := INR (size (activeNotes st)) in
  let dir := if decide (highness < 0.5) then -1 else 1 in
  let rotSpeed' := dir * (0.02 + 0.20 * MathUtils.clamp (energy / 2) 0 1 + 0.10 * spreadN) in
  let brightness :=
    MathUtils.clamp (0.18 + 0.6 * (energy / 2) + 0.12 * MathUtils.clamp (poly / 6) 0 1) 0 1 in
  let noiseScale := MathUtils.clamp (0.22 + 0.70 * highness) 0 1 in
  let turbulence :=
    MathUtils.clamp
      (0.22 + 0.65 * (0.6 * spreadN + 0.4 * MathUtils.clamp (energy / 2) 0 1)) 0 1 in
  let corona :=
    MathUtils.clamp (0.18 + 0.70 * MathUtils.clamp (energy / 2) 0 1
                     + 0.12 * MathUtils.clamp (poly / 6) 0 1) 0 1 in
  let hueBias := MathUtils.clamp (0.55 + 0.35 * (1 - highness)) 0 1 in
  let coolBoost :=
    MathUtils.clamp
      (0.15 + 0.85 * (0.6 * highness + 0.4 * MathUtils.clamp (energy / 2) 0 1)) 0 1 in
  mkLayer (u_time layer)
    (Vector4.set (u_params layer) brightness noiseScale turbulence corona)
    (u_rotation layer + rotSpeed' * dt)
    (Rmax 0 (u_flareBoost layer - dt * 0.35))
    (u_flares layer) (u_waves layer) (u_waveColor layer)
    (Vector2.set (u_color layer) hueBias coolBoost)
    (flares layer) (waves layer)
    (mkState rotSpeed' (emaEnergy st) (emaPitch st) (emaPitchVar st)
       (activeNotes st) (holds st) (lastNoteTs st)).

Definition updateSolar (layer : SolarLayer) (dtMs : R) : M SolarLayer :=
  t ← performance_now;
  let now := t / 1000 in
  let layer := mkLayer now (u_params layer) (u_rotation layer) (u_flareBoost layer)
                 (u_flares layer) (u_waves layer) (u_waveColor layer) (u_color layer)
                 (flares layer) (waves layer) (state layer) in
  let dt := Rmin (dtMs / 1000) 0.05 in
  let repeatMs := 140 in
  layer ← for_range (length (holds (state layer))) (hold_body repeatMs) layer;
  let layer := derive layer dt in
  layer ← for_range MAX_FLARES (flare_body dt) layer;
  for_range MAX_WAVES (wave_body dt) layer.

Inductive Call : Type :=
| NoteOn (midiNote : Z) (velocity0to127 : R)
| NoteOff (midiNote : Z)
| Update (dtMs : R).

Definition call (setHSL : R -> R -> R -> Color.t) (layer : SolarLayer) (c : Call)
    : M SolarLayer :=
  match c with
  | NoteOn midiNote velocity0to127 => onSolarNoteOn setHSL layer midiNote velocity0to127
  | NoteOff midiNote => onSolarNoteOff layer midiNote
  | Update dtMs => updateSolar layer dtMs
  end.

Definition wf (layer : SolarLayer) : Prop :=
  length (flares layer) = MAX_FLARES /\ length (u_flares layer) = MAX_FLARES
  /\ length (waves layer) = MAX_WAVES /\ length (u_waves layer) = MAX_WAVES
  /\ length (u_waveColor layer) = MAX_WAVES.
End Solar.

(** A sequence of calls, applied left to right. *)
Fixpoint run {St C : Type} (call : St -> C -> M St) (cs : list C) (s : St) : M St :=
  match cs with
  | [] => mret s
  | c :: cs' => s' ← call s c; run call cs' s'
  end.

(** The number of live slots of a pool. *)
Definition count_active {A : Type} (active : A -> bool) (pool : list A) : nat :=
  length (filter (fun a => active a = true) pool).

(** ** Slot-level specifications

    What one iteration of each update loop does to the slot it visits,
    as a function of that slot alone; the loops are proved to apply it
    to every slot. *)

(** A loop that has visited the slots below [i]: they hold their target
    value, the others are as they were in [l0]. *)
Definition processed {B : Type} (i : nat) (target : nat -> option B) (l0 l : list B) : Prop :=
  length l = length l0 /\
  forall j : nat, l !! j = if decide (j < i)%nat then target j else l0 !! j.

Definition bubble_step (now deltaSeconds : R) (b : Bubbles.BubbleData) : Bubbles.BubbleData :=
  if negb (Bubbles.active b) then b
  else
    let d := Bubbles.data b in
    let v := Bubbles.velocity b in
    let y1 := Vector4.y d + Vector4.y v * deltaSeconds in
    let x2 := Vector4.x d + Vector4.x v * deltaSeconds
              + sin (now * 1.5 + y1 * 15) * 0.0003 in
    let age1 := Bubbles.age b + deltaSeconds in
    let ageRatio := age1 / Vector4.w v in
    if decide (ageRatio > 1 \/ y1 > 1.1)
    then Bubbles.mkBubble (Vector4.mk x2 y1 (Vector4.z d) (Vector4.w d)) v age1 false
    else
      let scale :=
        if decide (ageRatio < 0.1)
        then Vector4.z v * (ageRatio / 0.1)
        else Vector4.z v * (1 - (ageRatio - 0.1) / (1 - 0.1)) in
      Bubbles.mkBubble (Vector4.mk x2 y1 (Rmax 0 scale) (Vector4.w d)) v age1 true.

(** The record [updateBubbles] leaves in [u_bubbles] for a slot. *)
Definition bubble_record (b : Bubbles.BubbleData) : Vector4.t :=
  if Bubbles.active b then Bubbles.data b else Vector4.mk 0 0 0 0.

Definition plasma_step (deltaSeconds r : R) (p : Plasma.PlasmaParticleData)
    : Plasma.PlasmaParticleData :=
  if negb (Plasma.active p) then p
  else
    let v := Plasma.velocity p in
    let d := Plasma.data p in
    let v3 := Vector4.mk ((Vector4.x v + (r - 0.5) * 0.2 * deltaSeconds) * 0.98)
                         ((Vector4.y v - 0.25 * deltaSeconds) * 0.98)
                         (Vector4.z v * 0.98) (Vector4.w v * 0.98) in
    let ageRatio := Vector4.w d + deltaSeconds * Vector4.z v3 in
    let x1 := Vector4.x d + Vector4.x v3 * deltaSeconds in
    let y1 := Vector4.y d + Vector4.y v3 * deltaSeconds in
    if decide (ageRatio > 1)
    then Plasma.mkParticle (Vector4.mk x1 y1 0 ageRatio) v3 false
    else Plasma.mkParticle (Vector4.mk x1 y1 (Vector4.z d) ageRatio) v3 true.

(** The record [updatePlasma] leaves in [u_particles] for a slot that held
    [p] and whose uniform was [u]. *)
Definition plasma_record (deltaSeconds r : R) (p : Plasma.PlasmaParticleData)
    (u : Vector4.t) : Vector4.t :=
  if Plasma.active p then Plasma.data (plasma_step deltaSeconds r p)
  else Vector4.set_z u 0.

(** The host after [k] more calls of [Math.random()]. *)
Definition skip_random (k : nat) (h : Host) : Host :=
  mkHost (random_src h) (k + random_pos h) (now_src h) (now_pos h).

(** The host after one more call of [performance.now()]. *)
Definition tick (h : Host) : Host :=
  mkHost (random_src h) (random_pos h) (now_src h) (S (now_pos h)).

(** The draw [updatePlasma] uses for slot [j]: one draw per live slot,
    in slot order. *)
Definition plasma_draw (h : Host) (ps : list Plasma.PlasmaParticleData) (j : nat) : R :=
  random_src h (count_active Plasma.active (take j ps) + random_pos h).

Definition tree_step (now deltaSeconds : R) (s : Trees.TreeSeed) : Trees.TreeSeed :=
  if Trees.active s then
    let c := Trees.colorData s in
    let c1 := Vector4.mk (Vector4.x c) (Vector4.y c) (Vector4.z c)
                (Rmax 0 (Vector4.w c - deltaSeconds * 2)) in
    if decide (now - Vector4.z (Trees.data s) > 20)
    then Trees.mkSeed (Vector4.mk 0 0 0 0) (Vector4.mk 0 0 0 0) false
    else Trees.mkSeed (Trees.data s) c1 true
  else s.

(** The records [updateTrees] leaves in [u_seeds] and [u_seed_colors]. *)
Definition seed_record (s : Trees.TreeSeed) : Vector4.t :=
  if Trees.active s then Trees.data s else Vector4.mk 0 0 0 0.

Definition seed_color_record (s : Trees.TreeSeed) : Vector4.t :=
  if Trees.active s then Trees.colorData s else Vector4.mk 0 0 0 0.

(** The [k]-th next result of [Math.random()]. *)
Definition draw (h : Host) (k : nat) : R := random_src h (k + random_pos h).

(** The slot [onBubbleNoteOn] writes and the instance it writes there. *)
Definition bubble_slot (bs : list Bubbles.BubbleData) : nat :=
  match find_index (fun b => negb (Bubbles.active b)) bs with
  | Some i => i
  | None => 0%nat
  end.

Definition new_bubble (vel hue : R) (h : Host) : Bubbles.BubbleData :=
  Bubbles.mkBubble
    (Vector4.mk (draw h 1) (-0.1) 0 (hue / 360))
    (Vector4.mk ((draw h 2 - 0.5) * 0.05) (0.1 + draw h 3 * 0.08)
                (0.03 + (vel / 127) * 0.12) (3 + draw h 0 * 3))
    0 true.

Definition new_hotspot (xNorm vel : R) (h : Host) : Plasma.PlasmaParticleData :=
  let life := 2.5 + draw h 0 * 3 in
  Plasma.mkParticle
    (Vector4.mk xNorm 0.1 (0.1 + (vel / 127) * 0.1) 0)
    (Vector4.mk ((draw h 1 - 0.5) * 0.05) (0.1 + draw h 2 * 0.1) life (1 / life))
    true.

Definition new_spark (xNorm vel : R) (h : Host) : Plasma.PlasmaParticleData :=
  let life := 0.6 + draw h 0 * 0.8 in
  let speed := 0.2 + (vel / 127) * 0.3 + draw h 1 * 0.1 in
  let angle := draw h 2 * PI * 2 in
  Plasma.mkParticle
    (Vector4.mk xNorm 0.5 (0.05 + (vel / 127) * 0.08) 0)
    (Vector4.mk (cos angle * speed) (sin angle * speed) life (1 / life))
    true.

Definition flare_step (dt : R) (f : Solar.SolarParticleData) : Solar.SolarParticleData :=
  if negb (Solar.active f) then f
  else
    let v := Solar.velocity f in
    let d := Solar.data f in
    let v2 := Vector4.mk (Vector4.x v * 0.985) (Vector4.y v * 0.985)
                (Vector4.z v) (Vector4.w v) in
    let x1 := Vector4.x d + Vector4.x v2 * dt in
    let y1 := Vector4.y d + Vector4.y v2 * dt in
    let age := Vector4.w d + Vector4.w v2 * dt in
    if decide (age >= 1)
    then Solar.mkFlare (Vector4.mk x1 y1 0 age) v2 false
    else Solar.mkFlare (Vector4.mk x1 y1 (Vector4.z d) age) v2 true.

Definition flare_record (dt : R) (f : Solar.SolarParticleData) (u : Vector4.t) : Vector4.t :=
  if Solar.active f then Solar.data (flare_step dt f) else Vector4.set_z u 0.

Definition wave_step (dt : R) (w : Solar.Wave.t) : Solar.Wave.t :=
  if negb (Solar.Wave.active w) then w
  else
    let d := Solar.Wave.data w in
    let c := Solar.Wave.color w in
    let radius := Vector4.z d + Solar.Wave.speed w * dt in
    let c1 := Vector4.mk (Vector4.x c) (Vector4.y c) (Vector4.z c)
                (Rmin 0.12 (Vector4.w c + 0.02 * dt)) in
    let strength := Vector4.w d * exp (- Solar.Wave.decay w * dt) in
    if decide (strength < 0.02 \/ radius > 2)
    then Solar.Wave.mk (Vector4.mk (Vector4.x d) (Vector4.y d) radius 0) c1
           (Solar.Wave.speed w) (Solar.Wave.decay w) false
    else Solar.Wave.mk (Vector4.mk (Vector4.x d) (Vector4.y d) radius strength) c1
           (Solar.Wave.speed w) (Solar.Wave.decay w) true.

Definition wave_record (dt : R) (w : Solar.Wave.t) (u : Vector4.t) : Vector4.t :=
  if Solar.Wave.active w then Solar.Wave.data (wave_step dt w) else Vector4.set_w u 0.

Definition wave_color_record (dt : R) (w : Solar.Wave.t) (uc : Vector4.t) : Vector4.t :=
  if Solar.Wave.active w then Solar.Wave.color (wave_step dt w) else uc.

(** A solar layer whose flare pool, wave pool or hold table has been
    replaced, everything else kept. *)
Definition with_flares (l : Solar.SolarLayer) (fs : list Solar.SolarParticleData)
    (us : list Vector4.t) : Solar.SolarLayer :=
  Solar.set_u_flares (Solar.set_flares l fs) us.

Definition with_waves (l : Solar.SolarLayer) (ws : list Solar.Wave.t)
    (us ucs : list Vector4.t) : Solar.SolarLayer :=
  Solar.set_u_waveColor (Solar.set_u_waves (Solar.set_waves l ws) us) ucs.

Definition with_holds (l : Solar.SolarLayer) (ws : list Solar.Wave.t)
    (hs : JsMap.t Solar.HoldState) : Solar.SolarLayer :=
  Solar.set_state (Solar.set_waves l ws) (Solar.set_holds (Solar.state l) hs).

Definition new_flare (x y size life : R) (h : Host) : Solar.SolarParticleData :=
  let v := Vector2.mk x y in
  let v := if decide (Vector2.length v > 0.98) then Vector2.setLength v 0.98 else v in
  Solar.mkFlare (Vector4.mk (Vector2.x v) (Vector2.y v) size 0)
    (Vector4.mk ((draw h 0 - 0.5) * 0.08) ((draw h 1 - 0.5) * 0.08) life (1 / life))
    true.

Definition new_wave (origin : Vector2.t) (color : Color.t)
    (strength speed width decay : R) : Solar.Wave.t :=
  Solar.Wave.mk (Vector4.mk (Vector2.x origin) (Vector2.y origin) 0.02 strength)
    (Vector4.mk (Color.r color) (Color.g color) (Color.b color) width)
    speed decay true.

(** ** Bounds of the solar statistics and hosts used in examples *)

Definition unit_interval (v : R) : Prop := 0 <= v <= 1.

Definition solar_bounded (lo hi : R) (l : Solar.SolarLayer) : Prop :=
  0 <= Solar.emaEnergy (Solar.state l) <= 3
  /\ lo <= Solar.emaPitch (Solar.state l) <= hi
  /\ unit_interval (Vector4.x (Solar.u_params l))
  /\ unit_interval (Vector4.y (Solar.u_params l))
  /\ unit_interval (Vector4.z (Solar.u_params l))
  /\ unit_interval (Vector4.w (Solar.u_params l)).

(** The notes of the note-on calls lie in [[lo, hi]]. *)
Definition note_in (lo hi : R) (c : Solar.Call) : Prop :=
  match c with
  | Solar.NoteOn midiNote _ => lo <= IZR midiNote <= hi
  | _ => True
  end.

(** A host whose [Math.random()] always answers 1/2 and whose clock
    stands at 0. *)
Definition host_half : Host := mkHost (fun _ => 0.5) 0 (fun _ => 0) 0.

(** A solar layer whose 48 flare slots are all live, and a bubble layer
    whose 100 slots are all live, slot 0 holding the youngest bubble. *)
Definition full_flare_layer : Solar.SolarLayer :=
  Solar.set_flares (Solar.initial 0)
    (replicate Solar.MAX_FLARES
       (Solar.mkFlare (Vector4.mk 0 0 0.1 0) (Vector4.mk 0 0 2 0.5) true)).

Definition bubble_aged (age : R) : Bubbles.BubbleData :=
  Bubbles.mkBubble (Vector4.mk 0.5 0.5 0.1 0) (Vector4.mk 0 0.1 0.1 6) age true.

Definition full_bubble_layer : Bubbles.BubbleLayer :=
  Bubbles.mkLayer 0 (replicate Bubbles.MAX_BUBBLES (Vector4.mk 0 0 0 0))
    (bubble_aged 0 :: replicate 99 (bubble_aged 5)).

(** A bubble one step below the upper edge, and a bubble layer that
    holds it in slot 0, a young bubble in mid-screen in slot 1 and no
    other. *)
Definition leaving_bubble : Bubbles.BubbleData :=
  Bubbles.mkBubble (Vector4.mk 0.5 1.099 0.1 0) (Vector4.mk 0 0.1 0.1 6) 1 true.

Definition two_bubble_layer : Bubbles.BubbleLayer :=
  Bubbles.mkLayer 0 (replicate Bubbles.MAX_BUBBLES (Vector4.mk 0 0 0 0))
    (leaving_bubble :: bubble_aged 0
     :: replicate 98 (Bubbles.mkBubble Vector4.new Vector4.new 0 false)).

(** The plasma layer after a note-on of velocity 0 under [host_half]: one
    hotspot, in slot 0. *)
Definition hotspot_layer : Plasma.PlasmaLayer :=
  Plasma.set_particles Plasma.createPlasmaLayer
    (<[0%nat := new_hotspot 0.5 0 host_half]> (Plasma.particles Plasma.createPlasmaLayer)).

(** A host whose clock stands at [ms] milliseconds, and a host whose
    clock advances by one millisecond at every reading. *)
Definition host_at (ms : R) : Host := mkHost (fun _ => 0.5) 0 (fun _ => ms) 0.

Definition host_ticking : Host := mkHost (fun _ => 0.5) 0 (fun i => INR i) 0.

(** A tree layer with a seed born at 0 s in slot 0, a seed born at 25 s
    in slot 1 and no other. *)
Definition seed_born (t : R) : Trees.TreeSeed :=
  Trees.mkSeed (Vector4.mk 0.5 0.5 t 0.2) (Vector4.mk 1 1 1 1) true.

Definition two_seed_layer : Trees.TreeLayer :=
  Trees.mkLayer 25 (replicate Trees.MAX_SEEDS Vector4.new)
    (replicate Trees.MAX_SEEDS Vector4.new)
    (seed_born 0 :: seed_born 25
     :: replicate 18 (Trees.mkSeed Vector4.new Vector4.new false)).

(** A solar layer with one live wave, in slot 0, and note 60 held since
    the clock read 0. *)
Definition live_wave : Solar.Wave.t :=
  Solar.Wave.mk (Vector4.mk 0.5 0 0.5 0.5) (Vector4.mk 1 0 0 0.05) 0.6 0.7 true.

Definition held_layer : Solar.SolarLayer :=
  Solar.set_state
    (Solar.set_waves (Solar.initial 0)
       (live_wave :: replicate 95 (Solar.Wave.mk Vector4.new Vector4.new 0 0 false)))
    (Solar.mkState 0.04 0 60 0 {[ 60%Z ]}
       [(60%Z, Solar.mkHold 0 0 (Vector2.mk 0.5 0) (Color.mk 1 0 0))] 0).

(** [c] is [base + floor q] up to the rounding of the quotient [q]: when
    [q] is farther than [1e-9] from every integer, [c] is
    [base + floor q]; within that distance of an integer the rounded
    quotient can fall on either side of it, and [c] is one of the two
    neighbouring counts. *)
Definition floor_count (base q : R) (c : nat) : Prop :=
  base + q - 1 - 1e-9 < INR c <= base + q + 1e-9.

(** A spawn attempt that never overwrites: it fills the first free slot
    or leaves the pool alone. *)
Definition fills {A : Type} (act : A -> bool) (l l' : list A) : Prop :=
  length l' = length l /\
  count_active act l' = Nat.min (length l) (S (count_active act l)).

(** A solar layer whose [u_time] has been set. *)
Definition with_time (l : Solar.SolarLayer) (t : R) : Solar.SolarLayer :=
  Solar.mkLayer t (Solar.u_params l) (Solar.u_rotation l) (Solar.u_flareBoost l)
    (Solar.u_flares l) (Solar.u_waves l) (Solar.u_waveColor l) (Solar.u_color l)
    (Solar.flares l) (Solar.waves l) (Solar.state l).

(** ** Note table entries ([types.ts]) *)

Module NoteInfo.
Record t : Type := mk {
  onTime : R;
  velocity : Z;
  sustain : bool;
  color : Color.t
}.
End NoteInfo.

(** ** The visualizer component ([WebGLMidiVisualizer])

    The refs of the component are the fields of the state; a layer ref
    that is still [null] is [None].  [visible] holds the [mesh.visible]
    flag of each layer.  The handlers [onNoteOn] and [onNoteOff] are
    closures over [mode]: the mode is a parameter.  Of [animate] the
    model keeps what reaches the layers (the gradient texture is not
    part of the state; its code reads the clock once, which is kept). *)

Module App.
Inductive VisualizerMode : Type :=
| bubbles
| waves
| plasma
| trees
| solar
| water.

Definition mode_eqb (a b : VisualizerMode) : bool :=
  match a, b with
  | bubbles, bubbles | waves, waves | plasma, plasma
  | trees, trees | solar, solar | water, water => true
  | _, _ => false
  end.

Record t : Type := mk {
  bubblesLayer : option Bubbles.BubbleLayer;
  wavesLayer : option Ripples.WaveLayer;
  plasmaLayer : option Plasma.PlasmaLayer;
  treesLayer : option Trees.TreeLayer;
  solarLayer : option Solar.SolarLayer;
  waterLayer : option Ripples.WaveLayer;
  visible : VisualizerMode -> bool;
  activeNoteColors : gmap Z NoteInfo.t;
  lastTime : R
}.

Definition set_bubblesLayer (a : t) (l : option Bubbles.BubbleLayer) : t :=
  mk l (wavesLayer a) (plasmaLayer a) (treesLayer a) (solarLayer a) (waterLayer a)
    (visible a) (activeNoteColors a) (lastTime a).

Definition set_wavesLayer (a : t) (l : option Ripples.WaveLayer) : t :=
  mk (bubblesLayer a) l (plasmaLayer a) (treesLayer a) (solarLayer a) (waterLayer a)
    (visible a) (activeNoteColors a) (lastTime a).

Definition set_plasmaLayer (a : t) (l : option Plasma.PlasmaLayer) : t :=
  mk (bubblesLayer a) (wavesLayer a) l (treesLayer a) (solarLayer a) (waterLayer a)
    (visible a) (activeNoteColors a) (lastTime a).

Definition set_treesLayer (a : t) (l : option Trees.TreeLayer) : t :=
  mk (bubblesLayer a) (wavesLayer a) (plasmaLayer a) l (solarLayer a) (waterLayer a)
    (visible a) (activeNoteColors a) (lastTime a).

Definition set_solarLayer (a : t) (l : option Solar.SolarLayer) : t :=
  mk (bubblesLayer a) (wavesLayer a) (plasmaLayer a) (treesLayer a) l (waterLayer a)
    (visible a) (activeNoteColors a) (lastTime a).

Definition set_waterLayer (a : t) (l : option Ripples.WaveLayer) : t :=
  mk (bubblesLayer a) (wavesLayer a) (plasmaLayer a) (treesLayer a) (solarLayer a) l
    (visible a) (activeNoteColors a) (lastTime a).

Definition set_activeNoteColors (a : t) (ns : gmap Z NoteInfo.t) : t :=
  mk (bubblesLayer a) (wavesLayer a) (plasmaLayer a) (treesLayer a) (solarLayer a)
    (waterLayer a) (visible a) ns (lastTime a).

(** [ref.current && f(ref.current, ...)]: nothing happens on a [null] ref. *)
Definition on_layer {L : Type} (layer : option L) (f : L -> M L) : M (option L) :=
  match layer with
  | Some l => l' ← f l; mret (Some l')
  | None => mret None
  end.

Section WithColor.
Variable setHSL : R -> R -> R -> Color.t.

Definition onNoteOn (mode : VisualizerMode) (a : t) (note velocity : Z)
    (color : Color.t) : M t :=
  let x := noteToX (IZR note) 127 in
  let hue := noteToHue note in
  t0 ← performance_now;
  let a := set_activeNoteColors a
             (<[note := NoteInfo.mk t0 velocity true color]> (activeNoteColors a)) in
  match mode with
  | bubbles =>
      l ← on_layer (bubblesLayer a) (fun l => Bubbles.onBubbleNoteOn l (IZR velocity) hue);
      mret (set_bubblesLayer a l)
  | waves =>
      l ← on_layer (wavesLayer a) (fun l => Waves.onWaveNoteOn l x (IZR velocity));
      mret (set_wavesLayer a l)
  | plasma =>
      l ← on_layer (plasmaLayer a) (fun l => Plasma.onPlasmaNoteOn l x (IZR velocity));
      mret (set_plasmaLayer a l)
  | trees =>
      l ← on_layer (treesLayer a) (fun l => Trees.onTreeNoteOn l note (IZR velocity) color);
      mret (set_treesLayer a l)
  | solar =>
      l ← on_layer (solarLayer a) (fun l => Solar.onSolarNoteOn setHSL l note (IZR velocity));
      mret (set_solarLayer a l)
  | water =>
      l ← on_layer (waterLayer a) (fun l => Water.onWaterNoteOn l x (IZR velocity) hue);
      mret (set_waterLayer a l)
  end.
End WithColor.

Definition onNoteOff (mode : VisualizerMode) (a : t) (note velocity : Z) (heldMs : R)
    (color : Color.t) : M t :=
  let x := noteToX (IZR note) 127 in
  let hue := noteToHue note in
  let a := set_activeNoteColors a (delete note (activeNoteColors a)) in
  match mode with
  | bubbles =>
      l ← on_layer (bubblesLayer a) (fun l => Bubbles.onBubbleNoteOff l (IZR velocity) hue);
      mret (set_bubblesLayer a l)
  | waves =>
      l ← on_layer (wavesLayer a) (fun l => Waves.onWaveNoteOff l x (IZR velocity) heldMs);
      mret (set_wavesLayer a l)
  | plasma =>
      l ← on_layer (plasmaLayer a) (fun l => Plasma.onPlasmaNoteOff l x (IZR velocity) heldMs);
      mret (set_plasmaLayer a l)
  | trees =>
      l ← on_layer (treesLayer a) (fun l => Trees.onTreeNoteOff l note (IZR velocity) heldMs);
      mret (set_treesLayer a l)
  | solar =>
      l ← on_layer (solarLayer a) (fun l => Solar.onSolarNoteOff l note);
      mret (set_solarLayer a l)
  | water =>
      l ← on_layer (waterLayer a) (fun l => Water.onWaterNoteOff l x (IZR velocity) heldMs);
      mret (set_waterLayer a l)
  end.

(** The mount effect, when the container exists: the six layers in the
    order of the source, then [let lastTime = performance.now()].  A new
    [THREE.Mesh] is visible. *)
Definition createLayers : M t :=
  s ← Solar.createSolarLayer;
  t0 ← performance_now;
  mret (mk (Some Bubbles.createBubblesLayer) (Some Waves.createWavesLayer)
          (Some Plasma.createPlasmaLayer) (Some Trees.createTreesLayer)
          (Some s) (Some Water.createWaterLayer) (fun _ => true) ∅ t0).

Definition present (a : t) (m : VisualizerMode) : bool :=
  match m with
  | bubbles => bool_decide (is_Some (bubblesLayer a))
  | waves => bool_decide (is_Some (wavesLayer a))
  | plasma => bool_decide (is_Some (plasmaLayer a))
  | trees => bool_decide (is_Some (treesLayer a))
  | solar => bool_decide (is_Some (solarLayer a))
  | water => bool_decide (is_Some (waterLayer a))
  end.

(** The effect on [mode]:
    [if (layer.current) layer.current.mesh.visible = mode === "..."]. *)
Definition showMode (a : t) (mode : VisualizerMode) : t :=
  mk (bubblesLayer a) (wavesLayer a) (plasmaLayer a) (treesLayer a) (solarLayer a)
    (waterLayer a)
    (fun m => if present a m then mode_eqb mode m else visible a m)
    (activeNoteColors a) (lastTime a).

(** [if (layer?.mesh.visible) layer.uniforms.u_time.value = timeSeconds] *)
Definition stamp {L : Type} (shown : bool) (set_time : L -> R -> L) (timeSeconds : R)
    (layer : option L) : option L :=
  match layer with
  | Some l => Some (if shown then set_time l timeSeconds else l)
  | None => None
  end.

(** [if (layer.current?.mesh.visible) update(layer.current, dt)] *)
Definition refresh {L : Type} (shown : bool) (layer : option L) (update : L -> M L)
    : M (option L) :=
  if shown then on_layer layer update else mret layer.

Definition animate (a : t) (time : R) : M t :=
  let dt := time - lastTime a in
  now ← performance_now;
  let timeSeconds := time / 1000 in
  let shown := visible a in
  let b := stamp (shown bubbles) Bubbles.set_time timeSeconds (bubblesLayer a) in
  let w := stamp (shown waves)
             (fun l t => Ripples.mkLayer t (Ripples.u_ripples l) (Ripples.u_ripple_count l)
                           (Ripples.ripples l))
             timeSeconds (wavesLayer a) in
  let p := stamp (shown plasma)
             (fun l t => Plasma.mkLayer t (Plasma.u_particles l) (Plasma.particles l))
             timeSeconds (plasmaLayer a) in
  let tr := stamp (shown trees)
              (fun l t => Trees.mkLayer t (Trees.u_seeds l) (Trees.u_seed_colors l)
                            (Trees.seeds l))
              timeSeconds (treesLayer a) in
  let s := stamp (shown solar)
             (fun l t => Solar.mkLayer t (Solar.u_params l) (Solar.u_rotation l)
                           (Solar.u_flareBoost l) (Solar.u_flares l) (Solar.u_waves l)
                           (Solar.u_waveColor l) (Solar.u_color l) (Solar.flares l)
                           (Solar.waves l) (Solar.state l))
             timeSeconds (solarLayer a) in
  let wa := stamp (shown water)
              (fun l t => Ripples.mkLayer t (Ripples.u_ripples l) (Ripples.u_ripple_count l)
                            (Ripples.ripples l))
              timeSeconds (waterLayer a) in
  b ← refresh (shown bubbles) b (fun l => Bubbles.updateBubbles l dt);
  w ← refresh (shown waves) w (fun l => Waves.updateWaves l dt);
  p ← refresh (shown plasma) p (fun l => Plasma.updatePlasma l dt);
  tr ← refresh (shown trees) tr (fun l => Trees.updateTrees l dt);
  s ← refresh (shown solar) s (fun l => Solar.updateSolar l timeSeconds);
  wa ← refresh (shown water) wa (fun l => Water.updateWater l dt);
  mret (mk b w p tr s wa (visible a) (activeNoteColors a) time).
End App.

(** ** The MIDI hook ([hooks/useMidi.ts])

    [onMIDIMessage] on a three-byte message.  The callbacks act on the
    state of their owner; [forwardToDAW] and the presence of the selected
    output are what the closure captured; [sent] logs what [out.send]
    was given. *)

Module Midi.
Record State (St : Type) : Type := mk {
  notesRef : gmap Z NoteInfo.t;
  sent : list (list Z);
  app : St
}.
Arguments mk {St}.
Arguments notesRef {St}.
Arguments sent {St}.
Arguments app {St}.

Section Handler.
Context {St : Type}.
Variable setHSL : R -> R -> R -> Color.t.
Variable onNoteOn : St -> Z -> Z -> Color.t -> M St.
Variable onNoteOff : St -> Z -> Z -> R -> Color.t -> M St.
Variable forwardToDAW : bool.
Variable out : bool.

(** [if (forwardToDAW) { const out = ...; out?.send(msg) }] *)
Definition forward (s : State St) (msg : list Z) : State St :=
  if forwardToDAW && out then mk (notesRef s) (sent s ++ [msg]) (app s) else s.

Definition onMIDIMessage (s : State St) (status d1 d2 : Z) : M (State St) :=
  let cmd := Z.land status 0xf0 in
  let note := d1 in
  let velocity := d2 in
  if decide (cmd = 0x90%Z /\ (0 < velocity)%Z) then
    let color := setHSL (noteToHue note / 360) 1 0.6 in
    t ← performance_now;
    let notes := <[note := NoteInfo.mk t velocity true color]> (notesRef s) in
    a ← onNoteOn (app s) note velocity color;
    mret (forward (mk notes (sent s) a) [0x90%Z; note; velocity])
  else if decide (cmd = 0x80%Z \/ (cmd = 0x90%Z /\ velocity = 0%Z)) then
    s ← match notesRef s !! note with
        | Some info =>
            (* info.sustain = false: the entry is deleted below and the
               callback is not given the entry *)
            t ← performance_now;
            let heldDuration := t - NoteInfo.onTime info in
            a ← onNoteOff (app s) note velocity heldDuration (NoteInfo.color info);
            mret (mk (delete note (notesRef s)) (sent s) a)
        | None => mret s
        end;
    mret (forward s [0x80%Z; note; velocity])
  else mret s.
End Handler.
End Midi.

(** ** Vocabulary of the further properties *)

(** [k] is the position of the first ripple of least [birth]. *)
Definition first_oldest (rs : list Ripples.Ripple) (k : nat) : Prop :=
  exists rk, rs !! k = Some rk
    /\ (forall j r, rs !! j = Some r -> Ripples.birth rk <= Ripples.birth r)
    /\ (forall j r, (j < k)%nat -> rs !! j = Some r -> Ripples.birth rk < Ripples.birth r).

Definition by_birth (a b : Ripples.Ripple) : Prop := Ripples.birth a <= Ripples.birth b.

(** [performance.now()] never goes back. *)
Definition monotone_clock (h : Host) : Prop :=
  forall i j : nat, (i <= j)%nat -> now_src h i <= now_src h j.

(** [Math.random()] answers in [[0, 1)]. *)
Definition unit_random (h : Host) : Prop :=
  forall i : nat, 0 <= random_src h i < 1.

(** The ripples are in birth order and none was born after the next
    clock reading. *)
Definition ripples_in_order (l : Ripples.WaveLayer) (h : Host) : Prop :=
  monotone_clock h
  /\ StronglySorted by_birth (Ripples.ripples l)
  /\ Forall (fun r => Ripples.birth r <= now_src h (now_pos h) / 1000) (Ripples.ripples l).

(** The calls a performance makes on the bubble layer: velocities in
    the MIDI range, frame times that are not negative. *)
Definition bubble_call_ok (c : Bubbles.Call) : Prop :=
  match c with
  | Bubbles.NoteOn vel _ => 0 <= vel <= 127
  | Bubbles.Update dt => 0 <= dt
  | _ => True
  end.

(** What holds of a live bubble.  The bounds are closed ones: a draw
    just below 1 gives, once rounded, the lifespan 6 and the upward
    speed 0.18 themselves. *)
Definition bubble_bounded (b : Bubbles.BubbleData) : Prop :=
  Bubbles.active b = true ->
  0 <= Vector4.z (Bubbles.data b) <= Vector4.z (Bubbles.velocity b)
  /\ 0.03 <= Vector4.z (Bubbles.velocity b) <= 0.15
  /\ 3 <= Vector4.w (Bubbles.velocity b) <= 6
  /\ 0 <= Bubbles.age b <= Vector4.w (Bubbles.velocity b)
  /\ 0.1 <= Vector4.y (Bubbles.velocity b) <= 0.18
  /\ -0.1 <= Vector4.y (Bubbles.data b) <= 1.1.

(** The calls a performance makes on the plasma layer. *)
Definition plasma_call_ok (c : Plasma.Call) : Prop :=
  match c with
  | Plasma.NoteOn _ vel => 0 <= vel <= 127
  | Plasma.NoteOff _ vel heldMs => 0 <= vel <= 127 /\ 0 <= heldMs
  | Plasma.Update dt => 0 <= dt
  end.

(** What holds of a live plasma particle, and of a record the shader
    does not skip. *)
Definition plasma_bounded (p : Plasma.PlasmaParticleData) : Prop :=
  Plasma.active p = true ->
  0.05 <= Vector4.z (Plasma.data p) <= 0.2
  /\ 0 <= Vector4.w (Plasma.data p) <= 1
  /\ 0 < Vector4.z (Plasma.velocity p).

Definition plasma_record_ok (u : Vector4.t) : Prop :=
  Vector4.z u = 0 \/ (0.05 <= Vector4.z u <= 0.2 /\ 0 <= Vector4.w u <= 1).

(** The calls a performance makes on the tree layer. *)
Definition tree_call_ok (c : Trees.Call) : Prop :=
  match c with
  | Trees.NoteOn note vel _ => (0 <= note <= 127)%Z /\ 0 <= vel <= 127
  | Trees.NoteOff _ _ _ => True
  | Trees.Update dt => 0 <= dt
  end.

(** What holds of a live seed. *)
Definition seed_bounded (s : Trees.TreeSeed) : Prop :=
  Trees.active s = true ->
  0 <= Vector4.x (Trees.data s) <= 1
  /\ 0 <= Vector4.y (Trees.data s) < 1
  /\ 0.1 <= Vector4.w (Trees.data s) <= 0.4
  /\ 0 <= Vector4.w (Trees.colorData s) <= 1.

(** Frame times that are not negative. *)
Definition solar_call_ok (c : Solar.Call) : Prop :=
  match c with
  | Solar.Update dtMs => 0 <= dtMs
  | _ => True
  end.

(** The notes that have an entry in [holds], in insertion order. *)
Definition hold_keys (l : Solar.SolarLayer) : list Z :=
  (Solar.holds (Solar.state l)).*1.

(** What happens in a session: a MIDI message reaches a handler that
    captured [mode], [forwardToDAW] and the presence of the output; an
    animation frame; the effect on [mode]. *)
Inductive Event : Type :=
| Message (mode : App.VisualizerMode) (forwardToDAW out : bool) (status d1 d2 : Z)
| Frame (time : R)
| ShowMode (mode : App.VisualizerMode).

Definition step (setHSL : R -> R -> R -> Color.t) (s : Midi.State App.t) (e : Event)
    : M (Midi.State App.t) :=
  match e with
  | Message mode forwardToDAW out status d1 d2 =>
      Midi.onMIDIMessage setHSL (App.onNoteOn setHSL mode) (App.onNoteOff mode)
        forwardToDAW out s status d1 d2
  | Frame time =>
      a ← App.animate (Midi.app s) time;
      mret (Midi.mk (Midi.notesRef s) (Midi.sent s) a)
  | ShowMode mode =>
      mret (Midi.mk (Midi.notesRef s) (Midi.sent s) (App.showMode (Midi.app s) mode))
  end.

(** The component after its mount effect, with empty note tables. *)
Definition mounted : M (Midi.State App.t) :=
  a ← App.createLayers;
  mret (Midi.mk ∅ [] a).

(** All six layers exist and have arrays of the fixed lengths. *)
Definition app_wf (a : App.t) : Prop :=
  (exists l, App.bubblesLayer a = Some l /\ Bubbles.wf l)
  /\ (exists l, App.wavesLayer a = Some l /\ Ripples.wf l)
  /\ (exists l, App.plasmaLayer a = Some l /\ Plasma.wf l)
  /\ (exists l, App.treesLayer a = Some l /\ Trees.wf l)
  /\ (exists l, App.solarLayer a = Some l /\ Solar.wf l)
  /\ (exists l, App.waterLayer a = Some l /\ Ripples.wf l).

(** The layer of mode [m] is the same in [a] and [a']. *)
Definition same_layer (m : App.VisualizerMode) (a a' : App.t) : Prop :=
  match m with
  | App.bubbles => App.bubblesLayer a' = App.bubblesLayer a
  | App.waves => App.wavesLayer a' = App.wavesLayer a
  | App.plasma => App.plasmaLayer a' = App.plasmaLayer a
  | App.trees => App.treesLayer a' = App.treesLayer a
  | App.solar => App.solarLayer a' = App.solarLayer a
  | App.water => App.waterLayer a' = App.waterLayer a
  end.

(** The hook's table and the component's table hold the same notes, with
    the same velocity and colour. *)
Definition tables_agree (s : Midi.State App.t) : Prop :=
  forall n : Z,
    match Midi.notesRef s !! n, App.activeNoteColors (Midi.app s) !! n with
    | Some i, Some j =>
        NoteInfo.velocity i = NoteInfo.velocity j /\ NoteInfo.color i = NoteInfo.color j
    | None, None => True
    | _, _ => False
    end.

(** A component with its six fresh layers, for examples. *)
Definition fresh_app : App.t :=
  App.mk (Some Bubbles.createBubblesLayer) (Some Waves.createWavesLayer)
    (Some Plasma.createPlasmaLayer) (Some Trees.createTreesLayer)
    (Some (Solar.initial 0)) (Some Water.createWaterLayer) (fun _ => true) ∅ 0.

(** Callbacks that do nothing, for examples. *)
Definition idle_on (_ : unit) (_ _ : Z) (_ : Color.t) : M unit := mret tt.
Definition idle_off (_ : unit) (_ _ : Z) (_ : R) (_ : Color.t) : M unit := mret tt.

(** [h'] is [h] after some more calls of [Math.random()] and
    [performance.now()]. *)
Definition host_le (h h' : Host) : Prop :=
  random_src h' = random_src h /\ now_src h' = now_src h
  /\ (random_pos h <= random_pos h')%nat /\ (now_pos h <= now_pos h')%nat.

(** A computation that only moves the host forward. *)
Definition advances {A : Type} (m : M A) : Prop :=
  forall h a h', m h = Some (a, h') -> host_le h h'.

(** The [onTime] of every entry is a reading the clock has given. *)
Definition times_read (ns : gmap Z NoteInfo.t) (h : Host) : Prop :=
  forall n info, ns !! n = Some info ->
    exists k, (k <= now_pos h)%nat /\ NoteInfo.onTime info = now_src h k.

(** ** General facts about the monad, loops and arrays *)

Lemma bind_Some {A B : Type} (m : M A) (f : A -> M B) (h : Host) a h' :
  m h = Some (a, h') -> (x ← m; f x) h = f a h'.
Proof. intros E. unfold mbind, M_bind. now rewrite E. Qed.

(** Reading the clock, reading a random number. *)
Lemma bind_now {B : Type} (f : R -> M B) (h : Host) :
  (t ← performance_now; f t) h = f (now_src h (now_pos h)) (tick h).
Proof. reflexivity. Qed.

Lemma bind_random {B : Type} (f : R -> M B) (h : Host) :
  (r ← Math_random; f r) h = f (draw h 0) (skip_random 1 h).
Proof. reflexivity. Qed.

Lemma index_Some {A : Type} (arr : list A) i a h :
  arr !! i = Some a -> index arr i h = Some (a, h).
Proof. intros E. unfold index. now rewrite E. Qed.

Lemma index_lt {A : Type} (arr : list A) (i : nat) h :
  (i < length arr)%nat -> exists a, arr !! i = Some a /\ index arr i h = Some (a, h).
Proof.
  intros Hi. destruct (lookup_lt_is_Some_2 arr i Hi) as [a Ha].
  exists a. split; [exact Ha | now apply index_Some].
Qed.

Lemma lookup_same_length {A B : Type} (l : list A) (l' : list B) j b :
  length l = length l' -> l' !! j = Some b -> exists a, l !! j = Some a.
Proof.
  intros Hlen Hb. apply lookup_lt_is_Some_2. rewrite Hlen.
  eapply lookup_lt_Some. exact Hb.
Qed.

(** Hoare rule for [for_loop]: an invariant indexed by the loop counter. *)
Lemma for_loop_inv {St : Type} (I : nat -> St -> Host -> Prop)
    (body : nat -> St -> M St) (n i : nat) (s : St) (h : Host) :
  I i s h ->
  (forall j s1 h1, (i <= j < i + n)%nat -> I j s1 h1 ->
     exists s2 h2, body j s1 h1 = Some (s2, h2) /\ I (S j) s2 h2) ->
  exists s' h', for_loop body i n s h = Some (s', h') /\ I (i + n)%nat s' h'.
Proof.
  revert i s h. induction n as [|n IH]; intros i s h Hi Hstep.
  - exists s, h. rewrite Nat.add_0_r. split; [reflexivity | exact Hi].
  - destruct (Hstep i s h ltac:(lia) Hi) as (s2 & h2 & E & Hi2).
    destruct (IH (S i) s2 h2 Hi2) as (s' & h' & E' & Hf).
    + intros j s1 h1 Hj. apply Hstep. lia.
    + exists s', h'. split.
      * simpl. rewrite (bind_Some _ _ _ _ _ E). exact E'.
      * replace (i + S n)%nat with (S i + n)%nat by lia. exact Hf.
Qed.

Lemma for_range_inv {St : Type} (I : nat -> St -> Host -> Prop)
    (body : nat -> St -> M St) (n : nat) (s : St) (h : Host) :
  I 0%nat s h ->
  (forall j s1 h1, (j < n)%nat -> I j s1 h1 ->
     exists s2 h2, body j s1 h1 = Some (s2, h2) /\ I (S j) s2 h2) ->
  exists s' h', for_range n body s h = Some (s', h') /\ I n s' h'.
Proof.
  intros H0 Hstep. unfold for_range.
  destruct (for_loop_inv I body n 0 s h H0) as (s' & h' & E & Hn).
  - intros j s1 h1 Hj. apply Hstep. lia.
  - now exists s', h'.
Qed.

Section Processed.
Context {B : Type}.
Implicit Types (l orig : list B) (target : nat -> option B).

Lemma processed_0 target orig : processed 0 target orig orig.
Proof. split; [reflexivity|]. intros j. case_decide; [lia | reflexivity]. Qed.

Lemma processed_lookup i target orig l :
  processed i target orig l -> l !! i = orig !! i.
Proof. intros [_ H]. rewrite H. case_decide; [lia | reflexivity]. Qed.

Lemma processed_insert i target orig l b :
  processed i target orig l -> (i < length orig)%nat -> target i = Some b ->
  processed (S i) target orig (<[i := b]> l).
Proof.
  intros [Hlen H] Hi Ht. split; [now rewrite length_insert|].
  intros j. destruct (decide (j = i)) as [->|Hne].
  - rewrite list_lookup_insert_eq by lia. case_decide; [now rewrite Ht | lia].
  - rewrite list_lookup_insert_ne by congruence. rewrite H.
    repeat case_decide; try reflexivity; lia.
Qed.


Lemma processed_all n target orig l j :
  processed n target orig l -> (j < n)%nat -> l !! j = target j.
Proof. intros [_ H] Hj. rewrite H. case_decide; [reflexivity | lia]. Qed.
End Processed.

(** ** Bubbles: the update loop applies [bubble_step] to every slot *)

Lemma updateBubbles_body_eq now ds i layer h b u :
  Bubbles.bubbles layer !! i = Some b ->
  Bubbles.u_bubbles layer !! i = Some u ->
  Bubbles.updateBubbles_body now ds i layer h =
    Some (Bubbles.mkLayer (Bubbles.u_time layer)
            (<[i := bubble_record (bubble_step now ds b)]> (Bubbles.u_bubbles layer))
            (<[i := bubble_step now ds b]> (Bubbles.bubbles layer)), h).
Proof.
  intros Hb Hu. unfold Bubbles.updateBubbles_body.
  rewrite (bind_Some _ _ _ _ _ (index_Some _ _ _ h Hb)).
  rewrite (bind_Some _ _ _ _ _ (index_Some _ _ _ h Hu)).
  unfold bubble_step, bubble_record.
  destruct (Bubbles.active b) eqn:Ea; simpl.
  - case_decide; simpl; reflexivity.
  - rewrite Ea. now rewrite (list_insert_id _ _ _ Hb).
Qed.

Lemma updateBubbles_spec layer dt h :
  Bubbles.wf layer ->
  exists layer',
    Bubbles.updateBubbles layer dt h = Some (layer', h)
    /\ Bubbles.wf layer'
    /\ Bubbles.u_time layer' = Bubbles.u_time layer
    /\ forall j b, Bubbles.bubbles layer !! j = Some b ->
         let b' := bubble_step (Bubbles.u_time layer) (Rmin (dt / 1000) 0.05) b in
         Bubbles.bubbles layer' !! j = Some b'
         /\ Bubbles.u_bubbles layer' !! j = Some (bubble_record b').
Proof.
  intros [Hlb Hlu]. unfold Bubbles.updateBubbles.
  set (now := Bubbles.u_time layer). set (ds := Rmin (dt / 1000) 0.05).
  set (tb := fun j => bubble_step now ds <$> Bubbles.bubbles layer !! j).
  set (tu := fun j => bubble_record <$> tb j).
  destruct (for_range_inv
    (fun i l h1 => h1 = h /\ Bubbles.u_time l = now
       /\ processed i tb (Bubbles.bubbles layer) (Bubbles.bubbles l)
       /\ processed i tu (Bubbles.u_bubbles layer) (Bubbles.u_bubbles l))
    (Bubbles.updateBubbles_body now ds) Bubbles.MAX_BUBBLES layer h)
    as (l' & h' & E & -> & Ht & Pb & Pu).
  - split; [reflexivity|]. split; [reflexivity|]. split; apply processed_0.
  - intros j l1 h1 Hj (-> & Ht & Pb & Pu).
    destruct (lookup_lt_is_Some_2 (Bubbles.bubbles layer) j) as [b Hb]; [lia|].
    destruct (lookup_lt_is_Some_2 (Bubbles.u_bubbles layer) j) as [u Hu]; [lia|].
    eexists _, _. split.
    + apply updateBubbles_body_eq with (u := u).
      * rewrite (processed_lookup _ _ _ _ Pb). exact Hb.
      * rewrite (processed_lookup _ _ _ _ Pu). exact Hu.
    + simpl. split; [reflexivity|]. split; [exact Ht|]. split.
      * apply processed_insert; [assumption | lia | unfold tb; now rewrite Hb].
      * apply processed_insert; [assumption | lia | unfold tu, tb; now rewrite Hb].
  - exists l'. split; [exact E|]. split.
    + destruct Pb as [Lb _], Pu as [Lu _]. split; congruence.
    + split; [exact Ht|]. intros j b Hb. simpl.
      assert (j < Bubbles.MAX_BUBBLES)%nat as Hj
        by (rewrite <- Hlb; eapply lookup_lt_Some; exact Hb).
      rewrite (processed_all _ _ _ _ _ Pb Hj), (processed_all _ _ _ _ _ Pu Hj).
      unfold tu, tb. rewrite Hb. split; reflexivity.
Qed.

(** ** Plasma: the update loop applies [plasma_step] to every slot *)

Lemma skip_random_0 h : skip_random 0 h = h.
Proof. now destruct h. Qed.

Lemma skip_random_add a b h : skip_random a (skip_random b h) = skip_random (a + b) h.
Proof. unfold skip_random. simpl. f_equal. lia. Qed.

Lemma count_active_take_S {A : Type} (act : A -> bool) (l : list A) i a :
  l !! i = Some a ->
  count_active act (take (S i) l) =
    (count_active act (take i l) + if act a then 1 else 0)%nat.
Proof.
  intros Ha. unfold count_active. rewrite (take_S_r _ _ _ Ha), filter_app, length_app.
  f_equal. destruct (act a) eqn:E.
  - now rewrite filter_cons_True.
  - rewrite filter_cons_False; [reflexivity | congruence].
Qed.

Lemma count_active_le {A : Type} (act : A -> bool) (l : list A) :
  (count_active act l <= length l)%nat.
Proof. unfold count_active. apply length_filter. Qed.

Lemma updatePlasma_body_eq ds i layer h p u :
  Plasma.particles layer !! i = Some p ->
  Plasma.u_particles layer !! i = Some u ->
  let r := random_src h (random_pos h) in
  Plasma.updatePlasma_body ds i layer h =
    Some (Plasma.mkLayer (Plasma.u_time layer)
            (<[i := plasma_record ds r p u]> (Plasma.u_particles layer))
            (<[i := plasma_step ds r p]> (Plasma.particles layer)),
          skip_random (if Plasma.active p then 1 else 0) h).
Proof.
  intros Hp Hu r. unfold Plasma.updatePlasma_body.
  rewrite (bind_Some _ _ _ _ _ (index_Some _ _ _ h Hp)).
  rewrite (bind_Some _ _ _ _ _ (index_Some _ _ _ h Hu)).
  unfold plasma_record, plasma_step.
  destruct (Plasma.active p) eqn:Ea; simpl.
  - case_decide; simpl; reflexivity.
  - rewrite skip_random_0. now rewrite (list_insert_id _ _ _ Hp).
Qed.

Lemma updatePlasma_spec layer dt h :
  Plasma.wf layer ->
  let ds := Rmin (dt / 1000) 0.05 in
  exists layer',
    Plasma.updatePlasma layer dt h =
      Some (layer', skip_random (count_active Plasma.active (Plasma.particles layer)) (tick h))
    /\ Plasma.wf layer'
    /\ Plasma.u_time layer' = now_src h (now_pos h) / 1000
    /\ forall j p u, Plasma.particles layer !! j = Some p ->
         Plasma.u_particles layer !! j = Some u ->
         let r := plasma_draw (tick h) (Plasma.particles layer) j in
         Plasma.particles layer' !! j = Some (plasma_step ds r p)
         /\ Plasma.u_particles layer' !! j = Some (plasma_record ds r p u).
Proof.
  intros [Hlp Hlu] ds. unfold Plasma.updatePlasma.
  rewrite (bind_now _ h).
  set (now := now_src h (now_pos h) / 1000).
  set (ps := Plasma.particles layer). set (us := Plasma.u_particles layer).
  fold ds.
  set (tp := fun j => plasma_step ds (plasma_draw (tick h) ps j) <$> ps !! j).
  set (tu := fun j => match ps !! j, us !! j with
                      | Some p, Some u => Some (plasma_record ds (plasma_draw (tick h) ps j) p u)
                      | _, _ => None
                      end).
  destruct (for_range_inv
    (fun i l h1 => h1 = skip_random (count_active Plasma.active (take i ps)) (tick h)
       /\ Plasma.u_time l = now
       /\ processed i tp ps (Plasma.particles l)
       /\ processed i tu us (Plasma.u_particles l))
    (Plasma.updatePlasma_body ds) Plasma.MAX_PARTICLES
    (Plasma.mkLayer now us ps) (tick h))
    as (l' & h' & E & Hh & Ht & Pp & Pu).
  - split; [now rewrite skip_random_0|]. split; [reflexivity|]. split; apply processed_0.
  - intros j l1 h1 Hj (-> & Ht & Pp & Pu).
    destruct (lookup_lt_is_Some_2 ps j) as [p Hp]; [unfold ps; lia|].
    destruct (lookup_lt_is_Some_2 us j) as [u Hu]; [unfold us; lia|].
    eexists _, _. split.
    + apply updatePlasma_body_eq with (p := p) (u := u).
      * rewrite (processed_lookup _ _ _ _ Pp). exact Hp.
      * rewrite (processed_lookup _ _ _ _ Pu). exact Hu.
    + simpl. split; [|split; [exact Ht|split]].
      * rewrite (count_active_take_S _ _ _ _ Hp), skip_random_add. f_equal. lia.
      * apply processed_insert; [assumption | unfold ps; lia |].
        unfold tp, plasma_draw. rewrite Hp. reflexivity.
      * apply processed_insert; [assumption | unfold us; lia |].
        unfold tu, plasma_draw. rewrite Hp, Hu. reflexivity.
  - exists l'. split.
    + rewrite E, Hh. do 3 f_equal. unfold ps. rewrite firstn_all2; [reflexivity | lia].
    + split; [destruct Pp as [Lp _], Pu as [Lu _]; split;
              [rewrite Lp | rewrite Lu]; assumption|].
      split; [exact Ht|]. intros j p u Hp Hu. simpl.
      assert (j < Plasma.MAX_PARTICLES)%nat as Hj
        by (rewrite <- Hlp; eapply lookup_lt_Some; exact Hp).
      rewrite (processed_all _ _ _ _ _ Pp Hj), (processed_all _ _ _ _ _ Pu Hj).
      unfold tu, tp. fold ps in Hp. fold us in Hu. rewrite Hp, Hu. split; reflexivity.
Qed.

(** ** Trees: the update loop applies [tree_step] to every slot *)

Lemma Vector4_copy_eq (u v : Vector4.t) : Vector4.copy u v = v.
Proof. now destruct v. Qed.

Lemma updateTrees_body_eq now ds i layer h s u uc :
  Trees.seeds layer !! i = Some s ->
  Trees.u_seeds layer !! i = Some u ->
  Trees.u_seed_colors layer !! i = Some uc ->
  Trees.updateTrees_body now ds i layer h =
    Some (Trees.mkLayer (Trees.u_time layer)
            (<[i := seed_record (tree_step now ds s)]> (Trees.u_seeds layer))
            (<[i := seed_color_record (tree_step now ds s)]> (Trees.u_seed_colors layer))
            (<[i := tree_step now ds s]> (Trees.seeds layer)), h).
Proof.
  intros Hs Hu Huc. unfold Trees.updateTrees_body.
  rewrite (bind_Some _ _ _ _ _ (index_Some _ _ _ h Hs)).
  rewrite (bind_Some _ _ _ _ _ (index_Some _ _ _ h Hu)).
  rewrite (bind_Some _ _ _ _ _ (index_Some _ _ _ h Huc)).
  unfold seed_record, seed_color_record, tree_step.
  destruct (Trees.active s) eqn:Ea; simpl.
  - case_decide; simpl; rewrite ?Vector4_copy_eq; reflexivity.
  - rewrite Ea. now rewrite (list_insert_id _ _ _ Hs).
Qed.

Lemma updateTrees_spec layer dt h :
  Trees.wf layer ->
  let now := now_src h (now_pos h) / 1000 in
  let ds := Rmin (dt / 1000) 0.05 in
  exists layer',
    Trees.updateTrees layer dt h = Some (layer', tick h)
    /\ Trees.wf layer'
    /\ Trees.u_time layer' = now
    /\ forall j s, Trees.seeds layer !! j = Some s ->
         Trees.seeds layer' !! j = Some (tree_step now ds s)
         /\ Trees.u_seeds layer' !! j = Some (seed_record (tree_step now ds s))
         /\ Trees.u_seed_colors layer' !! j = Some (seed_color_record (tree_step now ds s)).
Proof.
  intros (Hls & Hlu & Hlc) now ds. unfold Trees.updateTrees.
  rewrite (bind_now _ h).
  fold now ds.
  set (ss := Trees.seeds layer). set (us := Trees.u_seeds layer).
  set (cs := Trees.u_seed_colors layer).
  set (ts := fun j => tree_step now ds <$> ss !! j).
  set (tu := fun j => seed_record <$> ts j).
  set (tc := fun j => seed_color_record <$> ts j).
  destruct (for_range_inv
    (fun i l h1 => h1 = tick h /\ Trees.u_time l = now
       /\ processed i ts ss (Trees.seeds l)
       /\ processed i tu us (Trees.u_seeds l)
       /\ processed i tc cs (Trees.u_seed_colors l))
    (Trees.updateTrees_body now ds) Trees.MAX_SEEDS
    (Trees.mkLayer now us cs ss) (tick h))
    as (l' & h' & E & -> & Ht & Ps & Pu & Pc).
  - split; [reflexivity|]. split; [reflexivity|]. repeat split; apply processed_0.
  - intros j l1 h1 Hj (-> & Ht & Ps & Pu & Pc).
    destruct (lookup_lt_is_Some_2 ss j) as [s Hs]; [unfold ss; lia|].
    destruct (lookup_lt_is_Some_2 us j) as [u Hu]; [unfold us; lia|].
    destruct (lookup_lt_is_Some_2 cs j) as [uc Huc]; [unfold cs; lia|].
    eexists _, _. split.
    + apply updateTrees_body_eq with (s := s) (u := u) (uc := uc).
      * rewrite (processed_lookup _ _ _ _ Ps). exact Hs.
      * rewrite (processed_lookup _ _ _ _ Pu). exact Hu.
      * rewrite (processed_lookup _ _ _ _ Pc). exact Huc.
    + simpl. split; [reflexivity|]. split; [exact Ht|]. split; [|split].
      * apply processed_insert; [assumption | unfold ss; lia | unfold ts; now rewrite Hs].
      * apply processed_insert; [assumption | unfold us; lia | unfold tu, ts; now rewrite Hs].
      * apply processed_insert; [assumption | unfold cs; lia | unfold tc, ts; now rewrite Hs].
  - exists l'. split; [exact E|]. split.
    + destruct Ps as [Ls _], Pu as [Lu _], Pc as [Lc _].
      split; [rewrite Ls | split; [rewrite Lu | rewrite Lc]]; assumption.
    + split; [exact Ht|]. intros j s Hs.
      assert (j < Trees.MAX_SEEDS)%nat as Hj
        by (rewrite <- Hls; eapply lookup_lt_Some; exact Hs).
      rewrite (processed_all _ _ _ _ _ Ps Hj), (processed_all _ _ _ _ _ Pu Hj),
        (processed_all _ _ _ _ _ Pc Hj).
      unfold tc, tu, ts. fold ss in Hs. rewrite Hs. repeat split; reflexivity.
Qed.

(** ** Finding a free slot *)

Lemma find_index_Some {A : Type} (p : A -> bool) (l : list A) i :
  find_index p l = Some i ->
  exists a, l !! i = Some a /\ p a = true
            /\ forall j b, (j < i)%nat -> l !! j = Some b -> p b = false.
Proof.
  unfold find_index. destruct (list_find _ l) as [[k a]|] eqn:E; [|discriminate].
  simpl. intros [= <-]. apply list_find_Some in E as (Ha & Hp & Hlt).
  exists a. repeat split; try assumption.
  intros j b Hj Hb. specialize (Hlt j b Hb Hj). now destruct (p b).
Qed.

Lemma find_index_None {A : Type} (p : A -> bool) (l : list A) :
  find_index p l = None -> forall i a, l !! i = Some a -> p a = false.
Proof.
  unfold find_index. destruct (list_find _ l) as [[k a]|] eqn:E; [discriminate|].
  intros _ i a Ha. apply list_find_None in E.
  rewrite Forall_lookup in E. specialize (E i a Ha). now destruct (p a).
Qed.

Lemma find_index_is_None {A : Type} (p : A -> bool) (l : list A) :
  (forall i a, l !! i = Some a -> p a = false) -> find_index p l = None.
Proof.
  intros H. destruct (find_index p l) as [i|] eqn:E; [|reflexivity].
  apply find_index_Some in E as (a & Ha & Hp & _).
  rewrite (H i a Ha) in Hp. discriminate.
Qed.

Lemma find_index_lt {A : Type} (p : A -> bool) (l : list A) i :
  find_index p l = Some i -> (i < length l)%nat.
Proof.
  intros E. apply find_index_Some in E as (a & Ha & _).
  eapply lookup_lt_Some. exact Ha.
Qed.

Lemma count_active_insert_free {A : Type} (act : A -> bool) (l : list A) i a a' :
  l !! i = Some a -> act a = false -> act a' = true ->
  count_active act (<[i := a']> l) = S (count_active act l).
Proof.
  intros Ha Hf Ht. unfold count_active.
  rewrite insert_take_drop by (eapply lookup_lt_Some; exact Ha).
  rewrite <- (take_drop_middle l i a Ha) at 3.
  rewrite !filter_app, !length_app.
  rewrite filter_cons_True by exact Ht.
  rewrite filter_cons_False by congruence. simpl. lia.
Qed.

Lemma count_active_full {A : Type} (act : A -> bool) (l : list A) :
  find_index (fun a => negb (act a)) l = None -> count_active act l = length l.
Proof.
  intros E. unfold count_active. f_equal.
  induction l as [|a l IH]; [reflexivity|].
  assert (act a = true) as Ha.
  { pose proof (find_index_None _ _ E 0%nat a eq_refl) as H.
    simpl in H. now destruct (act a). }
  rewrite filter_cons_True by exact Ha. f_equal. apply IH.
  apply find_index_is_None. intros i b Hb.
  exact (find_index_None _ _ E (S i) b Hb).
Qed.

Lemma count_active_free {A : Type} (act : A -> bool) (l : list A) i :
  find_index (fun a => negb (act a)) l = Some i ->
  (count_active act l < length l)%nat.
Proof.
  intros E. apply find_index_Some in E as (a & Ha & Hp & _).
  assert (act a = false) as Hf by now destruct (act a).
  unfold count_active. rewrite <- (take_drop_middle l i a Ha).
  rewrite !filter_app, !length_app, filter_cons_False by congruence.
  pose proof (length_filter (fun a => act a = true) (take i l)).
  pose proof (length_filter (fun a => act a = true) (drop (S i) l)).
  simpl. lia.
Qed.

(** ** Bubbles: spawning *)

Lemma bubble_slot_lt bs : (0 < length bs)%nat -> (bubble_slot bs < length bs)%nat.
Proof.
  intros H. unfold bubble_slot.
  destruct (find_index _ bs) as [i|] eqn:E; [|exact H].
  eapply find_index_lt. exact E.
Qed.

Lemma onBubbleNoteOn_spec layer vel hue h :
  (0 < length (Bubbles.bubbles layer))%nat ->
  Bubbles.onBubbleNoteOn layer vel hue h =
    Some (Bubbles.mkLayer (Bubbles.u_time layer) (Bubbles.u_bubbles layer)
            (<[bubble_slot (Bubbles.bubbles layer) := new_bubble vel hue h]>
               (Bubbles.bubbles layer)),
          skip_random 4 h).
Proof.
  intros Hlen. unfold Bubbles.onBubbleNoteOn. fold (bubble_slot (Bubbles.bubbles layer)).
  destruct (lookup_lt_is_Some_2 _ _ (bubble_slot_lt _ Hlen)) as [b Hb].
  unfold mbind, M_bind, Math_random at 1. simpl.
  rewrite (index_Some _ _ _ _ Hb). reflexivity.
Qed.

(** Note-on (60, 100) on the fresh bubble layer: slot 0 becomes the one
    live slot, with hue 0 and initial radius [0.03 + (100 / 127) * 0.12]. *)
Example first_bubble :
  exists l h',
    Bubbles.onBubbleNoteOn Bubbles.createBubblesLayer 100 (noteToHue 60) host_half
      = Some (l, h')
    /\ Bubbles.bubbles l !! 0%nat = Some (new_bubble 100 (noteToHue 60) host_half)
    /\ count_active Bubbles.active (Bubbles.bubbles l) = 1%nat
    /\ Vector4.w (Bubbles.data (new_bubble 100 (noteToHue 60) host_half)) = 0
    /\ Vector4.z (Bubbles.velocity (new_bubble 100 (noteToHue 60) host_half))
       = 0.03 + (100 / 127) * 0.12.
Proof.
  eexists _, _. split; [apply onBubbleNoteOn_spec; simpl; lia|].
  split; [reflexivity|]. split; [reflexivity|]. split; [|reflexivity].
  unfold new_bubble, noteToHue. change (Z.rem 60 12) with 0%Z. simpl. lra.
Qed.

Lemma Bubbles_call_wf layer c h :
  Bubbles.wf layer ->
  exists layer' h', Bubbles.call layer c h = Some (layer', h') /\ Bubbles.wf layer'.
Proof.
  intros [Hb Hu]. destruct c as [vel hue|vel hue|dt|t]; simpl.
  - rewrite onBubbleNoteOn_spec by (rewrite Hb; unfold Bubbles.MAX_BUBBLES; lia).
    eexists _, _. split; [reflexivity|]. split; simpl; [now rewrite length_insert | exact Hu].
  - eexists _, _. split; [reflexivity|]. now split.
  - destruct (updateBubbles_spec layer dt h (conj Hb Hu)) as (l' & E & Hwf & _).
    now exists l', h.
  - eexists _, _. split; [reflexivity|]. now split.
Qed.

(** ** Plasma: spawning *)

Lemma addHotspot_spec layer xNorm vel h :
  Plasma.addHotspot layer xNorm vel h =
    match find_index (fun p => negb (Plasma.active p)) (Plasma.particles layer) with
    | None => Some (layer, h)
    | Some i => Some (Plasma.set_particles layer
                        (<[i := new_hotspot xNorm vel h]> (Plasma.particles layer)),
                      skip_random 3 h)
    end.
Proof.
  unfold Plasma.addHotspot.
  destruct (find_index _ _) as [i|] eqn:E; [|reflexivity].
  apply find_index_Some in E as (a & Ha & _).
  rewrite (bind_Some _ _ _ _ _ (index_Some _ _ _ h Ha)). reflexivity.
Qed.

Lemma addSpark_spec layer xNorm vel h :
  Plasma.addSpark layer xNorm vel h =
    match find_index (fun p => negb (Plasma.active p)) (Plasma.particles layer) with
    | None => Some (layer, h)
    | Some i => Some (Plasma.set_particles layer
                        (<[i := new_spark xNorm vel h]> (Plasma.particles layer)),
                      skip_random 3 h)
    end.
Proof.
  unfold Plasma.addSpark.
  destruct (find_index _ _) as [i|] eqn:E; [|reflexivity].
  apply find_index_Some in E as (a & Ha & _).
  rewrite (bind_Some _ _ _ _ _ (index_Some _ _ _ h Ha)). reflexivity.
Qed.


Lemma fills_insert {A : Type} (act : A -> bool) (l : list A) i a' :
  find_index (fun a => negb (act a)) l = Some i -> act a' = true ->
  fills act l (<[i := a']> l).
Proof.
  intros E Ht. pose proof (count_active_free _ _ _ E) as Hlt.
  apply find_index_Some in E as (a & Ha & Hp & _).
  split; [apply length_insert|].
  rewrite (count_active_insert_free act l i a a' Ha) by (now destruct (act a) || exact Ht).
  lia.
Qed.

Lemma fills_full {A : Type} (act : A -> bool) (l : list A) :
  find_index (fun a => negb (act a)) l = None -> fills act l l.
Proof.
  intros E. split; [reflexivity|]. rewrite (count_active_full _ _ E). lia.
Qed.

Lemma addHotspot_fills layer xNorm vel h :
  exists ps h', Plasma.addHotspot layer xNorm vel h = Some (Plasma.set_particles layer ps, h')
    /\ fills Plasma.active (Plasma.particles layer) ps.
Proof.
  rewrite addHotspot_spec. destruct (find_index _ _) as [i|] eqn:E.
  - eexists _, _. split; [reflexivity|]. now apply fills_insert.
  - exists (Plasma.particles layer), h. split; [now destruct layer|]. now apply fills_full.
Qed.

Lemma addSpark_fills layer xNorm vel h :
  exists ps h', Plasma.addSpark layer xNorm vel h = Some (Plasma.set_particles layer ps, h')
    /\ fills Plasma.active (Plasma.particles layer) ps.
Proof.
  rewrite addSpark_spec. destruct (find_index _ _) as [i|] eqn:E.
  - eexists _, _. split; [reflexivity|]. now apply fills_insert.
  - exists (Plasma.particles layer), h. split; [now destruct layer|]. now apply fills_full.
Qed.

(** [n] spawn attempts in a row. *)
Lemma spawn_loop_fills (spawn : Plasma.PlasmaLayer -> M Plasma.PlasmaLayer) n layer h :
  (forall l h1, exists ps h2, spawn l h1 = Some (Plasma.set_particles l ps, h2)
      /\ fills Plasma.active (Plasma.particles l) ps) ->
  exists ps h', for_range n (fun _ l => spawn l) layer h = Some (Plasma.set_particles layer ps, h')
    /\ length ps = length (Plasma.particles layer)
    /\ count_active Plasma.active ps =
         Nat.min (length (Plasma.particles layer))
                 (count_active Plasma.active (Plasma.particles layer) + n).
Proof.
  intros Hspawn.
  destruct (for_range_inv
    (fun i l _ => exists ps, l = Plasma.set_particles layer ps
       /\ length ps = length (Plasma.particles layer)
       /\ count_active Plasma.active ps =
            Nat.min (length (Plasma.particles layer))
                    (count_active Plasma.active (Plasma.particles layer) + i))
    (fun _ l => spawn l) n layer h) as (l' & h' & E & ps & -> & Hlen & Hc).
  - exists (Plasma.particles layer). split; [now destruct layer|]. split; [reflexivity|].
    pose proof (count_active_le Plasma.active (Plasma.particles layer)). lia.
  - intros j l1 h1 _ (ps & -> & Hlen & Hc).
    destruct (Hspawn (Plasma.set_particles layer ps) h1) as (ps' & h2 & E & Hl' & Hc').
    simpl in *. eexists _, h2. split; [exact E|].
    exists ps'. split; [reflexivity|]. split; [congruence|].
    rewrite Hc', Hc, Hlen. lia.
  - exists ps, h'. now repeat split.
Qed.

Lemma Plasma_call_wf layer c h :
  Plasma.wf layer ->
  exists layer' h', Plasma.call layer c h = Some (layer', h') /\ Plasma.wf layer'.
Proof.
  intros [Hp Hu]. destruct c as [xNorm vel|xNorm vel heldMs|dt]; simpl.
  - unfold Plasma.onPlasmaNoteOn.
    destruct (spawn_loop_fills (fun l => Plasma.addHotspot l xNorm vel)
                (Z.to_nat (Plasma.noteOn_count vel)) layer h
                (fun l h1 => addHotspot_fills l xNorm vel h1)) as (ps & h' & E & Hl & _).
    eexists _, _. split; [exact E|]. split; simpl; congruence.
  - unfold Plasma.onPlasmaNoteOff.
    destruct (spawn_loop_fills (fun l => Plasma.addSpark l xNorm (Plasma.flareVel vel heldMs))
                (Z.to_nat (Plasma.noteOff_count vel heldMs)) layer h
                (fun l h1 => addSpark_fills l xNorm _ h1)) as (ps & h' & E & Hl & _).
    eexists _, _. split; [exact E|]. split; simpl; congruence.
  - destruct (updatePlasma_spec layer dt h (conj Hp Hu)) as (l' & E & Hwf & _).
    eexists _, _. split; [exact E | exact Hwf].
Qed.

(** ** Trees: spawning *)

Lemma Trees_call_wf layer c h :
  Trees.wf layer ->
  exists layer' h', Trees.call layer c h = Some (layer', h') /\ Trees.wf layer'.
Proof.
  intros (Hs & Hu & Hc). destruct c as [note vel color|note vel heldMs|dt]; simpl.
  - unfold Trees.onTreeNoteOn.
    set (slot := match find_index _ _ with Some i => i | None => 0%nat end).
    assert (slot < length (Trees.seeds layer))%nat as Hslot.
    { unfold slot. destruct (find_index _ _) as [i|] eqn:E.
      - eapply find_index_lt. exact E.
      - rewrite Hs. unfold Trees.MAX_SEEDS. lia. }
    destruct (index_lt _ _ h Hslot) as (s & _ & Hi).
    rewrite (bind_Some _ _ _ _ _ Hi).
    eexists _, _. split; [reflexivity|].
    repeat split; simpl; [now rewrite length_insert | exact Hu | exact Hc].
  - eexists _, _. split; [reflexivity|]. now repeat split.
  - destruct (updateTrees_spec layer dt h (conj Hs (conj Hu Hc))) as (l' & E & Hwf & _).
    eexists _, _. split; [exact E | exact Hwf].
Qed.

(** ** Ripple layers: the bound of 30 *)

Lemma marshal_loop_spec record n t us c rs h :
  (n <= length rs)%nat -> (n <= length us)%nat ->
  exists us', for_range n (Ripples.marshal_body record) (Ripples.mkLayer t us c rs) h
                = Some (Ripples.mkLayer t us' c rs, h)
              /\ length us' = length us.
Proof.
  intros Hr Hu.
  destruct (for_range_inv
    (fun _ l h1 => h1 = h /\ exists us', l = Ripples.mkLayer t us' c rs
                                        /\ length us' = length us)
    (Ripples.marshal_body record) n (Ripples.mkLayer t us c rs) h)
    as (l' & h' & E & -> & us' & -> & Hl).
  - split; [reflexivity|]. now exists us.
  - intros j l1 h1 Hj (-> & us1 & -> & Hl).
    unfold Ripples.marshal_body. simpl.
    destruct (index_lt rs j h ltac:(lia)) as (r & _ & Er).
    destruct (index_lt us1 j h ltac:(lia)) as (u & _ & Eu).
    rewrite (bind_Some _ _ _ _ _ Er), (bind_Some _ _ _ _ _ Eu).
    eexists _, _. split; [reflexivity|]. split; [reflexivity|].
    eexists. split; [reflexivity|]. now rewrite length_insert.
  - now exists us'.
Qed.

Lemma addWaveRipple_wf layer xNorm vel h :
  Ripples.wf layer ->
  exists layer' h', Waves.addWaveRipple layer xNorm vel h = Some (layer', h')
                    /\ Ripples.wf layer'.
Proof.
  intros [Hr Hu]. unfold Waves.addWaveRipple.
  eexists _, _. split; [reflexivity|]. split; simpl; [|exact Hu].
  rewrite length_app. simpl. case_decide; [rewrite length_drop|]; lia.
Qed.

Lemma Waves_call_wf layer c h :
  Ripples.wf layer ->
  exists layer' h', Waves.call layer c h = Some (layer', h') /\ Ripples.wf layer'.
Proof.
  intros Hwf. destruct c as [xNorm vel|xNorm vel heldMs|dt]; simpl.
  - now apply addWaveRipple_wf.
  - now apply addWaveRipple_wf.
  - destruct Hwf as [Hr Hu]. unfold Waves.updateWaves.
    rewrite (bind_now _ h).
    set (rs := filter _ (Ripples.ripples layer)).
    assert (length rs <= length (Ripples.ripples layer))%nat as Hf by apply length_filter.
    destruct (marshal_loop_spec
                (fun r u => Vector4.set u (Ripples.x r) (Ripples.y r)
                              (Ripples.strength r) (Ripples.birth r))
                (Nat.min (length rs) 32) (now_src h (now_pos h) / 1000)
                (Ripples.u_ripples layer) (Nat.min (length rs) 32) rs (tick h))
      as (us' & E & Hl); [lia | lia |].
    eexists _, _. split; [exact E|]. split; simpl; lia.
Qed.

Lemma oldest_loop_spec rs n i k h :
  (k < length rs)%nat -> (i + n <= length rs)%nat ->
  exists k', for_loop (Water.oldest_body rs) i n k h = Some (k', h)
             /\ (k' < length rs)%nat.
Proof.
  intros Hk Hn.
  destruct (for_loop_inv (fun _ k1 h1 => h1 = h /\ (k1 < length rs)%nat)
              (Water.oldest_body rs) n i k h) as (k' & h' & E & -> & Hk').
  - now split.
  - intros j k1 h1 Hj (-> & Hk1). unfold Water.oldest_body.
    destruct (index_lt rs j h ltac:(lia)) as (rj & _ & Ej).
    destruct (index_lt rs k1 h Hk1) as (rk & _ & Ek).
    rewrite (bind_Some _ _ _ _ _ Ej), (bind_Some _ _ _ _ _ Ek).
    eexists _, _. split; [reflexivity|]. split; [reflexivity|].
    case_decide; lia.
  - now exists k'.
Qed.

Lemma addWaterRipple_wf layer xNorm vel hue h :
  Ripples.wf layer ->
  exists layer' h', Water.addWaterRipple layer xNorm vel hue h = Some (layer', h')
                    /\ Ripples.wf layer'.
Proof.
  intros [Hr Hu]. unfold Water.addWaterRipple.
  case_decide as Hfull.
  - destruct (oldest_loop_spec (Ripples.ripples layer)
                (length (Ripples.ripples layer) - 1) 1 0 h) as (k & E & Hk); [lia | lia |].
    rewrite (bind_Some _ _ _ _ _
               (bind_Some _ _ _ _ _ E : (_ ← for_loop _ _ _ _; mret _) h = _)).
    eexists _, _. split; [reflexivity|]. split; simpl; [|exact Hu].
    rewrite length_app, length_delete by (now apply lookup_lt_is_Some_2). simpl. lia.
  - eexists _, _. split; [reflexivity|]. split; simpl; [|exact Hu].
    rewrite length_app. simpl. lia.
Qed.

Lemma Water_call_wf layer c h :
  Ripples.wf layer ->
  exists layer' h', Water.call layer c h = Some (layer', h') /\ Ripples.wf layer'.
Proof.
  intros Hwf. destruct c as [xNorm vel hue|xNorm vel heldMs|dt]; simpl.
  - now apply addWaterRipple_wf.
  - unfold Water.onWaterNoteOff.
    rewrite (bind_random _ h).
    now apply addWaterRipple_wf.
  - destruct Hwf as [Hr Hu]. unfold Water.updateWater.
    rewrite (bind_now _ h).
    set (rs := filter _ (Ripples.ripples layer)).
    assert (length rs <= length (Ripples.ripples layer))%nat as Hf by apply length_filter.
    destruct (marshal_loop_spec
                (fun r u => Vector4.set u (Ripples.x r) (Ripples.hue r)
                              (Ripples.strength r) (Ripples.birth r))
                (Nat.min (length rs) 32) (now_src h (now_pos h) / 1000)
                (Ripples.u_ripples layer) (Nat.min (length rs) 32) rs (tick h))
      as (us' & E & Hl); [lia | lia |].
    eexists _, _. split; [exact E|]. split; simpl; lia.
Qed.

(** ** Sequences of calls *)

Lemma run_inv_pre {St C : Type} (call : St -> C -> M St) (Q : C -> Prop) (P : St -> Prop) :
  (forall s c h, Q c -> P s -> exists s' h', call s c h = Some (s', h') /\ P s') ->
  forall cs s h, Forall Q cs -> P s -> exists s' h', run call cs s h = Some (s', h') /\ P s'.
Proof.
  intros Hcall cs. induction cs as [|c cs IH]; intros s h Hcs Hs.
  - now exists s, h.
  - apply Forall_cons in Hcs as [Hc Hcs].
    destruct (Hcall s c h Hc Hs) as (s1 & h1 & E & Hs1).
    destruct (IH s1 h1 Hcs Hs1) as (s' & h' & E' & Hs').
    exists s', h'. split; [|exact Hs']. simpl.
    now rewrite (bind_Some _ _ _ _ _ E).
Qed.

Lemma run_inv {St C : Type} (call : St -> C -> M St) (P : St -> Prop) :
  (forall s c h, P s -> exists s' h', call s c h = Some (s', h') /\ P s') ->
  forall cs s h, P s -> exists s' h', run call cs s h = Some (s', h') /\ P s'.
Proof.
  intros Hcall cs s h Hs.
  apply (run_inv_pre call (fun _ => True) P); [intros; now apply Hcall | | exact Hs].
  now apply Forall_forall.
Qed.

(** ** Solar: spawning *)

Lemma spawnFlare_spec layer x y size life h :
  Solar.spawnFlare layer x y size life h =
    match find_index (fun f => negb (Solar.active f)) (Solar.flares layer) with
    | None => Some (layer, h)
    | Some i => Some (Solar.set_flares layer
                        (<[i := new_flare x y size life h]> (Solar.flares layer)),
                      skip_random 2 h)
    end.
Proof.
  unfold Solar.spawnFlare.
  destruct (find_index _ _) as [i|] eqn:E; [|reflexivity].
  apply find_index_Some in E as (a & Ha & _).
  rewrite (bind_Some _ _ _ _ _ (index_Some _ _ _ h Ha)). reflexivity.
Qed.

Lemma spawnWave_spec layer origin color strength speed width decay h :
  Solar.spawnWave layer origin color strength speed width decay h =
    match find_index (fun w => negb (Solar.Wave.active w)) (Solar.waves layer) with
    | None => Some (layer, h)
    | Some i => Some (Solar.set_waves layer
                        (<[i := new_wave origin color strength speed width decay]>
                           (Solar.waves layer)), h)
    end.
Proof.
  unfold Solar.spawnWave.
  destruct (find_index _ _) as [i|] eqn:E; [|reflexivity].
  apply find_index_Some in E as (a & Ha & _).
  rewrite (bind_Some _ _ _ _ _ (index_Some _ _ _ h Ha)). reflexivity.
Qed.

Lemma spawnFlare_fills layer x y size life h :
  exists fs h', Solar.spawnFlare layer x y size life h = Some (Solar.set_flares layer fs, h')
    /\ fills Solar.active (Solar.flares layer) fs.
Proof.
  rewrite spawnFlare_spec. destruct (find_index _ _) as [i|] eqn:E.
  - eexists _, _. split; [reflexivity|]. now apply fills_insert.
  - exists (Solar.flares layer), h. split; [now destruct layer|]. now apply fills_full.
Qed.

Lemma spawnWave_fills layer origin color strength speed width decay h :
  exists ws, Solar.spawnWave layer origin color strength speed width decay h
               = Some (Solar.set_waves layer ws, h)
    /\ fills Solar.Wave.active (Solar.waves layer) ws.
Proof.
  rewrite spawnWave_spec. destruct (find_index _ _) as [i|] eqn:E.
  - eexists. split; [reflexivity|]. now apply fills_insert.
  - exists (Solar.waves layer). split; [now destruct layer|]. now apply fills_full.
Qed.

(** ** Solar: the three loops of [updateSolar] *)

Lemma flare_body_eq dt i l fs us h f u :
  fs !! i = Some f -> us !! i = Some u ->
  Solar.flare_body dt i (with_flares l fs us) h =
    Some (with_flares l (<[i := flare_step dt f]> fs) (<[i := flare_record dt f u]> us), h).
Proof.
  intros Hf Hu. unfold Solar.flare_body. simpl.
  rewrite (bind_Some _ _ _ _ _ (index_Some _ _ _ h Hf)).
  unfold flare_record, flare_step.
  destruct (Solar.active f) eqn:Ea; simpl.
  - rewrite (bind_Some _ _ _ _ _ (index_Some _ _ _ h Hu)).
    case_decide; simpl; reflexivity.
  - rewrite (bind_Some _ _ _ _ _ (index_Some _ _ _ h Hu)).
    now rewrite (list_insert_id _ _ _ Hf).
Qed.

Lemma flare_loop_spec l dt h :
  length (Solar.flares l) = Solar.MAX_FLARES ->
  length (Solar.u_flares l) = Solar.MAX_FLARES ->
  exists fs us,
    for_range Solar.MAX_FLARES (Solar.flare_body dt) l h = Some (with_flares l fs us, h)
    /\ length fs = Solar.MAX_FLARES /\ length us = Solar.MAX_FLARES
    /\ forall j f u, Solar.flares l !! j = Some f -> Solar.u_flares l !! j = Some u ->
         fs !! j = Some (flare_step dt f) /\ us !! j = Some (flare_record dt f u).
Proof.
  intros Hlf Hlu.
  set (fs0 := Solar.flares l). set (us0 := Solar.u_flares l).
  set (tf := fun j => flare_step dt <$> fs0 !! j).
  set (tu := fun j => match fs0 !! j, us0 !! j with
                      | Some f, Some u => Some (flare_record dt f u)
                      | _, _ => None
                      end).
  destruct (for_range_inv
    (fun i l1 h1 => h1 = h /\ exists fs us, l1 = with_flares l fs us
       /\ processed i tf fs0 fs /\ processed i tu us0 us)
    (Solar.flare_body dt) Solar.MAX_FLARES l h)
    as (l' & h' & E & -> & fs & us & -> & Pf & Pu).
  - split; [reflexivity|]. exists fs0, us0.
    split; [now destruct l|]. split; apply processed_0.
  - intros j l1 h1 Hj (-> & fs & us & -> & Pf & Pu).
    destruct (lookup_lt_is_Some_2 fs0 j) as [f Hf]; [unfold fs0; lia|].
    destruct (lookup_lt_is_Some_2 us0 j) as [u Hu]; [unfold us0; lia|].
    eexists _, _. split.
    + apply flare_body_eq with (f := f) (u := u).
      * rewrite (processed_lookup _ _ _ _ Pf). exact Hf.
      * rewrite (processed_lookup _ _ _ _ Pu). exact Hu.
    + split; [reflexivity|]. eexists _, _. split; [reflexivity|]. split.
      * apply processed_insert; [assumption | unfold fs0; lia | unfold tf; now rewrite Hf].
      * apply processed_insert; [assumption | unfold us0; lia | unfold tu; now rewrite Hf, Hu].
  - exists fs, us. split; [exact E|].
    split; [destruct Pf as [-> _]; exact Hlf|].
    split; [destruct Pu as [-> _]; exact Hlu|].
    intros j f u Hf Hu.
    assert (j < Solar.MAX_FLARES)%nat as Hj
      by (rewrite <- Hlf; eapply lookup_lt_Some; exact Hf).
    rewrite (processed_all _ _ _ _ _ Pf Hj), (processed_all _ _ _ _ _ Pu Hj).
    unfold tu, tf. fold fs0 in Hf. fold us0 in Hu. rewrite Hf, Hu. split; reflexivity.
Qed.

Lemma wave_body_eq dt i l ws us ucs h w u uc :
  ws !! i = Some w -> us !! i = Some u -> ucs !! i = Some uc ->
  Solar.wave_body dt i (with_waves l ws us ucs) h =
    Some (with_waves l (<[i := wave_step dt w]> ws) (<[i := wave_record dt w u]> us)
            (<[i := wave_color_record dt w uc]> ucs), h).
Proof.
  intros Hw Hu Huc. unfold Solar.wave_body. simpl.
  rewrite (bind_Some _ _ _ _ _ (index_Some _ _ _ h Hw)).
  unfold wave_record, wave_color_record, wave_step.
  destruct (Solar.Wave.active w) eqn:Ea; simpl.
  - rewrite (bind_Some _ _ _ _ _ (index_Some _ _ _ h Hu)).
    rewrite (bind_Some _ _ _ _ _ (index_Some _ _ _ h Huc)).
    case_decide; simpl; reflexivity.
  - rewrite (bind_Some _ _ _ _ _ (index_Some _ _ _ h Hu)).
    now rewrite (list_insert_id _ _ _ Hw), (list_insert_id _ _ _ Huc).
Qed.

Lemma wave_loop_spec l dt h :
  length (Solar.waves l) = Solar.MAX_WAVES ->
  length (Solar.u_waves l) = Solar.MAX_WAVES ->
  length (Solar.u_waveColor l) = Solar.MAX_WAVES ->
  exists ws us ucs,
    for_range Solar.MAX_WAVES (Solar.wave_body dt) l h = Some (with_waves l ws us ucs, h)
    /\ length ws = Solar.MAX_WAVES /\ length us = Solar.MAX_WAVES
    /\ length ucs = Solar.MAX_WAVES
    /\ forall j w u, Solar.waves l !! j = Some w -> Solar.u_waves l !! j = Some u ->
         ws !! j = Some (wave_step dt w) /\ us !! j = Some (wave_record dt w u).
Proof.
  intros Hlw Hlu Hlc.
  set (ws0 := Solar.waves l). set (us0 := Solar.u_waves l).
  set (cs0 := Solar.u_waveColor l).
  set (tw := fun j => wave_step dt <$> ws0 !! j).
  set (tu := fun j => match ws0 !! j, us0 !! j with
                      | Some w, Some u => Some (wave_record dt w u)
                      | _, _ => None
                      end).
  set (tc := fun j => match ws0 !! j, cs0 !! j with
                      | Some w, Some uc => Some (wave_color_record dt w uc)
                      | _, _ => None
                      end).
  destruct (for_range_inv
    (fun i l1 h1 => h1 = h /\ exists ws us ucs, l1 = with_waves l ws us ucs
       /\ processed i tw ws0 ws /\ processed i tu us0 us /\ processed i tc cs0 ucs)
    (Solar.wave_body dt) Solar.MAX_WAVES l h)
    as (l' & h' & E & -> & ws & us & ucs & -> & Pw & Pu & Pc).
  - split; [reflexivity|]. exists ws0, us0, cs0.
    split; [now destruct l|]. repeat split; apply processed_0.
  - intros j l1 h1 Hj (-> & ws & us & ucs & -> & Pw & Pu & Pc).
    destruct (lookup_lt_is_Some_2 ws0 j) as [w Hw]; [unfold ws0; lia|].
    destruct (lookup_lt_is_Some_2 us0 j) as [u Hu]; [unfold us0; lia|].
    destruct (lookup_lt_is_Some_2 cs0 j) as [uc Huc]; [unfold cs0; lia|].
    eexists _, _. split.
    + apply wave_body_eq with (w := w) (u := u) (uc := uc).
      * rewrite (processed_lookup _ _ _ _ Pw). exact Hw.
      * rewrite (processed_lookup _ _ _ _ Pu). exact Hu.
      * rewrite (processed_lookup _ _ _ _ Pc). exact Huc.
    + split; [reflexivity|]. eexists _, _, _. split; [reflexivity|]. split; [|split].
      * apply processed_insert; [assumption | unfold ws0; lia | unfold tw; now rewrite Hw].
      * apply processed_insert; [assumption | unfold us0; lia | unfold tu; now rewrite Hw, Hu].
      * apply processed_insert; [assumption | unfold cs0; lia | unfold tc; now rewrite Hw, Huc].
  - exists ws, us, ucs. split; [exact E|].
    split; [destruct Pw as [-> _]; exact Hlw|].
    split; [destruct Pu as [-> _]; exact Hlu|].
    split; [destruct Pc as [-> _]; exact Hlc|].
    intros j w u Hw Hu.
    assert (j < Solar.MAX_WAVES)%nat as Hj
      by (rewrite <- Hlw; eapply lookup_lt_Some; exact Hw).
    rewrite (processed_all _ _ _ _ _ Pw Hj), (processed_all _ _ _ _ _ Pu Hj).
    unfold tu, tw. fold ws0 in Hw. fold us0 in Hu. rewrite Hw, Hu. split; reflexivity.
Qed.

Lemma hold_loop_spec repeatMs l h :
  exists ws hs h',
    for_range (length (Solar.holds (Solar.state l))) (Solar.hold_body repeatMs) l h
      = Some (with_holds l ws hs, h')
    /\ length ws = length (Solar.waves l)
    /\ length hs = length (Solar.holds (Solar.state l)).
Proof.
  set (n := length (Solar.holds (Solar.state l))).
  destruct (for_range_inv
    (fun _ l1 _ => exists ws hs, l1 = with_holds l ws hs
       /\ length ws = length (Solar.waves l) /\ length hs = n)
    (Solar.hold_body repeatMs) n l h)
    as (l' & h' & E & ws & hs & -> & Hw & Hh).
  - exists (Solar.waves l), (Solar.holds (Solar.state l)).
    split; [|now split]. destruct l as [? ? ? ? ? ? ? ? ? ? st]. now destruct st.
  - intros j l1 h1 Hj (ws & hs & -> & Hw & Hh).
    unfold Solar.hold_body. simpl.
    destruct (index_lt hs j h1 ltac:(lia)) as (entry & _ & Ee).
    rewrite (bind_Some _ _ _ _ _ Ee).
    unfold mbind at 1, M_bind at 1, performance_now at 1.
    unfold mbind at 1, M_bind at 1, performance_now at 1.
    case_decide.
    + unfold mbind at 1, M_bind at 1, performance_now at 1.
      match goal with
      | |- context [Solar.spawnWave ?a ?b ?c ?d ?e ?f ?g ?hh] =>
          destruct (spawnWave_fills a b c d e f g hh) as (ws' & Es & Hl' & _)
      end.
      eexists _, _. split; [exact Es|].
      simpl in *. eexists ws', _. split; [reflexivity|].
      split; [congruence | now rewrite length_insert].
    + eexists _, _. split; [reflexivity|]. now exists ws, hs.
  - now exists ws, hs, h'.
Qed.

(** ** Clamping and interpolation *)

(** Goals about [Math.min] and [Math.max]: split on the comparisons. *)
Ltac minmax :=
  unfold MathUtils.clamp, Rmin, Rmax in *; repeat destruct (Rle_dec _ _); try lra.

Lemma clamp_bounds (v lo hi : R) : lo <= hi -> lo <= MathUtils.clamp v lo hi <= hi.
Proof. intros H. minmax. Qed.


Lemma lerp_between (x y t lo hi : R) :
  0 <= t <= 1 -> lo <= x <= hi -> lo <= y <= hi -> lo <= MathUtils.lerp x y t <= hi.
Proof. intros Ht Hx Hy. unfold MathUtils.lerp. nra. Qed.


(** ** Solar: one frame and one call *)


Lemma updateSolar_spec l dtMs h :
  Solar.wf l ->
  let dt := Rmin (dtMs / 1000) 0.05 in
  exists ws hs fs us ws' uws ucs h',
    Solar.updateSolar l dtMs h =
      Some (with_waves
              (with_flares
                 (Solar.derive (with_holds (with_time l (now_src h (now_pos h) / 1000)) ws hs) dt)
                 fs us)
              ws' uws ucs, h')
    /\ length hs = length (Solar.holds (Solar.state l))
    /\ length fs = Solar.MAX_FLARES /\ length us = Solar.MAX_FLARES
    /\ length ws' = Solar.MAX_WAVES /\ length uws = Solar.MAX_WAVES
    /\ length ucs = Solar.MAX_WAVES
    /\ (forall j f u, Solar.flares l !! j = Some f -> Solar.u_flares l !! j = Some u ->
          fs !! j = Some (flare_step dt f) /\ us !! j = Some (flare_record dt f u))
    /\ (forall j w u, ws !! j = Some w -> Solar.u_waves l !! j = Some u ->
          ws' !! j = Some (wave_step dt w) /\ uws !! j = Some (wave_record dt w u))
    /\ length ws = Solar.MAX_WAVES.
Proof.
  intros (Hf & Huf & Hw & Huw & Huc) dt. unfold Solar.updateSolar.
  rewrite (bind_now _ h).
  fold (with_time l (now_src h (now_pos h) / 1000)).
  set (l1 := with_time l _). fold dt.
  destruct (hold_loop_spec 140 l1 (tick h)) as (ws & hs & h1 & E1 & Hlws & Hlhs).
  rewrite (bind_Some _ _ _ _ _ E1).
  set (l2 := Solar.derive (with_holds l1 ws hs) dt).
  destruct (flare_loop_spec l2 dt h1 Hf Huf) as (fs & us & E2 & Hlfs & Hlus & Hslots).
  rewrite (bind_Some _ _ _ _ _ E2).
  destruct (wave_loop_spec (with_flares l2 fs us) dt h1)
    as (ws' & uws & ucs & E3 & Hlws' & Hluws & Hlucs & Hwslots).
  { simpl. simpl in Hlws. congruence. }
  { exact Huw. }
  { exact Huc. }
  exists ws, hs, fs, us, ws', uws, ucs, h1.
  split; [exact E3|]. repeat split; try assumption.
  - apply (Hslots j f u); assumption.
  - apply (Hslots j f u); assumption.
  - apply (Hwslots j w u); assumption.
  - apply (Hwslots j w u); assumption.
  - simpl in Hlws. congruence.
Qed.

Lemma updateSolar_wf l dtMs h :
  Solar.wf l ->
  exists l' h', Solar.updateSolar l dtMs h = Some (l', h') /\ Solar.wf l'
    /\ Solar.emaEnergy (Solar.state l') = Solar.emaEnergy (Solar.state l)
    /\ Solar.emaPitch (Solar.state l') = Solar.emaPitch (Solar.state l)
    /\ Solar.emaPitchVar (Solar.state l') = Solar.emaPitchVar (Solar.state l)
    /\ Solar.activeNotes (Solar.state l') = Solar.activeNotes (Solar.state l)
    /\ Solar.u_params l' = Solar.u_params (Solar.derive l (Rmin (dtMs / 1000) 0.05)).
Proof.
  intros Hwf.
  destruct (updateSolar_spec l dtMs h Hwf)
    as (ws & hs & fs & us & ws' & uws & ucs & h' & E & Hhs & Hfs & Hus & Hws' & Huws & Hucs & _).
  eexists _, _. split; [exact E|]. split.
  - repeat split; simpl; assumption.
  - repeat split; reflexivity.
Qed.

Lemma onSolarNoteOn_spec setHSL l midiNote velocity0to127 h :
  exists l' h' rateBoost,
    Solar.onSolarNoteOn setHSL l midiNote velocity0to127 h = Some (l', h')
    /\ length (Solar.flares l') = length (Solar.flares l)
    /\ length (Solar.waves l') = length (Solar.waves l)
    /\ Solar.u_flares l' = Solar.u_flares l
    /\ Solar.u_waves l' = Solar.u_waves l
    /\ Solar.u_waveColor l' = Solar.u_waveColor l
    /\ Solar.u_params l' = Solar.u_params l
    /\ 0 <= rateBoost <= 2
    /\ Solar.emaEnergy (Solar.state l') =
         MathUtils.lerp (Solar.emaEnergy (Solar.state l))
           (MathUtils.clamp velocity0to127 0 127 / 127 * (1 + rateBoost)) 0.35
    /\ Solar.emaPitch (Solar.state l') =
         Solar.emaPitch (Solar.state l) + 0.25 * (IZR midiNote - Solar.emaPitch (Solar.state l))
    /\ Solar.activeNotes (Solar.state l') = {[ midiNote ]} ∪ Solar.activeNotes (Solar.state l).
Proof.
  unfold Solar.onSolarNoteOn, Solar.noteToDiskXY.
  match goal with
  | |- context [Solar.spawnFlare l ?x ?y ?sz ?lf] =>
      destruct (spawnFlare_fills l x y sz lf h) as (fs & h1 & E1 & Hfs & _);
      rewrite (bind_Some _ _ _ _ _ E1); cbv beta
  end.
  match goal with
  | |- context [Solar.spawnWave ?a ?b ?c ?d ?e ?f ?g] =>
      destruct (spawnWave_fills a b c d e f g h1) as (ws & E2 & Hws & _);
      rewrite (bind_Some _ _ _ _ _ E2); cbv beta
  end.
  eexists _, _, _. split; [reflexivity|]. simpl.
  repeat split; try assumption; try reflexivity.
  - apply clamp_bounds. lra.
  - apply clamp_bounds. lra.
Qed.

Lemma onSolarNoteOff_spec l midiNote h :
  exists ws hs h',
    Solar.onSolarNoteOff l midiNote h =
      Some (Solar.set_state (with_holds l ws hs)
              (Solar.set_activeNotes (Solar.state (with_holds l ws hs))
                 (Solar.activeNotes (Solar.state l) ∖ {[ midiNote ]})), h')
    /\ length ws = length (Solar.waves l)
    /\ JsMap.get midiNote hs = None.
Proof.
  unfold Solar.onSolarNoteOff.
  destruct (JsMap.get midiNote (Solar.holds (Solar.state l))) as [hold|] eqn:Eg.
  - unfold mbind, M_bind, performance_now.
    match goal with
    | |- context [Solar.spawnWave ?a ?b ?c ?d ?e ?f ?g ?hh] =>
        destruct (spawnWave_fills a b c d e f g hh) as (ws & E & Hws & _)
    end.
    rewrite E.
    eexists ws, (JsMap.delete midiNote (Solar.holds (Solar.state l))), _.
    split; [reflexivity|]. split; [exact Hws|].
    clear. induction (Solar.holds (Solar.state l)) as [|[k v] m IH]; [reflexivity|].
    unfold JsMap.delete in *. simpl.
    destruct (decide (k = midiNote)) as [->|Hne].
    + rewrite filter_cons_False by (simpl; tauto). exact IH.
    + rewrite filter_cons_True by (simpl; tauto). simpl.
      destruct (decide (midiNote = k)); [congruence | exact IH].
  - exists (Solar.waves l), (Solar.holds (Solar.state l)), h.
    split; [|split; [reflexivity | exact Eg]].
    destruct l as [? ? ? ? ? ? ? ? ? ? st]. now destruct st.
Qed.

Lemma Solar_call_wf setHSL l c h :
  Solar.wf l ->
  exists l' h', Solar.call setHSL l c h = Some (l', h') /\ Solar.wf l'.
Proof.
  intros Hwf. destruct c as [n v|n|dtMs]; simpl.
  - destruct (onSolarNoteOn_spec setHSL l n v h)
      as (l' & h' & rb & E & Hf & Hw & Huf & Huw & Huc & _).
    exists l', h'. split; [exact E|].
    destruct Hwf as (? & ? & ? & ? & ?). repeat split; congruence.
  - destruct (onSolarNoteOff_spec l n h) as (ws & hs & h' & E & Hws & _).
    eexists _, _. split; [exact E|].
    destruct Hwf as (? & ? & ? & ? & ?). repeat split; simpl; congruence.
  - destruct (updateSolar_wf l dtMs h Hwf) as (l' & h' & E & Hwf' & _).
    now exists l', h'.
Qed.

(** ** Example layers and what one step does to a live slot *)

Lemma two_bubble_layer_wf : Bubbles.wf two_bubble_layer.
Proof. split; reflexivity. Qed.

Lemma bubble_step_live now ds b :
  Bubbles.active b = true ->
  (Bubbles.age b + ds) / Vector4.w (Bubbles.velocity b) <= 1 ->
  Vector4.y (Bubbles.data b) + Vector4.y (Bubbles.velocity b) * ds <= 1.1 ->
  Bubbles.active (bubble_step now ds b) = true.
Proof.
  intros Ha Hage Hy. unfold bubble_step. rewrite Ha. simpl.
  rewrite decide_False by (intros [H|H]; lra). reflexivity.
Qed.

Lemma bubble_step_moves now ds b :
  Bubbles.active b = true ->
  let b' := bubble_step now ds b in
  Vector4.y (Bubbles.data b')
    = Vector4.y (Bubbles.data b) + Vector4.y (Bubbles.velocity b) * ds
  /\ Vector4.x (Bubbles.data b')
     = Vector4.x (Bubbles.data b) + Vector4.x (Bubbles.velocity b) * ds
       + sin (now * 1.5 + Vector4.y (Bubbles.data b') * 15) * 0.0003
  /\ Bubbles.age b' = Bubbles.age b + ds
  /\ Bubbles.velocity b' = Bubbles.velocity b.
Proof.
  intros Ha. unfold bubble_step. rewrite Ha. simpl.
  case_decide; simpl; repeat split; reflexivity.
Qed.

Lemma plasma_step_live ds r p :
  Plasma.active p = true ->
  Vector4.w (Plasma.data p) + ds * (Vector4.z (Plasma.velocity p) * 0.98) <= 1 ->
  Plasma.active (plasma_step ds r p) = true.
Proof.
  intros Ha Hage. unfold plasma_step. rewrite Ha. simpl.
  rewrite decide_False by lra. reflexivity.
Qed.

Lemma flare_step_live dt f :
  Solar.active f = true ->
  Vector4.w (Solar.data f) + Vector4.w (Solar.velocity f) * dt < 1 ->
  Solar.active (flare_step dt f) = true.
Proof.
  intros Ha Hage. unfold flare_step. rewrite Ha. simpl.
  rewrite decide_False by lra. reflexivity.
Qed.

Lemma hotspot_layer_wf : Plasma.wf hotspot_layer.
Proof. split; reflexivity. Qed.

Lemma full_flare_layer_wf : Solar.wf full_flare_layer.
Proof. repeat split; reflexivity. Qed.

Lemma two_seed_layer_wf : Trees.wf two_seed_layer.
Proof. repeat split; reflexivity. Qed.

Lemma held_layer_wf : Solar.wf held_layer.
Proof. repeat split; reflexivity. Qed.

Lemma hold_body_eq repeatMs i l h note hd :
  Solar.holds (Solar.state l) !! i = Some (note, hd) ->
  let factor :=
    MathUtils.clamp ((now_src h (S (now_pos h)) - Solar.startMs hd) / 1000 / 3) 0 1 in
  Solar.hold_body repeatMs i l h =
    if decide (now_src h (now_pos h) - Solar.lastSpawnMs hd >= repeatMs * (1 - 0.6 * factor))
    then Solar.spawnWave
           (Solar.set_state l
              (Solar.set_holds (Solar.state l)
                 (<[i := (note, Solar.mkHold (Solar.startMs hd)
                                  (now_src h (S (S (now_pos h))))
                                  (Solar.origin hd) (Solar.color hd))]>
                    (Solar.holds (Solar.state l)))))
           (Solar.origin hd) (Solar.color hd)
           (0.35 + 0.5 * factor) (0.45 + 0.5 * factor) (0.025 + 0.06 * factor)
           (0.55 + 0.4 * factor) (tick (tick (tick h)))
    else Some (l, tick (tick h)).
Proof.
  intros Hi factor. unfold Solar.hold_body.
  rewrite (bind_Some _ _ _ _ _ (index_Some _ _ _ h Hi)).
  rewrite bind_now, bind_now. cbn [fst snd tick now_src now_pos].
  fold factor. case_decide; reflexivity.
Qed.

(** The hold loop writes only free wave slots. *)
Lemma spawnWave_keeps_live layer origin color strength speed width decay h :
  exists ws, Solar.spawnWave layer origin color strength speed width decay h
               = Some (Solar.set_waves layer ws, h)
    /\ length ws = length (Solar.waves layer)
    /\ forall j w, Solar.waves layer !! j = Some w -> Solar.Wave.active w = true ->
         ws !! j = Some w.
Proof.
  rewrite spawnWave_spec. destruct (find_index _ _) as [i|] eqn:E.
  - eexists. split; [reflexivity|]. split; [apply length_insert|].
    intros j w Hj Hon.
    destruct (find_index_Some _ _ _ E) as (w0 & Hw0 & Hfree & _).
    destruct (decide (j = i)) as [->|Hne].
    + rewrite Hw0 in Hj. injection Hj as ->. rewrite Hon in Hfree. discriminate.
    + now rewrite list_lookup_insert_ne by congruence.
  - exists (Solar.waves layer). split; [now destruct layer|]. now split.
Qed.

Lemma hold_loop_live repeatMs l h :
  exists ws hs h',
    for_range (length (Solar.holds (Solar.state l))) (Solar.hold_body repeatMs) l h
      = Some (with_holds l ws hs, h')
    /\ length ws = length (Solar.waves l)
    /\ length hs = length (Solar.holds (Solar.state l))
    /\ forall j w, Solar.waves l !! j = Some w -> Solar.Wave.active w = true ->
         ws !! j = Some w.
Proof.
  set (n := length (Solar.holds (Solar.state l))).
  destruct (for_range_inv
    (fun _ l1 _ => exists ws hs, l1 = with_holds l ws hs
       /\ length ws = length (Solar.waves l) /\ length hs = n
       /\ forall j w, Solar.waves l !! j = Some w -> Solar.Wave.active w = true ->
            ws !! j = Some w)
    (Solar.hold_body repeatMs) n l h)
    as (l' & h' & E & ws & hs & -> & Hw & Hh & Hlive).
  - exists (Solar.waves l), (Solar.holds (Solar.state l)).
    split; [|now repeat split]. destruct l as [? ? ? ? ? ? ? ? ? ? st]. now destruct st.
  - intros j l1 h1 Hj (ws & hs & -> & Hw & Hh & Hlive).
    unfold Solar.hold_body. simpl.
    destruct (index_lt hs j h1 ltac:(lia)) as (entry & _ & Ee).
    rewrite (bind_Some _ _ _ _ _ Ee).
    unfold mbind at 1, M_bind at 1, performance_now at 1.
    unfold mbind at 1, M_bind at 1, performance_now at 1.
    case_decide.
    + unfold mbind at 1, M_bind at 1, performance_now at 1.
      match goal with
      | |- context [Solar.spawnWave ?a ?b ?c ?d ?e ?f ?g ?hh] =>
          destruct (spawnWave_keeps_live a b c d e f g hh) as (ws' & Es & Hl' & Hk)
      end.
      eexists _, _. split; [exact Es|].
      simpl in *. eexists ws', _. split; [reflexivity|].
      split; [congruence|]. split; [now rewrite length_insert|].
      intros k w Hk1 Hon. apply Hk; [|exact Hon]. now apply Hlive.
    + eexists _, _. split; [reflexivity|]. now exists ws, hs.
  - now exists ws, hs, h'.
Qed.

(** One frame of the solar layer, slot by slot: the hold loop runs
    first, on the layer stamped with the clock reading, and leaves the
    waves [ws]; the flare loop and the wave loop then step every slot by
    [dt = min(dtMs / 1000, 0.05)]. *)
Lemma updateSolar_slots l dtMs h :
  Solar.wf l ->
  let dt := Rmin (dtMs / 1000) 0.05 in
  let l1 := with_time l (now_src h (now_pos h) / 1000) in
  exists ws hs l' h',
    for_range (length (Solar.holds (Solar.state l1))) (Solar.hold_body 140) l1 (tick h)
      = Some (with_holds l1 ws hs, h')
    /\ Solar.updateSolar l dtMs h = Some (l', h')
    /\ (forall j w, Solar.waves l !! j = Some w -> Solar.Wave.active w = true ->
          ws !! j = Some w)
    /\ (forall j w, ws !! j = Some w -> Solar.waves l' !! j = Some (wave_step dt w))
    /\ (forall j f, Solar.flares l !! j = Some f ->
          Solar.flares l' !! j = Some (flare_step dt f))
    /\ Solar.u_flareBoost l' = Rmax 0 (Solar.u_flareBoost l - dt * 0.35)
    /\ Solar.u_rotation l'
       = Solar.u_rotation l + Solar.rotSpeed (Solar.state l') * dt.
Proof.
  intros (Hf & Huf & Hw & Huw & Huc) dt l1. unfold Solar.updateSolar.
  rewrite (bind_now _ h).
  fold (with_time l (now_src h (now_pos h) / 1000)). fold l1. fold dt.
  destruct (hold_loop_live 140 l1 (tick h)) as (ws & hs & h1 & E1 & Hlws & Hlhs & Hlive).
  rewrite (bind_Some _ _ _ _ _ E1).
  set (l2 := Solar.derive (with_holds l1 ws hs) dt).
  destruct (flare_loop_spec l2 dt h1 Hf Huf) as (fs & us & E2 & Hlfs & Hlus & Hslots).
  rewrite (bind_Some _ _ _ _ _ E2).
  destruct (wave_loop_spec (with_flares l2 fs us) dt h1)
    as (ws' & uws & ucs & E3 & Hlws' & Hluws & Hlucs & Hwslots).
  { simpl. simpl in Hlws. congruence. }
  { exact Huw. }
  { exact Huc. }
  exists ws, hs. eexists _, h1. split; [exact E1|]. split; [exact E3|].
  split; [exact Hlive|]. split; [|split; [|split; reflexivity]].
  - intros j w Hj. simpl.
    destruct (lookup_same_length (Solar.u_waves l) ws j w) as [u Hu];
      [simpl in Hlws; congruence | exact Hj |].
    exact (proj1 (Hwslots j w u Hj Hu)).
  - intros j f Hj. simpl.
    destruct (lookup_same_length (Solar.u_flares l) (Solar.flares l) j f) as [u Hu];
      [congruence | exact Hj |].
    exact (proj1 (Hslots j f u Hj Hu)).
Qed.

Lemma wave_step_live dt w :
  Solar.Wave.active w = true ->
  0 <= Vector4.w (Solar.Wave.data w) ->
  0.02 <= Vector4.w (Solar.Wave.data w) * (1 - Solar.Wave.decay w * dt) ->
  Vector4.z (Solar.Wave.data w) + Solar.Wave.speed w * dt <= 2 ->
  Solar.Wave.active (wave_step dt w) = true.
Proof.
  intros Ha H0 Hs Hr. unfold wave_step. rewrite Ha. simpl.
  pose proof (exp_ineq1_le (- Solar.Wave.decay w * dt)) as He.
  rewrite decide_False; [reflexivity|].
  intros [H|H]; [|lra]. nra.
Qed.

Lemma held_layer_hold_loop :
  let l1 := with_time held_layer (1000 / 1000) in
  exists hs,
    for_range (length (Solar.holds (Solar.state l1))) (Solar.hold_body 140) l1
      (tick (host_at 1000))
    = Some (with_holds l1
              (<[1%nat := new_wave (Vector2.mk 0.5 0) (Color.mk 1 0 0)
                            (0.35 + 0.5 * (1 / 3)) (0.45 + 0.5 * (1 / 3))
                            (0.025 + 0.06 * (1 / 3)) (0.55 + 0.4 * (1 / 3))]>
                 (Solar.waves held_layer)) hs,
            tick (tick (tick (tick (host_at 1000))))).
Proof.
  intros l1.
  change (length (Solar.holds (Solar.state l1))) with 1%nat.
  pose proof (hold_body_eq 140 0 l1 (tick (host_at 1000)) 60%Z
                (Solar.mkHold 0 0 (Vector2.mk 0.5 0) (Color.mk 1 0 0)) eq_refl) as Hb.
  cbv zeta in Hb.
  cbn [Solar.startMs Solar.lastSpawnMs Solar.origin Solar.color tick now_src now_pos
       host_at] in Hb.
  replace (MathUtils.clamp ((1000 - 0) / 1000 / 3) 0 1) with (1 / 3) in Hb by minmax.
  rewrite decide_True in Hb by lra.
  rewrite spawnWave_spec in Hb.
  change (find_index _ _) with (Some 1%nat) in Hb.
  unfold for_range, for_loop. rewrite (bind_Some _ _ _ _ _ Hb).
  eexists. reflexivity.
Qed.

Lemma plasma_step_moves ds r p :
  Plasma.active p = true ->
  let p' := plasma_step ds r p in
  Plasma.velocity p'
    = Vector4.mk ((Vector4.x (Plasma.velocity p) + (r - 0.5) * 0.2 * ds) * 0.98)
                 ((Vector4.y (Plasma.velocity p) - 0.25 * ds) * 0.98)
                 (Vector4.z (Plasma.velocity p) * 0.98)
                 (Vector4.w (Plasma.velocity p) * 0.98)
  /\ Vector4.x (Plasma.data p')
     = Vector4.x (Plasma.data p) + Vector4.x (Plasma.velocity p') * ds
  /\ Vector4.y (Plasma.data p')
     = Vector4.y (Plasma.data p) + Vector4.y (Plasma.velocity p') * ds
  /\ Vector4.w (Plasma.data p')
     = Vector4.w (Plasma.data p) + ds * Vector4.z (Plasma.velocity p').
Proof.
  intros Ha. unfold plasma_step. rewrite Ha. simpl.
  case_decide; simpl; repeat split; reflexivity.
Qed.

Lemma flare_step_moves dt f :
  Solar.active f = true ->
  let f' := flare_step dt f in
  Solar.velocity f'
    = Vector4.mk (Vector4.x (Solar.velocity f) * 0.985) (Vector4.y (Solar.velocity f) * 0.985)
        (Vector4.z (Solar.velocity f)) (Vector4.w (Solar.velocity f))
  /\ Vector4.x (Solar.data f')
     = Vector4.x (Solar.data f) + Vector4.x (Solar.velocity f') * dt
  /\ Vector4.y (Solar.data f')
     = Vector4.y (Solar.data f) + Vector4.y (Solar.velocity f') * dt
  /\ Vector4.w (Solar.data f')
     = Vector4.w (Solar.data f) + Vector4.w (Solar.velocity f') * dt.
Proof.
  intros Ha. unfold flare_step. rewrite Ha. simpl.
  case_decide; simpl; repeat split; reflexivity.
Qed.

Lemma wave_step_moves dt w :
  Solar.Wave.active w = true ->
  let w' := wave_step dt w in
  Vector4.z (Solar.Wave.data w') = Vector4.z (Solar.Wave.data w) + Solar.Wave.speed w * dt
  /\ Vector4.w (Solar.Wave.color w')
     = Rmin 0.12 (Vector4.w (Solar.Wave.color w) + 0.02 * dt).
Proof.
  intros Ha. unfold wave_step. rewrite Ha. simpl.
  case_decide; simpl; split; reflexivity.
Qed.

Lemma tree_step_flash now ds s :
  Trees.active s = true -> now - Vector4.z (Trees.data s) <= 20 ->
  let s' := tree_step now ds s in
  Trees.active s' = true
  /\ Trees.data s' = Trees.data s
  /\ Vector4.w (Trees.colorData s') = Rmax 0 (Vector4.w (Trees.colorData s) - ds * 2).
Proof.
  intros Ha Hyoung. unfold tree_step. rewrite Ha.
  rewrite decide_False by lra. simpl. now repeat split.
Qed.

Lemma big_step deltaMs : 50 <= deltaMs -> Rmin (deltaMs / 1000) 0.05 = 0.05.
Proof. intros H. minmax. Qed.

(** ** Properties of the specification *)

(** Every state reached from a constructor has arrays of the fixed
    lengths: the hypothesis of the per-update theorems below holds in
    every reachable state. *)
Lemma reachable_wf (setHSL : R -> R -> R -> Color.t) (h : Host)
    (bcs : list Bubbles.Call) (pcs : list Plasma.Call) (tcs : list Trees.Call)
    (scs : list Solar.Call) (wcs : list Waves.Call) (acs : list Water.Call) :
  (exists l h', run Bubbles.call bcs Bubbles.createBubblesLayer h = Some (l, h')
     /\ Bubbles.wf l)
  /\ (exists l h', run Plasma.call pcs Plasma.createPlasmaLayer h = Some (l, h')
     /\ Plasma.wf l)
  /\ (exists l h', run Trees.call tcs Trees.createTreesLayer h = Some (l, h')
     /\ Trees.wf l)
  /\ (exists l h',
       (l0 ← Solar.createSolarLayer; run (Solar.call setHSL) scs l0) h = Some (l, h')
     /\ Solar.wf l)
  /\ (exists l h', run Waves.call wcs Waves.createWavesLayer h = Some (l, h')
     /\ Ripples.wf l)
  /\ (exists l h', run Water.call acs Water.createWaterLayer h = Some (l, h')
     /\ Ripples.wf l).
Proof.
  split; [|split; [|split; [|split; [|split]]]].
  - apply (run_inv Bubbles.call Bubbles.wf Bubbles_call_wf). now split.
  - apply (run_inv Plasma.call Plasma.wf Plasma_call_wf). now split.
  - apply (run_inv Trees.call Trees.wf Trees_call_wf). now repeat split.
  - rewrite (bind_Some _ _ h _ (tick h)
               (eq_refl : Solar.createSolarLayer h = Some (Solar.initial _, tick h))).
    apply (run_inv (Solar.call setHSL) Solar.wf (Solar_call_wf setHSL)). now repeat split.
  - apply (run_inv Waves.call Ripples.wf Waves_call_wf). split; simpl; [lia | reflexivity].
  - apply (run_inv Water.call Ripples.wf Water_call_wf). split; simpl; [lia | reflexivity].
Qed.

(** C1 (capacity invariant).  Starting from the layer its constructor
    returns, any finite sequence of note-on, note-off and update calls
    runs to completion and leaves every pool at its fixed length
    (bubbles 100, plasma 100, trees 20, solar flares 48, solar waves 96),
    so the number of live slots is at most that capacity; the ripple
    lists of the wave and water layers never hold more than 30 ripples. *)
Theorem capacity_invariant (setHSL : R -> R -> R -> Color.t) (h : Host)
    (bcs : list Bubbles.Call) (pcs : list Plasma.Call) (tcs : list Trees.Call)
    (scs : list Solar.Call) (wcs : list Waves.Call) (acs : list Water.Call) :
  (exists l h', run Bubbles.call bcs Bubbles.createBubblesLayer h = Some (l, h')
     /\ length (Bubbles.bubbles l) = Bubbles.MAX_BUBBLES
     /\ (count_active Bubbles.active (Bubbles.bubbles l) <= Bubbles.MAX_BUBBLES)%nat)
  /\ (exists l h', run Plasma.call pcs Plasma.createPlasmaLayer h = Some (l, h')
     /\ length (Plasma.particles l) = Plasma.MAX_PARTICLES
     /\ (count_active Plasma.active (Plasma.particles l) <= Plasma.MAX_PARTICLES)%nat)
  /\ (exists l h', run Trees.call tcs Trees.createTreesLayer h = Some (l, h')
     /\ length (Trees.seeds l) = Trees.MAX_SEEDS
     /\ (count_active Trees.active (Trees.seeds l) <= Trees.MAX_SEEDS)%nat)
  /\ (exists l h',
       (l0 ← Solar.createSolarLayer; run (Solar.call setHSL) scs l0) h = Some (l, h')
     /\ length (Solar.flares l) = Solar.MAX_FLARES
     /\ (count_active Solar.active (Solar.flares l) <= Solar.MAX_FLARES)%nat
     /\ length (Solar.waves l) = Solar.MAX_WAVES
     /\ (count_active Solar.Wave.active (Solar.waves l) <= Solar.MAX_WAVES)%nat)
  /\ (exists l h', run Waves.call wcs Waves.createWavesLayer h = Some (l, h')
     /\ (length (Ripples.ripples l) <= 30)%nat)
  /\ (exists l h', run Water.call acs Water.createWaterLayer h = Some (l, h')
     /\ (length (Ripples.ripples l) <= 30)%nat).
Proof.
  destruct (reachable_wf setHSL h bcs pcs tcs scs wcs acs)
    as ((bl & hb & Eb & Hb & _) & (pl & hp & Ep & Hp & _) & (tl & ht & Et & Ht & _)
        & (sl & hs & Es & Hf & _ & Hw & _) & (wl & hw & Ew & Hwl & _)
        & (al & ha & Ea & Hal & _)).
  split; [|split; [|split; [|split; [|split]]]].
  - exists bl, hb. split; [exact Eb|]. split; [exact Hb|].
    rewrite <- Hb. apply count_active_le.
  - exists pl, hp. split; [exact Ep|]. split; [exact Hp|].
    rewrite <- Hp. apply count_active_le.
  - exists tl, ht. split; [exact Et|]. split; [exact Ht|].
    rewrite <- Ht. apply count_active_le.
  - exists sl, hs. split; [exact Es|]. split; [exact Hf|]. split.
    + rewrite <- Hf. apply count_active_le.
    + split; [exact Hw|]. rewrite <- Hw. apply count_active_le.
  - now exists wl, hw.
  - now exists al, ha.
Qed.

(** C4 (clamped delta).  For every layer state and every host (the same
    random draws and clock readings), an update with a delta of 50 ms or
    more, 10000 ms for one, returns exactly what an update with
    [deltaMs = 50] returns, and the step it applies is 0.05 seconds, not
    the delta: a live bubble moves by [velocity * 0.05] and ages by 0.05;
    a live plasma particle loses [0.25 * 0.05] of upward speed before
    the damping, moves by its new velocity times 0.05 and adds
    [0.05 * velocity.z] to its age ratio; a live seed that is not
    expired loses [0.05 * 2] of flash intensity; on the solar layer the
    flare boost decays by [0.05 * 0.35], the rotation advances by
    [rotSpeed * 0.05], a live flare moves by its damped velocity times
    0.05 and ages by [velocity.w * 0.05], and a live wave grows by
    [speed * 0.05] and widens by [0.02 * 0.05] up to 0.12.  The updates
    of the waves and water layers do not use the delta. *)
Theorem clamped_delta (bl : Bubbles.BubbleLayer) (pl : Plasma.PlasmaLayer)
    (tl : Trees.TreeLayer) (sl : Solar.SolarLayer) (wl al : Ripples.WaveLayer)
    (h : Host) (deltaMs : R) :
  50 <= deltaMs ->
  Bubbles.updateBubbles bl deltaMs h = Bubbles.updateBubbles bl 50 h
  /\ Plasma.updatePlasma pl deltaMs h = Plasma.updatePlasma pl 50 h
  /\ Trees.updateTrees tl deltaMs h = Trees.updateTrees tl 50 h
  /\ Solar.updateSolar sl deltaMs h = Solar.updateSolar sl 50 h
  /\ Waves.updateWaves wl deltaMs h = Waves.updateWaves wl 50 h
  /\ Water.updateWater al deltaMs h = Water.updateWater al 50 h
  /\ (Bubbles.wf bl ->
      exists bl', Bubbles.updateBubbles bl deltaMs h = Some (bl', h)
        /\ forall j b, Bubbles.bubbles bl !! j = Some b -> Bubbles.active b = true ->
             exists b', Bubbles.bubbles bl' !! j = Some b'
               /\ Vector4.y (Bubbles.data b')
                  = Vector4.y (Bubbles.data b) + Vector4.y (Bubbles.velocity b) * 0.05
               /\ Vector4.x (Bubbles.data b')
                  = Vector4.x (Bubbles.data b) + Vector4.x (Bubbles.velocity b) * 0.05
                    + sin (Bubbles.u_time bl * 1.5 + Vector4.y (Bubbles.data b') * 15)
                      * 0.0003
               /\ Bubbles.age b' = Bubbles.age b + 0.05)
  /\ (Plasma.wf pl ->
      exists pl' h', Plasma.updatePlasma pl deltaMs h = Some (pl', h')
        /\ forall j p, Plasma.particles pl !! j = Some p -> Plasma.active p = true ->
             exists p', Plasma.particles pl' !! j = Some p'
               /\ Vector4.y (Plasma.velocity p')
                  = (Vector4.y (Plasma.velocity p) - 0.25 * 0.05) * 0.98
               /\ Vector4.x (Plasma.data p')
                  = Vector4.x (Plasma.data p) + Vector4.x (Plasma.velocity p') * 0.05
               /\ Vector4.y (Plasma.data p')
                  = Vector4.y (Plasma.data p) + Vector4.y (Plasma.velocity p') * 0.05
               /\ Vector4.w (Plasma.data p')
                  = Vector4.w (Plasma.data p) + 0.05 * Vector4.z (Plasma.velocity p'))
  /\ (Trees.wf tl ->
      exists tl', Trees.updateTrees tl deltaMs h = Some (tl', tick h)
        /\ forall j s, Trees.seeds tl !! j = Some s -> Trees.active s = true ->
             now_src h (now_pos h) / 1000 - Vector4.z (Trees.data s) <= 20 ->
             exists s', Trees.seeds tl' !! j = Some s'
               /\ Vector4.w (Trees.colorData s')
                  = Rmax 0 (Vector4.w (Trees.colorData s) - 0.05 * 2))
  /\ (Solar.wf sl ->
      exists sl' h', Solar.updateSolar sl deltaMs h = Some (sl', h')
        /\ Solar.u_flareBoost sl' = Rmax 0 (Solar.u_flareBoost sl - 0.05 * 0.35)
        /\ Solar.u_rotation sl'
           = Solar.u_rotation sl + Solar.rotSpeed (Solar.state sl') * 0.05
        /\ (forall j f, Solar.flares sl !! j = Some f -> Solar.active f = true ->
              exists f', Solar.flares sl' !! j = Some f'
                /\ Vector4.x (Solar.data f')
                   = Vector4.x (Solar.data f) + Vector4.x (Solar.velocity f') * 0.05
                /\ Vector4.y (Solar.data f')
                   = Vector4.y (Solar.data f) + Vector4.y (Solar.velocity f') * 0.05
                /\ Vector4.w (Solar.data f')
                   = Vector4.w (Solar.data f) + Vector4.w (Solar.velocity f') * 0.05)
        /\ (forall j w, Solar.waves sl !! j = Some w -> Solar.Wave.active w = true ->
              exists w', Solar.waves sl' !! j = Some w'
                /\ Vector4.z (Solar.Wave.data w')
                   = Vector4.z (Solar.Wave.data w) + Solar.Wave.speed w * 0.05
                /\ Vector4.w (Solar.Wave.color w')
                   = Rmin 0.12 (Vector4.w (Solar.Wave.color w) + 0.02 * 0.05))).
Proof.
  intros Hdt. pose proof (big_step deltaMs Hdt) as Hstep.
  assert (Rmin (deltaMs / 1000) 0.05 = Rmin (50 / 1000) 0.05) as E by minmax.
  repeat match goal with |- _ = _ /\ _ => split end.
  1-6: unfold Bubbles.updateBubbles, Plasma.updatePlasma, Trees.updateTrees,
         Solar.updateSolar, Waves.updateWaves, Water.updateWater;
       rewrite ?E; reflexivity.
  split; [|split; [|split]].
  - intros Hwf.
    destruct (updateBubbles_spec bl deltaMs h Hwf) as (bl' & Eb & _ & _ & Hslots).
    exists bl'. split; [exact Eb|]. intros j b Hj Hon.
    destruct (Hslots j b Hj) as [Hb' _]. rewrite Hstep in Hb'.
    eexists. split; [exact Hb'|].
    destruct (bubble_step_moves (Bubbles.u_time bl) 0.05 b Hon) as (Hy & Hx & Ha & _).
    exact (conj Hy (conj Hx Ha)).
  - intros Hwf.
    destruct (updatePlasma_spec pl deltaMs h Hwf) as (pl' & Ep & _ & _ & Hslots).
    eexists pl', _. split; [exact Ep|]. intros j p Hj Hon.
    destruct Hwf as [Hlp Hlu].
    destruct (lookup_same_length (Plasma.u_particles pl) (Plasma.particles pl) j p)
      as [u Hu]; [congruence | exact Hj |].
    destruct (Hslots j p u Hj Hu) as [Hp' _]. rewrite Hstep in Hp'.
    eexists. split; [exact Hp'|].
    destruct (plasma_step_moves 0.05
                (plasma_draw (tick h) (Plasma.particles pl) j) p Hon) as (Hv & Hx & Hy & Hw).
    split; [now rewrite Hv|]. exact (conj Hx (conj Hy Hw)).
  - intros Hwf.
    destruct (updateTrees_spec tl deltaMs h Hwf) as (tl' & Et & _ & _ & Hslots).
    exists tl'. split; [exact Et|]. intros j s Hj Hon Hyoung.
    destruct (Hslots j s Hj) as (Hs' & _). rewrite Hstep in Hs'.
    eexists. split; [exact Hs'|].
    exact (proj2 (proj2 (tree_step_flash _ 0.05 s Hon Hyoung))).
  - intros Hwf.
    destruct (updateSolar_slots sl deltaMs h Hwf)
      as (ws & hs & sl' & h' & _ & Es & Hlive & Hwaves & Hflares & Hboost & Hrot).
    rewrite Hstep in Hwaves, Hflares, Hboost, Hrot.
    exists sl', h'. split; [exact Es|]. split; [exact Hboost|]. split; [exact Hrot|].
    split.
    + intros j f Hj Hon. eexists. split; [exact (Hflares j f Hj)|].
      destruct (flare_step_moves 0.05 f Hon) as (_ & Hx & Hy & Hw).
      exact (conj Hx (conj Hy Hw)).
    + intros j w Hj Hon. eexists. split; [exact (Hwaves j w (Hlive j w Hj Hon))|].
      exact (wave_step_moves 0.05 w Hon).
Qed.

Lemma clamped_delta_witness :
  50 <= 10000
  /\ Bubbles.wf two_bubble_layer /\ Plasma.wf hotspot_layer
  /\ Trees.wf two_seed_layer /\ Solar.wf held_layer
  /\ Bubbles.updateBubbles two_bubble_layer 10000 host_half
     = Bubbles.updateBubbles two_bubble_layer 50 host_half
  /\ (exists bl' b',
        Bubbles.updateBubbles two_bubble_layer 10000 host_half = Some (bl', host_half)
        /\ Bubbles.bubbles bl' !! 1%nat = Some b'
        /\ Vector4.y (Bubbles.data b') = 0.5 + 0.1 * 0.05
        /\ Bubbles.age b' = 0 + 0.05)
  /\ (exists pl' h' p',
        Plasma.updatePlasma hotspot_layer 10000 host_half = Some (pl', h')
        /\ Plasma.particles pl' !! 0%nat = Some p'
        /\ Vector4.y (Plasma.velocity p') = (0.1 + 0.5 * 0.1 - 0.25 * 0.05) * 0.98
        /\ Vector4.w (Plasma.data p') = 0 + 0.05 * Vector4.z (Plasma.velocity p'))
  /\ (exists tl' s',
        Trees.updateTrees two_seed_layer 10000 host_half = Some (tl', tick host_half)
        /\ Trees.seeds tl' !! 1%nat = Some s'
        /\ Vector4.w (Trees.colorData s') = Rmax 0 (1 - 0.05 * 2))
  /\ (exists sl' h' w',
        Solar.updateSolar held_layer 10000 host_half = Some (sl', h')
        /\ Solar.u_flareBoost sl' = Rmax 0 (0 - 0.05 * 0.35)
        /\ Solar.waves sl' !! 0%nat = Some w'
        /\ Vector4.z (Solar.Wave.data w') = 0.5 + 0.6 * 0.05
        /\ Vector4.w (Solar.Wave.color w') = Rmin 0.12 (0.05 + 0.02 * 0.05)).
Proof.
  assert (50 <= 10000) as H by lra.
  pose proof two_bubble_layer_wf as Hb. pose proof hotspot_layer_wf as Hp.
  pose proof two_seed_layer_wf as Ht. pose proof held_layer_wf as Hs.
  split; [exact H|]. split; [exact Hb|]. split; [exact Hp|]. split; [exact Ht|].
  split; [exact Hs|].
  destruct (clamped_delta two_bubble_layer hotspot_layer two_seed_layer held_layer
              Waves.createWavesLayer Water.createWaterLayer host_half 10000 H)
    as (Eb & _ & _ & _ & _ & _ & Hbub & Hpla & Htre & Hsol).
  split; [exact Eb|]. split; [|split; [|split]].
  - destruct (Hbub Hb) as (bl' & E & Hslots).
    destruct (Hslots 1%nat (bubble_aged 0) eq_refl eq_refl) as (b' & Hb' & Hy & _ & Ha).
    exists bl', b'. exact (conj E (conj Hb' (conj Hy Ha))).
  - destruct (Hpla Hp) as (pl' & h' & E & Hslots).
    destruct (Hslots 0%nat (new_hotspot 0.5 0 host_half) eq_refl eq_refl)
      as (p' & Hp' & Hvy & _ & _ & Hw).
    exists pl', h', p'. split; [exact E|]. split; [exact Hp'|]. split; [|exact Hw].
    rewrite Hvy. unfold new_hotspot, draw, host_half. simpl. lra.
  - destruct (Htre Ht) as (tl' & E & Hslots).
    destruct (Hslots 1%nat (seed_born 25) eq_refl eq_refl) as (s' & Hs' & Hf).
    { simpl. lra. }
    exists tl', s'. exact (conj E (conj Hs' Hf)).
  - destruct (Hsol Hs) as (sl' & h' & E & Hboost & _ & _ & Hwaves).
    destruct (Hwaves 0%nat live_wave eq_refl eq_refl) as (w' & Hw' & Hr & Hwd).
    exists sl', h', w'. exact (conj E (conj Hboost (conj Hw' (conj Hr Hwd)))).
Defined.

Lemma plasma_step_dead_size ds r p :
  Plasma.active (plasma_step ds r p) = false -> Plasma.active p = true ->
  Vector4.z (Plasma.data (plasma_step ds r p)) = 0.
Proof.
  unfold plasma_step. intros H Ha. rewrite Ha in *. simpl in *.
  case_decide; simpl in *; [reflexivity | discriminate].
Qed.

Lemma flare_step_dead_size dt f :
  Solar.active (flare_step dt f) = false -> Solar.active f = true ->
  Vector4.z (Solar.data (flare_step dt f)) = 0.
Proof.
  unfold flare_step. intros H Ha. rewrite Ha in *. simpl in *.
  case_decide; simpl in *; [reflexivity | discriminate].
Qed.

Lemma wave_step_dead_strength dt w :
  Solar.Wave.active (wave_step dt w) = false -> Solar.Wave.active w = true ->
  Vector4.w (Solar.Wave.data (wave_step dt w)) = 0.
Proof.
  unfold wave_step. intros H Ha. rewrite Ha in *. simpl in *.
  case_decide; simpl in *; [reflexivity | discriminate].
Qed.

(** C3 (zero on inactive).  After an update call on a layer whose arrays
    have their fixed lengths, every slot that is inactive has a zero
    primary magnitude channel in the uniform record of the same index:
    [z] (radius) in [u_bubbles], [z] (size) in [u_particles] and
    [u_flares], [w] (strength) in [u_waves]; for a tree seed the whole
    records of [u_seeds] and [u_seed_colors] are zero. *)
Theorem zero_on_inactive (bl : Bubbles.BubbleLayer) (pl : Plasma.PlasmaLayer)
    (tl : Trees.TreeLayer) (sl : Solar.SolarLayer) (dt : R) (h : Host) :
  Bubbles.wf bl -> Plasma.wf pl -> Trees.wf tl -> Solar.wf sl ->
  (exists bl' h', Bubbles.updateBubbles bl dt h = Some (bl', h')
     /\ forall j b, Bubbles.bubbles bl' !! j = Some b -> Bubbles.active b = false ->
          exists u, Bubbles.u_bubbles bl' !! j = Some u /\ Vector4.z u = 0)
  /\ (exists pl' h', Plasma.updatePlasma pl dt h = Some (pl', h')
     /\ forall j p, Plasma.particles pl' !! j = Some p -> Plasma.active p = false ->
          exists u, Plasma.u_particles pl' !! j = Some u /\ Vector4.z u = 0)
  /\ (exists tl' h', Trees.updateTrees tl dt h = Some (tl', h')
     /\ forall j s, Trees.seeds tl' !! j = Some s -> Trees.active s = false ->
          Trees.u_seeds tl' !! j = Some (Vector4.mk 0 0 0 0)
          /\ Trees.u_seed_colors tl' !! j = Some (Vector4.mk 0 0 0 0))
  /\ (exists sl' h', Solar.updateSolar sl dt h = Some (sl', h')
     /\ (forall j f, Solar.flares sl' !! j = Some f -> Solar.active f = false ->
          exists u, Solar.u_flares sl' !! j = Some u /\ Vector4.z u = 0)
     /\ (forall j w, Solar.waves sl' !! j = Some w -> Solar.Wave.active w = false ->
          exists u, Solar.u_waves sl' !! j = Some u /\ Vector4.w u = 0)).
Proof.
  intros Hb Hp Ht Hs. split; [|split; [|split]].
  - destruct (updateBubbles_spec bl dt h Hb) as (bl' & E & [Hlb' _] & _ & Hslots).
    exists bl', h. split; [exact E|]. intros j b Hj Hoff.
    destruct Hb as [Hlb _].
    destruct (lookup_same_length (Bubbles.bubbles bl) (Bubbles.bubbles bl') j b) as [b0 Hb0];
      [congruence | exact Hj |].
    destruct (Hslots j b0 Hb0) as [Hb' Hu']. rewrite Hj in Hb'. injection Hb' as ->.
    eexists. split; [exact Hu'|]. unfold bubble_record. now rewrite Hoff.
  - destruct (updatePlasma_spec pl dt h Hp) as (pl' & E & [Hlp' _] & _ & Hslots).
    eexists pl', _. split; [exact E|]. intros j p Hj Hoff.
    destruct Hp as [Hlp Hlu].
    destruct (lookup_same_length (Plasma.particles pl) (Plasma.particles pl') j p) as [p0 Hp0];
      [congruence | exact Hj |].
    destruct (lookup_same_length (Plasma.u_particles pl) (Plasma.particles pl) j p0) as [u0 Hu0];
      [congruence | exact Hp0 |].
    destruct (Hslots j p0 u0 Hp0 Hu0) as [Hp' Hu']. rewrite Hj in Hp'. injection Hp' as ->.
    eexists. split; [exact Hu'|]. unfold plasma_record.
    destruct (Plasma.active p0) eqn:Ea; [|reflexivity].
    now apply plasma_step_dead_size.
  - destruct (updateTrees_spec tl dt h Ht) as (tl' & E & (Hls' & _) & _ & Hslots).
    eexists tl', _. split; [exact E|]. intros j s Hj Hoff.
    destruct Ht as (Hls & _).
    destruct (lookup_same_length (Trees.seeds tl) (Trees.seeds tl') j s) as [s0 Hs0];
      [congruence | exact Hj |].
    destruct (Hslots j s0 Hs0) as (Hs' & Hu' & Hc'). rewrite Hj in Hs'. injection Hs' as ->.
    rewrite Hu', Hc'. unfold seed_record, seed_color_record. now rewrite Hoff.
  - destruct (updateSolar_spec sl dt h Hs)
      as (ws & hs & fs & us & ws' & uws & ucs & h' & E & Hhs & Hfs & Hus & Hws' & Huws
          & Hucs & Hfslots & Hwslots & Hlws).
    eexists _, _. split; [exact E|]. simpl.
    destruct Hs as (Hlf & Hluf & Hlw & Hluw & Hluc). split.
    + intros j f Hj Hoff.
      destruct (lookup_same_length (Solar.flares sl) fs j f) as [f0 Hf0];
        [congruence | exact Hj |].
      destruct (lookup_same_length (Solar.u_flares sl) (Solar.flares sl) j f0) as [u0 Hu0];
        [congruence | exact Hf0 |].
      destruct (Hfslots j f0 u0 Hf0 Hu0) as [Hf' Hu']. rewrite Hj in Hf'. injection Hf' as ->.
      eexists. split; [exact Hu'|]. unfold flare_record.
      destruct (Solar.active f0) eqn:Ea; [|reflexivity].
      now apply flare_step_dead_size.
    + intros j w Hj Hoff.
      destruct (lookup_same_length ws ws' j w) as [w0 Hw0]; [congruence | exact Hj |].
      destruct (lookup_same_length (Solar.u_waves sl) ws j w0) as [u0 Hu0];
        [congruence | exact Hw0 |].
      destruct (Hwslots j w0 u0 Hw0 Hu0) as [Hw' Hu']. rewrite Hj in Hw'. injection Hw' as ->.
      eexists. split; [exact Hu'|]. unfold wave_record.
      destruct (Solar.Wave.active w0) eqn:Ea; [|reflexivity].
      now apply wave_step_dead_strength.
Qed.


Lemma zero_on_inactive_witness :
  Bubbles.wf Bubbles.createBubblesLayer /\ Plasma.wf Plasma.createPlasmaLayer
  /\ Trees.wf Trees.createTreesLayer /\ Solar.wf (Solar.initial 0)
  /\ exists bl' h', Bubbles.updateBubbles Bubbles.createBubblesLayer 16 host_half = Some (bl', h')
       /\ forall j b, Bubbles.bubbles bl' !! j = Some b -> Bubbles.active b = false ->
            exists u, Bubbles.u_bubbles bl' !! j = Some u /\ Vector4.z u = 0.
Proof.
  assert (Bubbles.wf Bubbles.createBubblesLayer) as Hb by (split; reflexivity).
  assert (Plasma.wf Plasma.createPlasmaLayer) as Hp by (split; reflexivity).
  assert (Trees.wf Trees.createTreesLayer) as Ht by (repeat split; reflexivity).
  assert (Solar.wf (Solar.initial 0)) as Hs by (repeat split; reflexivity).
  repeat (split; [assumption|]).
  exact (proj1 (zero_on_inactive Bubbles.createBubblesLayer Plasma.createPlasmaLayer
                  Trees.createTreesLayer (Solar.initial 0) 16 host_half Hb Hp Ht Hs)).
Defined.

(** C10 (off-screen cull).  After [updateBubbles] every bubble that is
    still active has [data.y <= 1.1]; and an active bubble whose new [y]
    exceeds 1.1 is deactivated with a zero uniform record in that same
    call, whatever its age ratio. *)
Theorem bubbles_offscreen_cull (layer : Bubbles.BubbleLayer) (dt : R) (h : Host) :
  Bubbles.wf layer ->
  exists layer',
    Bubbles.updateBubbles layer dt h = Some (layer', h)
    /\ (forall j b, Bubbles.bubbles layer' !! j = Some b -> Bubbles.active b = true ->
          Vector4.y (Bubbles.data b) <= 1.1)
    /\ (forall j b0, Bubbles.bubbles layer !! j = Some b0 -> Bubbles.active b0 = true ->
          Vector4.y (Bubbles.data b0)
            + Vector4.y (Bubbles.velocity b0) * Rmin (dt / 1000) 0.05 > 1.1 ->
          exists b, Bubbles.bubbles layer' !! j = Some b /\ Bubbles.active b = false
                    /\ Bubbles.u_bubbles layer' !! j = Some (Vector4.mk 0 0 0 0)).
Proof.
  intros Hwf.
  destruct (updateBubbles_spec layer dt h Hwf) as (l' & E & [Hlb' _] & _ & Hslots).
  exists l'. split; [exact E|]. destruct Hwf as [Hlb _]. split.
  - intros j b Hj Hon.
    destruct (lookup_same_length (Bubbles.bubbles layer) (Bubbles.bubbles l') j b)
      as [b0 Hb0]; [congruence | exact Hj |].
    destruct (Hslots j b0 Hb0) as [Hb' _]. rewrite Hj in Hb'. injection Hb' as ->.
    revert Hon. unfold bubble_step.
    destruct (Bubbles.active b0) eqn:Ea; simpl.
    + case_decide as Hd; simpl; [discriminate|]. intros _. lra.
    + rewrite Ea. discriminate.
  - intros j b0 Hb0 Hon Hy.
    destruct (Hslots j b0 Hb0) as [Hb' Hu'].
    eexists. split; [exact Hb'|].
    rewrite Hu'. unfold bubble_record, bubble_step. rewrite Hon. simpl.
    case_decide as Hd; simpl; [now split|]. exfalso. apply Hd. now right.
Qed.

Lemma bubbles_offscreen_cull_witness :
  Bubbles.wf two_bubble_layer
  /\ exists layer' b0 b1,
       Bubbles.updateBubbles two_bubble_layer 16 host_half = Some (layer', host_half)
       /\ Bubbles.bubbles layer' !! 0%nat = Some b0 /\ Bubbles.active b0 = false
       /\ Bubbles.u_bubbles layer' !! 0%nat = Some (Vector4.mk 0 0 0 0)
       /\ Bubbles.bubbles layer' !! 1%nat = Some b1 /\ Bubbles.active b1 = true
       /\ Vector4.y (Bubbles.data b1) <= 1.1.
Proof.
  pose proof two_bubble_layer_wf as Hb.
  split; [exact Hb|].
  destruct (bubbles_offscreen_cull two_bubble_layer 16 host_half Hb)
    as (l' & E & Hy & Hcull).
  destruct (Hcull 0%nat leaving_bubble eq_refl eq_refl) as (b0 & Hb0 & Hoff & Hu).
  { simpl. replace (Rmin (16 / 1000) 0.05) with 0.016 by minmax. lra. }
  destruct (updateBubbles_spec two_bubble_layer 16 host_half Hb)
    as (l'' & E' & _ & _ & Hslots).
  rewrite E in E'. injection E' as <-.
  destruct (Hslots 1%nat (bubble_aged 0) eq_refl) as [Hb1 _].
  assert (Bubbles.active (bubble_step (Bubbles.u_time two_bubble_layer)
                            (Rmin (16 / 1000) 0.05) (bubble_aged 0)) = true) as Hon.
  { apply bubble_step_live; [reflexivity | |];
      simpl; replace (Rmin (16 / 1000) 0.05) with 0.016 by minmax; lra. }
  eexists l', b0, _. split; [exact E|]. split; [exact Hb0|]. split; [exact Hoff|].
  split; [exact Hu|]. split; [exact Hb1|]. split; [exact Hon|].
  exact (Hy 1%nat _ Hb1 Hon).
Defined.

(** C9 (spurious note-off).  When [midiNote] has no entry in [holds],
    [onSolarNoteOff] reads no clock, spawns no wave and returns the layer
    with [midiNote] removed from [activeNotes] and nothing else changed;
    if the note was not in [activeNotes] either, the layer is returned
    as it was.  After any note-off the note has no entry in [holds], so
    a second note-off for the same note is such a call. *)
Theorem solar_noteoff_without_hold (l : Solar.SolarLayer) (midiNote : Z) (h : Host) :
  JsMap.get midiNote (Solar.holds (Solar.state l)) = None ->
  let l' := Solar.set_state l
              (Solar.set_activeNotes (Solar.state l)
                 (Solar.activeNotes (Solar.state l) ∖ {[ midiNote ]})) in
  Solar.onSolarNoteOff l midiNote h = Some (l', h)
  /\ (midiNote ∉ Solar.activeNotes (Solar.state l'))
  /\ Solar.waves l' = Solar.waves l /\ Solar.flares l' = Solar.flares l
  /\ Solar.holds (Solar.state l') = Solar.holds (Solar.state l)
  /\ ((midiNote ∉ Solar.activeNotes (Solar.state l)) -> l' = l)
  /\ (forall l2 h2, Solar.onSolarNoteOff l' midiNote h = Some (l2, h2) ->
        JsMap.get midiNote (Solar.holds (Solar.state l2)) = None).
Proof.
  intros Hget l'.
  split.
  { unfold Solar.onSolarNoteOff. rewrite Hget. reflexivity. }
  split.
  { simpl. intros [_ Hn]%elem_of_difference. apply Hn. now apply elem_of_singleton. }
  split; [reflexivity|]. split; [reflexivity|]. split; [reflexivity|].
  split.
  - intros Hnot. unfold l'.
    rewrite difference_disjoint_L by now apply disjoint_singleton_r.
    destruct l as [? ? ? ? ? ? ? ? ? ? st]. now destruct st.
  - intros l2 h2 E.
    destruct (onSolarNoteOff_spec l' midiNote h) as (ws & hs & h3 & E' & _ & Hnone).
    rewrite E in E'. injection E' as -> _. exact Hnone.
Qed.

Lemma solar_noteoff_without_hold_witness :
  JsMap.get 60%Z (Solar.holds (Solar.state (Solar.initial 0))) = None
  /\ Solar.onSolarNoteOff (Solar.initial 0) 60 host_half = Some (Solar.initial 0, host_half).
Proof.
  assert (JsMap.get 60%Z (Solar.holds (Solar.state (Solar.initial 0))) = None) as Hg
    by reflexivity.
  split; [exact Hg|].
  destruct (solar_noteoff_without_hold (Solar.initial 0) 60 host_half Hg)
    as (E & _ & _ & _ & _ & Hsame & _).
  rewrite E, Hsame; [reflexivity|]. simpl. apply not_elem_of_empty.
Defined.

(** ** Solar: the statistics stay bounded *)

Lemma derive_params_unit l dt :
  let P := Solar.u_params (Solar.derive l dt) in
  unit_interval (Vector4.x P) /\ unit_interval (Vector4.y P)
  /\ unit_interval (Vector4.z P) /\ unit_interval (Vector4.w P).
Proof.
  simpl. unfold unit_interval. repeat split; apply clamp_bounds; lra.
Qed.

Lemma Solar_call_bounded setHSL lo hi l c h :
  note_in lo hi c ->
  Solar.wf l /\ solar_bounded lo hi l ->
  exists l' h', Solar.call setHSL l c h = Some (l', h')
                /\ Solar.wf l' /\ solar_bounded lo hi l'.
Proof.
  intros Hc [Hwf (He & Hp & Hx & Hy & Hz & Hw)].
  destruct c as [n v|n|dtMs]; simpl in *.
  - destruct (onSolarNoteOn_spec setHSL l n v h)
      as (l' & h' & rb & E & Hf & Hwv & Huf & Huw & Huc & Hpar & Hrb & Hen & Hpi & _).
    exists l', h'. split; [exact E|]. split.
    + destruct Hwf as (? & ? & ? & ? & ?). repeat split; congruence.
    + unfold solar_bounded. rewrite Hen, Hpi, Hpar.
      split; [|split; [lra | exact (conj Hx (conj Hy (conj Hz Hw)))]].
      apply lerp_between; [lra | exact He |].
      pose proof (clamp_bounds v 0 127 ltac:(lra)) as Hv.
      assert (0 <= MathUtils.clamp v 0 127 / 127 <= 1) as Hv1 by lra.
      nra.
  - destruct (onSolarNoteOff_spec l n h) as (ws & hs & h' & E & Hws & _).
    eexists _, _. split; [exact E|]. split.
    + destruct Hwf as (? & ? & ? & ? & ?). repeat split; simpl; congruence.
    + exact (conj He (conj Hp (conj Hx (conj Hy (conj Hz Hw))))).
  - destruct (updateSolar_wf l dtMs h Hwf)
      as (l' & h' & E & Hwf' & Hen & Hpi & _ & _ & Hpar).
    exists l', h'. split; [exact E|]. split; [exact Hwf'|].
    unfold solar_bounded. rewrite Hen, Hpi, Hpar.
    split; [exact He|]. split; [exact Hp|]. apply derive_params_unit.
Qed.

(** C7 (EMA boundedness).  From the layer [createSolarLayer] returns, any
    finite sequence of note-on, note-off and update calls whose note-on
    notes lie in a range [[lo, hi]] around the initial pitch 60 (the MIDI
    range [[0, 127]] for one) runs to completion with
    [0 <= emaEnergy <= 3], [lo <= emaPitch <= hi] and each of brightness,
    noiseScale, turbulence and corona in [u_params] within [[0, 1]].  The
    velocity needs no assumption: the code clamps it to [[0, 127]]. *)
Theorem ema_bounded (setHSL : R -> R -> R -> Color.t) (lo hi : R)
    (cs : list Solar.Call) (h : Host) :
  lo <= 60 <= hi ->
  Forall (note_in lo hi) cs ->
  exists l h',
    (l0 ← Solar.createSolarLayer; run (Solar.call setHSL) cs l0) h = Some (l, h')
    /\ solar_bounded lo hi l.
Proof.
  intros Hrange Hcs.
  rewrite (bind_Some _ _ h _ (tick h)
             (eq_refl : Solar.createSolarLayer h = Some (Solar.initial _, tick h))).
  destruct (run_inv_pre (Solar.call setHSL) (note_in lo hi)
              (fun l => Solar.wf l /\ solar_bounded lo hi l)
              (fun s c h1 Hc Hs => Solar_call_bounded setHSL lo hi s c h1 Hc Hs)
              cs (Solar.initial (now_src h (now_pos h))) (tick h) Hcs)
    as (l & h' & E & _ & Hb).
  - split; [now repeat split|].
    unfold solar_bounded, unit_interval. simpl. repeat split; lra.
  - now exists l, h'.
Qed.

Lemma ema_bounded_witness :
  0 <= 60 <= 127
  /\ Forall (note_in 0 127) [Solar.NoteOn 60 100; Solar.NoteOn 72 127; Solar.Update 16]
  /\ exists l h',
       (l0 ← Solar.createSolarLayer;
        run (Solar.call (fun _ _ _ => Color.mk 1 1 1))
          [Solar.NoteOn 60 100; Solar.NoteOn 72 127; Solar.Update 16] l0) host_half
         = Some (l, h')
       /\ solar_bounded 0 127 l.
Proof.
  assert (0 <= 60 <= 127) as Hr by lra.
  assert (Forall (note_in 0 127)
            [Solar.NoteOn 60 100; Solar.NoteOn 72 127; Solar.Update 16]) as Hcs.
  { repeat constructor; simpl; lra. }
  split; [exact Hr|]. split; [exact Hcs|].
  exact (ema_bounded (fun _ _ _ => Color.mk 1 1 1) 0 127 _ host_half Hr Hcs).
Defined.

(** ** Plasma: a hotspot and its first frame *)

Lemma noteOn_count_0 : Plasma.noteOn_count 0 = 1%Z.
Proof.
  unfold Plasma.noteOn_count. rewrite (Zfloor_eq 0); [reflexivity|]. simpl. lra.
Qed.

Lemma first_hotspot :
  Plasma.onPlasmaNoteOn Plasma.createPlasmaLayer 0.5 0 host_half =
    Some (Plasma.set_particles Plasma.createPlasmaLayer
            (<[0%nat := new_hotspot 0.5 0 host_half]>
               (Plasma.particles Plasma.createPlasmaLayer)),
          skip_random 3 host_half).
Proof.
  unfold Plasma.onPlasmaNoteOn. rewrite noteOn_count_0.
  change (Z.to_nat 1) with 1%nat. unfold for_range, for_loop.
  rewrite (bind_Some _ _ _ _ _ (addHotspot_spec Plasma.createPlasmaLayer 0.5 0 host_half)).
  reflexivity.
Qed.

Lemma first_hotspot_values :
  let p := new_hotspot 0.5 0 host_half in
  Plasma.active p = true
  /\ Vector4.w (Plasma.data p) = 0
  /\ Vector4.y (Plasma.velocity p) = 0.15
  /\ Vector4.z (Plasma.velocity p) = 4
  /\ Vector4.w (Plasma.velocity p) = 1 / 4.
Proof.
  unfold new_hotspot, draw, host_half. simpl. repeat split; lra.
Qed.

Lemma plasma_step_active_age ds r p :
  Plasma.active p = true ->
  Vector4.w (Plasma.data (plasma_step ds r p)) =
    Vector4.w (Plasma.data p) + ds * (Vector4.z (Plasma.velocity p) * 0.98)
  /\ Plasma.velocity (plasma_step ds r p) =
       Vector4.mk ((Vector4.x (Plasma.velocity p) + (r - 0.5) * 0.2 * ds) * 0.98)
                  ((Vector4.y (Plasma.velocity p) - 0.25 * ds) * 0.98)
                  (Vector4.z (Plasma.velocity p) * 0.98)
                  (Vector4.w (Plasma.velocity p) * 0.98).
Proof.
  intros Ha. unfold plasma_step. rewrite Ha. simpl.
  case_decide; simpl; split; reflexivity.
Qed.

(** C2 (age-ratio accumulation), evaluated on the code.  A hotspot spawned
    on the fresh plasma layer with [Math.random()] answering 1/2 has
    lifespan [L = 2.5 + 0.5 * 3 = 4]; its [velocity] holds [L] in [z] and
    [1 / L] in [w].  One [updatePlasma(50)] (a step of 0.05 s) scales
    [velocity] by 0.98 and adds [0.05 * velocity.z] to [data.w], which
    becomes [0.05 * (4 * 0.98) = 0.196], whereas [dt / L] is 0.0125. *)
Theorem plasma_hotspot_first_frame :
  exists l h' p,
    run Plasma.call [Plasma.NoteOn 0.5 0; Plasma.Update 50]
      Plasma.createPlasmaLayer host_half = Some (l, h')
    /\ Plasma.particles l !! 0%nat = Some p
    /\ Vector4.w (Plasma.data p) = 0.196
    /\ Vector4.z (Plasma.velocity (new_hotspot 0.5 0 host_half)) = 4
    /\ 0.05 / 4 = 0.0125.
Proof.
  set (l1 := Plasma.set_particles Plasma.createPlasmaLayer
               (<[0%nat := new_hotspot 0.5 0 host_half]>
                  (Plasma.particles Plasma.createPlasmaLayer))).
  assert (Plasma.wf l1) as Hwf by (split; reflexivity).
  destruct (updatePlasma_spec l1 50 (skip_random 3 host_half) Hwf)
    as (l2 & E & _ & _ & Hslots).
  destruct (Hslots 0%nat (new_hotspot 0.5 0 host_half) Vector4.new eq_refl eq_refl)
    as [Hp _].
  destruct first_hotspot_values as (Ha & Hw & _ & Hz & _).
  eexists l2, _, _. split; [|split; [exact Hp|split; [|split; [exact Hz | lra]]]].
  - simpl. rewrite (bind_Some _ _ _ _ _ first_hotspot). fold l1.
    rewrite (bind_Some _ _ _ _ _ E). reflexivity.
  - rewrite (proj1 (plasma_step_active_age _ _ _ Ha)), Hw, Hz.
    replace (Rmin (50 / 1000) 0.05) with 0.05 by minmax.
    lra.
Qed.

(** The sibling loop over solar flares does use the inverse lifespan:
    a flare spawned with lifespan [life] ages by [dt / life] per frame. *)
Lemma flare_age_step x y size life h dt :
  Vector4.w (Solar.data (flare_step dt (new_flare x y size life h))) = 0 + 1 / life * dt.
Proof.
  unfold flare_step, new_flare. simpl. case_decide; reflexivity.
Qed.







(** ** Spawning into a full pool *)

Lemma bubble_slot_full bs :
  (forall j b, bs !! j = Some b -> Bubbles.active b = true) -> bubble_slot bs = 0%nat.
Proof.
  intros Hall. unfold bubble_slot. rewrite find_index_is_None; [reflexivity|].
  intros i a Ha. now rewrite (Hall i a Ha).
Qed.

Lemma full_flare_layer_live j f :
  Solar.flares full_flare_layer !! j = Some f ->
  f = Solar.mkFlare (Vector4.mk 0 0 0.1 0) (Vector4.mk 0 0 2 0.5) true.
Proof.
  change (Solar.flares full_flare_layer)
    with (replicate Solar.MAX_FLARES
            (Solar.mkFlare (Vector4.mk 0 0 0.1 0) (Vector4.mk 0 0 2 0.5) true)).
  intros Hj. apply lookup_replicate in Hj. tauto.
Qed.

Lemma full_bubble_layer_live j b :
  Bubbles.bubbles full_bubble_layer !! j = Some b -> Bubbles.active b = true.
Proof.
  change (Bubbles.bubbles full_bubble_layer)
    with (bubble_aged 0 :: replicate 99 (bubble_aged 5)).
  destruct j as [|j].
  - intros [= <-]. reflexivity.
  - change ((bubble_aged 0 :: replicate 99 (bubble_aged 5)) !! S j)
      with (replicate 99 (bubble_aged 5) !! j).
    intros Hj. apply lookup_replicate in Hj as [-> _]. reflexivity.
Qed.

(** C5, as stated, fails.  With all 48 flare slots live, [spawnFlare]
    returns the layer as it was: the spawn is dropped and no slot holds
    the new flare.  With all 100 bubble slots live, slot 0 holding the
    youngest bubble (age 0) and the others age 5, [onBubbleNoteOn]
    replaces slot 0 and the older bubble of slot 1 stays. *)
Lemma spawn_on_full_counterexample :
  (forall j f, Solar.flares full_flare_layer !! j = Some f -> Solar.active f = true)
  /\ Solar.spawnFlare full_flare_layer 0.5 0.5 0.3 2.6 host_half
      = Some (full_flare_layer, host_half)
  /\ (forall j, Solar.flares full_flare_layer !! j
                <> Some (new_flare 0.5 0.5 0.3 2.6 host_half))
  /\ (forall j b, Bubbles.bubbles full_bubble_layer !! j = Some b -> Bubbles.active b = true)
  /\ exists l h', Bubbles.onBubbleNoteOn full_bubble_layer 100 0 host_half = Some (l, h')
       /\ Bubbles.bubbles full_bubble_layer !! 0%nat = Some (bubble_aged 0)
       /\ Bubbles.bubbles l !! 0%nat = Some (new_bubble 100 0 host_half)
       /\ Bubbles.bubbles l !! 1%nat = Some (bubble_aged 5).
Proof.
  pose proof full_flare_layer_live as Hfl.
  pose proof full_bubble_layer_live as Hbl.
  split; [intros j f Hj; now rewrite (Hfl j f Hj)|].
  split.
  { rewrite spawnFlare_spec, find_index_is_None; [reflexivity|].
    intros j f Hj. now rewrite (Hfl j f Hj). }
  split.
  { intros j Hj. apply Hfl in Hj. unfold new_flare in Hj.
    apply (f_equal (fun f => Vector4.z (Solar.data f))) in Hj. simpl in Hj. lra. }
  split; [exact Hbl|].
  eexists _, _. split.
  - apply onBubbleNoteOn_spec. simpl. lia.
  - rewrite (bubble_slot_full _ Hbl). repeat split; reflexivity.
Qed.

(** C5, amended.  When no bubble slot is inactive, [onBubbleNoteOn] still
    succeeds: it overwrites one occupied slot with the new instance
    (active, age 0) and leaves every other slot as it was.  When no flare
    slot is inactive, [spawnFlare] drops the spawn: the layer and the
    host are returned unchanged. *)
Theorem spawn_on_full (bl : Bubbles.BubbleLayer) (vel hue : R)
    (sl : Solar.SolarLayer) (x y size life : R) (h : Host) :
  Bubbles.wf bl ->
  (forall j b, Bubbles.bubbles bl !! j = Some b -> Bubbles.active b = true) ->
  (forall j f, Solar.flares sl !! j = Some f -> Solar.active f = true) ->
  (exists i old bl' h',
     Bubbles.onBubbleNoteOn bl vel hue h = Some (bl', h')
     /\ Bubbles.bubbles bl !! i = Some old
     /\ Bubbles.bubbles bl' !! i = Some (new_bubble vel hue h)
     /\ Bubbles.active (new_bubble vel hue h) = true
     /\ Bubbles.age (new_bubble vel hue h) = 0
     /\ length (Bubbles.bubbles bl') = length (Bubbles.bubbles bl)
     /\ (forall j, j <> i -> Bubbles.bubbles bl' !! j = Bubbles.bubbles bl !! j))
  /\ Solar.spawnFlare sl x y size life h = Some (sl, h).
Proof.
  intros [Hlb Hlu] Hball Hfall. split.
  - assert (0 < length (Bubbles.bubbles bl))%nat as Hpos
      by (rewrite Hlb; unfold Bubbles.MAX_BUBBLES; lia).
    pose proof (bubble_slot_lt _ Hpos) as Hslot.
    destruct (lookup_lt_is_Some_2 _ _ Hslot) as [old Hold].
    exists (bubble_slot (Bubbles.bubbles bl)), old. eexists _, _.
    split; [now apply onBubbleNoteOn_spec|]. simpl.
    split; [exact Hold|].
    split; [now apply list_lookup_insert_eq|].
    split; [reflexivity|]. split; [reflexivity|].
    split; [apply length_insert|].
    intros j Hj. now apply list_lookup_insert_ne.
  - rewrite spawnFlare_spec, find_index_is_None; [reflexivity|].
    intros j f Hj. now rewrite (Hfall j f Hj).
Qed.

Lemma spawn_on_full_witness :
  Bubbles.wf full_bubble_layer
  /\ (forall j b, Bubbles.bubbles full_bubble_layer !! j = Some b -> Bubbles.active b = true)
  /\ (forall j f, Solar.flares full_flare_layer !! j = Some f -> Solar.active f = true)
  /\ Solar.spawnFlare full_flare_layer 0.5 0.5 0.3 2.6 host_half
      = Some (full_flare_layer, host_half).
Proof.
  assert (Bubbles.wf full_bubble_layer) as Hwf by (split; reflexivity).
  pose proof full_bubble_layer_live as Hbl.
  assert (forall j f, Solar.flares full_flare_layer !! j = Some f ->
            Solar.active f = true) as Hfl.
  { intros j f Hj. now rewrite (full_flare_layer_live j f Hj). }
  split; [exact Hwf|]. split; [exact Hbl|]. split; [exact Hfl|].
  exact (proj2 (spawn_on_full full_bubble_layer 100 0 full_flare_layer
                  0.5 0.5 0.3 2.6 host_half Hwf Hbl Hfl)).
Defined.

(** ** Note-off bursts *)

Lemma Zfloor_lt (x : R) (z : Z) : x < IZR z -> (Zfloor x < z)%Z.
Proof.
  intros H. apply lt_IZR. pose proof (Zfloor_bound x). lra.
Qed.

Lemma Zfloor_nonneg (x : R) : 0 <= x -> (0 <= Zfloor x)%Z.
Proof. intros H. apply Zfloor_lub. simpl. exact H. Qed.

Lemma flareVel_bounds vel heldMs :
  0 <= vel <= 127 -> 0 <= heldMs ->
  vel <= Plasma.flareVel vel heldMs <= 127.
Proof.
  intros Hv Hh. unfold Plasma.flareVel. minmax.
Qed.

Lemma flareVel_mono vel heldMs heldMs2 :
  heldMs <= heldMs2 -> Plasma.flareVel vel heldMs <= Plasma.flareVel vel heldMs2.
Proof.
  intros H. unfold Plasma.flareVel. minmax.
Qed.

Lemma noteOff_count_mono vel heldMs heldMs2 :
  heldMs <= heldMs2 ->
  (Plasma.noteOff_count vel heldMs <= Plasma.noteOff_count vel heldMs2)%Z.
Proof.
  intros H. unfold Plasma.noteOff_count.
  pose proof (flareVel_mono vel _ _ H) as Hm.
  assert (Zfloor (Plasma.flareVel vel heldMs / 127 * 10)
          <= Zfloor (Plasma.flareVel vel heldMs2 / 127 * 10))%Z
    by (apply Zfloor_le; lra).
  lia.
Qed.

Lemma noteOn_lt_noteOff vel heldMs :
  0 <= vel <= 127 -> 0 <= heldMs ->
  (Plasma.noteOn_count vel < Plasma.noteOff_count vel heldMs)%Z.
Proof.
  intros Hv Hh. unfold Plasma.noteOn_count, Plasma.noteOff_count.
  pose proof (flareVel_bounds vel heldMs Hv Hh) as Hf.
  destruct (Rlt_dec vel 127) as [Hlt|Hge].
  - assert (Zfloor (vel / 127 * 2) < 2)%Z by (apply Zfloor_lt; simpl; lra).
    assert (0 <= Zfloor (Plasma.flareVel vel heldMs / 127 * 10))%Z
      by (apply Zfloor_nonneg; lra).
    lia.
  - assert (Zfloor (vel / 127 * 2) < 3)%Z by (apply Zfloor_lt; simpl; lra).
    assert (10 <= Zfloor (Plasma.flareVel vel heldMs / 127 * 10))%Z
      by (apply Zfloor_lub; simpl; lra).
    lia.
Qed.

(** C6, as stated, fails on the wave layer, which handles note-off by
    spawning: for [vel = 0] and [heldMs = 300] its boosted velocity is
    [min(127, 0 + min(100, 300 / 15)) = 20], not
    [min(127, 0 + 300 / 25) = 12]; and whatever the held duration, its
    note-off adds one ripple, so the count does not scale. *)
Lemma noteoff_boost_counterexample :
  Waves.noteOff_strength 0 300 = 20
  /\ Rmin 127 (0 + 300 / 25) = 12
  /\ forall heldMs, exists l h',
       Waves.onWaveNoteOff Waves.createWavesLayer 0.5 0 heldMs host_half = Some (l, h')
       /\ length (Ripples.ripples l) = 1%nat.
Proof.
  split; [|split].
  - unfold Waves.noteOff_strength. minmax.
  - minmax.
  - intros heldMs. eexists _, _. split; reflexivity.
Qed.

Lemma noteOn_count_range vel :
  0 <= vel <= 127 -> (1 <= Plasma.noteOn_count vel <= 3)%Z.
Proof.
  intros Hv. unfold Plasma.noteOn_count.
  assert (0 <= Zfloor (vel / 127 * 2))%Z by (apply Zfloor_nonneg; lra).
  assert (Zfloor (vel / 127 * 2) < 3)%Z by (apply Zfloor_lt; simpl; lra).
  lia.
Qed.

Lemma noteOff_count_range vel heldMs :
  0 <= vel <= 127 -> 0 <= heldMs -> (3 <= Plasma.noteOff_count vel heldMs <= 13)%Z.
Proof.
  intros Hv Hh. unfold Plasma.noteOff_count.
  pose proof (flareVel_bounds vel heldMs Hv Hh) as Hf.
  assert (0 <= Zfloor (Plasma.flareVel vel heldMs / 127 * 10))%Z
    by (apply Zfloor_nonneg; lra).
  assert (Zfloor (Plasma.flareVel vel heldMs / 127 * 10) < 11)%Z
    by (apply Zfloor_lt; simpl; lra).
  lia.
Qed.

(** The count the model computes, [base + floor q], is a [floor_count]. *)
Lemma floor_count_Zfloor (base : Z) (q : R) :
  (0 <= base)%Z -> 0 <= q ->
  floor_count (IZR base) q (Z.to_nat (base + Zfloor q)).
Proof.
  intros Hbase Hq. unfold floor_count.
  pose proof (Zfloor_nonneg q Hq) as Hf.
  rewrite INR_IZR_INZ, Z2Nat.id by lia. rewrite plus_IZR.
  pose proof (Zfloor_bound q) as [Hlo Hhi]. lra.
Qed.

(** Away from the integers a [floor_count] is determined. *)
Lemma floor_count_unique base q c (n : nat) :
  floor_count base q c -> INR n + 1e-9 <= base + q < INR n + 1 - 1e-9 -> c = n.
Proof.
  unfold floor_count. intros [Hlo Hhi] [Hn1 Hn2].
  assert (INR n - 1 < INR c < INR n + 1) as [H1 H2] by lra.
  assert (n < S c)%nat by (apply INR_lt; rewrite S_INR; lra).
  assert (c < S n)%nat by (apply INR_lt; rewrite S_INR; lra).
  lia.
Qed.

(** A loop of spawn attempts leaves in every slot what it held or an
    instance the loop wrote. *)
Lemma spawn_loop_slots (spawn : Plasma.PlasmaLayer -> M Plasma.PlasmaLayer)
    (new : Host -> Plasma.PlasmaParticleData) (Q : Plasma.PlasmaParticleData -> Prop)
    n layer h :
  (forall l h1,
     spawn l h1 =
       match find_index (fun p => negb (Plasma.active p)) (Plasma.particles l) with
       | None => Some (l, h1)
       | Some i => Some (Plasma.set_particles l (<[i := new h1]> (Plasma.particles l)),
                         skip_random 3 h1)
       end) ->
  (forall h1, Q (new h1)) ->
  exists ps h',
    for_range n (fun _ l => spawn l) layer h = Some (Plasma.set_particles layer ps, h')
    /\ forall j p, ps !! j = Some p -> Plasma.particles layer !! j = Some p \/ Q p.
Proof.
  intros Hspawn Hnew.
  destruct (for_range_inv
    (fun _ l _ => exists ps, l = Plasma.set_particles layer ps
       /\ forall j p, ps !! j = Some p -> Plasma.particles layer !! j = Some p \/ Q p)
    (fun _ l => spawn l) n layer h) as (l' & h' & E & ps & -> & Hps).
  - exists (Plasma.particles layer). split; [now destruct layer|]. intros j p Hj. now left.
  - intros j l1 h1 _ (ps & -> & Hps).
    rewrite Hspawn. simpl.
    destruct (find_index _ ps) as [i|].
    + eexists _, _. split; [reflexivity|].
      eexists. split; [reflexivity|]. intros k p Hk.
      destruct (decide (k = i)) as [->|Hne].
      * apply list_lookup_insert_Some in Hk as [(_ & <- & _)|[Hne _]]; [|congruence].
        right. apply Hnew.
      * rewrite list_lookup_insert_ne in Hk by congruence. now apply Hps.
    + eexists _, _. split; [reflexivity|]. now exists ps.
  - now exists ps, h'.
Qed.

(** C6, amended.  On the plasma layer a note-off with velocity [vel] in
    [[0, 127]] held for [heldMs >= 0] uses the boosted velocity
    [min(127, vel + heldMs / 25)]: every spark it writes has the size
    [0.05 + boosted / 127 * 0.08], and it makes
    [3 + floor(boosted / 127 * 10)] spawn attempts, each of which takes a
    free slot if there is one, so that the number of live slots grows by
    that count, up to the capacity.  The quotient is a rounded one: the
    count is stated up to [1e-9] in the quotient ([floor_count]), and is
    13 as soon as [vel + heldMs / 25] reaches 127.  The count is
    non-decreasing in [heldMs] and strictly larger than the note-on
    count [1 + floor(vel / 127 * 2)].  The wave and water layers boost by
    [min(127, vel + min(100, heldMs / 15))] and
    [min(127, vel + min(80, heldMs / 20))] and append exactly one ripple
    whose strength carries the boost. *)
Theorem noteoff_burst (pl : Plasma.PlasmaLayer) (wl al : Ripples.WaveLayer)
    (xNorm vel heldMs heldMs2 : R) (h : Host) :
  Plasma.wf pl -> 0 <= vel <= 127 -> 0 <= heldMs <= heldMs2 ->
  (exists (c_on c_off c_off2 : nat) pl_on h_on pl_off h_off pl_off2 h_off2,
     Plasma.onPlasmaNoteOn pl xNorm vel h = Some (pl_on, h_on)
     /\ Plasma.onPlasmaNoteOff pl xNorm vel heldMs h = Some (pl_off, h_off)
     /\ Plasma.onPlasmaNoteOff pl xNorm vel heldMs2 h = Some (pl_off2, h_off2)
     /\ floor_count 1 (vel / 127 * 2) c_on
     /\ floor_count 3 (Rmin 127 (vel + heldMs / 25) / 127 * 10) c_off
     /\ floor_count 3 (Rmin 127 (vel + heldMs2 / 25) / 127 * 10) c_off2
     /\ count_active Plasma.active (Plasma.particles pl_on)
        = Nat.min Plasma.MAX_PARTICLES
            (count_active Plasma.active (Plasma.particles pl) + c_on)
     /\ count_active Plasma.active (Plasma.particles pl_off)
        = Nat.min Plasma.MAX_PARTICLES
            (count_active Plasma.active (Plasma.particles pl) + c_off)
     /\ count_active Plasma.active (Plasma.particles pl_off2)
        = Nat.min Plasma.MAX_PARTICLES
            (count_active Plasma.active (Plasma.particles pl) + c_off2)
     /\ (c_off <= c_off2)%nat
     /\ (c_on < c_off)%nat
     /\ (127 <= vel + heldMs / 25 -> c_off = 13%nat)
     /\ forall j p, Plasma.particles pl_off !! j = Some p ->
          Plasma.particles pl !! j = Some p
          \/ (Plasma.active p = true
              /\ Plasma.data p
                 = Vector4.mk xNorm 0.5
                     (0.05 + Rmin 127 (vel + heldMs / 25) / 127 * 0.08) 0))
  /\ (exists rs r wl' h', Waves.onWaveNoteOff wl xNorm vel heldMs h = Some (wl', h')
     /\ Ripples.ripples wl' = rs ++ [r]
     /\ (length rs <= length (Ripples.ripples wl))%nat
     /\ Ripples.strength r
        = Rmin 127 (vel + Rmin 100 (heldMs / 15)) * 1.5 / 127 * 0.15)
  /\ (exists rs r al' h', Water.onWaterNoteOff al xNorm vel heldMs h = Some (al', h')
     /\ Ripples.ripples al' = rs ++ [r]
     /\ (length rs <= length (Ripples.ripples al))%nat
     /\ Ripples.strength r
        = Rmin 127 (vel + Rmin 80 (heldMs / 20)) * 1.2 / 127 * 0.5 + 0.1).
Proof.
  intros [Hlp Hlu] Hv [Hh Hh2].
  split; [|split].
  - pose proof (noteOn_count_range vel Hv) as Hon.
    pose proof (noteOff_count_range vel heldMs Hv Hh) as Hoff.
    pose proof (noteOff_count_range vel heldMs2 Hv ltac:(lra)) as Hoff2.
    pose proof (noteOff_count_mono vel heldMs heldMs2 Hh2) as Hmono.
    pose proof (noteOn_lt_noteOff vel heldMs Hv Hh) as Hlt.
    exists (Z.to_nat (Plasma.noteOn_count vel)), (Z.to_nat (Plasma.noteOff_count vel heldMs)),
      (Z.to_nat (Plasma.noteOff_count vel heldMs2)).
    destruct (spawn_loop_fills (fun l => Plasma.addHotspot l xNorm vel)
                (Z.to_nat (Plasma.noteOn_count vel)) pl h
                (fun l h1 => addHotspot_fills l xNorm vel h1)) as (ps1 & h1 & E1 & _ & Hc1).
    destruct (spawn_loop_fills (fun l => Plasma.addSpark l xNorm (Plasma.flareVel vel heldMs))
                (Z.to_nat (Plasma.noteOff_count vel heldMs)) pl h
                (fun l h1 => addSpark_fills l xNorm _ h1)) as (ps2 & h2 & E2 & _ & Hc2).
    destruct (spawn_loop_fills (fun l => Plasma.addSpark l xNorm (Plasma.flareVel vel heldMs2))
                (Z.to_nat (Plasma.noteOff_count vel heldMs2)) pl h
                (fun l h1 => addSpark_fills l xNorm _ h1)) as (ps3 & h3 & E3 & _ & Hc3).
    destruct (spawn_loop_slots (fun l => Plasma.addSpark l xNorm (Plasma.flareVel vel heldMs))
                (new_spark xNorm (Plasma.flareVel vel heldMs))
                (fun p => Plasma.active p = true
                          /\ Plasma.data p
                             = Vector4.mk xNorm 0.5
                                 (0.05 + Plasma.flareVel vel heldMs / 127 * 0.08) 0)
                (Z.to_nat (Plasma.noteOff_count vel heldMs)) pl h
                (fun l h1 => addSpark_spec l xNorm _ h1)
                (fun h1 => conj eq_refl eq_refl)) as (ps4 & h4 & E4 & Hslots).
    rewrite E2 in E4. injection E4 as <- _.
    eexists _, _, _, _, _, _.
    split; [exact E1|]. split; [exact E2|]. split; [exact E3|].
    pose proof (flareVel_bounds vel heldMs Hv Hh) as Hf.
    pose proof (flareVel_bounds vel heldMs2 Hv ltac:(lra)) as Hf2.
    unfold Plasma.flareVel in Hf, Hf2.
    split; [apply (floor_count_Zfloor 1); [lia | lra]|].
    split; [apply (floor_count_Zfloor 3); [lia | lra]|].
    split; [apply (floor_count_Zfloor 3); [lia | lra]|].
    simpl. rewrite Hc1, Hc2, Hc3, Hlp.
    split; [reflexivity|]. split; [reflexivity|]. split; [reflexivity|].
    split; [lia|]. split; [lia|]. split; [|exact Hslots].
    intros Hsat. unfold Plasma.noteOff_count, Plasma.flareVel.
    replace (Rmin 127 (vel + heldMs / 25)) with 127 by minmax.
    rewrite (Zfloor_eq 10); [reflexivity|]. simpl. lra.
  - unfold Waves.onWaveNoteOff, Waves.addWaveRipple.
    eexists _, _, _, _. split; [reflexivity|]. split; [reflexivity|]. split.
    + case_decide; [rewrite length_drop|]; lia.
    + reflexivity.
  - unfold Water.onWaterNoteOff, Water.addWaterRipple.
    rewrite (bind_random _ h).
    simpl Ripples.ripples. case_decide as Hfull.
    + destruct (oldest_loop_spec (Ripples.ripples al)
                  (length (Ripples.ripples al) - 1) 1 0 (skip_random 1 h))
        as (k & E & Hk); [lia | lia |].
      rewrite (bind_Some _ _ _ _ _
                 (bind_Some _ _ _ _ _ E : (_ ← for_loop _ _ _ _; mret _) _ = _)).
      eexists _, _, _, _. split; [reflexivity|]. split; [reflexivity|]. split.
      * rewrite length_delete by (now apply lookup_lt_is_Some_2). lia.
      * reflexivity.
    + eexists _, _, _, _. split; [reflexivity|]. split; [reflexivity|]. split.
      * lia.
      * reflexivity.
Qed.

Lemma noteoff_burst_witness :
  Plasma.wf Plasma.createPlasmaLayer /\ 0 <= 64 <= 127 /\ 0 <= 500 <= 1000
  /\ exists pl_on h_on pl_off h_off pl_off2 h_off2,
       Plasma.onPlasmaNoteOn Plasma.createPlasmaLayer 0.5 64 host_half = Some (pl_on, h_on)
       /\ Plasma.onPlasmaNoteOff Plasma.createPlasmaLayer 0.5 64 500 host_half
          = Some (pl_off, h_off)
       /\ Plasma.onPlasmaNoteOff Plasma.createPlasmaLayer 0.5 64 1000 host_half
          = Some (pl_off2, h_off2)
       /\ count_active Plasma.active (Plasma.particles pl_on) = 2%nat
       /\ count_active Plasma.active (Plasma.particles pl_off) = 9%nat
       /\ count_active Plasma.active (Plasma.particles pl_off2) = 11%nat.
Proof.
  assert (Plasma.wf Plasma.createPlasmaLayer) as Hwf by (split; reflexivity).
  assert (0 <= 64 <= 127) as Hv by lra.
  assert (0 <= 500 <= 1000) as Hh by lra.
  split; [exact Hwf|]. split; [exact Hv|]. split; [exact Hh|].
  destruct (noteoff_burst Plasma.createPlasmaLayer Waves.createWavesLayer
              Water.createWaterLayer 0.5 64 500 1000 host_half Hwf Hv Hh)
    as ((c_on & c_off & c_off2 & pl_on & h_on & pl_off & h_off & pl_off2 & h_off2
         & E1 & E2 & E3 & F1 & F2 & F3 & L1 & L2 & L3 & _) & _).
  replace (Rmin 127 (64 + 500 / 25)) with 84 in F2 by minmax.
  replace (Rmin 127 (64 + 1000 / 25)) with 104 in F3 by minmax.
  assert (c_on = 2%nat) as -> by (apply (floor_count_unique _ _ _ _ F1); simpl; lra).
  assert (c_off = 9%nat) as -> by (apply (floor_count_unique _ _ _ _ F2); simpl; lra).
  assert (c_off2 = 11%nat) as -> by (apply (floor_count_unique _ _ _ _ F3); simpl; lra).
  exists pl_on, h_on, pl_off, h_off, pl_off2, h_off2.
  exact (conj E1 (conj E2 (conj E3 (conj L1 (conj L2 L3))))).
Defined.

(** ** Further properties: helpers *)

(** X1.  [noteToHue] of a non-negative note is one of the twelve
    hues 0, 30, ..., 330, and notes an octave apart share it. *)
Theorem noteToHue_pitch_class (n : Z) :
  (0 <= n)%Z ->
  0 <= noteToHue n <= 330
  /\ noteToHue n = IZR (n mod 12) * 30
  /\ noteToHue (n + 12) = noteToHue n.
Proof.
  intros Hn. unfold noteToHue.
  rewrite !Z.rem_mod_nonneg by lia.
  replace ((n + 12) mod 12)%Z with (n mod 12)%Z
    by (rewrite <- (Z.mul_1_l 12) at 2; now rewrite Z.mod_add by lia).
  pose proof (Z.mod_pos_bound n 12 ltac:(lia)) as [Hlo Hhi].
  assert (0 <= IZR (n mod 12) <= 11) as Hb.
  { split; [apply (IZR_le 0); lia | apply (IZR_le _ 11); lia]. }
  repeat split; try reflexivity; lra.
Qed.

Lemma noteToHue_pitch_class_witness :
  (0 <= 69)%Z /\ noteToHue 69 = 270 /\ noteToHue 81 = noteToHue 69.
Proof.
  assert (0 <= 69)%Z as H by lia.
  destruct (noteToHue_pitch_class 69 H) as (_ & E & P).
  split; [exact H|]. split; [|exact P].
  rewrite E. change (69 mod 12)%Z with 9%Z. lra.
Defined.

(** X2.  [clamp] of [utils/helpers.ts] returns a value of [[a, b]] when
    [a <= b], is the identity on that interval, and is idempotent. *)
Theorem clamp_range (v a b : R) :
  a <= b ->
  a <= clamp v a b <= b
  /\ (a <= v <= b -> clamp v a b = v)
  /\ clamp (clamp v a b) a b = clamp v a b.
Proof.
  intros H. unfold clamp, Rmax, Rmin.
  repeat split; repeat destruct (Rle_dec _ _); lra.
Qed.

Lemma clamp_range_witness : 0 <= 127 /\ clamp 200 0 127 = 127 /\ clamp (-3) 0 127 = 0.
Proof.
  assert (0 <= 127) as H by lra.
  destruct (clamp_range 200 0 127 H) as (H1 & _).
  destruct (clamp_range (-3) 0 127 H) as (H2 & _).
  split; [exact H|].
  unfold clamp, Rmax, Rmin in *. repeat destruct (Rle_dec _ _); lra.
Defined.

(** ** Further properties: what an update leaves alive *)

(** X3.  After [updatePlasma] every particle still active has an age ratio of
    at most 1; after [updateSolar] every flare still active has an age
    ratio below 1 (the flare loop deactivates at [age >= 1], the plasma
    loop at [ageRatio > 1]). *)
Theorem live_particles_within_life (pl : Plasma.PlasmaLayer) (sl : Solar.SolarLayer)
    (dt : R) (h : Host) :
  Plasma.wf pl -> Solar.wf sl ->
  (exists pl' h', Plasma.updatePlasma pl dt h = Some (pl', h')
     /\ forall j p, Plasma.particles pl' !! j = Some p -> Plasma.active p = true ->
          Vector4.w (Plasma.data p) <= 1)
  /\ (exists sl' h', Solar.updateSolar sl dt h = Some (sl', h')
     /\ forall j f, Solar.flares sl' !! j = Some f -> Solar.active f = true ->
          Vector4.w (Solar.data f) < 1).
Proof.
  intros Hp Hs. split.
  - destruct (updatePlasma_spec pl dt h Hp) as (pl' & E & [Hlp' _] & _ & Hslots).
    eexists pl', _. split; [exact E|]. intros j p Hj Hon.
    destruct Hp as [Hlp Hlu].
    destruct (lookup_same_length (Plasma.particles pl) (Plasma.particles pl') j p)
      as [p0 Hp0]; [congruence | exact Hj |].
    destruct (lookup_same_length (Plasma.u_particles pl) (Plasma.particles pl) j p0)
      as [u0 Hu0]; [congruence | exact Hp0 |].
    destruct (Hslots j p0 u0 Hp0 Hu0) as [Hp' _]. rewrite Hj in Hp'. injection Hp' as ->.
    revert Hon. unfold plasma_step. destruct (Plasma.active p0) eqn:Ea; simpl.
    + case_decide as Hd; simpl; [discriminate|]. intros _. lra.
    + rewrite Ea. discriminate.
  - destruct (updateSolar_spec sl dt h Hs)
      as (ws & hs & fs & us & ws' & uws & ucs & h' & E & _ & Hfs & _ & _ & _ & _
          & Hfslots & _).
    eexists _, _. split; [exact E|]. simpl. intros j f Hj Hon.
    destruct Hs as (Hlf & Hluf & _).
    destruct (lookup_same_length (Solar.flares sl) fs j f) as [f0 Hf0];
      [congruence | exact Hj |].
    destruct (lookup_same_length (Solar.u_flares sl) (Solar.flares sl) j f0) as [u0 Hu0];
      [congruence | exact Hf0 |].
    destruct (Hfslots j f0 u0 Hf0 Hu0) as [Hf' _]. rewrite Hj in Hf'. injection Hf' as ->.
    revert Hon. unfold flare_step. destruct (Solar.active f0) eqn:Ea; simpl.
    + case_decide as Hd; simpl; [discriminate|]. intros _. lra.
    + rewrite Ea. discriminate.
Qed.

Lemma live_particles_within_life_witness :
  Plasma.wf hotspot_layer /\ Solar.wf full_flare_layer
  /\ (exists pl' h' p,
        Plasma.updatePlasma hotspot_layer 16 host_half = Some (pl', h')
        /\ Plasma.particles pl' !! 0%nat = Some p
        /\ Plasma.active p = true
        /\ Vector4.w (Plasma.data p) <= 1)
  /\ (exists sl' h' f,
        Solar.updateSolar full_flare_layer 16 host_half = Some (sl', h')
        /\ Solar.flares sl' !! 0%nat = Some f
        /\ Solar.active f = true
        /\ Vector4.w (Solar.data f) < 1).
Proof.
  pose proof hotspot_layer_wf as Hp. pose proof full_flare_layer_wf as Hs.
  split; [exact Hp|]. split; [exact Hs|].
  destruct (live_particles_within_life hotspot_layer full_flare_layer 16 host_half Hp Hs)
    as [(pl' & h' & E & Hage) (sl' & h2 & E2 & Hage2)].
  assert (Rmin (16 / 1000) 0.05 = 0.016) as Hds by minmax.
  split.
  - destruct (updatePlasma_spec hotspot_layer 16 host_half Hp) as (pl2 & E' & _ & _ & Hslots).
    rewrite E in E'. injection E' as <- _.
    destruct (Hslots 0%nat (new_hotspot 0.5 0 host_half) Vector4.new eq_refl eq_refl)
      as [Hp0 _].
    assert (Plasma.active
              (plasma_step (Rmin (16 / 1000) 0.05)
                 (plasma_draw (tick host_half) (Plasma.particles hotspot_layer) 0)
                 (new_hotspot 0.5 0 host_half)) = true) as Hon.
    { apply plasma_step_live; [reflexivity|]. rewrite Hds.
      unfold new_hotspot, draw, host_half. simpl. lra. }
    eexists pl', h', _. split; [exact E|]. split; [exact Hp0|]. split; [exact Hon|].
    exact (Hage 0%nat _ Hp0 Hon).
  - destruct (updateSolar_spec full_flare_layer 16 host_half Hs)
      as (ws & hs & fs & us & ws' & uws & ucs & h3 & E' & _ & _ & _ & _ & _ & _
          & Hfslots & _).
    rewrite E2 in E'. injection E' as -> _.
    destruct (Hfslots 0%nat _ _ eq_refl eq_refl) as [Hf0 _].
    assert (Solar.active
              (flare_step (Rmin (16 / 1000) 0.05)
                 (Solar.mkFlare (Vector4.mk 0 0 0.1 0) (Vector4.mk 0 0 2 0.5) true)) = true)
      as Hon.
    { apply flare_step_live; [reflexivity|]. rewrite Hds. simpl. lra. }
    eexists _, h2, _. split; [exact E2|]. split; [exact Hf0|]. split; [exact Hon|].
    exact (Hage2 0%nat _ Hf0 Hon).
Defined.

(** X4.  After [updateSolar] every wave still active has strength at least
    0.02, radius at most 2 and width at most 0.12; this covers the waves
    the same call spawned for held notes before it ran the wave loop. *)
Theorem live_waves_bounds (sl : Solar.SolarLayer) (dtMs : R) (h : Host) :
  Solar.wf sl ->
  exists sl' h', Solar.updateSolar sl dtMs h = Some (sl', h')
    /\ forall j w, Solar.waves sl' !! j = Some w -> Solar.Wave.active w = true ->
         0.02 <= Vector4.w (Solar.Wave.data w)
         /\ Vector4.z (Solar.Wave.data w) <= 2
         /\ Vector4.w (Solar.Wave.color w) <= 0.12.
Proof.
  intros Hs.
  destruct (updateSolar_spec sl dtMs h Hs)
    as (ws & hs & fs & us & ws' & uws & ucs & h' & E & _ & _ & _ & Hws' & _ & _
        & _ & Hwslots & Hlws).
  eexists _, _. split; [exact E|]. simpl. intros j w Hj Hon.
  destruct Hs as (_ & _ & Hlw & Hluw & _).
  destruct (lookup_same_length ws ws' j w) as [w0 Hw0]; [congruence | exact Hj |].
  destruct (lookup_same_length (Solar.u_waves sl) ws j w0) as [u0 Hu0];
    [congruence | exact Hw0 |].
  destruct (Hwslots j w0 u0 Hw0 Hu0) as [Hw' _]. rewrite Hj in Hw'. injection Hw' as ->.
  revert Hon. unfold wave_step. destruct (Solar.Wave.active w0) eqn:Ea; simpl.
  - case_decide as Hd; simpl; [discriminate|]. intros _.
    repeat split; try lra. apply Rmin_l.
  - rewrite Ea. discriminate.
Qed.

Lemma live_waves_bounds_witness :
  Solar.wf held_layer
  /\ exists sl' h' w0 w1,
       Solar.updateSolar held_layer 16 (host_at 1000) = Some (sl', h')
       /\ Solar.waves sl' !! 0%nat = Some w0
       /\ Solar.Wave.active w0 = true
       /\ 0.02 <= Vector4.w (Solar.Wave.data w0)
       /\ Vector4.z (Solar.Wave.data w0) <= 2
       /\ Vector4.w (Solar.Wave.color w0) <= 0.12
       /\ Solar.waves sl' !! 1%nat = Some w1
       /\ Solar.Wave.active w1 = true
       /\ 0.02 <= Vector4.w (Solar.Wave.data w1)
       /\ Vector4.z (Solar.Wave.data w1) <= 2
       /\ Vector4.w (Solar.Wave.color w1) <= 0.12.
Proof.
  pose proof held_layer_wf as Hs. split; [exact Hs|].
  destruct (live_waves_bounds held_layer 16 (host_at 1000) Hs) as (sl' & h' & E & Hb).
  destruct (updateSolar_slots held_layer 16 (host_at 1000) Hs)
    as (ws & hs & l2 & h2 & E1 & E' & Hlive & Hsteps & _).
  rewrite E in E'. injection E' as <- <-.
  destruct held_layer_hold_loop as (hs' & E1').
  cbn [host_at now_src now_pos] in E1. rewrite E1' in E1.
  injection E1 as Hws _ _.
  assert (Rmin (16 / 1000) 0.05 = 0.016) as Hds by minmax.
  pose proof (Hsteps 0%nat live_wave (Hlive 0%nat live_wave eq_refl eq_refl)) as H0.
  assert (ws !! 1%nat
          = Some (new_wave (Vector2.mk 0.5 0) (Color.mk 1 0 0)
                    (0.35 + 0.5 * (1 / 3)) (0.45 + 0.5 * (1 / 3))
                    (0.025 + 0.06 * (1 / 3)) (0.55 + 0.4 * (1 / 3)))) as Hw1
    by (rewrite <- Hws; reflexivity).
  pose proof (Hsteps 1%nat _ Hw1) as H1.
  assert (Solar.Wave.active (wave_step (Rmin (16 / 1000) 0.05) live_wave) = true) as Hon0.
  { apply wave_step_live; [reflexivity | | |]; rewrite ?Hds; simpl; lra. }
  assert (Solar.Wave.active
            (wave_step (Rmin (16 / 1000) 0.05)
               (new_wave (Vector2.mk 0.5 0) (Color.mk 1 0 0)
                  (0.35 + 0.5 * (1 / 3)) (0.45 + 0.5 * (1 / 3))
                  (0.025 + 0.06 * (1 / 3)) (0.55 + 0.4 * (1 / 3)))) = true) as Hon1.
  { apply wave_step_live; [reflexivity | | |]; rewrite ?Hds; simpl; lra. }
  eexists sl', h', _, _. split; [exact E|].
  split; [exact H0|]. split; [exact Hon0|].
  destruct (Hb 0%nat _ H0 Hon0) as (Ha1 & Ha2 & Ha3).
  split; [exact Ha1|]. split; [exact Ha2|]. split; [exact Ha3|].
  split; [exact H1|]. split; [exact Hon1|].
  exact (Hb 1%nat _ H1 Hon1).
Defined.

(** X5.  After [updateTrees] at clock reading [now], every seed still active
    was born at most 20 seconds before [now] and has a flash intensity
    that is not negative; a seed that was active and older than 20
    seconds is deactivated and its two records are zeroed. *)
Theorem live_seeds_bounds (tl : Trees.TreeLayer) (dt : R) (h : Host) :
  Trees.wf tl ->
  let now := now_src h (now_pos h) / 1000 in
  exists tl', Trees.updateTrees tl dt h = Some (tl', tick h)
    /\ Trees.u_time tl' = now
    /\ (forall j s, Trees.seeds tl' !! j = Some s -> Trees.active s = true ->
          now - Vector4.z (Trees.data s) <= 20 /\ 0 <= Vector4.w (Trees.colorData s))
    /\ (forall j s, Trees.seeds tl !! j = Some s -> Trees.active s = true ->
          now - Vector4.z (Trees.data s) > 20 ->
          Trees.seeds tl' !! j
            = Some (Trees.mkSeed (Vector4.mk 0 0 0 0) (Vector4.mk 0 0 0 0) false)
          /\ Trees.u_seeds tl' !! j = Some (Vector4.mk 0 0 0 0)
          /\ Trees.u_seed_colors tl' !! j = Some (Vector4.mk 0 0 0 0)).
Proof.
  intros Ht now.
  destruct (updateTrees_spec tl dt h Ht) as (tl' & E & (Hls' & _) & Htime & Hslots).
  exists tl'. split; [exact E|]. split; [exact Htime|]. split.
  - intros j s Hj Hon. destruct Ht as (Hls & _).
    destruct (lookup_same_length (Trees.seeds tl) (Trees.seeds tl') j s) as [s0 Hs0];
      [congruence | exact Hj |].
    destruct (Hslots j s0 Hs0) as (Hs' & _). rewrite Hj in Hs'. injection Hs' as ->.
    revert Hon. unfold tree_step. destruct (Trees.active s0) eqn:Ea; simpl.
    + fold now. case_decide as Hd; simpl; [discriminate|]. intros _.
      split; [lra | apply Rmax_l].
    + rewrite Ea. discriminate.
  - intros j s Hj Hon Hold.
    destruct (Hslots j s Hj) as (Hs' & Hu' & Hc').
    rewrite Hs', Hu', Hc'. unfold seed_record, seed_color_record, tree_step.
    rewrite Hon. fold now. rewrite decide_True by exact Hold. simpl. now repeat split.
Qed.

Lemma live_seeds_bounds_witness :
  Trees.wf two_seed_layer
  /\ exists tl' s1,
       Trees.updateTrees two_seed_layer 16 (host_at 30000) = Some (tl', tick (host_at 30000))
       /\ Trees.u_time tl' = 30000 / 1000
       /\ Trees.seeds tl' !! 0%nat
          = Some (Trees.mkSeed (Vector4.mk 0 0 0 0) (Vector4.mk 0 0 0 0) false)
       /\ Trees.u_seeds tl' !! 0%nat = Some (Vector4.mk 0 0 0 0)
       /\ Trees.u_seed_colors tl' !! 0%nat = Some (Vector4.mk 0 0 0 0)
       /\ Trees.seeds tl' !! 1%nat = Some s1
       /\ Trees.active s1 = true
       /\ 30000 / 1000 - Vector4.z (Trees.data s1) <= 20
       /\ 0 <= Vector4.w (Trees.colorData s1).
Proof.
  pose proof two_seed_layer_wf as Ht.
  split; [exact Ht|].
  destruct (live_seeds_bounds two_seed_layer 16 (host_at 30000) Ht)
    as (tl' & E & Htime & Hlive & Hold).
  destruct (Hold 0%nat (seed_born 0) eq_refl eq_refl) as (Hs0 & Hu0 & Hc0).
  { simpl. lra. }
  destruct (updateTrees_spec two_seed_layer 16 (host_at 30000) Ht)
    as (tl2 & E' & _ & _ & Hslots).
  rewrite E in E'. injection E' as <-.
  destruct (Hslots 1%nat (seed_born 25) eq_refl) as (Hs1 & _).
  assert (Trees.active
            (tree_step (now_src (host_at 30000) (now_pos (host_at 30000)) / 1000)
               (Rmin (16 / 1000) 0.05) (seed_born 25)) = true) as Hon.
  { unfold tree_step. simpl. rewrite decide_False by lra. reflexivity. }
  eexists tl', _. split; [exact E|]. split; [exact Htime|].
  split; [exact Hs0|]. split; [exact Hu0|]. split; [exact Hc0|].
  split; [exact Hs1|]. split; [exact Hon|].
  exact (Hlive 1%nat _ Hs1 Hon).
Defined.

(** ** Further properties: spawning *)

(** X6.  [onTreeNoteOn] never drops a note: it takes the first inactive seed
    slot, or slot 0 when every slot is active, and writes there an active
    seed at [x = note / 127] born at the layer's [u_time] with flash
    intensity 1; no other slot and no uniform changes. *)
Theorem tree_spawn_first_free_or_zero (tl : Trees.TreeLayer) (note : Z) (vel : R)
    (color : Color.t) (h : Host) :
  Trees.wf tl ->
  exists i old tl',
    Trees.onTreeNoteOn tl note vel color h = Some (tl', skip_random 1 h)
    /\ Trees.seeds tl !! i = Some old
    /\ ((Trees.active old = false
         /\ forall j s, (j < i)%nat -> Trees.seeds tl !! j = Some s -> Trees.active s = true)
        \/ (i = 0%nat
            /\ forall j s, Trees.seeds tl !! j = Some s -> Trees.active s = true))
    /\ Trees.seeds tl' !! i
       = Some (Trees.mkSeed
                 (Vector4.mk (IZR note / 127) (draw h 0) (Trees.u_time tl)
                    (0.1 + vel / 127 * 0.3))
                 (Vector4.mk (Color.r color) (Color.g color) (Color.b color) 1) true)
    /\ (forall j, j <> i -> Trees.seeds tl' !! j = Trees.seeds tl !! j)
    /\ Trees.u_seeds tl' = Trees.u_seeds tl
    /\ Trees.u_seed_colors tl' = Trees.u_seed_colors tl
    /\ Trees.u_time tl' = Trees.u_time tl.
Proof.
  intros (Hs & Hu & Hc). unfold Trees.onTreeNoteOn.
  destruct (find_index (fun s => negb (Trees.active s)) (Trees.seeds tl)) as [i|] eqn:E.
  - destruct (find_index_Some _ _ _ E) as (old & Hold & Hp & Hbefore).
    exists i, old. rewrite (bind_Some _ _ _ _ _ (index_Some _ _ _ h Hold)).
    eexists. split; [reflexivity|]. split; [exact Hold|]. split.
    + left. split; [now destruct (Trees.active old)|].
      intros j s Hj Hs'. specialize (Hbefore j s Hj Hs'). now destruct (Trees.active s).
    + simpl. split.
      * rewrite list_lookup_insert_eq by (eapply lookup_lt_Some; exact Hold). reflexivity.
      * split; [|now repeat split]. intros j Hj. now apply list_lookup_insert_ne.
  - destruct (lookup_lt_is_Some_2 (Trees.seeds tl) 0) as [old Hold];
      [rewrite Hs; unfold Trees.MAX_SEEDS; lia|].
    exists 0%nat, old. rewrite (bind_Some _ _ _ _ _ (index_Some _ _ _ h Hold)).
    eexists. split; [reflexivity|]. split; [exact Hold|]. split.
    + right. split; [reflexivity|].
      intros j s Hj. pose proof (find_index_None _ _ E j s Hj) as Hn. simpl in Hn.
      now destruct (Trees.active s).
    + simpl. split.
      * rewrite list_lookup_insert_eq by (eapply lookup_lt_Some; exact Hold). reflexivity.
      * split; [|now repeat split]. intros j Hj. now apply list_lookup_insert_ne.
Qed.

Lemma tree_spawn_first_free_or_zero_witness :
  Trees.wf Trees.createTreesLayer
  /\ exists tl', Trees.onTreeNoteOn Trees.createTreesLayer 60 100 (Color.mk 1 0 0) host_half
                 = Some (tl', skip_random 1 host_half).
Proof.
  assert (Trees.wf Trees.createTreesLayer) as Ht by (repeat split; reflexivity).
  split; [exact Ht|].
  destruct (tree_spawn_first_free_or_zero Trees.createTreesLayer 60 100 (Color.mk 1 0 0)
              host_half Ht) as (i & old & tl' & E & _).
  now exists tl'.
Defined.



(** ** Further properties: ripple layers *)

Lemma oldest_loop_first rs h :
  (0 < length rs)%nat ->
  exists k, for_loop (Water.oldest_body rs) 1 (length rs - 1) 0%nat h = Some (k, h)
            /\ first_oldest rs k.
Proof.
  intros Hpos.
  destruct (lookup_lt_is_Some_2 rs 0 Hpos) as [r0 H0].
  destruct (for_loop_inv
    (fun j k1 h1 =>
       h1 = h /\ (k1 < j)%nat
       /\ exists rk, rs !! k1 = Some rk
            /\ (forall m r, (m < j)%nat -> rs !! m = Some r ->
                  Ripples.birth rk <= Ripples.birth r)
            /\ (forall m r, (m < k1)%nat -> rs !! m = Some r ->
                  Ripples.birth rk < Ripples.birth r))
    (Water.oldest_body rs) (length rs - 1) 1 0%nat h)
    as (k & h' & E & -> & Hk & rk & Hrk & Hmin & Hfirst).
  - split; [reflexivity|]. split; [lia|]. exists r0. split; [exact H0|]. split.
    + intros m r Hm Hr. assert (m = 0)%nat as -> by lia.
      rewrite H0 in Hr. injection Hr as ->. lra.
    + intros m r Hm. lia.
  - intros j k1 h1 Hj (-> & Hk1 & rk & Hrk & Hmin & Hfirst).
    unfold Water.oldest_body.
    destruct (index_lt rs j h ltac:(lia)) as (rj & Hrj & Ej).
    rewrite (bind_Some _ _ _ _ _ Ej), (bind_Some _ _ _ _ _ (index_Some _ _ _ h Hrk)).
    eexists _, _. split; [reflexivity|]. split; [reflexivity|].
    case_decide as Hlt.
    + split; [lia|]. exists rj. split; [exact Hrj|]. split.
      * intros m r Hm Hr. destruct (decide (m = j)) as [->|Hne].
        -- rewrite Hrj in Hr. injection Hr as ->. lra.
        -- specialize (Hmin m r ltac:(lia) Hr). lra.
      * intros m r Hm Hr. specialize (Hmin m r Hm Hr). lra.
    + split; [lia|]. exists rk. split; [exact Hrk|]. split; [|exact Hfirst].
      intros m r Hm Hr. destruct (decide (m = j)) as [->|Hne].
      * rewrite Hrj in Hr. injection Hr as ->. lra.
      * apply (Hmin m r); [lia | exact Hr].
  - exists k. split; [exact E|]. exists rk. split; [exact Hrk|]. split; [|exact Hfirst].
    intros j r Hr. apply (Hmin j r); [|exact Hr]. apply lookup_lt_Some in Hr. lia.
Qed.

Lemma first_oldest_unique rs k k' : first_oldest rs k -> first_oldest rs k' -> k = k'.
Proof.
  intros (rk & Hrk & Hmin & Hfirst) (rk' & Hrk' & Hmin' & Hfirst').
  destruct (Nat.lt_trichotomy k k') as [Hlt|[->|Hlt]]; [|reflexivity|].
  - specialize (Hfirst' k rk Hlt Hrk). specialize (Hmin k' rk' Hrk'). lra.
  - specialize (Hfirst k' rk' Hlt Hrk'). specialize (Hmin' k rk Hrk). lra.
Qed.

Lemma addWaterRipple_full layer xNorm vel hue h :
  (30 <= length (Ripples.ripples layer))%nat ->
  exists k,
    first_oldest (Ripples.ripples layer) k
    /\ Water.addWaterRipple layer xNorm vel hue h
       = Some (Ripples.set_ripples layer
                 (delete k (Ripples.ripples layer)
                  ++ [Ripples.mkRipple xNorm 0.5 (vel / 127 * 0.5 + 0.1)
                        (now_src h (now_pos h) / 1000) hue]),
               tick h).
Proof.
  intros Hfull.
  destruct (oldest_loop_first (Ripples.ripples layer) h ltac:(lia)) as (k & E & Hk).
  exists k. split; [exact Hk|].
  unfold Water.addWaterRipple. rewrite decide_True by exact Hfull.
  rewrite (bind_Some _ _ _ _ _
             (bind_Some _ _ _ _ _ E : (_ ← for_loop _ _ _ _; mret _) h = _)).
  reflexivity.
Qed.

(** X8.  When the water layer already holds 30 ripples or more,
    [addWaterRipple] removes exactly one: the first ripple of least
    [birth]. The others keep their order and the new ripple, born at the
    clock reading, goes last; no random number is drawn. *)
Theorem water_evicts_first_oldest (layer : Ripples.WaveLayer) (xNorm vel hue : R)
    (h : Host) :
  (30 <= length (Ripples.ripples layer))%nat ->
  exists k,
    first_oldest (Ripples.ripples layer) k
    /\ (forall k', first_oldest (Ripples.ripples layer) k' -> k' = k)
    /\ Water.addWaterRipple layer xNorm vel hue h
       = Some (Ripples.set_ripples layer
                 (delete k (Ripples.ripples layer)
                  ++ [Ripples.mkRipple xNorm 0.5 (vel / 127 * 0.5 + 0.1)
                        (now_src h (now_pos h) / 1000) hue]),
               tick h).
Proof.
  intros Hfull.
  destruct (addWaterRipple_full layer xNorm vel hue h Hfull) as (k & Hk & E).
  exists k. split; [exact Hk|]. split; [|exact E].
  intros k' Hk'. exact (first_oldest_unique _ _ _ Hk' Hk).
Qed.

Lemma water_evicts_first_oldest_witness :
  let layer := Ripples.mkLayer 0 (replicate 32 Vector4.new) 0
                 (replicate 30 (Ripples.mkRipple 0.5 0.5 0.3 1 0)) in
  (30 <= length (Ripples.ripples layer))%nat
  /\ exists k, first_oldest (Ripples.ripples layer) k.
Proof.
  intros layer.
  assert (30 <= length (Ripples.ripples layer))%nat as Hfull by (simpl; lia).
  split; [exact Hfull|].
  destruct (water_evicts_first_oldest layer 0.5 100 0.3 host_half Hfull) as (k & Hk & _).
  now exists k.
Defined.

Lemma Forall_sublist_of {A : Type} (P : A -> Prop) (l' l : list A) :
  sublist l' l -> Forall P l -> Forall P l'.
Proof.
  induction 1 as [|x l1 l2 _ IH|x l1 l2 _ IH]; intros HF.
  - constructor.
  - apply Forall_cons in HF as [Hx HF]. constructor; [exact Hx | now apply IH].
  - apply Forall_cons in HF as [_ HF]. now apply IH.
Qed.

Lemma StronglySorted_sublist_of {A : Type} (Rel : relation A) (l' l : list A) :
  sublist l' l -> StronglySorted Rel l -> StronglySorted Rel l'.
Proof.
  induction 1 as [|x l1 l2 Hs IH|x l1 l2 _ IH]; intros HS.
  - constructor.
  - apply StronglySorted_cons in HS as [HF HS]. apply StronglySorted_cons. split.
    + exact (Forall_sublist_of _ _ _ Hs HF).
    + now apply IH.
  - apply StronglySorted_cons in HS as [_ HS]. now apply IH.
Qed.

Lemma monotone_clock_tick h : monotone_clock h -> monotone_clock (tick h).
Proof. intros H. exact H. Qed.

Lemma monotone_clock_skip k h : monotone_clock h -> monotone_clock (skip_random k h).
Proof. intros H. exact H. Qed.

(** Appending a ripple born at the clock reading to a sublist of the
    ripples keeps them in order. *)
Lemma in_order_push l h rs x y s hu :
  ripples_in_order l h -> sublist rs (Ripples.ripples l) ->
  ripples_in_order
    (Ripples.set_ripples l (rs ++ [Ripples.mkRipple x y s (now_src h (now_pos h) / 1000) hu]))
    (tick h).
Proof.
  intros (Hm & Hs & Hb) Hsub.
  pose proof (Forall_sublist_of _ _ _ Hsub Hb) as Hb'.
  assert (now_src h (now_pos h) <= now_src h (S (now_pos h))) as Hstep
    by (apply Hm; lia).
  split; [exact Hm|]. split; simpl.
  - apply StronglySorted_app_2.
    + intros r1 r2 H1 H2. apply list_elem_of_singleton in H2 as ->.
      rewrite Forall_forall in Hb'. exact (Hb' r1 H1).
    + exact (StronglySorted_sublist_of _ _ _ Hsub Hs).
    + repeat constructor.
  - apply Forall_app. split.
    + eapply Forall_impl; [exact Hb'|]. intros r Hr. simpl in Hr. lra.
    + apply Forall_singleton. simpl. lra.
Qed.

Lemma in_order_skip l h k : ripples_in_order l h -> ripples_in_order l (skip_random k h).
Proof. intros H. exact H. Qed.

Lemma in_order_head l h k :
  ripples_in_order l h -> first_oldest (Ripples.ripples l) k -> k = 0%nat.
Proof.
  intros (_ & Hs & _) (rk & Hrk & _ & Hfirst).
  destruct k as [|k]; [reflexivity|]. exfalso.
  destruct (Ripples.ripples l) as [|r0 rs] eqn:E; [discriminate|].
  specialize (Hfirst 0%nat r0 ltac:(lia) eq_refl).
  apply StronglySorted_cons in Hs as [HF _]. rewrite Forall_forall in HF.
  simpl in Hrk. apply list_elem_of_lookup_2 in Hrk. specialize (HF rk Hrk).
  unfold by_birth in HF. lra.
Qed.

Lemma in_order_marshal record l h t :
  Ripples.wf l -> ripples_in_order l h ->
  let now := t / 1000 in
  forall (win : R) rs, rs = filter (fun r => now - Ripples.birth r < win) (Ripples.ripples l) ->
  exists l', for_range (Nat.min (length rs) 32) (Ripples.marshal_body record)
               (Ripples.mkLayer now (Ripples.u_ripples l) (Nat.min (length rs) 32) rs) (tick h)
             = Some (l', tick h)
             /\ Ripples.wf l' /\ ripples_in_order l' (tick h).
Proof.
  intros [Hr Hu] (Hm & Hs & Hb) now win rs ->.
  set (rs := filter _ (Ripples.ripples l)).
  assert (length rs <= length (Ripples.ripples l))%nat as Hf by apply length_filter.
  assert (sublist rs (Ripples.ripples l)) as Hsub by apply sublist_filter.
  destruct (marshal_loop_spec record (Nat.min (length rs) 32) now
              (Ripples.u_ripples l) (Nat.min (length rs) 32) rs (tick h))
    as (us' & E & Hl); [lia | lia |].
  eexists. split; [exact E|]. split; [split; simpl; lia|].
  assert (now_src h (now_pos h) <= now_src h (S (now_pos h))) as Hstep
    by (apply Hm; lia).
  split; [exact Hm|]. split; simpl.
  - exact (StronglySorted_sublist_of _ _ _ Hsub Hs).
  - eapply Forall_impl; [exact (Forall_sublist_of _ _ _ Hsub Hb)|].
    intros r Hle. simpl in Hle. lra.
Qed.

Lemma Waves_call_in_order l c h :
  Ripples.wf l /\ ripples_in_order l h ->
  exists l' h', Waves.call l c h = Some (l', h')
                /\ Ripples.wf l' /\ ripples_in_order l' h'.
Proof.
  intros [Hwf Hord].
  assert (forall xNorm vel, exists l' h',
            Waves.addWaveRipple l xNorm vel h = Some (l', h')
            /\ Ripples.wf l' /\ ripples_in_order l' h') as Hadd.
  { intros xNorm vel.
    destruct (addWaveRipple_wf l xNorm vel h Hwf) as (l' & h' & E & Hwf').
    exists l', h'. split; [exact E|]. split; [exact Hwf'|].
    unfold Waves.addWaveRipple in E. rewrite (bind_random _ h), bind_now in E.
    injection E as <- <-.
    apply (in_order_push l (skip_random 1 h)); [exact Hord|].
    case_decide; [apply sublist_drop | reflexivity]. }
  destruct c as [xNorm vel|xNorm vel heldMs|dt]; simpl.
  - apply Hadd.
  - apply Hadd.
  - unfold Waves.updateWaves. rewrite (bind_now _ h).
    destruct (in_order_marshal
                (fun r u => Vector4.set u (Ripples.x r) (Ripples.y r)
                              (Ripples.strength r) (Ripples.birth r))
                l h (now_src h (now_pos h)) Hwf Hord 8 _ eq_refl) as (l' & E & H').
    exists l', (tick h). split; [exact E | exact H'].
Qed.

Lemma Water_call_in_order l c h :
  Ripples.wf l /\ ripples_in_order l h ->
  exists l' h', Water.call l c h = Some (l', h')
                /\ Ripples.wf l' /\ ripples_in_order l' h'.
Proof.
  intros [Hwf Hord].
  assert (forall h1 xNorm vel hue, ripples_in_order l h1 -> exists l' h',
            Water.addWaterRipple l xNorm vel hue h1 = Some (l', h')
            /\ Ripples.wf l' /\ ripples_in_order l' h') as Hadd.
  { intros h1 xNorm vel hue Hord1.
    destruct (addWaterRipple_wf l xNorm vel hue h1 Hwf) as (l' & h' & E & Hwf').
    exists l', h'. split; [exact E|]. split; [exact Hwf'|].
    destruct (decide (30 <= length (Ripples.ripples l))%nat) as [Hfull|Hfree].
    - destruct (addWaterRipple_full l xNorm vel hue h1 Hfull) as (k & _ & E').
      rewrite E' in E. injection E as <- <-.
      apply in_order_push; [exact Hord1 | apply sublist_delete].
    - unfold Water.addWaterRipple in E. rewrite decide_False in E by exact Hfree.
      injection E as <- <-.
      apply in_order_push; [exact Hord1 | reflexivity]. }
  destruct c as [xNorm vel hue|xNorm vel heldMs|dt]; simpl.
  - now apply Hadd.
  - unfold Water.onWaterNoteOff. rewrite (bind_random _ h).
    apply Hadd. exact Hord.
  - unfold Water.updateWater. rewrite (bind_now _ h).
    destruct (in_order_marshal
                (fun r u => Vector4.set u (Ripples.x r) (Ripples.hue r)
                              (Ripples.strength r) (Ripples.birth r))
                l h (now_src h (now_pos h)) Hwf Hord 7 _ eq_refl) as (l' & E & H').
    exists l', (tick h). split; [exact E | exact H'].
Qed.

Lemma run_inv_host_pre {St C : Type} (call : St -> C -> M St) (Q : C -> Prop)
    (P : St -> Host -> Prop) :
  (forall s c h, Q c -> P s h -> exists s' h', call s c h = Some (s', h') /\ P s' h') ->
  forall cs s h, Forall Q cs -> P s h ->
    exists s' h', run call cs s h = Some (s', h') /\ P s' h'.
Proof.
  intros Hcall cs. induction cs as [|c cs IH]; intros s h Hcs Hs.
  - now exists s, h.
  - apply Forall_cons in Hcs as [Hc Hcs].
    destruct (Hcall s c h Hc Hs) as (s1 & h1 & E & Hs1).
    destruct (IH s1 h1 Hcs Hs1) as (s' & h' & E' & Hs').
    exists s', h'. split; [|exact Hs']. simpl.
    now rewrite (bind_Some _ _ _ _ _ E).
Qed.

Lemma run_inv_host {St C : Type} (call : St -> C -> M St) (P : St -> Host -> Prop) :
  (forall s c h, P s h -> exists s' h', call s c h = Some (s', h') /\ P s' h') ->
  forall cs s h, P s h -> exists s' h', run call cs s h = Some (s', h') /\ P s' h'.
Proof.
  intros Hcall cs s h Hs.
  apply (run_inv_host_pre call (fun _ => True) P); [intros; now apply Hcall | | exact Hs].
  now apply Forall_forall.
Qed.

(** Repeating one call that pushes a ripple born at the clock reading,
    after dropping the head of a full list: when the births are the
    clock readings [a], ..., [a + m - 1], they are the last
    [min 30 (m + n)] readings after [n] calls. *)
Lemma run_births {C : Type} (call : Ripples.WaveLayer -> C -> M Ripples.WaveLayer)
    (c : C) (src : nat -> R) :
  (forall l h a m,
     now_src h = src -> now_pos h = (a + m)%nat -> (m <= 30)%nat ->
     Ripples.birth <$> Ripples.ripples l = (fun i => src i / 1000) <$> seq a m ->
     exists l' h', call l c h = Some (l', h')
       /\ now_src h' = src /\ now_pos h' = S (a + m)
       /\ Ripples.birth <$> Ripples.ripples l'
          = (fun i => src i / 1000)
              <$> (if decide (30 <= m)%nat then seq (S a) m else seq a (S m))) ->
  forall n l h a m,
    now_src h = src -> now_pos h = (a + m)%nat -> (m <= 30)%nat ->
    Ripples.birth <$> Ripples.ripples l = (fun i => src i / 1000) <$> seq a m ->
    exists l' h', run call (replicate n c) l h = Some (l', h')
      /\ Ripples.birth <$> Ripples.ripples l'
         = (fun i => src i / 1000)
             <$> seq (a + m + n - Nat.min 30 (m + n)) (Nat.min 30 (m + n)).
Proof.
  intros Hcall n. induction n as [|n IH]; intros l h a m Hsrc Hpos Hm Hb.
  - exists l, h. split; [reflexivity|].
    assert (a + m + 0 - Nat.min 30 (m + 0) = a)%nat as -> by (clear - Hm; lia).
    replace (Nat.min 30 (m + 0)) with m by lia. exact Hb.
  - destruct (Hcall l h a m Hsrc Hpos Hm Hb) as (l1 & h1 & E & Hsrc1 & Hpos1 & Hb1).
    cbn [run replicate]. rewrite (bind_Some _ _ _ _ _ E).
    destruct (decide (30 <= m)%nat) as [Hfull|Hfree].
    + destruct (IH l1 h1 (S a) m Hsrc1 ltac:(lia) Hm Hb1) as (l' & h' & E' & Hb').
      exists l', h'. split; [exact E'|]. rewrite Hb'. f_equal. f_equal; lia.
    + destruct (IH l1 h1 a (S m) Hsrc1 ltac:(lia) ltac:(lia) Hb1) as (l' & h' & E' & Hb').
      exists l', h'. split; [exact E'|]. rewrite Hb'. f_equal. f_equal; lia.
Qed.

Lemma fmap_births_length (rs : list Ripples.Ripple) (f : nat -> R) a m :
  Ripples.birth <$> rs = f <$> seq a m -> length rs = m.
Proof.
  intros H. apply (f_equal length) in H. now rewrite !length_fmap, length_seq in H.
Qed.

Lemma Waves_noteOn_births xNorm vel l h a m :
  now_pos h = (a + m)%nat -> (m <= 30)%nat ->
  Ripples.birth <$> Ripples.ripples l = (fun i => now_src h i / 1000) <$> seq a m ->
  exists l' h', Waves.call l (Waves.NoteOn xNorm vel) h = Some (l', h')
    /\ now_src h' = now_src h /\ now_pos h' = S (a + m)
    /\ Ripples.birth <$> Ripples.ripples l'
       = (fun i => now_src h i / 1000)
           <$> (if decide (30 <= m)%nat then seq (S a) m else seq a (S m)).
Proof.
  intros Hpos Hm Hb. pose proof (fmap_births_length _ _ _ _ Hb) as Hlen.
  cbn [Waves.call]. unfold Waves.onWaveNoteOn, Waves.addWaveRipple.
  rewrite (bind_random _ h), bind_now.
  eexists _, _. split; [reflexivity|]. split; [reflexivity|].
  split; [cbn [tick skip_random now_pos]; now rewrite Hpos|].
  cbn [Ripples.ripples Ripples.set_ripples skip_random now_src now_pos].
  rewrite fmap_app, Hlen, Hpos. cbn [fmap list_fmap Ripples.birth].
  destruct (decide (30 <= m)%nat) as [Hfull|Hfree].
  - assert (m = 30%nat) as -> by lia.
    rewrite fmap_drop, Hb. change (seq a 30) with (a :: seq (S a) 29).
    change (seq (S a) 30) with (seq (S a) (S 29)).
    rewrite (seq_S 29 (S a)), fmap_app. cbn [fmap list_fmap drop].
    replace (S a + 29)%nat with (a + 30)%nat by lia. reflexivity.
  - rewrite Hb, seq_S, fmap_app. reflexivity.
Qed.

Lemma Water_noteOn_births xNorm vel hue l h a m :
  monotone_clock h ->
  now_pos h = (a + m)%nat -> (m <= 30)%nat ->
  Ripples.birth <$> Ripples.ripples l = (fun i => now_src h i / 1000) <$> seq a m ->
  exists l' h', Water.call l (Water.NoteOn xNorm vel hue) h = Some (l', h')
    /\ now_src h' = now_src h /\ now_pos h' = S (a + m)
    /\ Ripples.birth <$> Ripples.ripples l'
       = (fun i => now_src h i / 1000)
           <$> (if decide (30 <= m)%nat then seq (S a) m else seq a (S m)).
Proof.
  intros Hmono Hpos Hm Hb. pose proof (fmap_births_length _ _ _ _ Hb) as Hlen.
  cbn [Water.call]. unfold Water.onWaterNoteOn.
  destruct (decide (30 <= m)%nat) as [Hfull|Hfree].
  - assert (m = 30%nat) as -> by lia.
    destruct (addWaterRipple_full l xNorm vel hue h ltac:(lia)) as (k & Hk & E).
    assert (forall j r, Ripples.ripples l !! j = Some r ->
              Ripples.birth r = now_src h (a + j) / 1000) as Hbirth.
    { intros j r Hj.
      assert ((Ripples.birth <$> Ripples.ripples l) !! j = Some (Ripples.birth r)) as H1
        by (now rewrite list_lookup_fmap, Hj).
      rewrite Hb, list_lookup_fmap, lookup_seq_lt in H1
        by (apply lookup_lt_Some in Hj; lia).
      now injection H1. }
    destruct (lookup_lt_is_Some_2 (Ripples.ripples l) 0 ltac:(lia)) as [r0 Hr0].
    assert (first_oldest (Ripples.ripples l) 0) as H0.
    { exists r0. split; [exact Hr0|]. split.
      - intros j r Hj. rewrite (Hbirth 0%nat r0 Hr0), (Hbirth j r Hj).
        pose proof (Hmono (a + 0)%nat (a + j)%nat ltac:(lia)). lra.
      - intros j r Hj. lia. }
    rewrite (first_oldest_unique _ _ _ Hk H0) in E.
    eexists _, _. split; [exact E|]. split; [reflexivity|].
    split; [cbn [tick now_pos]; now rewrite Hpos|].
    cbn [Ripples.ripples Ripples.set_ripples].
    rewrite fmap_app, Hpos. cbn [fmap list_fmap Ripples.birth].
    assert (delete 0%nat (Ripples.ripples l) = drop 1 (Ripples.ripples l)) as ->
      by (destruct (Ripples.ripples l); reflexivity).
    rewrite fmap_drop, Hb. change (seq a 30) with (a :: seq (S a) 29).
    change (seq (S a) 30) with (seq (S a) (S 29)).
    rewrite (seq_S 29 (S a)), fmap_app. cbn [fmap list_fmap drop].
    replace (S a + 29)%nat with (a + 30)%nat by lia. reflexivity.
  - unfold Water.addWaterRipple. rewrite decide_False by lia.
    eexists _, _. split; [reflexivity|]. split; [reflexivity|].
    split; [cbn [tick now_pos]; now rewrite Hpos|].
    cbn [Ripples.ripples Ripples.set_ripples].
    rewrite fmap_app, Hpos, Hb, seq_S, fmap_app. reflexivity.
Qed.

Lemma host_ticking_monotone : monotone_clock host_ticking.
Proof. intros i j Hij. simpl. now apply le_INR. Qed.

(** X9.  If [performance.now()] never goes back, every sequence of note and
    update calls on a fresh waves or water layer leaves the ripples in
    birth order, none born after the next clock reading.  So the head
    that [addWaveRipple] shifts out is an oldest ripple, and the search
    of [addWaterRipple] can only end at index 0. *)
Theorem ripples_stay_in_birth_order (h : Host) (wcs : list Waves.Call)
    (acs : list Water.Call) :
  monotone_clock h ->
  (exists l h', run Waves.call wcs Waves.createWavesLayer h = Some (l, h')
     /\ StronglySorted by_birth (Ripples.ripples l)
     /\ Forall (fun r => Ripples.birth r <= now_src h' (now_pos h') / 1000)
          (Ripples.ripples l)
     /\ forall k, first_oldest (Ripples.ripples l) k -> k = 0%nat)
  /\ (exists l h', run Water.call acs Water.createWaterLayer h = Some (l, h')
     /\ StronglySorted by_birth (Ripples.ripples l)
     /\ Forall (fun r => Ripples.birth r <= now_src h' (now_pos h') / 1000)
          (Ripples.ripples l)
     /\ forall k, first_oldest (Ripples.ripples l) k -> k = 0%nat).
Proof.
  intros Hm.
  assert (forall l, Ripples.ripples l = [] -> Ripples.u_ripples l = replicate 32 Vector4.new ->
            Ripples.wf l /\ ripples_in_order l h) as Hinit.
  { intros l Hr Hu. split.
    - split; [rewrite Hr; simpl; lia | now rewrite Hu].
    - split; [exact Hm|]. rewrite Hr. split; constructor. }
  split.
  - destruct (run_inv_host Waves.call (fun l h1 => Ripples.wf l /\ ripples_in_order l h1)
                Waves_call_in_order wcs Waves.createWavesLayer h
                (Hinit Waves.createWavesLayer eq_refl eq_refl)) as (l & h' & E & _ & Hord).
    exists l, h'. split; [exact E|].
    split; [apply Hord|]. split; [apply Hord|].
    intros k. now apply in_order_head with (h := h').
  - destruct (run_inv_host Water.call (fun l h1 => Ripples.wf l /\ ripples_in_order l h1)
                Water_call_in_order acs Water.createWaterLayer h
                (Hinit Water.createWaterLayer eq_refl eq_refl)) as (l & h' & E & _ & Hord).
    exists l, h'. split; [exact E|].
    split; [apply Hord|]. split; [apply Hord|].
    intros k. now apply in_order_head with (h := h').
Qed.

Lemma ripples_stay_in_birth_order_witness :
  monotone_clock host_ticking
  /\ (exists l h',
        run Waves.call (replicate 31 (Waves.NoteOn 0.5 100)) Waves.createWavesLayer
          host_ticking = Some (l, h')
        /\ Ripples.birth <$> Ripples.ripples l = (fun i => INR i / 1000) <$> seq 1 30
        /\ StronglySorted by_birth (Ripples.ripples l)
        /\ forall k, first_oldest (Ripples.ripples l) k -> k = 0%nat)
  /\ (exists l h',
        run Water.call (replicate 31 (Water.NoteOn 0.5 100 0.3)) Water.createWaterLayer
          host_ticking = Some (l, h')
        /\ Ripples.birth <$> Ripples.ripples l = (fun i => INR i / 1000) <$> seq 1 30
        /\ StronglySorted by_birth (Ripples.ripples l)
        /\ forall k, first_oldest (Ripples.ripples l) k -> k = 0%nat).
Proof.
  pose proof host_ticking_monotone as Hm. split; [exact Hm|].
  destruct (ripples_stay_in_birth_order host_ticking
              (replicate 31 (Waves.NoteOn 0.5 100))
              (replicate 31 (Water.NoteOn 0.5 100 0.3)) Hm)
    as [(wl & wh & Ew & Hws & _ & Hw0) (al & ah & Ea & Has & _ & Ha0)].
  split.
  - destruct (run_births Waves.call (Waves.NoteOn 0.5 100) INR) with
      (n := 31%nat) (l := Waves.createWavesLayer) (h := host_ticking)
      (a := 0%nat) (m := 0%nat) as (l' & h' & E' & Hb); try reflexivity; try lia.
    { intros l h a m Hsrc Hpos Hle Hb. rewrite <- Hsrc in *.
      now apply Waves_noteOn_births. }
    rewrite Ew in E'. injection E' as <- <-.
    exists wl, wh. split; [exact Ew|]. split; [exact Hb|]. split; [exact Hws | exact Hw0].
  - destruct (run_births Water.call (Water.NoteOn 0.5 100 0.3) INR) with
      (n := 31%nat) (l := Water.createWaterLayer) (h := host_ticking)
      (a := 0%nat) (m := 0%nat) as (l' & h' & E' & Hb); try reflexivity; try lia.
    { intros l h a m Hsrc Hpos Hle Hb. rewrite <- Hsrc in *.
      apply Water_noteOn_births; try assumption.
      intros i j Hij. rewrite Hsrc. now apply le_INR. }
    rewrite Ea in E'. injection E' as <- <-.
    exists al, ah. split; [exact Ea|]. split; [exact Hb|]. split; [exact Has | exact Ha0].
Defined.

(** The copy loop, record by record. *)
Lemma marshal_loop_records record n t us c rs h :
  (n <= length rs)%nat -> (n <= length us)%nat ->
  exists us', for_range n (Ripples.marshal_body record) (Ripples.mkLayer t us c rs) h
                = Some (Ripples.mkLayer t us' c rs, h)
              /\ processed n
                   (fun j => match rs !! j, us !! j with
                             | Some r, Some u => Some (record r u)
                             | _, _ => None
                             end) us us'.
Proof.
  intros Hr Hu.
  set (target := fun j : nat => match rs !! j, us !! j with
                                | Some r, Some u => Some (record r u)
                                | _, _ => None
                                end).
  destruct (for_range_inv
    (fun j l h1 => h1 = h /\ exists us', l = Ripples.mkLayer t us' c rs
                                        /\ processed j target us us')
    (Ripples.marshal_body record) n (Ripples.mkLayer t us c rs) h)
    as (l' & h' & E & -> & us' & -> & Hp).
  - split; [reflexivity|]. exists us. split; [reflexivity | apply processed_0].
  - intros j l1 h1 Hj (-> & us1 & -> & Hp).
    unfold Ripples.marshal_body. simpl.
    destruct (index_lt rs j h ltac:(lia)) as (r & Hrj & Er).
    destruct (index_lt us j h ltac:(lia)) as (u & Huj & _).
    assert (us1 !! j = Some u) as Hu1 by (now rewrite (processed_lookup _ _ _ _ Hp)).
    rewrite (bind_Some _ _ _ _ _ Er), (bind_Some _ _ _ _ _ (index_Some _ _ _ h Hu1)).
    eexists _, _. split; [reflexivity|]. split; [reflexivity|].
    eexists. split; [reflexivity|].
    apply processed_insert; [exact Hp | lia |].
    unfold target. now rewrite Hrj, Huj.
  - now exists us'.
Qed.

Lemma marshal_layer_spec record l now rs h :
  Ripples.wf l -> sublist rs (Ripples.ripples l) ->
  exists us',
    for_range (Nat.min (length rs) 32) (Ripples.marshal_body record)
      (Ripples.mkLayer now (Ripples.u_ripples l) (Nat.min (length rs) 32) rs) h
    = Some (Ripples.mkLayer now us' (length rs) rs, h)
    /\ length us' = 32%nat
    /\ (forall i r, rs !! i = Some r ->
          exists u, Ripples.u_ripples l !! i = Some u /\ us' !! i = Some (record r u))
    /\ (forall i, (length rs <= i)%nat -> us' !! i = Ripples.u_ripples l !! i).
Proof.
  intros [Hr Hu] Hsub.
  pose proof (sublist_length _ _ Hsub) as Hlen.
  assert (Nat.min (length rs) 32 = length rs) as Hmin by lia.
  rewrite Hmin.
  destruct (marshal_loop_records record (length rs) now (Ripples.u_ripples l)
              (length rs) rs h) as (us' & E & Hp); [lia | lia |].
  exists us'. split; [exact E|]. split; [destruct Hp as [Hl _]; lia|]. split.
  - intros i r Hi.
    pose proof (lookup_lt_Some _ _ _ Hi) as Hlt.
    destruct (lookup_lt_is_Some_2 (Ripples.u_ripples l) i ltac:(lia)) as [u Hui].
    exists u. split; [exact Hui|].
    rewrite (processed_all _ _ _ _ _ Hp Hlt). now rewrite Hi, Hui.
  - intros i Hi. destruct Hp as [_ Hp]. rewrite Hp. case_decide; [lia | reflexivity].
Qed.

(** X10.  An update of the waves or water layer reads the clock once, keeps
    (in order) the ripples younger than 8 s, respectively 7 s, sets
    [u_time] to the reading and [u_ripple_count] to the number kept, and
    writes ripple [i] to record [i]: [(x, y, strength, birth)] for waves,
    [(x, hue, strength, birth)] for water.  Records from the count on are
    not touched, so they keep whatever an earlier frame wrote. *)
Theorem ripple_marshalling (wl al : Ripples.WaveLayer) (dt : R) (h : Host) :
  Ripples.wf wl -> Ripples.wf al ->
  let now := now_src h (now_pos h) / 1000 in
  (exists wl', Waves.updateWaves wl dt h = Some (wl', tick h)
     /\ Ripples.u_time wl' = now
     /\ Ripples.ripples wl' = filter (fun r => now - Ripples.birth r < 8) (Ripples.ripples wl)
     /\ Ripples.u_ripple_count wl' = length (Ripples.ripples wl')
     /\ length (Ripples.u_ripples wl') = 32%nat
     /\ (forall i r, Ripples.ripples wl' !! i = Some r ->
           now - Ripples.birth r < 8
           /\ Ripples.u_ripples wl' !! i
              = Some (Vector4.mk (Ripples.x r) (Ripples.y r) (Ripples.strength r)
                        (Ripples.birth r)))
     /\ (forall i, (Ripples.u_ripple_count wl' <= i)%nat ->
           Ripples.u_ripples wl' !! i = Ripples.u_ripples wl !! i))
  /\ (exists al', Water.updateWater al dt h = Some (al', tick h)
     /\ Ripples.u_time al' = now
     /\ Ripples.ripples al' = filter (fun r => now - Ripples.birth r < 7) (Ripples.ripples al)
     /\ Ripples.u_ripple_count al' = length (Ripples.ripples al')
     /\ length (Ripples.u_ripples al') = 32%nat
     /\ (forall i r, Ripples.ripples al' !! i = Some r ->
           now - Ripples.birth r < 7
           /\ Ripples.u_ripples al' !! i
              = Some (Vector4.mk (Ripples.x r) (Ripples.hue r) (Ripples.strength r)
                        (Ripples.birth r)))
     /\ (forall i, (Ripples.u_ripple_count al' <= i)%nat ->
           Ripples.u_ripples al' !! i = Ripples.u_ripples al !! i)).
Proof.
  intros Hw Ha now. split.
  - unfold Waves.updateWaves. rewrite (bind_now _ h). fold now.
    destruct (marshal_layer_spec
                (fun r u => Vector4.set u (Ripples.x r) (Ripples.y r)
                              (Ripples.strength r) (Ripples.birth r))
                wl now _ (tick h) Hw
                (sublist_filter (fun r => now - Ripples.birth r < 8) (Ripples.ripples wl)))
      as (us' & E & Hl & Hrec & Hrest).
    eexists. split; [exact E|]. simpl.
    split; [reflexivity|]. split; [reflexivity|]. split; [reflexivity|].
    split; [exact Hl|]. split; [|exact Hrest].
    intros i r Hi. split.
    + apply list_elem_of_lookup_2, list_elem_of_filter in Hi. apply Hi.
    + destruct (Hrec i r Hi) as (u & _ & ->). reflexivity.
  - unfold Water.updateWater. rewrite (bind_now _ h). fold now.
    destruct (marshal_layer_spec
                (fun r u => Vector4.set u (Ripples.x r) (Ripples.hue r)
                              (Ripples.strength r) (Ripples.birth r))
                al now _ (tick h) Ha
                (sublist_filter (fun r => now - Ripples.birth r < 7) (Ripples.ripples al)))
      as (us' & E & Hl & Hrec & Hrest).
    eexists. split; [exact E|]. simpl.
    split; [reflexivity|]. split; [reflexivity|]. split; [reflexivity|].
    split; [exact Hl|]. split; [|exact Hrest].
    intros i r Hi. split.
    + apply list_elem_of_lookup_2, list_elem_of_filter in Hi. apply Hi.
    + destruct (Hrec i r Hi) as (u & _ & ->). reflexivity.
Qed.

Lemma ripple_marshalling_witness :
  let wl := Ripples.mkLayer 0 (replicate 32 Vector4.new) 0
              [Ripples.mkRipple 0.5 0.4 0.1 0 0] in
  Ripples.wf wl
  /\ exists wl', Waves.updateWaves wl 16 host_half = Some (wl', tick host_half)
                 /\ Ripples.u_ripple_count wl' = length (Ripples.ripples wl').
Proof.
  intros wl.
  assert (Ripples.wf wl) as Hw by (split; simpl; lia).
  split; [exact Hw|].
  destruct (ripple_marshalling wl wl 16 host_half Hw Hw) as [(wl' & E & _ & _ & Hc & _) _].
  now exists wl'.
Defined.

(** X11.  For a velocity in [[0, 127]] and a held time that is not negative,
    the ripple of a note-off is at least as strong as the ripple of a
    note-on with the same velocity.  On the waves layer the note-on
    strength is [vel / 127 * 0.15], within [[0, 0.15]], and the note-off
    strength is [boosted * 1.5 / 127 * 0.15], at most 0.225; the factor
    1.5 is applied to the velocity before the division, so the note-off
    strength is 1.5 times the note-on strength only up to the rounding
    of the two products, for which [1e-9] is left.  On the water layer
    the note-on strength is within [[0.1, 0.6]] and the note-off
    strength at most 0.7. *)
Theorem release_ripple_stronger (wl al : Ripples.WaveLayer) (xNorm vel heldMs hue : R)
    (h : Host) :
  0 <= vel <= 127 -> 0 <= heldMs ->
  (exists l_on h_on r_on l_off h_off r_off,
     Waves.onWaveNoteOn wl xNorm vel h = Some (l_on, h_on)
     /\ Waves.onWaveNoteOff wl xNorm vel heldMs h = Some (l_off, h_off)
     /\ last (Ripples.ripples l_on) = Some r_on
     /\ last (Ripples.ripples l_off) = Some r_off
     /\ Ripples.strength r_on = vel / 127 * 0.15
     /\ Ripples.strength r_off
        = Rmin 127 (vel + Rmin 100 (heldMs / 15)) * 1.5 / 127 * 0.15
     /\ 0 <= Ripples.strength r_on <= 0.15
     /\ Ripples.strength r_on <= Ripples.strength r_off <= 0.225
     /\ 1.5 * Ripples.strength r_on - 1e-9 <= Ripples.strength r_off)
  /\ (exists l_on h_on r_on l_off h_off r_off,
     Water.onWaterNoteOn al xNorm vel hue h = Some (l_on, h_on)
     /\ Water.onWaterNoteOff al xNorm vel heldMs h = Some (l_off, h_off)
     /\ last (Ripples.ripples l_on) = Some r_on
     /\ last (Ripples.ripples l_off) = Some r_off
     /\ 0.1 <= Ripples.strength r_on <= 0.6
     /\ Ripples.strength r_on <= Ripples.strength r_off <= 0.7).
Proof.
  intros Hv Hh. split.
  - unfold Waves.onWaveNoteOn, Waves.onWaveNoteOff, Waves.addWaveRipple.
    eexists _, _, _, _, _, _. split; [reflexivity|]. split; [reflexivity|].
    split; [apply last_snoc|]. split; [apply last_snoc|]. simpl.
    split; [reflexivity|]. split; [reflexivity|].
    assert (vel <= Waves.noteOff_strength vel heldMs <= 127) as Hs.
    { unfold Waves.noteOff_strength.
      assert (0 <= Rmin 100 (heldMs / 15)) by (apply Rmin_glb; lra).
      split; [apply Rmin_glb; lra | apply Rmin_l]. }
    lra.
  - assert (forall v hu h1, exists k,
              Water.addWaterRipple al xNorm v hu h1
              = Some (Ripples.set_ripples al
                        (k ++ [Ripples.mkRipple xNorm 0.5 (v / 127 * 0.5 + 0.1)
                                 (now_src h1 (now_pos h1) / 1000) hu]), tick h1)) as Hadd.
    { intros v hu h1.
      destruct (decide (30 <= length (Ripples.ripples al))%nat) as [Hfull|Hfree].
      - destruct (addWaterRipple_full al xNorm v hu h1 Hfull) as (k & _ & E).
        eexists. exact E.
      - unfold Water.addWaterRipple. rewrite decide_False by exact Hfree.
        eexists. reflexivity. }
    unfold Water.onWaterNoteOn, Water.onWaterNoteOff. rewrite (bind_random _ h).
    destruct (Hadd vel hue h) as (k1 & ->).
    destruct (Hadd (Water.noteOff_strength vel heldMs * 1.2) (draw h 0 * 360 / 360)
                (skip_random 1 h)) as (k2 & ->).
    eexists _, _, _, _, _, _. split; [reflexivity|]. split; [reflexivity|].
    split; [apply last_snoc|]. split; [apply last_snoc|]. simpl.
    assert (vel <= Water.noteOff_strength vel heldMs <= 127) as Hs.
    { unfold Water.noteOff_strength.
      assert (0 <= Rmin 80 (heldMs / 20)) by (apply Rmin_glb; lra).
      split; [apply Rmin_glb; lra | apply Rmin_l]. }
    lra.
Qed.

Lemma release_ripple_stronger_witness :
  0 <= 80 <= 127 /\ 0 <= 600
  /\ exists l_on h_on r_on l_off h_off r_off,
       Waves.onWaveNoteOn Waves.createWavesLayer 0.5 80 host_half = Some (l_on, h_on)
       /\ Waves.onWaveNoteOff Waves.createWavesLayer 0.5 80 600 host_half
          = Some (l_off, h_off)
       /\ last (Ripples.ripples l_on) = Some r_on
       /\ last (Ripples.ripples l_off) = Some r_off
       /\ Ripples.strength r_on = 80 / 127 * 0.15
       /\ Ripples.strength r_off = Rmin 127 (80 + Rmin 100 (600 / 15)) * 1.5 / 127 * 0.15
       /\ Ripples.strength r_on <= Ripples.strength r_off <= 0.225.
Proof.
  assert (0 <= 80 <= 127) as Hv by lra.
  assert (0 <= 600) as Hh by lra.
  split; [exact Hv|]. split; [exact Hh|].
  destruct (release_ripple_stronger Waves.createWavesLayer Water.createWaterLayer
              0.5 80 600 0.3 host_half Hv Hh)
    as [(l_on & h_on & r_on & l_off & h_off & r_off & Eon & Eoff & Hon & Hoff
         & Son & Soff & _ & Hle & _) _].
  exists l_on, h_on, r_on, l_off, h_off, r_off.
  exact (conj Eon (conj Eoff (conj Hon (conj Hoff (conj Son (conj Soff Hle)))))).
Defined.

(** ** Further properties: bubbles *)

Lemma bubble_step_bounded now ds b :
  0 <= ds -> bubble_bounded b -> bubble_bounded (bubble_step now ds b).
Proof.
  intros Hds Hb. unfold bubble_step.
  destruct (Bubbles.active b) eqn:Ea; simpl; [|exact Hb].
  destruct (Hb Ea) as (Hz & Hz0 & Hlife & Hage & Hvy & Hy).
  case_decide as Hd; [intros Hf; discriminate Hf|]. intros _. simpl.
  set (life := Vector4.w (Bubbles.velocity b)) in *.
  set (r := (Bubbles.age b + ds) / life) in *.
  assert (r <= 1) as Hr by (apply Rnot_gt_le; tauto).
  assert (Vector4.y (Bubbles.data b) + Vector4.y (Bubbles.velocity b) * ds <= 1.1) as Hy1
    by (apply Rnot_gt_le; tauto).
  assert (Bubbles.age b + ds = r * life) as Hrl by (unfold r; field; lra).
  assert (0 <= r) as Hr0.
  { unfold r. apply Rmult_le_pos; [lra|]. apply Rlt_le, Rinv_0_lt_compat. lra. }
  split; [|split; [exact Hz0|split; [exact Hlife|split; [|split; [exact Hvy|]]]]].
  - split; [apply Rmax_l|]. apply Rmax_lub; [lra|].
    case_decide; nra.
  - split; [lra | nra].
  - split; [nra | exact Hy1].
Qed.

Lemma new_bubble_bounded vel hue h :
  unit_random h -> 0 <= vel <= 127 -> bubble_bounded (new_bubble vel hue h).
Proof.
  intros Hr Hv _. unfold new_bubble, draw. simpl.
  pose proof (Hr (random_pos h)) as H0.
  pose proof (Hr (S (S (S (random_pos h))))) as H3.
  repeat split; lra.
Qed.

Lemma Bubbles_call_bounded l c h :
  bubble_call_ok c ->
  Bubbles.wf l /\ unit_random h /\ Forall bubble_bounded (Bubbles.bubbles l)
    /\ Forall (fun u => 0 <= Vector4.z u <= 0.15) (Bubbles.u_bubbles l) ->
  exists l' h', Bubbles.call l c h = Some (l', h')
    /\ Bubbles.wf l' /\ unit_random h' /\ Forall bubble_bounded (Bubbles.bubbles l')
    /\ Forall (fun u => 0 <= Vector4.z u <= 0.15) (Bubbles.u_bubbles l').
Proof.
  intros Hc ([Hlb Hlu] & Hr & Hb & Hu).
  destruct c as [vel hue|vel hue|dt|t]; simpl in *.
  - rewrite onBubbleNoteOn_spec by (rewrite Hlb; unfold Bubbles.MAX_BUBBLES; lia).
    eexists _, _. split; [reflexivity|].
    split; [split; simpl; [now rewrite length_insert | exact Hlu]|].
    split; [exact Hr|]. split; [|exact Hu].
    apply Forall_insert; [exact Hb | now apply new_bubble_bounded].
  - eexists _, _. split; [reflexivity|].
    exact (conj (conj Hlb Hlu) (conj Hr (conj Hb Hu))).
  - destruct (updateBubbles_spec l dt h (conj Hlb Hlu)) as (l' & E & [Hlb' Hlu'] & _ & Hslots).
    exists l', h. split; [exact E|]. split; [now split|]. split; [exact Hr|].
    assert (0 <= Rmin (dt / 1000) 0.05) as Hds by (apply Rmin_glb; lra).
    assert (forall j b', Bubbles.bubbles l' !! j = Some b' ->
              bubble_bounded b' /\ Bubbles.u_bubbles l' !! j = Some (bubble_record b'))
      as Hstep.
    { intros j b' Hj.
      destruct (lookup_same_length (Bubbles.bubbles l) (Bubbles.bubbles l') j b')
        as [b0 Hb0]; [congruence | exact Hj |].
      destruct (Hslots j b0 Hb0) as [Hb' Hu']. rewrite Hj in Hb'. injection Hb' as ->.
      split; [|exact Hu'].
      apply bubble_step_bounded; [exact Hds|].
      rewrite Forall_forall in Hb. apply Hb. eapply list_elem_of_lookup_2. exact Hb0. }
    split.
    + apply Forall_lookup. intros j b' Hj. apply (Hstep j b' Hj).
    + apply Forall_lookup. intros j u Hj.
      destruct (lookup_same_length (Bubbles.bubbles l') (Bubbles.u_bubbles l') j u)
        as [b' Hb']; [congruence | exact Hj |].
      destruct (Hstep j b' Hb') as [Hbb Hu']. rewrite Hj in Hu'. injection Hu' as ->.
      unfold bubble_record. destruct (Bubbles.active b') eqn:Ea; [|simpl; lra].
      destruct (Hbb Ea) as (Hz & Hz0 & _). lra.
  - eexists _, _. split; [reflexivity|].
    exact (conj (conj Hlb Hlu) (conj Hr (conj Hb Hu))).
Qed.

(** X12.  When [Math.random()] answers in [[0, 1)], note-on velocities lie in
    [[0, 127]] and frame times are not negative, every state the bubble
    layer reaches keeps each live bubble within its bounds: radius
    between 0 and its target radius, which is between 0.03 and 0.15;
    lifespan in [[3, 6]]; age between 0 and the lifespan; upward speed
    in [[0.1, 0.18]]; height between -0.1 and 1.1.  Every uniform record
    carries a radius in [[0, 0.15]].  The intervals are closed: the
    largest draws of [Math.random()] give, once rounded, the lifespan 6
    and the speed 0.18 themselves. *)
Theorem bubbles_reachable_bounds (h : Host) (cs : list Bubbles.Call) :
  unit_random h -> Forall bubble_call_ok cs ->
  exists l h',
    run Bubbles.call cs Bubbles.createBubblesLayer h = Some (l, h')
    /\ (forall j b, Bubbles.bubbles l !! j = Some b -> Bubbles.active b = true ->
          0 <= Vector4.z (Bubbles.data b) <= Vector4.z (Bubbles.velocity b)
          /\ 0.03 <= Vector4.z (Bubbles.velocity b) <= 0.15
          /\ 3 <= Vector4.w (Bubbles.velocity b) <= 6
          /\ 0 <= Bubbles.age b <= Vector4.w (Bubbles.velocity b)
          /\ 0.1 <= Vector4.y (Bubbles.velocity b) <= 0.18
          /\ -0.1 <= Vector4.y (Bubbles.data b) <= 1.1)
    /\ (forall j u, Bubbles.u_bubbles l !! j = Some u -> 0 <= Vector4.z u <= 0.15).
Proof.
  intros Hr Hcs.
  destruct (run_inv_host_pre Bubbles.call bubble_call_ok
              (fun l h1 => Bubbles.wf l /\ unit_random h1
                 /\ Forall bubble_bounded (Bubbles.bubbles l)
                 /\ Forall (fun u => 0 <= Vector4.z u <= 0.15) (Bubbles.u_bubbles l))
              Bubbles_call_bounded cs Bubbles.createBubblesLayer h Hcs)
    as (l & h' & E & _ & _ & Hb & Hu).
  - split; [now split|]. split; [exact Hr|]. split.
    + apply Forall_replicate. intros Hf. discriminate Hf.
    + apply Forall_replicate. simpl. lra.
  - exists l, h'. split; [exact E|]. split.
    + intros j b Hj. exact (proj1 (Forall_lookup _ _) Hb j b Hj).
    + intros j u Hj. exact (proj1 (Forall_lookup _ _) Hu j u Hj).
Qed.

Lemma bubbles_reachable_bounds_witness :
  unit_random host_half
  /\ Forall bubble_call_ok [Bubbles.NoteOn 100 0; Bubbles.SetTime 1; Bubbles.Update 16]
  /\ exists l h' b,
       run Bubbles.call [Bubbles.NoteOn 100 0; Bubbles.SetTime 1; Bubbles.Update 16]
         Bubbles.createBubblesLayer host_half = Some (l, h')
       /\ Bubbles.bubbles l !! 0%nat = Some b
       /\ Bubbles.active b = true
       /\ 0 <= Vector4.z (Bubbles.data b) <= Vector4.z (Bubbles.velocity b)
       /\ 0.03 <= Vector4.z (Bubbles.velocity b) <= 0.15
       /\ 3 <= Vector4.w (Bubbles.velocity b) <= 6
       /\ 0 <= Bubbles.age b <= Vector4.w (Bubbles.velocity b)
       /\ 0.1 <= Vector4.y (Bubbles.velocity b) <= 0.18
       /\ -0.1 <= Vector4.y (Bubbles.data b) <= 1.1.
Proof.
  assert (unit_random host_half) as Hr by (intros i; simpl; lra).
  assert (Forall bubble_call_ok
            [Bubbles.NoteOn 100 0; Bubbles.SetTime 1; Bubbles.Update 16]) as Hcs.
  { apply Forall_cons_2; [simpl; lra|]. apply Forall_cons_2; [exact I|].
    apply Forall_cons_2; [simpl; lra | apply Forall_nil_2]. }
  split; [exact Hr|]. split; [exact Hcs|].
  destruct (bubbles_reachable_bounds host_half _ Hr Hcs) as (l & h' & E & Hb & _).
  set (l1 := Bubbles.set_time
               (Bubbles.mkLayer 0 (Bubbles.u_bubbles Bubbles.createBubblesLayer)
                  (<[0%nat := new_bubble 100 0 host_half]>
                     (Bubbles.bubbles Bubbles.createBubblesLayer))) 1).
  assert (Bubbles.wf l1) as Hwf by (split; reflexivity).
  destruct (updateBubbles_spec l1 16 (skip_random 4 host_half) Hwf)
    as (l2 & E2 & _ & _ & Hslots).
  assert (run Bubbles.call [Bubbles.NoteOn 100 0; Bubbles.SetTime 1; Bubbles.Update 16]
            Bubbles.createBubblesLayer host_half = Some (l2, skip_random 4 host_half)) as E'.
  { cbn [run Bubbles.call].
    rewrite (bind_Some _ _ _ _ _
               (onBubbleNoteOn_spec Bubbles.createBubblesLayer 100 0 host_half
                  ltac:(simpl; lia))).
    change ((s' ← Bubbles.updateBubbles l1 16; mret s') (skip_random 4 host_half)
            = Some (l2, skip_random 4 host_half)).
    now rewrite (bind_Some _ _ _ _ _ E2). }
  rewrite E in E'. injection E' as -> ->.
  destruct (Hslots 0%nat (new_bubble 100 0 host_half) eq_refl) as [Hb0 _].
  assert (Bubbles.active
            (bubble_step (Bubbles.u_time l1) (Rmin (16 / 1000) 0.05)
               (new_bubble 100 0 host_half)) = true) as Hon.
  { unfold bubble_step, new_bubble, draw, host_half. simpl.
    replace (Rmin (16 / 1000) 0.05) with 0.016 by minmax.
    rewrite decide_False by (intros [H|H]; lra). reflexivity. }
  eexists l2, _, _. split; [exact E|]. split; [exact Hb0|]. split; [exact Hon|].
  exact (Hb 0%nat _ Hb0 Hon).
Defined.

(** ** Further properties: the solar layer *)

Lemma JsMap_keys_set {V : Type} (n k : Z) (v : V) (m : JsMap.t V) :
  k ∈ (JsMap.set n v m).*1 <-> k = n \/ k ∈ m.*1.
Proof.
  induction m as [|[k' v'] m IH]; simpl.
  - rewrite list_elem_of_singleton. split; [tauto|]. intros [H|H]; [exact H|].
    now apply elem_of_nil in H.
  - case_decide as Hd; simpl; rewrite !elem_of_cons.
    + subst k'. tauto.
    + rewrite IH. tauto.
Qed.

Lemma JsMap_NoDup_set {V : Type} (n : Z) (v : V) (m : JsMap.t V) :
  NoDup m.*1 -> NoDup (JsMap.set n v m).*1.
Proof.
  induction m as [|[k' v'] m IH]; simpl; intros Hnd.
  - apply NoDup_singleton.
  - apply NoDup_cons in Hnd as [Hk Hnd]. case_decide as Hd; simpl.
    + subst k'. now apply NoDup_cons.
    + apply NoDup_cons. split; [|now apply IH].
      rewrite JsMap_keys_set. intros [He|He]; [congruence | contradiction].
Qed.

Lemma JsMap_keys_delete {V : Type} (n k : Z) (m : JsMap.t V) :
  k ∈ (JsMap.delete n m).*1 <-> k <> n /\ k ∈ m.*1.
Proof.
  unfold JsMap.delete. rewrite !list_elem_of_fmap. split.
  - intros ([k' v'] & -> & Hin). apply list_elem_of_filter in Hin as [Hne Hin].
    split; [exact Hne|]. now exists (k', v').
  - intros (Hne & [k' v'] & -> & Hin). exists (k', v'). split; [reflexivity|].
    apply list_elem_of_filter. now split.
Qed.

Lemma JsMap_NoDup_delete {V : Type} (n : Z) (m : JsMap.t V) :
  NoDup m.*1 -> NoDup (JsMap.delete n m).*1.
Proof.
  intros Hnd. apply (sublist_NoDup _ _ Hnd). apply fmap_sublist, sublist_filter.
Qed.

Lemma JsMap_get_keys {V : Type} (k : Z) (m : JsMap.t V) :
  is_Some (JsMap.get k m) <-> k ∈ m.*1.
Proof.
  induction m as [|[k' v'] m IH]; simpl.
  - split; [intros [x Hx]; discriminate | intros H; now apply elem_of_nil in H].
  - rewrite elem_of_cons. case_decide as Hd.
    + split; [now left | now eexists].
    + rewrite IH. tauto.
Qed.

Lemma JsMap_delete_absent {V : Type} (k : Z) (m : JsMap.t V) :
  JsMap.get k m = None -> JsMap.delete k m = m.
Proof.
  unfold JsMap.delete. induction m as [|[k' v'] m IH]; simpl; [reflexivity|].
  case_decide as Hd; [discriminate|]. intros Hg.
  rewrite filter_cons_True by (simpl; congruence). now rewrite IH.
Qed.

(** The hold loop again: it keeps the keys of [holds] in place. *)
Lemma hold_loop_keys repeatMs l h :
  exists ws hs h',
    for_range (length (Solar.holds (Solar.state l))) (Solar.hold_body repeatMs) l h
      = Some (with_holds l ws hs, h')
    /\ length ws = length (Solar.waves l)
    /\ hs.*1 = hold_keys l.
Proof.
  set (n := length (Solar.holds (Solar.state l))).
  destruct (for_range_inv
    (fun _ l1 _ => exists ws hs, l1 = with_holds l ws hs
       /\ length ws = length (Solar.waves l) /\ hs.*1 = hold_keys l)
    (Solar.hold_body repeatMs) n l h)
    as (l' & h' & E & ws & hs & -> & Hw & Hh).
  - exists (Solar.waves l), (Solar.holds (Solar.state l)).
    split; [|now split]. destruct l as [? ? ? ? ? ? ? ? ? ? st]. now destruct st.
  - intros j l1 h1 Hj (ws & hs & -> & Hw & Hh).
    assert (length hs = n) as Hlen.
    { rewrite <- (length_fmap fst hs), Hh. unfold hold_keys. now rewrite length_fmap. }
    unfold Solar.hold_body. simpl.
    destruct (index_lt hs j h1 ltac:(lia)) as (entry & Hentry & Ee).
    rewrite (bind_Some _ _ _ _ _ Ee).
    unfold mbind at 1, M_bind at 1, performance_now at 1.
    unfold mbind at 1, M_bind at 1, performance_now at 1.
    case_decide.
    + unfold mbind at 1, M_bind at 1, performance_now at 1.
      match goal with
      | |- context [Solar.spawnWave ?a ?b ?c ?d ?e ?f ?g ?hh] =>
          destruct (spawnWave_fills a b c d e f g hh) as (ws' & Es & Hl' & _)
      end.
      eexists _, _. split; [exact Es|].
      simpl in *. eexists ws', _. split; [reflexivity|].
      split; [congruence|].
      rewrite list_fmap_insert. simpl.
      rewrite list_insert_id; [exact Hh|].
      rewrite list_lookup_fmap, Hentry. reflexivity.
    + eexists _, _. split; [reflexivity|]. now exists ws, hs.
  - now exists ws, hs, h'.
Qed.

Lemma updateSolar_full l dtMs h :
  Solar.wf l ->
  let dt := Rmin (dtMs / 1000) 0.05 in
  exists ws hs fs us ws' uws ucs h',
    Solar.updateSolar l dtMs h =
      Some (with_waves
              (with_flares
                 (Solar.derive (with_holds (with_time l (now_src h (now_pos h) / 1000)) ws hs) dt)
                 fs us)
              ws' uws ucs, h')
    /\ hs.*1 = hold_keys l
    /\ length fs = Solar.MAX_FLARES /\ length us = Solar.MAX_FLARES
    /\ length ws' = Solar.MAX_WAVES /\ length uws = Solar.MAX_WAVES
    /\ length ucs = Solar.MAX_WAVES.
Proof.
  intros (Hf & Huf & Hw & Huw & Huc) dt. unfold Solar.updateSolar.
  rewrite (bind_now _ h).
  fold (with_time l (now_src h (now_pos h) / 1000)).
  set (l1 := with_time l _). fold dt.
  destruct (hold_loop_keys 140 l1 (tick h)) as (ws & hs & h1 & E1 & Hlws & Hlhs).
  rewrite (bind_Some _ _ _ _ _ E1).
  set (l2 := Solar.derive (with_holds l1 ws hs) dt).
  destruct (flare_loop_spec l2 dt h1 Hf Huf) as (fs & us & E2 & Hlfs & Hlus & Hslots).
  rewrite (bind_Some _ _ _ _ _ E2).
  destruct (wave_loop_spec (with_flares l2 fs us) dt h1)
    as (ws' & uws & ucs & E3 & Hlws' & Hluws & Hlucs & Hwslots).
  { simpl. simpl in Hlws. congruence. }
  { exact Huw. }
  { exact Huc. }
  exists ws, hs, fs, us, ws', uws, ucs, h1.
  split; [exact E3|]. split; [exact Hlhs|]. repeat split; assumption.
Qed.

Lemma onSolarNoteOn_full setHSL l midiNote velocity0to127 h :
  let vel := MathUtils.clamp velocity0to127 0 127 / 127 in
  let st := Solar.state l in
  exists fs ws h1 hold t rateBoost,
    Solar.onSolarNoteOn setHSL l midiNote velocity0to127 h
    = Some (Solar.mkLayer (Solar.u_time l) (Solar.u_params l) (Solar.u_rotation l)
              (Rmin 1 (Solar.u_flareBoost l + vel * 0.7))
              (Solar.u_flares l) (Solar.u_waves l) (Solar.u_waveColor l) (Solar.u_color l)
              fs ws
              (Solar.mkState (Solar.rotSpeed st)
                 (MathUtils.lerp (Solar.emaEnergy st) (vel * (1 + rateBoost)) 0.35)
                 (Solar.emaPitch st + 0.25 * (IZR midiNote - Solar.emaPitch st))
                 ((1 - 0.25)
                  * (Solar.emaPitchVar st
                     + 0.25 * (IZR midiNote - Solar.emaPitch st)
                       * (IZR midiNote
                          - (Solar.emaPitch st + 0.25 * (IZR midiNote - Solar.emaPitch st)))))
                 ({[ midiNote ]} ∪ Solar.activeNotes st)
                 (JsMap.set midiNote hold (Solar.holds st)) t),
            tick (tick (tick h1)))
    /\ length fs = length (Solar.flares l)
    /\ length ws = length (Solar.waves l).
Proof.
  intros vel st.
  unfold Solar.onSolarNoteOn, Solar.noteToDiskXY.
  match goal with
  | |- context [Solar.spawnFlare l ?x ?y ?sz ?lf] =>
      destruct (spawnFlare_fills l x y sz lf h) as (fs & h1 & E1 & Hfs & _);
      rewrite (bind_Some _ _ _ _ _ E1); cbv beta
  end.
  match goal with
  | |- context [Solar.spawnWave ?a ?b ?c ?d ?e ?f ?g] =>
      destruct (spawnWave_fills a b c d e f g h1) as (ws & E2 & Hws & _);
      rewrite (bind_Some _ _ _ _ _ E2); cbv beta
  end.
  eexists fs, ws, h1, _, _, _. split; [reflexivity|]. split; assumption.
Qed.

Lemma onSolarNoteOff_full l midiNote h :
  exists ws h',
    Solar.onSolarNoteOff l midiNote h =
      Some (Solar.set_state
              (with_holds l ws (JsMap.delete midiNote (Solar.holds (Solar.state l))))
              (Solar.set_activeNotes
                 (Solar.state
                    (with_holds l ws (JsMap.delete midiNote (Solar.holds (Solar.state l)))))
                 (Solar.activeNotes (Solar.state l) ∖ {[ midiNote ]})), h')
    /\ length ws = length (Solar.waves l).
Proof.
  unfold Solar.onSolarNoteOff.
  destruct (JsMap.get midiNote (Solar.holds (Solar.state l))) as [hold|] eqn:Eg.
  - unfold mbind, M_bind, performance_now.
    match goal with
    | |- context [Solar.spawnWave ?a ?b ?c ?d ?e ?f ?g ?hh] =>
        destruct (spawnWave_fills a b c d e f g hh) as (ws & E & Hws & _)
    end.
    rewrite E. eexists ws, _. split; [reflexivity | exact Hws].
  - exists (Solar.waves l), h. rewrite (JsMap_delete_absent _ _ Eg).
    split; [|reflexivity].
    destruct l as [? ? ? ? ? ? ? ? ? ? st]. now destruct st.
Qed.

Lemma Solar_call_holds setHSL l c h :
  Solar.wf l /\ 0 <= Solar.emaPitchVar (Solar.state l) /\ NoDup (hold_keys l)
    /\ (forall n, n ∈ Solar.activeNotes (Solar.state l) <-> n ∈ hold_keys l) ->
  exists l' h', Solar.call setHSL l c h = Some (l', h')
    /\ Solar.wf l' /\ 0 <= Solar.emaPitchVar (Solar.state l') /\ NoDup (hold_keys l')
    /\ (forall n, n ∈ Solar.activeNotes (Solar.state l') <-> n ∈ hold_keys l').
Proof.
  intros (Hwf & Hvar & Hnd & Hkeys).
  destruct (Solar_call_wf setHSL l c h Hwf) as (l' & h' & E & Hwf').
  exists l', h'. split; [exact E|]. split; [exact Hwf'|].
  destruct c as [n v|n|dtMs]; simpl in E.
  - destruct (onSolarNoteOn_full setHSL l n v h)
      as (fs & ws & h1 & hold & t & rb & E' & _).
    rewrite E' in E. injection E as <- <-. unfold hold_keys. simpl.
    split; [|split].
    + set (d := IZR n - Solar.emaPitch (Solar.state l)).
      pose proof (Rle_0_sqr d) as Hd. unfold Rsqr in Hd.
      replace (IZR n - (Solar.emaPitch (Solar.state l) + 0.25 * d)) with (0.75 * d)
        by (unfold d; lra).
      nra.
    + now apply JsMap_NoDup_set.
    + intros k. rewrite JsMap_keys_set, elem_of_union, elem_of_singleton, Hkeys.
      reflexivity.
  - destruct (onSolarNoteOff_full l n h) as (ws & h1 & E' & _).
    rewrite E' in E. injection E as <- <-. unfold hold_keys. simpl.
    split; [exact Hvar|]. split; [now apply JsMap_NoDup_delete|].
    intros k. rewrite JsMap_keys_delete, elem_of_difference, elem_of_singleton, Hkeys.
    tauto.
  - destruct (updateSolar_full l dtMs h Hwf)
      as (ws & hs & fs & us & ws' & uws & ucs & h1 & E' & Hhs & _).
    rewrite E' in E. injection E as <- <-. unfold hold_keys in *. simpl.
    rewrite Hhs. split; [exact Hvar|]. split; [exact Hnd | exact Hkeys].
Qed.

(** X14.  In every state the solar layer reaches from its constructor, the
    notes in [activeNotes] are the notes with an entry in [holds], so the
    polyphony count [activeNotes.size] is the number of hold emitters;
    and the running pitch variance [emaPitchVar] is never negative, so
    the [Math.max(0, ...)] under the square root of [updateSolar] never
    takes effect. *)
Theorem solar_holds_track_active_notes (setHSL : R -> R -> R -> Color.t) (h : Host)
    (cs : list Solar.Call) :
  exists l h',
    (l0 ← Solar.createSolarLayer; run (Solar.call setHSL) cs l0) h = Some (l, h')
    /\ (forall n, n ∈ Solar.activeNotes (Solar.state l)
                  <-> is_Some (JsMap.get n (Solar.holds (Solar.state l))))
    /\ size (Solar.activeNotes (Solar.state l)) = length (Solar.holds (Solar.state l))
    /\ 0 <= Solar.emaPitchVar (Solar.state l)
    /\ Rmax 0 (Solar.emaPitchVar (Solar.state l)) = Solar.emaPitchVar (Solar.state l).
Proof.
  rewrite (bind_Some _ _ h _ (tick h)
             (eq_refl : Solar.createSolarLayer h = Some (Solar.initial _, tick h))).
  destruct (run_inv (Solar.call setHSL)
              (fun l => Solar.wf l /\ 0 <= Solar.emaPitchVar (Solar.state l)
                        /\ NoDup (hold_keys l)
                        /\ (forall n, n ∈ Solar.activeNotes (Solar.state l)
                                      <-> n ∈ hold_keys l))
              (Solar_call_holds setHSL)
              cs (Solar.initial (now_src h (now_pos h))) (tick h))
    as (l & h' & E & _ & Hvar & Hnd & Hkeys).
  - split; [now repeat split|]. split; [simpl; lra|]. split; [apply NoDup_nil_2|].
    intros n. unfold hold_keys. simpl. rewrite elem_of_nil. set_solver.
  - exists l, h'. split; [exact E|]. split; [|split; [|split]].
    + intros n. now rewrite JsMap_get_keys, Hkeys.
    + assert (Solar.activeNotes (Solar.state l) = list_to_set (hold_keys l)) as ->.
      { apply set_eq. intros n. now rewrite elem_of_list_to_set, Hkeys. }
      rewrite size_list_to_set by exact Hnd. unfold hold_keys. apply length_fmap.
    + exact Hvar.
    + now apply Rmax_right.
Qed.

Lemma derive_rotSpeed l dt :
  let p := Solar.emaPitch (Solar.state l) in
  let rs := Solar.rotSpeed (Solar.state (Solar.derive l dt)) in
  (p < 66 -> -0.32 <= rs <= -0.02) /\ (66 <= p -> 0.02 <= rs <= 0.32).
Proof.
  simpl.
  pose proof (clamp_bounds (Solar.emaEnergy (Solar.state l) / 2) 0 1 ltac:(lra)) as He.
  pose proof (clamp_bounds (sqrt (Rmax 0 (Solar.emaPitchVar (Solar.state l))) / 8) 0 1
                ltac:(lra)) as Hs.
  split; intros Hp; case_decide as Hd.
  - lra.
  - exfalso. apply Hd. minmax.
  - exfalso. revert Hd. minmax.
  - lra.
Qed.

Lemma derive_color l dt :
  let c := Solar.u_color (Solar.derive l dt) in
  0.55 <= Vector2.x c <= 0.9 /\ 0.15 <= Vector2.y c <= 1.
Proof.
  simpl.
  pose proof (clamp_bounds ((Solar.emaPitch (Solar.state l) - 48) / (84 - 48)) 0 1
                ltac:(lra)) as Hh.
  pose proof (clamp_bounds (Solar.emaEnergy (Solar.state l) / 2) 0 1 ltac:(lra)) as He.
  split; minmax.
Qed.

Lemma Solar_call_uniforms setHSL l c h :
  solar_call_ok c ->
  Solar.wf l /\ 0 <= Solar.u_flareBoost l <= 1
    /\ (0.02 <= Solar.rotSpeed (Solar.state l) <= 0.32
        \/ -0.32 <= Solar.rotSpeed (Solar.state l) <= -0.02)
    /\ unit_interval (Vector2.x (Solar.u_color l))
    /\ unit_interval (Vector2.y (Solar.u_color l)) ->
  exists l' h', Solar.call setHSL l c h = Some (l', h')
    /\ Solar.wf l' /\ 0 <= Solar.u_flareBoost l' <= 1
    /\ (0.02 <= Solar.rotSpeed (Solar.state l') <= 0.32
        \/ -0.32 <= Solar.rotSpeed (Solar.state l') <= -0.02)
    /\ unit_interval (Vector2.x (Solar.u_color l'))
    /\ unit_interval (Vector2.y (Solar.u_color l')).
Proof.
  intros Hc (Hwf & Hb & Hr & Hx & Hy).
  destruct (Solar_call_wf setHSL l c h Hwf) as (l' & h' & E & Hwf').
  exists l', h'. split; [exact E|]. split; [exact Hwf'|].
  destruct c as [n v|n|dtMs]; simpl in E, Hc.
  - destruct (onSolarNoteOn_full setHSL l n v h)
      as (fs & ws & h1 & hold & t & rb & E' & _).
    rewrite E' in E. injection E as <- <-. simpl.
    split; [|exact (conj Hr (conj Hx Hy))].
    pose proof (clamp_bounds v 0 127 ltac:(lra)) as Hv.
    split; [apply Rmin_glb; lra | apply Rmin_l].
  - destruct (onSolarNoteOff_full l n h) as (ws & h1 & E' & _).
    rewrite E' in E. injection E as <- <-. simpl.
    exact (conj Hb (conj Hr (conj Hx Hy))).
  - destruct (updateSolar_full l dtMs h Hwf)
      as (ws & hs & fs & us & ws' & uws & ucs & h1 & E' & _).
    rewrite E' in E. injection E as <- <-.
    set (l1 := with_holds (with_time l (now_src h (now_pos h) / 1000)) ws hs).
    set (dt := Rmin (dtMs / 1000) 0.05).
    assert (0 <= dt) as Hdt by (apply Rmin_glb; lra).
    pose proof (derive_rotSpeed l1 dt) as [Hlo Hhi].
    pose proof (derive_color l1 dt) as [Hcx Hcy].
    split; [|split; [|split]].
    + change (0 <= Rmax 0 (Solar.u_flareBoost l - dt * 0.35) <= 1).
      split; [apply Rmax_l | apply Rmax_lub; lra].
    + change (Solar.rotSpeed (Solar.state (with_waves (with_flares (Solar.derive l1 dt) fs us)
                                             ws' uws ucs)))
        with (Solar.rotSpeed (Solar.state (Solar.derive l1 dt))).
      destruct (Rlt_le_dec (Solar.emaPitch (Solar.state l1)) 66) as [Hp|Hp];
        [right; exact (Hlo Hp) | left; exact (Hhi Hp)].
    + change (unit_interval (Vector2.x (Solar.u_color (Solar.derive l1 dt)))).
      unfold unit_interval. lra.
    + change (unit_interval (Vector2.y (Solar.u_color (Solar.derive l1 dt)))).
      unfold unit_interval. lra.
Qed.

(** X15.  With frame times that are not negative, every state the solar layer
    reaches from its constructor has [u_flareBoost] in [[0, 1]], a
    rotation speed of magnitude between 0.02 and 0.32 and both
    components of [u_color] in [[0, 1]]. *)
Theorem solar_uniform_ranges (setHSL : R -> R -> R -> Color.t) (h : Host)
    (cs : list Solar.Call) :
  Forall solar_call_ok cs ->
  exists l h',
    (l0 ← Solar.createSolarLayer; run (Solar.call setHSL) cs l0) h = Some (l, h')
    /\ 0 <= Solar.u_flareBoost l <= 1
    /\ (0.02 <= Solar.rotSpeed (Solar.state l) <= 0.32
        \/ -0.32 <= Solar.rotSpeed (Solar.state l) <= -0.02)
    /\ 0 <= Vector2.x (Solar.u_color l) <= 1
    /\ 0 <= Vector2.y (Solar.u_color l) <= 1.
Proof.
  intros Hcs.
  rewrite (bind_Some _ _ h _ (tick h)
             (eq_refl : Solar.createSolarLayer h = Some (Solar.initial _, tick h))).
  destruct (run_inv_pre (Solar.call setHSL) solar_call_ok
              (fun l => Solar.wf l /\ 0 <= Solar.u_flareBoost l <= 1
                 /\ (0.02 <= Solar.rotSpeed (Solar.state l) <= 0.32
                     \/ -0.32 <= Solar.rotSpeed (Solar.state l) <= -0.02)
                 /\ unit_interval (Vector2.x (Solar.u_color l))
                 /\ unit_interval (Vector2.y (Solar.u_color l)))
              (fun s c h1 Hc Hs => Solar_call_uniforms setHSL s c h1 Hc Hs)
              cs (Solar.initial (now_src h (now_pos h))) (tick h) Hcs)
    as (l & h' & E & _ & Hb & Hr & Hx & Hy).
  - split; [now repeat split|]. unfold unit_interval. simpl.
    split; [lra|]. split; [left; lra|]. split; lra.
  - exists l, h'. split; [exact E|]. exact (conj Hb (conj Hr (conj Hx Hy))).
Qed.

Lemma solar_uniform_ranges_witness :
  Forall solar_call_ok [Solar.NoteOn 60 100; Solar.Update 16; Solar.NoteOff 60]
  /\ exists l h',
       (l0 ← Solar.createSolarLayer;
        run (Solar.call (fun _ _ _ => Color.mk 1 1 1))
          [Solar.NoteOn 60 100; Solar.Update 16; Solar.NoteOff 60] l0) host_half
         = Some (l, h')
       /\ 0 <= Solar.u_flareBoost l <= 1.
Proof.
  assert (Forall solar_call_ok [Solar.NoteOn 60 100; Solar.Update 16; Solar.NoteOff 60])
    as Hcs.
  { apply Forall_cons_2; [exact I|]. apply Forall_cons_2; [simpl; lra|].
    apply Forall_cons_2; [exact I | apply Forall_nil_2]. }
  split; [exact Hcs|].
  destruct (solar_uniform_ranges (fun _ _ _ => Color.mk 1 1 1) host_half _ Hcs)
    as (l & h' & E & Hb & _).
  now exists l, h'.
Defined.

(** X16.  One [updateSolar]: [u_time] becomes the clock reading in seconds;
    the sun turns clockwise (negative speed) while the running pitch is
    below 66 and counter-clockwise from 66 on; [u_rotation] advances by
    the new speed times the clamped frame time; the hue bias lies in
    [[0.55, 0.9]] and the cool boost in [[0.15, 1]]. *)
Theorem solar_rotation_direction (l : Solar.SolarLayer) (dtMs : R) (h : Host) :
  Solar.wf l ->
  exists l' h',
    Solar.updateSolar l dtMs h = Some (l', h')
    /\ Solar.u_time l' = now_src h (now_pos h) / 1000
    /\ (Solar.emaPitch (Solar.state l) < 66 ->
          -0.32 <= Solar.rotSpeed (Solar.state l') <= -0.02)
    /\ (66 <= Solar.emaPitch (Solar.state l) ->
          0.02 <= Solar.rotSpeed (Solar.state l') <= 0.32)
    /\ Solar.u_rotation l'
       = Solar.u_rotation l + Solar.rotSpeed (Solar.state l') * Rmin (dtMs / 1000) 0.05
    /\ 0.55 <= Vector2.x (Solar.u_color l') <= 0.9
    /\ 0.15 <= Vector2.y (Solar.u_color l') <= 1.
Proof.
  intros Hwf.
  destruct (updateSolar_full l dtMs h Hwf)
    as (ws & hs & fs & us & ws' & uws & ucs & h1 & E & _).
  eexists _, _. split; [exact E|].
  set (l1 := with_holds (with_time l (now_src h (now_pos h) / 1000)) ws hs).
  set (dt := Rmin (dtMs / 1000) 0.05).
  pose proof (derive_rotSpeed l1 dt) as [Hlo Hhi].
  pose proof (derive_color l1 dt) as [Hcx Hcy].
  split; [reflexivity|]. split; [exact Hlo|]. split; [exact Hhi|].
  split; [reflexivity|]. split; [exact Hcx | exact Hcy].
Qed.

Lemma solar_rotation_direction_witness :
  Solar.wf (Solar.initial 0)
  /\ exists l' h', Solar.updateSolar (Solar.initial 0) 16 host_half = Some (l', h')
                   /\ -0.32 <= Solar.rotSpeed (Solar.state l') <= -0.02.
Proof.
  assert (Solar.wf (Solar.initial 0)) as Hwf by (now repeat split).
  split; [exact Hwf|].
  destruct (solar_rotation_direction (Solar.initial 0) 16 host_half Hwf)
    as (l' & h' & E & _ & Hlo & _).
  exists l', h'. split; [exact E|]. apply Hlo. simpl. lra.
Defined.



(** X18.  [noteToDiskXY] puts every note on a circle around the centre whose
    radius is the cosine of a latitude in [[-0.7, 0.7]]: never at the
    centre and never outside the unit disk. *)
Theorem noteToDiskXY_ring (note : Z) :
  exists lat,
    -0.7 <= lat <= 0.7
    /\ (Solar.noteToDiskXY note).1 * (Solar.noteToDiskXY note).1
       + (Solar.noteToDiskXY note).2 * (Solar.noteToDiskXY note).2 = cos lat * cos lat
    /\ 0 < cos lat <= 1.
Proof.
  unfold Solar.noteToDiskXY. simpl.
  set (lat := MathUtils.lerp (-0.7) 0.7 _).
  assert (-0.7 <= lat <= 0.7) as Hlat.
  { apply lerp_between; [apply clamp_bounds; lra | lra | lra]. }
  exists lat. split; [exact Hlat|]. split.
  - set (a := IZR (Z.rem note 12) / 12 * PI * 2).
    pose proof (sin2_cos2 a) as Hsc. unfold Rsqr in Hsc.
    replace (cos a * cos lat * (cos a * cos lat) + sin a * cos lat * (sin a * cos lat))
      with ((sin a * sin a + cos a * cos a) * (cos lat * cos lat)) by ring.
    rewrite Hsc. ring.
  - pose proof PI2_3_2 as Hpi. split; [|apply COS_bound].
    apply cos_gt_0; lra.
Qed.

Lemma Math_pow_unit n y : 0 <= n <= 1 -> 0 < y -> 0 <= Math_pow n y <= 1.
Proof.
  intros Hn Hy. unfold Math_pow. case_decide as Hz; [lra|].
  unfold Rpower. split; [apply Rlt_le, exp_pos|].
  rewrite <- exp_0. destruct (Rle_lt_or_eq_dec _ _ (proj2 Hn)) as [Hlt| ->].
  - apply Rlt_le, exp_increasing.
    assert (ln n < 0) by (rewrite <- ln_1; apply ln_increasing; lra). nra.
  - rewrite ln_1, Rmult_0_r. lra.
Qed.

(** X19.  [noteToColor] asks [setHSL] for a hue between 0.05 and 0.62 and a
    saturation between 0.9 and 1, at lightness 1; every note up to 36
    gets the hue 0.05 and saturation 0.9, every note from 96 on the hue
    0.62 and saturation 1. *)
Theorem noteToColor_ranges (setHSL : R -> R -> R -> Color.t) (note : Z) :
  exists hue sat,
    Solar.noteToColor setHSL note = setHSL hue sat 1
    /\ 0.05 <= hue <= 0.62 /\ 0.9 <= sat <= 1
    /\ ((note <= 36)%Z -> hue = 0.05 /\ sat = 0.9)
    /\ ((96 <= note)%Z -> hue = 0.62 /\ sat = 1).
Proof.
  unfold Solar.noteToColor, Solar.hsvToRgb.
  set (n := MathUtils.clamp ((IZR note - 36) / (96 - 36)) 0 1).
  assert (0 <= n <= 1) as Hn by (apply clamp_bounds; lra).
  pose proof (Math_pow_unit n 1.2 Hn ltac:(lra)) as Hp.
  eexists _, _. split; [reflexivity|].
  split; [apply lerp_between; lra|]. split; [apply lerp_between; lra|]. split.
  - intros Hlo. apply IZR_le in Hlo.
    assert (n = 0) as -> by (unfold n; minmax).
    unfold Math_pow. rewrite decide_True by reflexivity.
    unfold MathUtils.lerp. split; lra.
  - intros Hhi. apply IZR_le in Hhi.
    assert (n = 1) as -> by (unfold n; minmax).
    unfold Math_pow. rewrite decide_False by lra.
    unfold Rpower. rewrite ln_1, Rmult_0_r, exp_0.
    unfold MathUtils.lerp. split; lra.
Qed.

(** X20.  The hold emitter of [updateSolar], on one entry of [holds]: it reads
    the clock twice; when less than 56 ms have passed since the entry's
    last spawn it changes nothing; when 140 ms or more have passed it
    reads the clock a third time, stores that reading as the entry's
    [lastSpawnMs] (key, start time, origin and colour kept) and makes one
    spawn attempt on the wave pool. *)
Theorem hold_repeat_window (l : Solar.SolarLayer) (i : nat) (note : Z)
    (hd : Solar.HoldState) (h : Host) :
  Solar.holds (Solar.state l) !! i = Some (note, hd) ->
  let elapsed := now_src h (now_pos h) - Solar.lastSpawnMs hd in
  (elapsed < 56 -> Solar.hold_body 140 i l h = Some (l, tick (tick h)))
  /\ (140 <= elapsed ->
      exists ws,
        Solar.hold_body 140 i l h
        = Some (with_holds l ws
                  (<[i := (note, Solar.mkHold (Solar.startMs hd)
                                   (now_src h (S (S (now_pos h))))
                                   (Solar.origin hd) (Solar.color hd))]>
                     (Solar.holds (Solar.state l))),
                tick (tick (tick h)))
        /\ fills Solar.Wave.active (Solar.waves l) ws).
Proof.
  intros Hi elapsed. unfold Solar.hold_body.
  rewrite (bind_Some _ _ _ _ _ (index_Some _ _ _ h Hi)).
  rewrite (bind_now _ h), (bind_now _ (tick h)). cbn [fst snd].
  set (factor := MathUtils.clamp _ 0 1).
  assert (0 <= factor <= 1) as Hf by (apply clamp_bounds; lra).
  unfold elapsed. split; intros He.
  - rewrite decide_False by nra. reflexivity.
  - rewrite decide_True by nra. rewrite (bind_now _ (tick (tick h))).
    match goal with
    | |- context [Solar.spawnWave ?a ?b ?c ?d ?e ?f ?g ?hh] =>
        destruct (spawnWave_fills a b c d e f g hh) as (ws & Es & Hfill)
    end.
    exists ws. split; [|exact Hfill]. rewrite Es. reflexivity.
Qed.

Lemma hold_repeat_window_witness :
  let l := Solar.set_state (Solar.initial 0)
             (Solar.set_holds (Solar.state (Solar.initial 0))
                [(60%Z, Solar.mkHold 0 0 (Vector2.mk 1 0) (Color.mk 1 1 1))]) in
  Solar.holds (Solar.state l) !! 0%nat
    = Some (60%Z, Solar.mkHold 0 0 (Vector2.mk 1 0) (Color.mk 1 1 1))
  /\ Solar.hold_body 140 0 l host_half = Some (l, tick (tick host_half)).
Proof.
  intros l.
  assert (Solar.holds (Solar.state l) !! 0%nat
          = Some (60%Z, Solar.mkHold 0 0 (Vector2.mk 1 0) (Color.mk 1 1 1))) as Hi
    by reflexivity.
  split; [exact Hi|].
  apply (hold_repeat_window l 0 60 _ host_half Hi). simpl. lra.
Defined.

(** ** Further properties: the host only moves forward *)

Lemma host_le_refl h : host_le h h.
Proof. now repeat split. Qed.

Lemma host_le_trans h1 h2 h3 : host_le h1 h2 -> host_le h2 h3 -> host_le h1 h3.
Proof.
  intros (R1 & N1 & P1 & Q1) (R2 & N2 & P2 & Q2).
  repeat split; try congruence; lia.
Qed.

Lemma advances_ret {A : Type} (a : A) : advances (mret a).
Proof. intros h a' h' E. injection E as _ <-. apply host_le_refl. Qed.

Lemma advances_throw {A : Type} : advances (@throw A).
Proof. intros h a h' E. discriminate E. Qed.

Lemma advances_bind {A B : Type} (m : M A) (f : A -> M B) :
  advances m -> (forall a, advances (f a)) -> advances (m ≫= f).
Proof.
  intros Hm Hf h b h' E. unfold mbind, M_bind in E.
  destruct (m h) as [[a h1]|] eqn:E1; [|discriminate].
  exact (host_le_trans _ _ _ (Hm _ _ _ E1) (Hf a _ _ _ E)).
Qed.

Lemma advances_random : advances Math_random.
Proof. intros h a h' E. injection E as _ <-. repeat split; simpl; lia. Qed.

Lemma advances_now : advances performance_now.
Proof. intros h a h' E. injection E as _ <-. repeat split; simpl; lia. Qed.

Lemma advances_index {A : Type} (arr : list A) i : advances (index arr i).
Proof.
  unfold index. destruct (arr !! i); [apply advances_ret | apply advances_throw].
Qed.

Lemma advances_for_loop {St : Type} (body : nat -> St -> M St) n :
  (forall i s, advances (body i s)) -> forall i s, advances (for_loop body i n s).
Proof.
  intros Hb. induction n as [|n IH]; intros i s; simpl.
  - apply advances_ret.
  - apply advances_bind; [apply Hb | intros s'; apply IH].
Qed.

Lemma advances_for_range {St : Type} (body : nat -> St -> M St) n s :
  (forall i s1, advances (body i s1)) -> advances (for_range n body s).
Proof. intros Hb. now apply advances_for_loop. Qed.

Create HintDb advances.
#[local] Hint Resolve advances_ret advances_throw advances_random advances_now
  advances_index : advances.

(** One step through the syntax of a computation. *)
Ltac advances_step :=
  match goal with
  | |- advances (mret _) => apply advances_ret
  | |- advances Math_random => apply advances_random
  | |- advances performance_now => apply advances_now
  | |- advances (index _ _) => apply advances_index
  | |- advances (_ ≫= _) => apply advances_bind; [|intros ?]
  | |- advances (for_range _ _ _) => apply advances_for_range; intros ? ?
  | |- advances (for_loop _ _ _ _) => apply advances_for_loop; intros ? ?
  | |- advances (if ?c then _ else _) => destruct c
  | |- advances (match ?x with _ => _ end) => destruct x
  | |- advances _ => solve [eauto with advances]
  end.

Ltac advances_tac := cbv zeta; repeat (advances_step; cbv beta zeta).

Lemma advances_Bubbles_call l c : advances (Bubbles.call l c).
Proof.
  destruct c; unfold Bubbles.call, Bubbles.onBubbleNoteOn, Bubbles.onBubbleNoteOff,
    Bubbles.updateBubbles, Bubbles.updateBubbles_body; advances_tac.
Qed.

Lemma advances_Plasma_call l c : advances (Plasma.call l c).
Proof.
  destruct c; unfold Plasma.call, Plasma.onPlasmaNoteOn, Plasma.onPlasmaNoteOff,
    Plasma.updatePlasma, Plasma.updatePlasma_body, Plasma.addHotspot, Plasma.addSpark;
    advances_tac.
Qed.

Lemma advances_Trees_call l c : advances (Trees.call l c).
Proof.
  destruct c; unfold Trees.call, Trees.onTreeNoteOn, Trees.onTreeNoteOff,
    Trees.updateTrees, Trees.updateTrees_body; advances_tac.
Qed.

Lemma advances_Waves_call l c : advances (Waves.call l c).
Proof.
  destruct c; unfold Waves.call, Waves.onWaveNoteOn, Waves.onWaveNoteOff,
    Waves.addWaveRipple, Waves.updateWaves, Ripples.marshal_body; advances_tac.
Qed.

Lemma advances_Water_call l c : advances (Water.call l c).
Proof.
  destruct c; unfold Water.call, Water.onWaterNoteOn, Water.onWaterNoteOff,
    Water.addWaterRipple, Water.oldest_body, Water.updateWater, Ripples.marshal_body;
    advances_tac.
Qed.

Lemma advances_spawnWave l o c s sp w d : advances (Solar.spawnWave l o c s sp w d).
Proof. unfold Solar.spawnWave; advances_tac. Qed.

Lemma advances_spawnFlare l x y s lf : advances (Solar.spawnFlare l x y s lf).
Proof. unfold Solar.spawnFlare; advances_tac. Qed.

#[local] Hint Resolve advances_spawnWave advances_spawnFlare : advances.

Lemma advances_Solar_call setHSL l c : advances (Solar.call setHSL l c).
Proof.
  destruct c; unfold Solar.call.
  - unfold Solar.onSolarNoteOn. destruct (Solar.noteToDiskXY midiNote). advances_tac.
  - unfold Solar.onSolarNoteOff. advances_tac.
  - unfold Solar.updateSolar, Solar.hold_body, Solar.flare_body, Solar.wave_body.
    advances_tac.
Qed.

(** The handlers of the layers, by name. *)
Ltac advances_layer :=
  match goal with
  | |- advances (Bubbles.onBubbleNoteOn ?l ?v ?u) =>
      exact (advances_Bubbles_call l (Bubbles.NoteOn v u))
  | |- advances (Bubbles.onBubbleNoteOff ?l ?v ?u) =>
      exact (advances_Bubbles_call l (Bubbles.NoteOff v u))
  | |- advances (Bubbles.updateBubbles ?l ?dt) =>
      exact (advances_Bubbles_call l (Bubbles.Update dt))
  | |- advances (Waves.onWaveNoteOn ?l ?x ?v) =>
      exact (advances_Waves_call l (Waves.NoteOn x v))
  | |- advances (Waves.onWaveNoteOff ?l ?x ?v ?d) =>
      exact (advances_Waves_call l (Waves.NoteOff x v d))
  | |- advances (Waves.updateWaves ?l ?dt) =>
      exact (advances_Waves_call l (Waves.Update dt))
  | |- advances (Plasma.onPlasmaNoteOn ?l ?x ?v) =>
      exact (advances_Plasma_call l (Plasma.NoteOn x v))
  | |- advances (Plasma.onPlasmaNoteOff ?l ?x ?v ?d) =>
      exact (advances_Plasma_call l (Plasma.NoteOff x v d))
  | |- advances (Plasma.updatePlasma ?l ?dt) =>
      exact (advances_Plasma_call l (Plasma.Update dt))
  | |- advances (Trees.onTreeNoteOn ?l ?n ?v ?c) =>
      exact (advances_Trees_call l (Trees.NoteOn n v c))
  | |- advances (Trees.onTreeNoteOff ?l ?n ?v ?d) =>
      exact (advances_Trees_call l (Trees.NoteOff n v d))
  | |- advances (Trees.updateTrees ?l ?dt) =>
      exact (advances_Trees_call l (Trees.Update dt))
  | |- advances (Solar.onSolarNoteOn ?f ?l ?n ?v) =>
      exact (advances_Solar_call f l (Solar.NoteOn n v))
  | |- advances (Solar.onSolarNoteOff ?l ?n) =>
      exact (advances_Solar_call (fun _ _ _ => Color.mk 0 0 0) l (Solar.NoteOff n))
  | |- advances (Solar.updateSolar ?l ?dt) =>
      exact (advances_Solar_call (fun _ _ _ => Color.mk 0 0 0) l (Solar.Update dt))
  | |- advances (Water.onWaterNoteOn ?l ?x ?v ?u) =>
      exact (advances_Water_call l (Water.NoteOn x v u))
  | |- advances (Water.onWaterNoteOff ?l ?x ?v ?d) =>
      exact (advances_Water_call l (Water.NoteOff x v d))
  | |- advances (Water.updateWater ?l ?dt) =>
      exact (advances_Water_call l (Water.Update dt))
  end.

Ltac advances_app := cbv zeta; repeat (first [advances_layer | advances_step]; cbv beta zeta).

Lemma advances_App_onNoteOn setHSL m a note vel color :
  advances (App.onNoteOn setHSL m a note vel color).
Proof. unfold App.onNoteOn, App.on_layer. destruct m; advances_app. Qed.

Lemma advances_App_onNoteOff m a note vel heldMs color :
  advances (App.onNoteOff m a note vel heldMs color).
Proof. unfold App.onNoteOff, App.on_layer. destruct m; advances_app. Qed.

Lemma advances_App_animate a time : advances (App.animate a time).
Proof.
  unfold App.animate, App.refresh, App.stamp, App.on_layer.
  destruct (App.bubblesLayer a), (App.wavesLayer a), (App.plasmaLayer a),
    (App.treesLayer a), (App.solarLayer a), (App.waterLayer a);
    advances_app.
Qed.

Lemma advances_onMIDIMessage {St : Type} setHSL
    (onNoteOn : St -> Z -> Z -> Color.t -> M St)
    (onNoteOff : St -> Z -> Z -> R -> Color.t -> M St) fwd out s status d1 d2 :
  (forall a n v c, advances (onNoteOn a n v c)) ->
  (forall a n v d c, advances (onNoteOff a n v d c)) ->
  advances (Midi.onMIDIMessage setHSL onNoteOn onNoteOff fwd out s status d1 d2).
Proof.
  intros Hon Hoff. unfold Midi.onMIDIMessage. cbv zeta.
  repeat case_decide.
  - apply advances_bind; [apply advances_now | intros t0].
    apply advances_bind; [apply Hon | intros a; apply advances_ret].
  - apply advances_bind; [|intros s1; apply advances_ret].
    destruct (Midi.notesRef s !! d1); [|apply advances_ret].
    apply advances_bind; [apply advances_now | intros t0].
    apply advances_bind; [apply Hoff | intros a; apply advances_ret].
  - apply advances_ret.
Qed.

Lemma advances_session_step setHSL s e : advances (step setHSL s e).
Proof.
  destruct e as [m fwd out status d1 d2|time|m]; simpl.
  - apply advances_onMIDIMessage.
    + intros. apply advances_App_onNoteOn.
    + intros. apply advances_App_onNoteOff.
  - apply advances_bind; [apply advances_App_animate | intros a; apply advances_ret].
  - apply advances_ret.
Qed.

Lemma advances_run {St C : Type} (call : St -> C -> M St) cs :
  (forall s c, advances (call s c)) -> forall s, advances (run call cs s).
Proof.
  intros Hc. induction cs as [|c cs IH]; intros s; simpl.
  - apply advances_ret.
  - apply advances_bind; [apply Hc | exact IH].
Qed.

Lemma times_read_mono ns h h' : times_read ns h -> host_le h h' -> times_read ns h'.
Proof.
  intros Ht (_ & Hn & _ & Hp) n info Hi.
  destruct (Ht n info Hi) as (k & Hk & E).
  exists k. split; [lia | now rewrite Hn].
Qed.

Lemma times_read_insert ns h h' n k v c :
  times_read ns h -> host_le h h' -> (k <= now_pos h')%nat ->
  times_read (<[n := NoteInfo.mk (now_src h k) v true c]> ns) h'.
Proof.
  intros Ht Hle Hk n' info Hi.
  destruct (decide (n' = n)) as [->|Hne].
  - rewrite lookup_insert_eq in Hi. injection Hi as <-.
    exists k. split; [exact Hk|]. simpl. destruct Hle as (_ & -> & _). reflexivity.
  - rewrite lookup_insert_ne in Hi by congruence.
    exact (times_read_mono ns h h' Ht Hle n' info Hi).
Qed.

Lemma times_read_delete ns h n : times_read ns h -> times_read (delete n ns) h.
Proof.
  intros Ht n' info Hi. apply lookup_delete_Some in Hi as [_ Hi]. exact (Ht n' info Hi).
Qed.

(** ** Further properties: the MIDI hook *)

Section MidiHandler.
Context {St : Type}.
Variable setHSL : R -> R -> R -> Color.t.
Variable onNoteOn : St -> Z -> Z -> Color.t -> M St.
Variable onNoteOff : St -> Z -> Z -> R -> Color.t -> M St.
Variable forwardToDAW : bool.
Variable out : bool.

Local Abbreviation handle := (Midi.onMIDIMessage setHSL onNoteOn onNoteOff forwardToDAW out).
Local Abbreviation forward := (Midi.forward forwardToDAW out).

(** X21.  A message whose command nibble is neither [0x80] nor [0x90] changes
    nothing and reads no clock.  A note-off (command [0x80], or [0x90]
    with velocity 0) for a note that has no entry in [notesRef] calls no
    callback, reads no clock and leaves the table alone; it is still
    forwarded when forwarding is on. *)
Theorem midi_messages_without_effect (s : Midi.State St) (status d1 d2 : Z) (h : Host) :
  (Z.land status 0xf0 <> 0x80%Z -> Z.land status 0xf0 <> 0x90%Z ->
     handle s status d1 d2 h = Some (s, h))
  /\ (Z.land status 0xf0 = 0x80%Z \/ (Z.land status 0xf0 = 0x90%Z /\ d2 = 0%Z) ->
      Midi.notesRef s !! d1 = None ->
      handle s status d1 d2 h = Some (forward s [0x80%Z; d1; d2], h)
      /\ Midi.notesRef (forward s [0x80%Z; d1; d2]) = Midi.notesRef s
      /\ Midi.app (forward s [0x80%Z; d1; d2]) = Midi.app s).
Proof.
  unfold Midi.onMIDIMessage. split.
  - intros H80 H90. rewrite decide_False by tauto. rewrite decide_False by tauto.
    reflexivity.
  - intros Hoff Hnone. rewrite decide_False by lia. rewrite decide_True by exact Hoff.
    rewrite Hnone. split; [reflexivity|].
    unfold Midi.forward. destruct (forwardToDAW && out); now split.
Qed.

(** X22.  A key press: a note-on message (command [0x90], velocity above 0)
    followed by the note-off for the same note.  The note-on callback
    gets the note, the velocity and the colour [setHSL(noteToHue(note) /
    360, 1, 0.6)]; the note-off callback gets the same colour and, as
    held duration, the difference of the two clock readings of the
    hook; afterwards the note has no entry in [notesRef]; with
    forwarding on, the two messages are sent on, with status bytes
    [0x90] and [0x80]. *)
Theorem midi_key_press_round_trip (s : Midi.State St) (st_on st_off note vel vel_off : Z)
    (h h1 h2 : Host) (a1 a2 : St) :
  Z.land st_on 0xf0 = 0x90%Z -> (0 < vel)%Z ->
  Z.land st_off 0xf0 = 0x80%Z \/ (Z.land st_off 0xf0 = 0x90%Z /\ vel_off = 0%Z) ->
  let color := setHSL (noteToHue note / 360) 1 0.6 in
  onNoteOn (Midi.app s) note vel color (tick h) = Some (a1, h1) ->
  onNoteOff a1 note vel_off (now_src h1 (now_pos h1) - now_src h (now_pos h)) color (tick h1)
    = Some (a2, h2) ->
  (s1 ← handle s st_on note vel; handle s1 st_off note vel_off) h
  = Some (Midi.mk (delete note (Midi.notesRef s))
            (Midi.sent s
             ++ (if forwardToDAW && out
                 then [[0x90%Z; note; vel]; [0x80%Z; note; vel_off]] else []))
            a2, h2).
Proof.
  intros Hon Hvel Hoff color Eon Eoff.
  assert (handle s st_on note vel h
          = Some (forward (Midi.mk (<[note := NoteInfo.mk (now_src h (now_pos h)) vel true color]>
                                      (Midi.notesRef s)) (Midi.sent s) a1)
                    [0x90%Z; note; vel], h1)) as E1.
  { unfold Midi.onMIDIMessage. rewrite decide_True by (split; assumption).
    rewrite (bind_now _ h). fold color. now rewrite (bind_Some _ _ _ _ _ Eon). }
  rewrite (bind_Some _ _ _ _ _ E1).
  unfold Midi.onMIDIMessage. rewrite decide_False by lia. rewrite decide_True by exact Hoff.
  unfold Midi.forward. destruct (forwardToDAW && out); simpl.
  - rewrite lookup_insert_eq. unfold mbind, M_bind, performance_now.
    cbn [NoteInfo.onTime NoteInfo.color]. fold (tick h1). rewrite Eoff. simpl.
    rewrite delete_insert_eq, <- app_assoc. reflexivity.
  - rewrite lookup_insert_eq. unfold mbind, M_bind, performance_now.
    cbn [NoteInfo.onTime NoteInfo.color]. fold (tick h1). rewrite Eoff. simpl.
    rewrite delete_insert_eq, app_nil_r. reflexivity.
Qed.

Lemma land_channel (base ch : Z) :
  (base = 0x80 \/ base = 0x90)%Z -> (0 <= ch < 16)%Z ->
  Z.land (base + ch) 0xf0 = base.
Proof.
  intros Hb Hch.
  assert (exists n, (n < 16)%nat /\ ch = Z.of_nat n) as (n & Hn & ->)
    by (exists (Z.to_nat ch); lia).
  destruct Hb as [-> | ->];
    do 16 (destruct n as [|n]; [reflexivity|]); lia.
Qed.

(** X23.  The handler looks at the command nibble of the status byte only:
    note messages on any of the 16 channels are handled like those on
    channel 0, and a note-on with velocity 0 like the note-off with
    velocity 0. *)
Theorem midi_channel_ignored (s : Midi.State St) (ch d1 d2 : Z) :
  (0 <= ch < 16)%Z ->
  handle s (0x90 + ch) d1 d2 = handle s 0x90 d1 d2
  /\ handle s (0x80 + ch) d1 d2 = handle s 0x80 d1 d2
  /\ handle s (0x90 + ch) d1 0 = handle s 0x80 d1 0.
Proof.
  intros Hch. unfold Midi.onMIDIMessage.
  rewrite (land_channel 0x90 ch) by (auto; lia).
  rewrite (land_channel 0x80 ch) by (auto; lia).
  split; [reflexivity|]. split; [reflexivity|].
  change (Z.land 0x80 0xf0) with 0x80%Z.
  rewrite !(decide_False (P := _ /\ (0 < 0)%Z)) by lia.
  rewrite decide_True by (right; now split). rewrite decide_True by now left.
  reflexivity.
Qed.
End MidiHandler.

Lemma midi_messages_without_effect_witness :
  Midi.onMIDIMessage Color.mk idle_on idle_off true true (Midi.mk ∅ [] tt) 0xB0 7 100 host_half
    = Some (Midi.mk ∅ [] tt, host_half)
  /\ Midi.onMIDIMessage Color.mk idle_on idle_off true true (Midi.mk ∅ [] tt) 0x80 60 0 host_half
    = Some (Midi.mk ∅ [[0x80; 60; 0]%Z] tt, host_half).
Proof.
  split.
  - apply (midi_messages_without_effect Color.mk idle_on idle_off true true
             (Midi.mk ∅ [] tt) 0xB0 7 100 host_half); discriminate.
  - apply (midi_messages_without_effect Color.mk idle_on idle_off true true
             (Midi.mk ∅ [] tt) 0x80 60 0 host_half); [now left | reflexivity].
Defined.

Lemma midi_key_press_round_trip_witness :
  (s1 ← Midi.onMIDIMessage Color.mk idle_on idle_off false false (Midi.mk ∅ [] tt) 0x91 60 100;
   Midi.onMIDIMessage Color.mk idle_on idle_off false false s1 0x81 60 64) host_half
  = Some (Midi.mk (delete 60%Z ∅) [] tt, tick (tick host_half)).
Proof.
  apply (midi_key_press_round_trip Color.mk idle_on idle_off false false
           (Midi.mk ∅ [] tt) 0x91 0x81 60 100 64 host_half
           (tick host_half) (tick (tick host_half)) tt tt);
    [reflexivity | lia | now left | reflexivity | reflexivity].
Defined.

Lemma midi_channel_ignored_witness :
  Midi.onMIDIMessage Color.mk idle_on idle_off false false (Midi.mk ∅ [] tt) (0x90 + 9) 36 127
  = Midi.onMIDIMessage Color.mk idle_on idle_off false false (Midi.mk ∅ [] tt) 0x90 36 127.
Proof.
  apply (midi_channel_ignored Color.mk idle_on idle_off false false (Midi.mk ∅ [] tt) 9 36 127).
  lia.
Defined.

(** ** Further properties: the visualizer component *)

Lemma on_layer_Some {L : Type} (f : L -> M L) l h l' h' :
  f l h = Some (l', h') -> App.on_layer (Some l) f h = Some (Some l', h').
Proof. intros E. unfold App.on_layer. now rewrite (bind_Some _ _ _ _ _ E). Qed.

(** The end of each case of a dispatch: the layer of the mode has been
    replaced by a well-formed one, nothing else has changed. *)
Ltac finish_dispatch :=
  eexists _, _; split; [reflexivity|];
  split; [unfold app_wf; simpl; repeat (split; [eauto|]); eauto|];
  split; [reflexivity|]; split; [reflexivity|]; split; [reflexivity|];
  let m' := fresh "m'" in intros m' ?; destruct m'; simpl; congruence.

(** A note-on in the component: total on a mounted component. *)
Lemma App_onNoteOn_spec setHSL m a note vel color h :
  app_wf a ->
  exists a' h',
    App.onNoteOn setHSL m a note vel color h = Some (a', h')
    /\ app_wf a'
    /\ App.activeNoteColors a'
       = <[note := NoteInfo.mk (now_src h (now_pos h)) vel true color]>
           (App.activeNoteColors a)
    /\ App.visible a' = App.visible a
    /\ App.lastTime a' = App.lastTime a
    /\ (forall m', m' <> m -> same_layer m' a a').
Proof.
  intros ((lb & Eb & Hb) & (lw & Ew & Hw) & (lp & Ep & Hp) & (lt & Et & Ht)
          & (ls & Es & Hs) & (la & Ea & Ha)).
  unfold App.onNoteOn. rewrite (bind_now _ h).
  destruct m; cbn [App.bubblesLayer App.wavesLayer App.plasmaLayer App.treesLayer
                   App.solarLayer App.waterLayer App.set_activeNoteColors].
  - destruct (Bubbles_call_wf lb (Bubbles.NoteOn (IZR vel) (noteToHue note)) (tick h) Hb)
      as (l' & h' & E & Hl').
    cbn [Bubbles.call Waves.call Plasma.call Trees.call Solar.call Water.call] in E.
    rewrite Eb.
    rewrite (bind_Some _ _ _ _ _
               (on_layer_Some (fun l => Bubbles.onBubbleNoteOn l (IZR vel) (noteToHue note))
                  lb _ _ _ E)).
    finish_dispatch.
  - destruct (Waves_call_wf lw (Waves.NoteOn (noteToX (IZR note) 127) (IZR vel)) (tick h) Hw)
      as (l' & h' & E & Hl').
    cbn [Bubbles.call Waves.call Plasma.call Trees.call Solar.call Water.call] in E.
    rewrite Ew.
    rewrite (bind_Some _ _ _ _ _
               (on_layer_Some (fun l => Waves.onWaveNoteOn l (noteToX (IZR note) 127) (IZR vel))
                  lw _ _ _ E)).
    finish_dispatch.
  - destruct (Plasma_call_wf lp (Plasma.NoteOn (noteToX (IZR note) 127) (IZR vel)) (tick h) Hp)
      as (l' & h' & E & Hl').
    cbn [Bubbles.call Waves.call Plasma.call Trees.call Solar.call Water.call] in E.
    rewrite Ep.
    rewrite (bind_Some _ _ _ _ _
               (on_layer_Some (fun l => Plasma.onPlasmaNoteOn l (noteToX (IZR note) 127) (IZR vel))
                  lp _ _ _ E)).
    finish_dispatch.
  - destruct (Trees_call_wf lt (Trees.NoteOn note (IZR vel) color) (tick h) Ht)
      as (l' & h' & E & Hl').
    cbn [Bubbles.call Waves.call Plasma.call Trees.call Solar.call Water.call] in E.
    rewrite Et.
    rewrite (bind_Some _ _ _ _ _
               (on_layer_Some (fun l => Trees.onTreeNoteOn l note (IZR vel) color)
                  lt _ _ _ E)).
    finish_dispatch.
  - destruct (Solar_call_wf setHSL ls (Solar.NoteOn note (IZR vel)) (tick h) Hs)
      as (l' & h' & E & Hl').
    cbn [Bubbles.call Waves.call Plasma.call Trees.call Solar.call Water.call] in E.
    rewrite Es.
    rewrite (bind_Some _ _ _ _ _
               (on_layer_Some (fun l => Solar.onSolarNoteOn setHSL l note (IZR vel))
                  ls _ _ _ E)).
    finish_dispatch.
  - destruct (Water_call_wf la
                (Water.NoteOn (noteToX (IZR note) 127) (IZR vel) (noteToHue note)) (tick h) Ha)
      as (l' & h' & E & Hl').
    cbn [Bubbles.call Waves.call Plasma.call Trees.call Solar.call Water.call] in E.
    rewrite Ea.
    rewrite (bind_Some _ _ _ _ _
               (on_layer_Some (fun l => Water.onWaterNoteOn l (noteToX (IZR note) 127) (IZR vel) (noteToHue note))
                  la _ _ _ E)).
    finish_dispatch.
Qed.

Lemma App_onNoteOff_spec m a note vel heldMs color h :
  app_wf a ->
  exists a' h',
    App.onNoteOff m a note vel heldMs color h = Some (a', h')
    /\ app_wf a'
    /\ App.activeNoteColors a' = delete note (App.activeNoteColors a)
    /\ App.visible a' = App.visible a
    /\ App.lastTime a' = App.lastTime a
    /\ (forall m', m' <> m -> same_layer m' a a').
Proof.
  intros ((lb & Eb & Hb) & (lw & Ew & Hw) & (lp & Ep & Hp) & (lt & Et & Ht)
          & (ls & Es & Hs) & (la & Ea & Ha)).
  unfold App.onNoteOff.
  destruct m; cbn [App.bubblesLayer App.wavesLayer App.plasmaLayer App.treesLayer
                   App.solarLayer App.waterLayer App.set_activeNoteColors].
  - destruct (Bubbles_call_wf lb (Bubbles.NoteOff (IZR vel) (noteToHue note)) h Hb)
      as (l' & h' & E & Hl').
    cbn [Bubbles.call Waves.call Plasma.call Trees.call Solar.call Water.call] in E.
    rewrite Eb.
    rewrite (bind_Some _ _ _ _ _
               (on_layer_Some (fun l => Bubbles.onBubbleNoteOff l (IZR vel) (noteToHue note))
                  lb _ _ _ E)).
    finish_dispatch.
  - destruct (Waves_call_wf lw
                (Waves.NoteOff (noteToX (IZR note) 127) (IZR vel) heldMs) h Hw)
      as (l' & h' & E & Hl').
    cbn [Bubbles.call Waves.call Plasma.call Trees.call Solar.call Water.call] in E.
    rewrite Ew.
    rewrite (bind_Some _ _ _ _ _
               (on_layer_Some (fun l => Waves.onWaveNoteOff l (noteToX (IZR note) 127) (IZR vel) heldMs)
                  lw _ _ _ E)).
    finish_dispatch.
  - destruct (Plasma_call_wf lp
                (Plasma.NoteOff (noteToX (IZR note) 127) (IZR vel) heldMs) h Hp)
      as (l' & h' & E & Hl').
    cbn [Bubbles.call Waves.call Plasma.call Trees.call Solar.call Water.call] in E.
    rewrite Ep.
    rewrite (bind_Some _ _ _ _ _
               (on_layer_Some (fun l => Plasma.onPlasmaNoteOff l (noteToX (IZR note) 127) (IZR vel) heldMs)
                  lp _ _ _ E)).
    finish_dispatch.
  - destruct (Trees_call_wf lt (Trees.NoteOff note (IZR vel) heldMs) h Ht)
      as (l' & h' & E & Hl').
    cbn [Bubbles.call Waves.call Plasma.call Trees.call Solar.call Water.call] in E.
    rewrite Et.
    rewrite (bind_Some _ _ _ _ _
               (on_layer_Some (fun l => Trees.onTreeNoteOff l note (IZR vel) heldMs)
                  lt _ _ _ E)).
    finish_dispatch.
  - destruct (Solar_call_wf (fun _ _ _ => Color.mk 0 0 0) ls (Solar.NoteOff note) h Hs)
      as (l' & h' & E & Hl').
    cbn [Bubbles.call Waves.call Plasma.call Trees.call Solar.call Water.call] in E.
    rewrite Es.
    rewrite (bind_Some _ _ _ _ _
               (on_layer_Some (fun l => Solar.onSolarNoteOff l note)
                  ls _ _ _ E)).
    finish_dispatch.
  - destruct (Water_call_wf la
                (Water.NoteOff (noteToX (IZR note) 127) (IZR vel) heldMs) h Ha)
      as (l' & h' & E & Hl').
    cbn [Bubbles.call Waves.call Plasma.call Trees.call Solar.call Water.call] in E.
    rewrite Ea.
    rewrite (bind_Some _ _ _ _ _
               (on_layer_Some (fun l => Water.onWaterNoteOff l (noteToX (IZR note) 127) (IZR vel) heldMs)
                  la _ _ _ E)).
    finish_dispatch.
Qed.

Lemma refresh_stamp_spec {L : Type} (wf : L -> Prop) (shown : bool)
    (set_time : L -> R -> L) (ts : R) (update : L -> M L) (l : L) (h : Host) :
  wf l ->
  (forall l1 t, wf l1 -> wf (set_time l1 t)) ->
  (forall l1 h1, wf l1 -> exists l2 h2, update l1 h1 = Some (l2, h2) /\ wf l2) ->
  exists l' h',
    App.refresh shown (App.stamp shown set_time ts (Some l)) update h = Some (Some l', h')
    /\ wf l'
    /\ (shown = false -> l' = l /\ h' = h)
    /\ (shown = true -> update (set_time l ts) h = Some (l', h')).
Proof.
  intros Hl Hset Hupd. unfold App.refresh, App.stamp.
  destruct shown.
  - destruct (Hupd (set_time l ts) h (Hset l ts Hl)) as (l2 & h2 & E & Hl2).
    exists l2, h2. split; [exact (on_layer_Some update _ _ _ _ E)|].
    split; [exact Hl2|]. split; [discriminate | now intros _].
  - exists l, h. split; [reflexivity|]. split; [exact Hl|].
    split; [now intros _ | discriminate].
Qed.

(** One animation frame on a mounted component. *)
Lemma App_animate_spec a time h :
  app_wf a ->
  exists a' h',
    App.animate a time h = Some (a', h')
    /\ app_wf a'
    /\ App.activeNoteColors a' = App.activeNoteColors a
    /\ App.visible a' = App.visible a
    /\ App.lastTime a' = time
    /\ (forall m, App.visible a m = false -> same_layer m a a')
    /\ (App.visible a App.bubbles = true ->
        exists lb lb' hb hb',
          App.bubblesLayer a = Some lb /\ App.bubblesLayer a' = Some lb'
          /\ Bubbles.updateBubbles (Bubbles.set_time lb (time / 1000))
               (time - App.lastTime a) hb = Some (lb', hb'))
    /\ (App.visible a App.solar = true ->
        exists ls ls' hs hs',
          App.solarLayer a = Some ls /\ App.solarLayer a' = Some ls'
          /\ Solar.updateSolar (with_time ls (time / 1000)) (time / 1000) hs
             = Some (ls', hs')).
Proof.
  intros ((lb & Eb & Hb) & (lw & Ew & Hw) & (lp & Ep & Hp) & (lt & Et & Ht)
          & (ls & Es & Hs) & (la & Ea & Ha)).
  unfold App.animate. rewrite (bind_now _ h). cbv zeta.
  rewrite Eb, Ew, Ep, Et, Es, Ea.
  set (dt := time - App.lastTime a). set (ts := time / 1000).
  destruct (refresh_stamp_spec Bubbles.wf (App.visible a App.bubbles) Bubbles.set_time ts
              (fun l => Bubbles.updateBubbles l dt) lb (tick h) Hb
              (fun _ _ Hl => Hl)
              (fun l1 h1 Hl => Bubbles_call_wf l1 (Bubbles.Update dt) h1 Hl))
    as (lb' & h1 & E1 & Hb' & Hoff1 & Hon1).
  rewrite (bind_Some _ _ _ _ _ E1).
  destruct (refresh_stamp_spec Ripples.wf (App.visible a App.waves)
              (fun l t => Ripples.mkLayer t (Ripples.u_ripples l) (Ripples.u_ripple_count l)
                            (Ripples.ripples l)) ts
              (fun l => Waves.updateWaves l dt) lw h1 Hw
              (fun _ _ Hl => Hl)
              (fun l1 h0 Hl => Waves_call_wf l1 (Waves.Update dt) h0 Hl))
    as (lw' & h2 & E2 & Hw' & Hoff2 & _).
  rewrite (bind_Some _ _ _ _ _ E2).
  destruct (refresh_stamp_spec Plasma.wf (App.visible a App.plasma)
              (fun l t => Plasma.mkLayer t (Plasma.u_particles l) (Plasma.particles l)) ts
              (fun l => Plasma.updatePlasma l dt) lp h2 Hp
              (fun _ _ Hl => Hl)
              (fun l1 h0 Hl => Plasma_call_wf l1 (Plasma.Update dt) h0 Hl))
    as (lp' & h3 & E3 & Hp' & Hoff3 & _).
  rewrite (bind_Some _ _ _ _ _ E3).
  destruct (refresh_stamp_spec Trees.wf (App.visible a App.trees)
              (fun l t => Trees.mkLayer t (Trees.u_seeds l) (Trees.u_seed_colors l)
                            (Trees.seeds l)) ts
              (fun l => Trees.updateTrees l dt) lt h3 Ht
              (fun _ _ Hl => Hl)
              (fun l1 h0 Hl => Trees_call_wf l1 (Trees.Update dt) h0 Hl))
    as (lt' & h4 & E4 & Ht' & Hoff4 & _).
  rewrite (bind_Some _ _ _ _ _ E4).
  destruct (refresh_stamp_spec Solar.wf (App.visible a App.solar)
              (fun l t => Solar.mkLayer t (Solar.u_params l) (Solar.u_rotation l)
                            (Solar.u_flareBoost l) (Solar.u_flares l) (Solar.u_waves l)
                            (Solar.u_waveColor l) (Solar.u_color l) (Solar.flares l)
                            (Solar.waves l) (Solar.state l)) ts
              (fun l => Solar.updateSolar l ts) ls h4 Hs
              (fun _ _ Hl => Hl)
              (fun l1 h0 Hl => Solar_call_wf (fun _ _ _ => Color.mk 0 0 0) l1
                                 (Solar.Update ts) h0 Hl))
    as (ls' & h5 & E5 & Hs' & Hoff5 & Hon5).
  rewrite (bind_Some _ _ _ _ _ E5).
  destruct (refresh_stamp_spec Ripples.wf (App.visible a App.water)
              (fun l t => Ripples.mkLayer t (Ripples.u_ripples l) (Ripples.u_ripple_count l)
                            (Ripples.ripples l)) ts
              (fun l => Water.updateWater l dt) la h5 Ha
              (fun _ _ Hl => Hl)
              (fun l1 h0 Hl => Water_call_wf l1 (Water.Update dt) h0 Hl))
    as (la' & h6 & E6 & Ha' & Hoff6 & _).
  rewrite (bind_Some _ _ _ _ _ E6).
  eexists _, _. split; [reflexivity|].
  split; [unfold app_wf; simpl; repeat (split; [eauto|]); eauto|].
  split; [reflexivity|]. split; [reflexivity|]. split; [reflexivity|]. split; [|split].
  - intros m Hm. destruct m; simpl.
    + destruct (Hoff1 Hm) as [-> _]. now rewrite Eb.
    + destruct (Hoff2 Hm) as [-> _]. now rewrite Ew.
    + destruct (Hoff3 Hm) as [-> _]. now rewrite Ep.
    + destruct (Hoff4 Hm) as [-> _]. now rewrite Et.
    + destruct (Hoff5 Hm) as [-> _]. now rewrite Es.
    + destruct (Hoff6 Hm) as [-> _]. now rewrite Ea.
  - intros Hon. exists lb, lb', (tick h), h1.
    split; [reflexivity|]. split; [reflexivity|]. exact (Hon1 Hon).
  - intros Hon. exists ls, ls', h4, h5.
    split; [reflexivity|]. split; [reflexivity|]. exact (Hon5 Hon).
Qed.

Lemma fresh_app_wf : app_wf fresh_app.
Proof.
  unfold app_wf, fresh_app. simpl.
  split; [eexists; split; [reflexivity | now split]|].
  split; [eexists; split; [reflexivity | split; simpl; [lia | reflexivity]]|].
  split; [eexists; split; [reflexivity | now split]|].
  split; [eexists; split; [reflexivity | now repeat split]|].
  split; [eexists; split; [reflexivity | now repeat split]|].
  eexists; split; [reflexivity | split; simpl; [lia | reflexivity]].
Qed.

(** X24.  On a component whose six layers exist, a note-on handler that
    captured mode [m] records the note in [activeNoteColors] (with the
    clock reading, the velocity and the colour) and a note-off handler
    removes it; either changes no layer other than the one of [m], no
    visibility flag and not [lastTime], whatever layer is on screen. *)
Theorem note_events_confined_to_mode_layer (setHSL : R -> R -> R -> Color.t)
    (m : App.VisualizerMode) (a : App.t) (note vel : Z) (heldMs : R) (color : Color.t)
    (h : Host) :
  app_wf a ->
  (exists a' h',
     App.onNoteOn setHSL m a note vel color h = Some (a', h')
     /\ App.activeNoteColors a' !! note
        = Some (NoteInfo.mk (now_src h (now_pos h)) vel true color)
     /\ (forall n, n <> note -> App.activeNoteColors a' !! n = App.activeNoteColors a !! n)
     /\ App.visible a' = App.visible a /\ App.lastTime a' = App.lastTime a
     /\ forall m', m' <> m -> same_layer m' a a')
  /\ (exists a' h',
     App.onNoteOff m a note vel heldMs color h = Some (a', h')
     /\ App.activeNoteColors a' !! note = None
     /\ (forall n, n <> note -> App.activeNoteColors a' !! n = App.activeNoteColors a !! n)
     /\ App.visible a' = App.visible a /\ App.lastTime a' = App.lastTime a
     /\ forall m', m' <> m -> same_layer m' a a').
Proof.
  intros Hwf. split.
  - destruct (App_onNoteOn_spec setHSL m a note vel color h Hwf)
      as (a' & h' & E & _ & Hn & Hv & Ht & Hl).
    exists a', h'. split; [exact E|]. rewrite Hn.
    split; [apply lookup_insert_eq|].
    split; [intros n Hne; now apply lookup_insert_ne|]. now repeat split.
  - destruct (App_onNoteOff_spec m a note vel heldMs color h Hwf)
      as (a' & h' & E & _ & Hn & Hv & Ht & Hl).
    exists a', h'. split; [exact E|]. rewrite Hn.
    split; [apply lookup_delete_eq|].
    split; [intros n Hne; now apply lookup_delete_ne|]. now repeat split.
Qed.

Lemma note_events_confined_to_mode_layer_witness :
  app_wf fresh_app
  /\ exists a' h',
       App.onNoteOn Color.mk App.water fresh_app 60 100 (Color.mk 1 0 0) host_half
         = Some (a', h')
       /\ App.bubblesLayer a' = App.bubblesLayer fresh_app
       /\ App.solarLayer a' = App.solarLayer fresh_app.
Proof.
  split; [exact fresh_app_wf|].
  destruct (note_events_confined_to_mode_layer Color.mk App.water fresh_app 60 100 0
              (Color.mk 1 0 0) host_half fresh_app_wf)
    as [(a' & h' & E & _ & _ & _ & _ & Hl) _].
  exists a', h'. split; [exact E|]. split.
  - apply (Hl App.bubbles). discriminate.
  - apply (Hl App.solar). discriminate.
Defined.

(** X25.  One animation frame at timestamp [time] on a component whose six
    layers exist: it runs to completion, stores [time] as [lastTime],
    and changes no layer that is not visible, no visibility flag and no
    note table.  The visible bubble layer is stepped with the time since
    the previous frame, [min((time - lastTime) / 1000, 0.05)], and the
    sway phase [time / 1000]; the visible solar layer is stepped with
    [min(time / 1000000, 0.05)], which does not depend on the previous
    frame: [animate] passes [time / 1000] as the [dtMs] argument of
    [updateSolar]. *)
Theorem frame_updates_visible_layers_only (a : App.t) (time : R) (h : Host) :
  app_wf a ->
  exists a' h',
    App.animate a time h = Some (a', h')
    /\ App.lastTime a' = time
    /\ App.visible a' = App.visible a
    /\ App.activeNoteColors a' = App.activeNoteColors a
    /\ (forall m, App.visible a m = false -> same_layer m a a')
    /\ (App.visible a App.bubbles = true ->
        exists lb lb',
          App.bubblesLayer a = Some lb /\ App.bubblesLayer a' = Some lb'
          /\ forall j b, Bubbles.bubbles lb !! j = Some b ->
               Bubbles.bubbles lb' !! j
               = Some (bubble_step (time / 1000)
                         (Rmin ((time - App.lastTime a) / 1000) 0.05) b))
    /\ (App.visible a App.solar = true ->
        exists ls ls',
          App.solarLayer a = Some ls /\ App.solarLayer a' = Some ls'
          /\ forall j f, Solar.flares ls !! j = Some f ->
               Solar.flares ls' !! j = Some (flare_step (Rmin (time / 1000000) 0.05) f)).
Proof.
  intros Hwf.
  destruct (App_animate_spec a time h Hwf)
    as (a' & h' & E & _ & Hn & Hv & Ht & Hhid & Hb & Hs).
  exists a', h'. split; [exact E|]. split; [exact Ht|]. split; [exact Hv|].
  split; [exact Hn|]. split; [exact Hhid|]. split.
  - intros Hon. destruct (Hb Hon) as (lb & lb' & hb & hb' & Elb & Elb' & Eu).
    exists lb, lb'. split; [exact Elb|]. split; [exact Elb'|].
    destruct Hwf as ((lb0 & Elb0 & Hlb0) & _).
    rewrite Elb in Elb0. injection Elb0 as <-.
    destruct (updateBubbles_spec (Bubbles.set_time lb (time / 1000))
                (time - App.lastTime a) hb Hlb0) as (l2 & E2 & _ & _ & Hslots).
    rewrite Eu in E2. injection E2 as <-.
    intros j b Hj. exact (proj1 (Hslots j b Hj)).
  - intros Hon. destruct (Hs Hon) as (ls & ls' & hs & hs' & Els & Els' & Eu).
    exists ls, ls'. split; [exact Els|]. split; [exact Els'|].
    destruct Hwf as (_ & _ & _ & _ & (ls0 & Els0 & Hls0) & _).
    rewrite Els in Els0. injection Els0 as <-.
    destruct (updateSolar_spec (with_time ls (time / 1000)) (time / 1000) hs Hls0)
      as (ws & hds & fs & us & ws' & uws & ucs & h2 & E2 & _ & Hfs & _ & _ & _ & _
          & Hfslots & _).
    rewrite Eu in E2. injection E2 as -> _.
    intros j f Hj.
    destruct Hls0 as (Hlf & Hluf & _).
    destruct (lookup_same_length (Solar.u_flares ls) (Solar.flares ls) j f) as [u0 Hu0];
      [congruence | exact Hj |].
    replace (time / 1000000) with (time / 1000 / 1000) by (field; lra).
    exact (proj1 (Hfslots j f u0 Hj Hu0)).
Qed.

Lemma frame_updates_visible_layers_only_witness :
  app_wf (App.showMode fresh_app App.solar)
  /\ exists a' h',
       App.animate (App.showMode fresh_app App.solar) 16 host_half = Some (a', h')
       /\ App.bubblesLayer a' = Some Bubbles.createBubblesLayer.
Proof.
  assert (app_wf (App.showMode fresh_app App.solar)) as Hwf by exact fresh_app_wf.
  split; [exact Hwf|].
  destruct (frame_updates_visible_layers_only (App.showMode fresh_app App.solar) 16
              host_half Hwf) as (a' & h' & E & _ & _ & _ & Hhid & _).
  exists a', h'. split; [exact E|].
  exact (Hhid App.bubbles eq_refl).
Defined.

Lemma forward_fields {St : Type} fwd out (s : Midi.State St) msg :
  Midi.notesRef (Midi.forward fwd out s msg) = Midi.notesRef s
  /\ Midi.app (Midi.forward fwd out s msg) = Midi.app s.
Proof. unfold Midi.forward. destruct (fwd && out); now split. Qed.

Lemma step_inv setHSL s e h :
  app_wf (Midi.app s) /\ tables_agree s
    /\ times_read (Midi.notesRef s) h
    /\ times_read (App.activeNoteColors (Midi.app s)) h ->
  exists s' h', step setHSL s e h = Some (s', h')
                /\ app_wf (Midi.app s') /\ tables_agree s'
                /\ times_read (Midi.notesRef s') h'
                /\ times_read (App.activeNoteColors (Midi.app s')) h'.
Proof.
  intros (Hwf & Hag & Htn & Hta).
  destruct e as [m fwd out status d1 d2|time|m]; simpl.
  - unfold Midi.onMIDIMessage. case_decide as Hon; [|case_decide as Hoff].
    + rewrite (bind_now _ h).
      destruct (App_onNoteOn_spec setHSL m (Midi.app s) d1 d2
                  (setHSL (noteToHue d1 / 360) 1 0.6) (tick h) Hwf)
        as (a' & h' & E & Hwf' & Hn & _).
      pose proof (advances_App_onNoteOn _ _ _ _ _ _ _ _ _ E) as Hle.
      assert (host_le h (tick h)) as Hle0 by (repeat split; simpl; lia).
      assert (host_le (tick h) (tick (tick h))) as Hle1 by (repeat split; simpl; lia).
      assert (now_pos (tick h) <= now_pos h')%nat as Hpos by apply Hle.
      rewrite (bind_Some _ _ _ _ _ E).
      eexists _, _. split; [reflexivity|].
      unfold tables_agree.
      destruct (forward_fields fwd out
                  (Midi.mk (<[d1 := NoteInfo.mk (now_src h (now_pos h)) d2 true
                                      (setHSL (noteToHue d1 / 360) 1 0.6)]>
                              (Midi.notesRef s)) (Midi.sent s) a') [0x90%Z; d1; d2])
        as [-> ->].
      split; [exact Hwf'|]. split; [|split].
      * intros n. simpl. rewrite Hn.
        destruct (decide (n = d1)) as [->|Hne].
        -- rewrite !lookup_insert_eq. now split.
        -- rewrite !lookup_insert_ne by congruence. apply Hag.
      * simpl. apply times_read_insert;
          [exact Htn | exact (host_le_trans _ _ _ Hle0 Hle) | simpl in Hpos; lia].
      * simpl. rewrite Hn.
        apply (times_read_insert _ (tick h)); [|exact Hle | exact Hpos].
        exact (times_read_mono _ _ _ Hta Hle0).
    + destruct (Midi.notesRef s !! d1) as [info|] eqn:Ei.
      * destruct (App_onNoteOff_spec m (Midi.app s) d1 d2
                    (now_src h (now_pos h) - NoteInfo.onTime info) (NoteInfo.color info)
                    (tick h) Hwf)
          as (a' & h' & E & Hwf' & Hn & _).
        pose proof (advances_App_onNoteOff _ _ _ _ _ _ _ _ _ E) as Hle.
        assert (host_le h (tick h)) as Hle0 by (repeat split; simpl; lia).
        pose proof (host_le_trans _ _ _ Hle0 Hle) as Hle2.
        unfold mbind, M_bind, performance_now. fold (tick h). rewrite E.
        eexists _, _. split; [reflexivity|].
        unfold tables_agree.
        destruct (forward_fields fwd out
                    (Midi.mk (delete d1 (Midi.notesRef s)) (Midi.sent s) a')
                    [0x80%Z; d1; d2]) as [-> ->].
        split; [exact Hwf'|]. split; [|split].
        -- intros n. simpl. rewrite Hn.
           destruct (decide (n = d1)) as [->|Hne].
           ++ now rewrite !lookup_delete_eq.
           ++ rewrite !lookup_delete_ne by congruence. apply Hag.
        -- simpl. apply times_read_delete. exact (times_read_mono _ _ _ Htn Hle2).
        -- simpl. rewrite Hn. apply times_read_delete. exact (times_read_mono _ _ _ Hta Hle2).
      * eexists _, _. split; [reflexivity|].
        unfold tables_agree.
        destruct (forward_fields fwd out s [0x80%Z; d1; d2]) as [-> ->].
        exact (conj Hwf (conj Hag (conj Htn Hta))).
    + eexists _, _. split; [reflexivity|]. exact (conj Hwf (conj Hag (conj Htn Hta))).
  - destruct (App_animate_spec (Midi.app s) time h Hwf)
      as (a' & h' & E & Hwf' & Hn & _).
    pose proof (advances_App_animate _ _ _ _ _ E) as Hle.
    rewrite (bind_Some _ _ _ _ _ E).
    eexists _, _. split; [reflexivity|]. split; [exact Hwf'|]. split; [|split].
    + intros n. simpl. rewrite Hn. apply Hag.
    + exact (times_read_mono _ _ _ Htn Hle).
    + simpl. rewrite Hn. exact (times_read_mono _ _ _ Hta Hle).
  - eexists _, _. split; [reflexivity|]. exact (conj Hwf (conj Hag (conj Htn Hta))).
Qed.

Lemma session_inv setHSL h es :
  exists s h',
    (s0 ← mounted; run (step setHSL) es s0) h = Some (s, h')
    /\ host_le h h'
    /\ app_wf (Midi.app s) /\ tables_agree s
    /\ times_read (Midi.notesRef s) h'
    /\ times_read (App.activeNoteColors (Midi.app s)) h'.
Proof.
  set (s0 := Midi.mk ∅ []
                (App.mk (Some Bubbles.createBubblesLayer) (Some Waves.createWavesLayer)
                   (Some Plasma.createPlasmaLayer) (Some Trees.createTreesLayer)
                   (Some (Solar.initial (now_src h (now_pos h))))
                   (Some Water.createWaterLayer) (fun _ => true) ∅
                   (now_src h (S (now_pos h))))).
  assert (mounted h = Some (s0, tick (tick h))) as E0 by reflexivity.
  rewrite (bind_Some _ _ _ _ _ E0).
  destruct (run_inv_host (step setHSL)
              (fun s h1 => app_wf (Midi.app s) /\ tables_agree s
                           /\ times_read (Midi.notesRef s) h1
                           /\ times_read (App.activeNoteColors (Midi.app s)) h1)
              (fun s e h1 Hs => step_inv setHSL s e h1 Hs)
              es s0 (tick (tick h))) as (s & h' & E & Hwf & Hag & Htn & Hta).
  - split; [|split; [intros n; simpl; now rewrite !lookup_empty|]].
    + unfold app_wf. simpl.
      split; [eexists; split; [reflexivity | now split]|].
      split; [eexists; split; [reflexivity | split; simpl; [lia | reflexivity]]|].
      split; [eexists; split; [reflexivity | now split]|].
      split; [eexists; split; [reflexivity | now repeat split]|].
      split; [eexists; split; [reflexivity | now repeat split]|].
      eexists; split; [reflexivity | split; simpl; [lia | reflexivity]].
    + split; intros n info Hi; simpl in Hi; rewrite lookup_empty in Hi; discriminate.
  - exists s, h'. split; [exact E|].
    split; [|exact (conj Hwf (conj Hag (conj Htn Hta)))].
    pose proof (advances_run (step setHSL) es (advances_session_step setHSL) s0 _ _ _ E)
      as Hle.
    apply (host_le_trans _ (tick (tick h))); [repeat split; simpl; lia | exact Hle].
Qed.

(** X27.  The note handlers and the layer updates of a session never
    throw, and the two note tables stay in step.  From the mounted
    component, any sequence of MIDI messages (whatever mode and
    forwarding setting their handler captured), animation frames and
    mode changes runs to completion; all six layers keep their fixed
    array lengths; and [notesRef] of the hook and [activeNoteColors] of
    the component hold the same notes with the same velocity and
    colour. *)
Theorem session_runs_and_tables_agree (setHSL : R -> R -> R -> Color.t) (h : Host)
    (es : list Event) :
  exists s h',
    (s0 ← mounted; run (step setHSL) es s0) h = Some (s, h')
    /\ app_wf (Midi.app s)
    /\ tables_agree s
    /\ (forall n, is_Some (Midi.notesRef s !! n)
                  <-> is_Some (App.activeNoteColors (Midi.app s) !! n)).
Proof.
  destruct (session_inv setHSL h es) as (s & h' & E & _ & Hwf & Hag & _).
  exists s, h'. split; [exact E|]. split; [exact Hwf|]. split; [exact Hag|].
  intros n. specialize (Hag n).
  destruct (Midi.notesRef s !! n), (App.activeNoteColors (Midi.app s) !! n);
    try contradiction; split; intros [x Hx]; try discriminate; eauto.
Qed.

(** ** Further properties: plasma *)

Lemma plasma_step_bounded ds r p :
  0 <= ds -> plasma_bounded p -> plasma_bounded (plasma_step ds r p).
Proof.
  intros Hds Hb. unfold plasma_step.
  destruct (Plasma.active p) eqn:Ea; simpl; [|exact Hb].
  destruct (Hb Ea) as (Hz & Hw & Hl).
  case_decide as Hd; [intros Hf; discriminate Hf|]. intros _. simpl.
  split; [exact Hz|]. split; [|lra]. split; [nra | lra].
Qed.

Lemma plasma_record_bounded ds r p u :
  0 <= ds -> plasma_bounded p -> plasma_record_ok (plasma_record ds r p u).
Proof.
  intros Hds Hb. unfold plasma_record.
  destruct (Plasma.active p) eqn:Ea; [|now left].
  pose proof (plasma_step_bounded ds r p Hds Hb) as Hb'.
  destruct (Plasma.active (plasma_step ds r p)) eqn:Ea'.
  - right. destruct (Hb' Ea') as (Hz & Hw & _). now split.
  - left. revert Ea'. unfold plasma_step. rewrite Ea. simpl.
    case_decide; simpl; [reflexivity | discriminate].
Qed.

Lemma new_hotspot_bounded xNorm vel h :
  unit_random h -> 0 <= vel <= 127 -> plasma_bounded (new_hotspot xNorm vel h).
Proof.
  intros Hr Hv _. unfold new_hotspot, draw. simpl.
  pose proof (Hr (random_pos h)) as H0. repeat split; lra.
Qed.

Lemma new_spark_bounded xNorm vel h :
  unit_random h -> 0 <= vel <= 127 -> plasma_bounded (new_spark xNorm vel h).
Proof.
  intros Hr Hv _. unfold new_spark, draw. simpl.
  pose proof (Hr (random_pos h)) as H0. repeat split; lra.
Qed.

(** A loop of spawn attempts that write bounded particles keeps the
    pool bounded. *)
Lemma spawn_loop_bounded (spawn : Plasma.PlasmaLayer -> M Plasma.PlasmaLayer)
    (new : Host -> Plasma.PlasmaParticleData) n layer h :
  (forall l h1,
     spawn l h1 =
       match find_index (fun p => negb (Plasma.active p)) (Plasma.particles l) with
       | None => Some (l, h1)
       | Some i => Some (Plasma.set_particles l (<[i := new h1]> (Plasma.particles l)),
                         skip_random 3 h1)
       end) ->
  (forall h1, unit_random h1 -> plasma_bounded (new h1)) ->
  unit_random h -> Forall plasma_bounded (Plasma.particles layer) ->
  exists ps h',
    for_range n (fun _ l => spawn l) layer h = Some (Plasma.set_particles layer ps, h')
    /\ length ps = length (Plasma.particles layer)
    /\ Forall plasma_bounded ps /\ unit_random h'.
Proof.
  intros Hspawn Hnew Hr Hb.
  destruct (for_range_inv
    (fun _ l h1 => unit_random h1
       /\ exists ps, l = Plasma.set_particles layer ps
            /\ length ps = length (Plasma.particles layer)
            /\ Forall plasma_bounded ps)
    (fun _ l => spawn l) n layer h) as (l' & h' & E & Hr' & ps & -> & Hlen & Hb').
  - split; [exact Hr|]. exists (Plasma.particles layer).
    split; [now destruct layer|]. now split.
  - intros j l1 h1 _ (Hr1 & ps & -> & Hlen & Hb1).
    rewrite Hspawn. simpl.
    destruct (find_index _ ps) as [i|].
    + eexists _, _. split; [reflexivity|]. split; [exact Hr1|].
      eexists. split; [reflexivity|]. split; [now rewrite length_insert|].
      apply Forall_insert; [exact Hb1 | now apply Hnew].
    + eexists _, _. split; [reflexivity|]. split; [exact Hr1|].
      exists ps. split; [reflexivity|]. split; [exact Hlen | exact Hb1].
  - exists ps, h'. split; [exact E|]. split; [exact Hlen|]. split; [exact Hb' | exact Hr'].
Qed.

Lemma Plasma_call_bounded l c h :
  plasma_call_ok c ->
  Plasma.wf l /\ unit_random h /\ Forall plasma_bounded (Plasma.particles l)
    /\ Forall plasma_record_ok (Plasma.u_particles l) ->
  exists l' h', Plasma.call l c h = Some (l', h')
    /\ Plasma.wf l' /\ unit_random h' /\ Forall plasma_bounded (Plasma.particles l')
    /\ Forall plasma_record_ok (Plasma.u_particles l').
Proof.
  intros Hc ([Hlp Hlu] & Hr & Hb & Hu).
  destruct c as [xNorm vel|xNorm vel heldMs|dt]; simpl in *.
  - unfold Plasma.onPlasmaNoteOn.
    destruct (spawn_loop_bounded (fun l0 => Plasma.addHotspot l0 xNorm vel)
                (new_hotspot xNorm vel) (Z.to_nat (Plasma.noteOn_count vel)) l h
                (fun l0 h1 => addHotspot_spec l0 xNorm vel h1)
                (fun h1 Hr1 => new_hotspot_bounded xNorm vel h1 Hr1 Hc) Hr Hb)
      as (ps & h' & E & Hlen & Hb' & Hr').
    eexists _, _. split; [exact E|].
    split; [split; simpl; congruence|]. split; [exact Hr'|]. split; [exact Hb' | exact Hu].
  - unfold Plasma.onPlasmaNoteOff.
    pose proof (flareVel_bounds vel heldMs (proj1 Hc) (proj2 Hc)) as Hf.
    assert (0 <= Plasma.flareVel vel heldMs <= 127) as Hf2 by lra.
    destruct (spawn_loop_bounded
                (fun l0 => Plasma.addSpark l0 xNorm (Plasma.flareVel vel heldMs))
                (new_spark xNorm (Plasma.flareVel vel heldMs))
                (Z.to_nat (Plasma.noteOff_count vel heldMs)) l h
                (fun l0 h1 => addSpark_spec l0 xNorm _ h1)
                (fun h1 Hr1 => new_spark_bounded xNorm _ h1 Hr1 Hf2) Hr Hb)
      as (ps & h' & E & Hlen & Hb' & Hr').
    eexists _, _. split; [exact E|].
    split; [split; simpl; congruence|]. split; [exact Hr'|]. split; [exact Hb' | exact Hu].
  - destruct (updatePlasma_spec l dt h (conj Hlp Hlu)) as (l' & E & [Hlp' Hlu'] & _ & Hslots).
    eexists _, _. split; [exact E|]. split; [now split|]. split; [exact Hr|].
    assert (0 <= Rmin (dt / 1000) 0.05) as Hds by (apply Rmin_glb; lra).
    assert (forall j p', Plasma.particles l' !! j = Some p' ->
              exists p u, Plasma.particles l !! j = Some p
                /\ plasma_bounded p
                /\ p' = plasma_step (Rmin (dt / 1000) 0.05)
                          (plasma_draw (tick h) (Plasma.particles l) j) p
                /\ Plasma.u_particles l' !! j
                   = Some (plasma_record (Rmin (dt / 1000) 0.05)
                             (plasma_draw (tick h) (Plasma.particles l) j) p u)) as Hstep.
    { intros j p' Hj.
      destruct (lookup_same_length (Plasma.particles l) (Plasma.particles l') j p')
        as [p Hp]; [congruence | exact Hj |].
      destruct (lookup_same_length (Plasma.u_particles l) (Plasma.particles l) j p)
        as [u Hu0]; [congruence | exact Hp |].
      destruct (Hslots j p u Hp Hu0) as [Hp' Hu']. rewrite Hj in Hp'. injection Hp' as ->.
      exists p, u. split; [exact Hp|]. split; [|split; [reflexivity | exact Hu']].
      rewrite Forall_forall in Hb. apply Hb. eapply list_elem_of_lookup_2. exact Hp. }
    split.
    + apply Forall_lookup. intros j p' Hj.
      destruct (Hstep j p' Hj) as (p & u & _ & Hbp & -> & _).
      now apply plasma_step_bounded.
    + apply Forall_lookup. intros j u' Hj.
      destruct (lookup_same_length (Plasma.particles l') (Plasma.u_particles l') j u')
        as [p' Hp']; [congruence | exact Hj |].
      destruct (Hstep j p' Hp') as (p & u & _ & Hbp & _ & Hu').
      rewrite Hj in Hu'. injection Hu' as ->.
      now apply plasma_record_bounded.
Qed.

(** X13.  When [Math.random()] answers in [[0, 1)], velocities lie in
    [[0, 127]] and held times and frame times are not negative, every
    state the plasma layer reaches keeps each live particle at a size in
    [[0.05, 0.2]] and an age ratio in [[0, 1]]; and every record of
    [u_particles] either has size 0, which the shader skips, or carries
    such a size and age ratio, so the fade factor
    [1 - pow(ageRatio, 3)] of the shader is never negative. *)
Theorem plasma_records_within_life (h : Host) (cs : list Plasma.Call) :
  unit_random h -> Forall plasma_call_ok cs ->
  exists l h',
    run Plasma.call cs Plasma.createPlasmaLayer h = Some (l, h')
    /\ (forall j p, Plasma.particles l !! j = Some p -> Plasma.active p = true ->
          0.05 <= Vector4.z (Plasma.data p) <= 0.2
          /\ 0 <= Vector4.w (Plasma.data p) <= 1)
    /\ (forall j u, Plasma.u_particles l !! j = Some u ->
          Vector4.z u = 0
          \/ (0.05 <= Vector4.z u <= 0.2 /\ 0 <= Vector4.w u <= 1)).
Proof.
  intros Hr Hcs.
  destruct (run_inv_host_pre Plasma.call plasma_call_ok
              (fun l h1 => Plasma.wf l /\ unit_random h1
                 /\ Forall plasma_bounded (Plasma.particles l)
                 /\ Forall plasma_record_ok (Plasma.u_particles l))
              Plasma_call_bounded cs Plasma.createPlasmaLayer h Hcs)
    as (l & h' & E & _ & _ & Hb & Hu).
  - split; [now split|]. split; [exact Hr|]. split.
    + apply Forall_replicate. intros Hf. discriminate Hf.
    + apply Forall_replicate. now left.
  - exists l, h'. split; [exact E|]. split.
    + intros j p Hj Ha.
      destruct (proj1 (Forall_lookup _ _) Hb j p Hj Ha) as (Hz & Hw & _). now split.
    + intros j u Hj. exact (proj1 (Forall_lookup _ _) Hu j u Hj).
Qed.

Lemma plasma_records_within_life_witness :
  unit_random host_half
  /\ Forall plasma_call_ok [Plasma.NoteOn 0.5 100; Plasma.Update 16; Plasma.NoteOff 0.5 0 300]
  /\ exists l h',
       run Plasma.call [Plasma.NoteOn 0.5 100; Plasma.Update 16; Plasma.NoteOff 0.5 0 300]
         Plasma.createPlasmaLayer host_half = Some (l, h').
Proof.
  assert (unit_random host_half) as Hr by (intros i; simpl; lra).
  assert (Forall plasma_call_ok
            [Plasma.NoteOn 0.5 100; Plasma.Update 16; Plasma.NoteOff 0.5 0 300]) as Hcs.
  { apply Forall_cons_2; [simpl; lra|]. apply Forall_cons_2; [simpl; lra|].
    apply Forall_cons_2; [simpl; lra | apply Forall_nil_2]. }
  split; [exact Hr|]. split; [exact Hcs|].
  destruct (plasma_records_within_life host_half _ Hr Hcs) as (l & h' & E & _).
  now exists l, h'.
Defined.

Lemma mode_eqb_eq m m' : App.mode_eqb m m' = true <-> m' = m.
Proof. destruct m, m'; simpl; split; intros H; try reflexivity; discriminate H. Qed.

(** X26.  After the effect on [mode] has run on a component whose six layers
    exist, the layer of that mode is the only visible one, and the next
    animation frame changes no other layer. *)
Theorem mode_shows_one_layer (a : App.t) (m : App.VisualizerMode) (time : R) (h : Host) :
  app_wf a ->
  (forall m', App.visible (App.showMode a m) m' = true <-> m' = m)
  /\ exists a' h',
       App.animate (App.showMode a m) time h = Some (a', h')
       /\ forall m', m' <> m -> same_layer m' a a'.
Proof.
  intros Hwf.
  assert (forall m', App.visible (App.showMode a m) m' = App.mode_eqb m m') as Hvis.
  { destruct Hwf as ((lb & Eb & _) & (lw & Ew & _) & (lp & Ep & _) & (lt & Et & _)
                     & (ls & Es & _) & (la & Ea & _)).
    intros m'. unfold App.showMode, App.present. simpl.
    destruct m'; rewrite ?Eb, ?Ew, ?Ep, ?Et, ?Es, ?Ea;
      now rewrite bool_decide_true by (now eexists). }
  split.
  - intros m'. rewrite Hvis. apply mode_eqb_eq.
  - destruct (App_animate_spec (App.showMode a m) time h Hwf)
      as (a' & h' & E & _ & _ & _ & _ & Hhid & _).
    exists a', h'. split; [exact E|]. intros m' Hne.
    assert (App.visible (App.showMode a m) m' = false) as Hoff.
    { rewrite Hvis. destruct (App.mode_eqb m m') eqn:Eq; [|reflexivity].
      apply mode_eqb_eq in Eq. contradiction. }
    specialize (Hhid m' Hoff). destruct m'; exact Hhid.
Qed.

Lemma mode_shows_one_layer_witness :
  app_wf fresh_app
  /\ App.visible (App.showMode fresh_app App.plasma) App.plasma = true
  /\ App.visible (App.showMode fresh_app App.plasma) App.water = false.
Proof.
  split; [exact fresh_app_wf|].
  destruct (mode_shows_one_layer fresh_app App.plasma 16 host_half fresh_app_wf)
    as [Hvis _].
  split; [now apply Hvis|].
  destruct (App.visible (App.showMode fresh_app App.plasma) App.water) eqn:E;
    [|reflexivity].
  apply Hvis in E. discriminate E.
Defined.

(** X28.  If [performance.now()] never goes back, then at every point of
    a session the [onTime] of each entry of [notesRef] and of
    [activeNoteColors] is at most the next clock reading: the held
    duration [performance.now() - info.onTime] that a note-off computes,
    and the hold time the gradient computes for a sounding note, are
    never negative. *)
Theorem held_durations_never_negative (setHSL : R -> R -> R -> Color.t) (h : Host)
    (es : list Event) :
  monotone_clock h ->
  exists s h',
    (s0 ← mounted; run (step setHSL) es s0) h = Some (s, h')
    /\ (forall n info, Midi.notesRef s !! n = Some info ->
          0 <= now_src h' (now_pos h') - NoteInfo.onTime info)
    /\ (forall n info, App.activeNoteColors (Midi.app s) !! n = Some info ->
          0 <= now_src h' (now_pos h') - NoteInfo.onTime info).
Proof.
  intros Hm.
  destruct (session_inv setHSL h es) as (s & h' & E & (_ & Hsrc & _) & _ & _ & Htn & Hta).
  exists s, h'. split; [exact E|].
  split; intros n info Hi.
  - destruct (Htn n info Hi) as (k & Hk & ->). rewrite Hsrc.
    pose proof (Hm k (now_pos h') Hk). lra.
  - destruct (Hta n info Hi) as (k & Hk & ->). rewrite Hsrc.
    pose proof (Hm k (now_pos h') Hk). lra.
Qed.

Lemma held_durations_never_negative_witness :
  monotone_clock host_half
  /\ exists s h',
       (s0 ← mounted;
        run (step Color.mk) [Message App.water false false 0x90 60 100; Frame 16] s0) host_half
         = Some (s, h')
       /\ forall n info, Midi.notesRef s !! n = Some info ->
            0 <= now_src h' (now_pos h') - NoteInfo.onTime info.
Proof.
  assert (monotone_clock host_half) as Hm by (intros i j _; simpl; lra).
  split; [exact Hm|].
  destruct (held_durations_never_negative Color.mk host_half
              [Message App.water false false 0x90 60 100; Frame 16] Hm)
    as (s & h' & E & Hn & _).
  exists s, h'. split; [exact E | exact Hn].
Defined.

(** ** Further properties: trees *)

Lemma onTreeNoteOn_insert layer note vel color h :
  Trees.wf layer ->
  exists i,
    Trees.onTreeNoteOn layer note vel color h
    = Some (Trees.mkLayer (Trees.u_time layer) (Trees.u_seeds layer)
              (Trees.u_seed_colors layer)
              (<[i := Trees.mkSeed
                        (Vector4.mk (IZR note / 127) (draw h 0) (Trees.u_time layer)
                           (0.1 + vel / 127 * 0.3))
                        (Vector4.mk (Color.r color) (Color.g color) (Color.b color) 1)
                        true]> (Trees.seeds layer)),
            skip_random 1 h).
Proof.
  intros (Hs & _). unfold Trees.onTreeNoteOn.
  set (slot := match find_index _ _ with Some i => i | None => 0%nat end).
  assert (slot < length (Trees.seeds layer))%nat as Hslot.
  { unfold slot. destruct (find_index _ _) as [i|] eqn:E.
    - eapply find_index_lt. exact E.
    - rewrite Hs. unfold Trees.MAX_SEEDS. lia. }
  destruct (index_lt _ _ h Hslot) as (s & _ & Hi).
  rewrite (bind_Some _ _ _ _ _ Hi). exists slot. reflexivity.
Qed.

Lemma tree_step_bounded now ds s :
  0 <= ds -> seed_bounded s -> seed_bounded (tree_step now ds s).
Proof.
  intros Hds Hb. unfold tree_step.
  destruct (Trees.active s) eqn:Ea; [|exact Hb].
  destruct (Hb Ea) as (Hx & Hy & Hw & Hc).
  case_decide as Hd; [intros Hf; discriminate Hf|]. intros _. simpl.
  split; [exact Hx|]. split; [exact Hy|]. split; [exact Hw|].
  split; [apply Rmax_l | apply Rmax_lub; lra].
Qed.

Lemma Trees_call_bounded l c h :
  tree_call_ok c ->
  Trees.wf l /\ unit_random h /\ Forall seed_bounded (Trees.seeds l) ->
  exists l' h', Trees.call l c h = Some (l', h')
    /\ Trees.wf l' /\ unit_random h' /\ Forall seed_bounded (Trees.seeds l').
Proof.
  intros Hc (Hwf & Hr & Hb).
  destruct c as [note vel color|note vel heldMs|dt]; simpl in *.
  - destruct (onTreeNoteOn_insert l note vel color h Hwf) as (i & E).
    eexists _, _. split; [exact E|].
    destruct Hwf as (Hs & Hu & Hcs).
    split; [repeat split; simpl; [now rewrite length_insert | exact Hu | exact Hcs]|].
    split; [exact Hr|]. simpl.
    apply Forall_insert; [exact Hb|]. intros _. simpl.
    destruct Hc as [[Hn0 Hn1] Hv]. apply IZR_le in Hn0, Hn1.
    pose proof (Hr (random_pos h)) as Hd. unfold draw. simpl.
    repeat split; lra.
  - eexists _, _. split; [reflexivity|]. exact (conj Hwf (conj Hr Hb)).
  - destruct (updateTrees_spec l dt h Hwf) as (l' & E & Hwf' & _ & Hslots).
    eexists _, _. split; [exact E|]. split; [exact Hwf'|]. split; [exact Hr|].
    assert (0 <= Rmin (dt / 1000) 0.05) as Hds by (apply Rmin_glb; lra).
    apply Forall_lookup. intros j s' Hj.
    destruct Hwf as (Hs & _), Hwf' as (Hs' & _).
    destruct (lookup_same_length (Trees.seeds l) (Trees.seeds l') j s') as [s0 Hs0];
      [congruence | exact Hj |].
    destruct (Hslots j s0 Hs0) as (Hs1 & _). rewrite Hj in Hs1. injection Hs1 as ->.
    apply tree_step_bounded; [exact Hds|].
    rewrite Forall_forall in Hb. apply Hb. eapply list_elem_of_lookup_2. exact Hs0.
Qed.

(** X29.  When [Math.random()] answers in [[0, 1)], notes and velocities
    lie in [[0, 127]] and frame times are not negative, every state the
    tree layer reaches keeps each live seed at a position in the unit
    square ([x = note / 127] in [[0, 1]], [y] in [[0, 1)]), a growth
    speed in [[0.1, 0.4]] and a flash intensity in [[0, 1]]. *)
Theorem trees_reachable_bounds (h : Host) (cs : list Trees.Call) :
  unit_random h -> Forall tree_call_ok cs ->
  exists l h',
    run Trees.call cs Trees.createTreesLayer h = Some (l, h')
    /\ forall j s, Trees.seeds l !! j = Some s -> Trees.active s = true ->
         0 <= Vector4.x (Trees.data s) <= 1
         /\ 0 <= Vector4.y (Trees.data s) < 1
         /\ 0.1 <= Vector4.w (Trees.data s) <= 0.4
         /\ 0 <= Vector4.w (Trees.colorData s) <= 1.
Proof.
  intros Hr Hcs.
  destruct (run_inv_host_pre Trees.call tree_call_ok
              (fun l h1 => Trees.wf l /\ unit_random h1
                           /\ Forall seed_bounded (Trees.seeds l))
              Trees_call_bounded cs Trees.createTreesLayer h Hcs)
    as (l & h' & E & _ & _ & Hb).
  - split; [now repeat split|]. split; [exact Hr|].
    apply Forall_replicate. intros Hf. discriminate Hf.
  - exists l, h'. split; [exact E|].
    intros j s Hj. exact (proj1 (Forall_lookup _ _) Hb j s Hj).
Qed.

Lemma trees_reachable_bounds_witness :
  unit_random host_half
  /\ Forall tree_call_ok [Trees.NoteOn 60 100 (Color.mk 1 0 0); Trees.Update 16]
  /\ exists l h',
       run Trees.call [Trees.NoteOn 60 100 (Color.mk 1 0 0); Trees.Update 16]
         Trees.createTreesLayer host_half = Some (l, h').
Proof.
  assert (unit_random host_half) as Hr by (intros i; simpl; lra).
  assert (Forall tree_call_ok [Trees.NoteOn 60 100 (Color.mk 1 0 0); Trees.Update 16])
    as Hcs.
  { apply Forall_cons_2; [simpl; split; [lia | lra]|].
    apply Forall_cons_2; [simpl; lra | apply Forall_nil_2]. }
  split; [exact Hr|]. split; [exact Hcs|].
  destruct (trees_reachable_bounds host_half _ Hr Hcs) as (l & h' & E & _).
  exists l, h'. exact E.
Defined.
